(** * guessTheRank: the game session engine and the question supply of server.js

    A shallow embedding of [server.js] (the revision whose supply function is
    [selectQuestions], i.e. the one that asks for a whole round of questions at
    once) and the properties of the room state machine and of the question
    supply that are stated about it.  The supply functions of the earlier
    revision kept in the same file ([Legacy]) and the parts of the client
    [public/app.js] that build what is sent to the server ([Client]) are
    embedded as well.

    Conventions of the embedding.
    - A JavaScript object used as a dictionary is an insertion-ordered
      association list ([Obj.t]): [Object.keys] and [for .. in] enumerate the
      keys in insertion order.  [Obj.get] and [Obj.set] are the lookup and the
      assignment of own properties.  What the source does on the property
      names that every plain object inherits (["__proto__"], ["constructor"],
      ...) is in [Plain]; the properties that depend on the difference are
      stated for room identifiers and player names that are ordinary keys
      ([ordinaryKey], [ordinaryEvent]).  The rule that puts keys that look
      like array indices first is not modelled (the results below that depend
      on an enumeration are shown not to depend on its order).
    - Player names, room identifiers and questions are strings, a guess is an
      integer and a submitted ranking is a list of strings.  The range test
      of [submitGuess] on a number that is not an integer is [outOfRange].
    - A JavaScript [Set] of strings is an insertion-ordered list without
      repetition ([JsSet]).
    - Numbers that the program only uses as counters and scores are integers
      ([Z], or [nat] for lengths and cursors).
    - [null] and [undefined] are [None].
    - Every source of randomness ([Math.random]) and the answer of the remote
      text-generation service are inputs of the model, gathered in an [Oracle].
    - The result of [stringSimilarity.compareTwoStrings] (an npm package) is a
      parameter of the model, a rational-valued function.
    - Each socket event is handled atomically; what a handler emits is
      returned as a list of [Emit]s.  With [GROQ_API_KEY] set, [startGame] and
      [nextReveal] wait for the text-generation service and other events can
      be handled meanwhile: a run of the model is then an execution in which
      no event arrives during such a wait.  The properties of whole runs that
      depend on it are stated for a server without [GROQ_API_KEY]. *)

From Stdlib Require Import List String Ascii ZArith QArith Bool Arith Lia Permutation.
Import ListNotations.

Set Default Proof Using "Type".

Local Open Scope string_scope.
Local Open Scope list_scope.
Local Open Scope nat_scope.

(* ------------------------------------------------------------------------- *)
(** ** JavaScript containers *)

Module JsSet.

(** [s.has(x)] *)
Definition has (x : string) (s : list string) : bool :=
existsb (String.eqb x) s.

(** [s.add(x)]: a new element goes last in iteration order. *)
Definition add (x : string) (s : list string) : list string :=
if has x s then s else s ++ [x].

End JsSet.

Module Obj.

Definition t (V : Type) : Type := list (string * V).

Definition empty {V : Type} : t V := [].

(** [o[k]] for an own property [k] of [o]: [None] when [o] has no such
    property ([Plain.get] tells the names that [o] then inherits from the
    others). *)
Fixpoint get {V : Type} (k : string) (o : t V) : option V :=
match o with
| [] => None
| (k', v) :: o' => if String.eqb k' k then Some v else get k o'
end.

(** [o[k] = v]: an existing key keeps its place, a new key goes last.  (The
    one assignment that creates no property, to ["__proto__"], is in
    [Plain.set].) *)
Fixpoint set {V : Type} (k : string) (v : V) (o : t V) : t V :=
match o with
| [] => [(k, v)]
| (k', v') :: o' =>
    if String.eqb k' k then (k, v) :: o' else (k', v') :: set k v o'
end.

(** [delete o[k]] *)
Fixpoint delete {V : Type} (k : string) (o : t V) : t V :=
match o with
| [] => []
| (k', v') :: o' =>
    if String.eqb k' k then delete k o' else (k', v') :: delete k o'
end.

(** [Object.keys(o)] *)
Definition keys {V : Type} (o : t V) : list string := map fst o.

(** Objects built from [{}] by assignments and deletions have distinct keys. *)
Definition wf {V : Type} (o : t V) : Prop := NoDup (keys o).

End Obj.

(* ------------------------------------------------------------------------- *)
(** ** Arrays *)

(** [l.includes(x)] *)
Definition includes (x : string) (l : list string) : bool :=
existsb (String.eqb x) l.

(** [l.indexOf(x)], with [-1] when [x] does not occur. *)
Fixpoint indexOf (x : string) (l : list string) : Z :=
match l with
| [] => (-1)%Z
| y :: l' =>
    if String.eqb y x then 0%Z
    else let i := indexOf x l' in if (i <? 0)%Z then (-1)%Z else (i + 1)%Z
end.

(** [l.splice(index, 1)] at the index of the first occurrence of [x]. *)
Fixpoint removeFirst (x : string) (l : list string) : list string :=
match l with
| [] => []
| y :: l' => if String.eqb y x then l' else y :: removeFirst x l'
end.

(** [l.sort(() => Math.random() - 0.5)].  The comparator ignores its
    arguments, so all that is known of the outcome is that it is some
    rearrangement of [l]; the rearrangement is chosen by [seed]
    (see [shuffle_perm] and [shuffle_complete]). *)
Fixpoint insertAt {A : Type} (k : nat) (x : A) (l : list A) : list A :=
match k, l with
| S k', y :: l' => y :: insertAt k' x l'
| _, _ => x :: l
end.

Fixpoint shuffle {A : Type} (seed : list nat) (l : list A) : list A :=
match l with
| [] => []
| x :: l' =>
    match seed with
    | [] => x :: shuffle [] l'
    | k :: seed' => insertAt k x (shuffle seed' l')
    end
end.

(** [l.sort((a, b) => key(b) - key(a))]: a stable sort, largest key first. *)
Fixpoint insertDesc (key : string -> Z) (x : string) (l : list string) : list string :=
match l with
| [] => [x]
| y :: l' => if (key x <? key y)%Z then y :: insertDesc key x l' else x :: l
end.

Definition sortDesc (key : string -> Z) (l : list string) : list string :=
fold_right (insertDesc key) [] l.

(** [s.startsWith(p)] *)
Definition startsWith (p s : string) : bool := String.prefix p s.

(* ------------------------------------------------------------------------- *)
(** ** Rooms *)

(** [game.state].  The server writes five different strings into it:
    ['waiting'], ['ranking'], ['guessing'], ['reveal'] and, in the disconnect
    handler, ['joining']. *)
Inductive Phase : Type := Waiting | Ranking | Guessing | Reveal | Joining.

(** The object stored in [games[gameId]] (see [createGame]). *)
Record Game : Type := mkGame {
  players : list string;
  points : Obj.t Z;
  state : Phase;
  owner : string;
  usedQuestions : list string;
  questionAssignments : Obj.t string;
  rankings : Obj.t (list string);
  currentRanker : option string;
  currentTarget : option string;
  currentQuestion : option string;
  currentGuesses : Obj.t Z;
  actualPosition : option Z;
  currentFullRanking : option (list string);
  rankers : list string;
  currentRevealIndex : nat;
  noMoreQuestions : bool
}.

Definition set_players (v : list string) (g : Game) : Game :=
mkGame v (points g) (state g) (owner g) (usedQuestions g) (questionAssignments g)
  (rankings g) (currentRanker g) (currentTarget g) (currentQuestion g)
  (currentGuesses g) (actualPosition g) (currentFullRanking g) (rankers g)
  (currentRevealIndex g) (noMoreQuestions g).

Definition set_points (v : Obj.t Z) (g : Game) : Game :=
mkGame (players g) v (state g) (owner g) (usedQuestions g) (questionAssignments g)
  (rankings g) (currentRanker g) (currentTarget g) (currentQuestion g)
  (currentGuesses g) (actualPosition g) (currentFullRanking g) (rankers g)
  (currentRevealIndex g) (noMoreQuestions g).

Definition set_state (v : Phase) (g : Game) : Game :=
mkGame (players g) (points g) v (owner g) (usedQuestions g) (questionAssignments g)
  (rankings g) (currentRanker g) (currentTarget g) (currentQuestion g)
  (currentGuesses g) (actualPosition g) (currentFullRanking g) (rankers g)
  (currentRevealIndex g) (noMoreQuestions g).

Definition set_usedQuestions (v : list string) (g : Game) : Game :=
mkGame (players g) (points g) (state g) (owner g) v (questionAssignments g)
  (rankings g) (currentRanker g) (currentTarget g) (currentQuestion g)
  (currentGuesses g) (actualPosition g) (currentFullRanking g) (rankers g)
  (currentRevealIndex g) (noMoreQuestions g).

Definition set_questionAssignments (v : Obj.t string) (g : Game) : Game :=
mkGame (players g) (points g) (state g) (owner g) (usedQuestions g) v
  (rankings g) (currentRanker g) (currentTarget g) (currentQuestion g)
  (currentGuesses g) (actualPosition g) (currentFullRanking g) (rankers g)
  (currentRevealIndex g) (noMoreQuestions g).

Definition set_rankings (v : Obj.t (list string)) (g : Game) : Game :=
mkGame (players g) (points g) (state g) (owner g) (usedQuestions g) (questionAssignments g)
  v (currentRanker g) (currentTarget g) (currentQuestion g)
  (currentGuesses g) (actualPosition g) (currentFullRanking g) (rankers g)
  (currentRevealIndex g) (noMoreQuestions g).

Definition set_currentGuesses (v : Obj.t Z) (g : Game) : Game :=
mkGame (players g) (points g) (state g) (owner g) (usedQuestions g) (questionAssignments g)
  (rankings g) (currentRanker g) (currentTarget g) (currentQuestion g)
  v (actualPosition g) (currentFullRanking g) (rankers g)
  (currentRevealIndex g) (noMoreQuestions g).

Definition set_currentFullRanking (v : option (list string)) (g : Game) : Game :=
mkGame (players g) (points g) (state g) (owner g) (usedQuestions g) (questionAssignments g)
  (rankings g) (currentRanker g) (currentTarget g) (currentQuestion g)
  (currentGuesses g) (actualPosition g) v (rankers g)
  (currentRevealIndex g) (noMoreQuestions g).

Definition set_rankers (v : list string) (g : Game) : Game :=
mkGame (players g) (points g) (state g) (owner g) (usedQuestions g) (questionAssignments g)
  (rankings g) (currentRanker g) (currentTarget g) (currentQuestion g)
  (currentGuesses g) (actualPosition g) (currentFullRanking g) v
  (currentRevealIndex g) (noMoreQuestions g).

Definition set_currentRevealIndex (v : nat) (g : Game) : Game :=
mkGame (players g) (points g) (state g) (owner g) (usedQuestions g) (questionAssignments g)
  (rankings g) (currentRanker g) (currentTarget g) (currentQuestion g)
  (currentGuesses g) (actualPosition g) (currentFullRanking g) (rankers g)
  v (noMoreQuestions g).

Definition set_noMoreQuestions (v : bool) (g : Game) : Game :=
mkGame (players g) (points g) (state g) (owner g) (usedQuestions g) (questionAssignments g)
  (rankings g) (currentRanker g) (currentTarget g) (currentQuestion g)
  (currentGuesses g) (actualPosition g) (currentFullRanking g) (rankers g)
  (currentRevealIndex g) v.

(** The subject of a reveal: [currentRanker], [currentTarget],
    [currentQuestion] and [actualPosition] are always written together. *)
Definition set_reveal (ranker target question : option string) (position : option Z)
  (g : Game) : Game :=
mkGame (players g) (points g) (state g) (owner g) (usedQuestions g) (questionAssignments g)
  (rankings g) ranker target question
  (currentGuesses g) position (currentFullRanking g) (rankers g)
  (currentRevealIndex g) (noMoreQuestions g).

(** A property access [o[k]] whose key expression may be [undefined]:
    JavaScript turns the key into the property name ["undefined"]. *)
Definition keyOf (k : option string) : string :=
match k with
| Some s => s
| None => "undefined"
end.

(** [a === b] for a value that may be [undefined] against a string. *)
Definition isName (a : option string) (b : string) : bool :=
match a with
| Some s => String.eqb s b
| None => false
end.

(** [a === b] for two values that may be [undefined]. *)
Definition sameName (a b : option string) : bool :=
match a, b with
| Some s, Some s' => String.eqb s s'
| None, None => true
| _, _ => false
end.

(** [points[p] || 0] *)
Definition pointsOf (pts : Obj.t Z) (p : string) : Z :=
match Obj.get p pts with
| Some v => v
| None => 0%Z
end.

(* ------------------------------------------------------------------------- *)
(** ** What a handler emits *)

(** The properties a handler adds to the room when it builds a snapshot
    ([{ ...game, myQuestion: .. }]). *)
Inductive Extra : Type :=
| XGameId (gameId : string)
| XMyQuestion (q : option string)
| XHasSubmittedRanking (b : bool)
| XHasSubmittedGuess (b : bool).

Inductive Message : Type :=
| MError (text : string)
| MRankingSubmitted (b : bool)
| MGameState (snapshot : Game) (extras : list Extra).

(** [socket.emit] answers the connection whose event is being handled,
    [io.to(gameId).emit] goes to every connection of the room, and
    [playerSocket.emit] to the connection of one named player of the room
    (when there is one). *)
Inductive Dest : Type :=
| ToSocket
| ToRoom (gameId : string)
| ToPlayer (gameId player : string).

Definition Emit : Type := (Dest * Message)%type.

(* ------------------------------------------------------------------------- *)
(** ** Inputs that the program does not control *)

(** One request to the text-generation service: [exampleSeed] drives the
    shuffle of the few-shot examples, [response] is the [questions] array of
    the parsed answer, or [None] when the request fails, the answer is empty,
    is not JSON, or has no array of strings under [questions]. *)
Record Attempt : Type := mkAttempt {
  exampleSeed : list nat;
  response : option (list string)
}.

Record Oracle : Type := mkOracle {
  attempts : nat -> Attempt;      (* the service, by attempt number *)
  poolSeed : list nat;            (* shuffle in [selectFromQuestionPool] *)
  questionSeed : list nat;        (* shuffle of the questions in [assignQuestions] *)
  rankerSeed : list nat;          (* shuffle of the players in [assignQuestions] *)
  targetRoll : nat                (* [Math.random()] in [setNextReveal] *)
}.

(* ------------------------------------------------------------------------- *)
(** ** Question supply *)

(** The module-level variables [globalUsedQuestions], [questionCache] and
    [fallbackQuestions] (the last one is sorted in place when a prompt is
    built). *)
Record Supply : Type := mkSupply {
  globalUsedQuestions : list string;
  questionCache : list string;
  fallbackQuestions : list string
}.

Definition initialFallbackQuestions : list string :=
[ "Who is the most likely to become a famous inventor?";
  "Who is the most likely to forget their own birthday?";
  "Who is the most likely to win a marathon?";
  "Who is the most likely to trip over their own shoelaces?";
  "Who is the most likely to start a successful company?";
  "Who is the most likely to lose their keys in their own house?" ].

Definition initialSupply : Supply := mkSupply [] [] initialFallbackQuestions.

(** [selected.forEach(q => set.add(q))] *)
Definition addAll (selected : list string) (s : list string) : list string :=
fold_left (fun acc q => JsSet.add q acc) selected s.

(** The [while] loop over [questionCache] at the start of [selectQuestions].
    Returns the cache that is left, the two used-sets and [cachedQuestions]. *)
Fixpoint drainCache (numQuestions : nat) (cache used ledger cached : list string)
  : list string * list string * list string * list string :=
match cache with
| [] => (cache, used, ledger, cached)
| cachedQuestion :: cache' =>
    if List.length cached <? numQuestions then
      if negb (JsSet.has cachedQuestion used) && negb (JsSet.has cachedQuestion ledger)
      then drainCache numQuestions cache'
             (JsSet.add cachedQuestion used) (JsSet.add cachedQuestion ledger)
             (cached ++ [cachedQuestion])
      else drainCache numQuestions cache' used ledger cached
    else (cache, used, ledger, cached)
end.

(** The checks on the parsed answer that throw into the inner [catch]. *)
Definition wellFormedAnswer (questionsNeeded : nat) (questions : list string) : bool :=
negb (List.length questions <? questionsNeeded)
&& forallb (startsWith "Who is the most likely to") questions.

(** The process: the room registry [games] and the question supply. *)
Record Server : Type := mkServer {
  games : Obj.t Game;
  supply : Supply
}.

Definition initialServer : Server := mkServer Obj.empty initialSupply.

Section Engine.

(** The seed pool read from [questions.json] at start-up. *)
Variable questionPool : list string.

(** Whether [process.env.GROQ_API_KEY] is set. *)
Variable GROQ_API_KEY : bool.

(** [stringSimilarity.compareTwoStrings]. *)
Variable compareTwoStrings : string -> string -> Q.

(** [similarity > 0.7] *)
Definition tooSimilar (question existingKey : string) : bool :=
negb (Qle_bool (compareTwoStrings question existingKey) (7 # 10)).

(** The loop "Validate uniqueness and similarity" over the candidates of one
    answer.  Returns the two used-sets and [validQuestions]. *)
Fixpoint validateCandidates (newQuestions used ledger valid : list string)
  : list string * list string * list string :=
match newQuestions with
| [] => (used, ledger, valid)
| question :: rest =>
    if JsSet.has question used || JsSet.has question ledger
    then validateCandidates rest used ledger valid
    else if existsb (tooSimilar question) ledger
    then validateCandidates rest used ledger valid
    else validateCandidates rest
           (JsSet.add question used) (JsSet.add question ledger) (valid ++ [question])
end.

(** The retry loop [for (attempt = 1; attempt <= maxRetries; attempt++)];
    [fuel] counts the attempts that are left.  The first component is the
    value returned from inside the loop, or [None] when the loop ends. *)
Fixpoint generate (fuel attempt : nat) (o : Oracle)
  (numQuestions questionsNeeded : nat) (cachedQuestions used : list string) (s : Supply)
  : option (list string) * list string * Supply :=
match fuel with
| 0 => (None, used, s)
| S fuel' =>
    let a := attempts o attempt in
    let s1 := mkSupply (globalUsedQuestions s) (questionCache s)
                (shuffle (exampleSeed a) (fallbackQuestions s)) in
    match response a with
    | None =>
        generate fuel' (S attempt) o numQuestions questionsNeeded cachedQuestions used s1
    | Some newQuestions =>
        if negb (wellFormedAnswer questionsNeeded newQuestions)
        then generate fuel' (S attempt) o numQuestions questionsNeeded cachedQuestions used s1
        else
          let '(used', ledger', validQuestions) :=
            validateCandidates newQuestions used (globalUsedQuestions s1) [] in
          let cache' :=
            if questionsNeeded <? List.length validQuestions
            then questionCache s1 ++ skipn questionsNeeded validQuestions
            else questionCache s1 in
          let s2 := mkSupply ledger' cache' (fallbackQuestions s1) in
          let allQuestions := cachedQuestions ++ firstn questionsNeeded validQuestions in
          if negb (List.length allQuestions <? numQuestions)
          then (Some (firstn numQuestions allQuestions), used', s2)
          else generate fuel' (S attempt) o numQuestions questionsNeeded cachedQuestions
                 used' s2
    end
end.

(** [selectFromQuestionPool(gameId, game, numQuestions)] *)
Definition selectFromQuestionPool (seed : list nat) (gameId : string) (game : Game)
  (numQuestions : nat) (s : Supply) : list string * Game * Supply * list Emit :=
let used := usedQuestions game in
let unused q := negb (JsSet.has q used) && negb (JsSet.has q (globalUsedQuestions s)) in
let availableQuestions := filter unused questionPool in
if List.length availableQuestions <? numQuestions then
  let availableFallbacks := filter unused (fallbackQuestions s) in
  let combinedQuestions := availableQuestions ++ availableFallbacks in
  if List.length combinedQuestions <? numQuestions then
    ([], game, s, [(ToRoom gameId, MGameState (set_noMoreQuestions true game) [])])
  else
    let selectedQuestions := firstn numQuestions (shuffle seed combinedQuestions) in
    (selectedQuestions,
     set_usedQuestions (addAll selectedQuestions used) game,
     mkSupply (addAll selectedQuestions (globalUsedQuestions s))
       (questionCache s) (fallbackQuestions s),
     [])
else
  let selectedQuestions := firstn numQuestions (shuffle seed availableQuestions) in
  (selectedQuestions,
   set_usedQuestions (addAll selectedQuestions used) game,
   mkSupply (addAll selectedQuestions (globalUsedQuestions s))
     (questionCache s) (fallbackQuestions s),
   []).

(** [selectQuestions(gameId, numQuestions)], with [game = games[gameId]]
    resolved by the caller ([assignQuestions] dereferences the same entry
    before the call, so the "Game not found" guard never fires there). *)
Definition selectQuestions (o : Oracle) (gameId : string) (game : Game)
  (numQuestions : nat) (s : Supply) : list string * Game * Supply * list Emit :=
if negb GROQ_API_KEY then selectFromQuestionPool (poolSeed o) gameId game numQuestions s
else
  let '(cache1, used1, ledger1, cachedQuestions) :=
    drainCache numQuestions (questionCache s) (usedQuestions game)
      (globalUsedQuestions s) [] in
  let s1 := mkSupply ledger1 cache1 (fallbackQuestions s) in
  if negb (List.length cachedQuestions <? numQuestions)
  then (firstn numQuestions cachedQuestions, set_usedQuestions used1 game, s1, [])
  else
    let questionsNeeded := numQuestions - List.length cachedQuestions in
    match generate 10 1 o numQuestions questionsNeeded cachedQuestions used1 s1 with
    | (Some questions, used2, s2) => (questions, set_usedQuestions used2 game, s2, [])
    | (None, used2, s2) =>
        selectFromQuestionPool (poolSeed o) gameId (set_usedQuestions used2 game)
          numQuestions s2
    end.

(** [game.players.forEach((player, idx) => assignments[player] = questions[idx])] *)
Definition assignEach (ps questions : list string) : Obj.t string :=
fold_left (fun acc pq => Obj.set (fst pq) (snd pq) acc) (combine ps questions) Obj.empty.

(** [assignQuestions(gameId)] on the room [game = games[gameId]]. *)
Definition assignQuestions (o : Oracle) (gameId : string) (game : Game) (s : Supply)
  : bool * Game * Supply * list Emit :=
let numPlayers := List.length (players game) in
let '(questions, game1, s1, out) := selectQuestions o gameId game numPlayers s in
if List.length questions <? numPlayers then (false, game1, s1, out)
else
  let questions' := shuffle (questionSeed o) questions in
  let game2 :=
    set_currentRevealIndex 0
      (set_rankers (shuffle (rankerSeed o) (players game1))
         (set_rankings Obj.empty
            (set_questionAssignments (assignEach (players game1) questions') game1))) in
  (true, game2, s1, out).

(** The per-player emission loop that ends several handlers. *)
Definition emitToPlayers (gameId : string) (game : Game)
  (extras : string -> list Extra) : list Emit :=
map (fun player => (ToPlayer gameId player, MGameState game (extras player)))
  (players game).

(** [startNewRound(gameId)] *)
Definition startNewRound (o : Oracle) (gameId : string) (game : Game) (s : Supply)
  : Game * Supply * list Emit :=
let '(success, game1, s1, out) := assignQuestions o gameId game s in
if negb success then
  (game1, s1, out ++ [(ToRoom gameId, MGameState (set_noMoreQuestions true game1) [])])
else
  let game2 :=
    set_currentFullRanking None
      (set_currentGuesses Obj.empty
         (set_reveal None None None None
            (set_rankings Obj.empty (set_state Ranking game1)))) in
  (game2, s1,
   out ++ emitToPlayers gameId game2 (fun player =>
     [ XMyQuestion
         (Some match Obj.get player (questionAssignments game2) with
               | Some q => q
               | None => ""
               end);
       XHasSubmittedRanking false; XHasSubmittedGuess false ])).

(** [setNextReveal(gameId)].  [None] is the [TypeError] of
    [game.rankings[ranker].indexOf] when the ranker has no ranking. *)
Definition setNextReveal (o : Oracle) (gameId : string) (game : Game) (s : Supply)
  : option (Game * Supply * list Emit) :=
if List.length (players game) <=? currentRevealIndex game
then Some (startNewRound o gameId game s)
else
  let ranker := nth_error (rankers game) (currentRevealIndex game) in
  let target :=
    nth_error (players game) (targetRoll o mod List.length (players game)) in
  match Obj.get (keyOf ranker) (rankings game) with
  | None => None
  | Some ranking =>
      let position :=
        match target with
        | Some t => (indexOf t ranking + 1)%Z
        | None => 0%Z
        end in
      let game1 :=
        set_state Guessing
          (set_currentFullRanking None
             (set_currentGuesses Obj.empty
                (set_reveal ranker target
                   (Obj.get (keyOf ranker) (questionAssignments game))
                   (Some position) game))) in
      Some (game1, s,
            emitToPlayers gameId game1 (fun player =>
              [ XMyQuestion (Obj.get player (questionAssignments game1));
                XHasSubmittedGuess false ]))
  end.

(** The body of [Object.keys(game.currentGuesses).forEach] in [submitGuess]:
    the points and the running [correctGuessCount]. *)
Definition awardGuesser (guesses : Obj.t Z) (position : option Z)
  (acc : Obj.t Z * Z) (guesser : string) : Obj.t Z * Z :=
match Obj.get guesser guesses, position with
| Some guess, Some actual =>
    if (guess =? actual)%Z
    then (Obj.set guesser (pointsOf (fst acc) guesser + 1)%Z (fst acc), (snd acc + 1)%Z)
    else acc
| _, _ => acc
end.

Definition awardGuessers (guesses : Obj.t Z) (position : option Z) (pts : Obj.t Z)
  : Obj.t Z * Z :=
fold_left (awardGuesser guesses position) (Obj.keys guesses) (pts, 0%Z).

(** "Award points" up to the sort of the leaderboard. *)
Definition scoreReveal (game : Game) : Game :=
let '(pts1, correctGuessCount) :=
  awardGuessers (currentGuesses game) (actualPosition game) (points game) in
let rankerPoints := Z.min correctGuessCount 3 in
let ranker := keyOf (currentRanker game) in
let pts2 := Obj.set ranker (pointsOf pts1 ranker + rankerPoints)%Z pts1 in
set_players (sortDesc (pointsOf pts2) (players game)) (set_points pts2 game).

(** The object literal of [createGame]. *)
Definition newGame (playerName : string) : Game :=
mkGame [playerName] [(playerName, 0%Z)] Waiting playerName [] Obj.empty Obj.empty
  None None None Obj.empty None None [] 0 false.

Definition replyError (text : string) : list Emit := [(ToSocket, MError text)].

(** [socket.on('createGame', ..)], with [gameId] the value of
    [generateGameId()].  The second component of the result of [createGame]
    and of [joinGame] is the new value of [socket.playerName]. *)
Definition createGame (gameId playerName : string) (sv : Server)
  : Server * option string * list Emit :=
let game := newGame playerName in
(mkServer (Obj.set gameId game (games sv)) (supply sv),
 Some playerName,
 [(ToSocket, MGameState game [XGameId gameId])]).

(** [socket.on('joinGame', ..)], for a room identifier and a player name
    that are ordinary keys; [Plain.joinGame] is the handler on every room
    identifier and player name. *)
Definition joinGame (socketName : option string) (gameId playerName : string)
  (sv : Server) : Server * option string * list Emit :=
match Obj.get gameId (games sv) with
| None => (sv, socketName, replyError "Game not found")
| Some game =>
    if includes playerName (players game)
    then (sv, socketName, replyError "Name already taken")
    else
      let game1 :=
        set_state Waiting
          (set_points (Obj.set playerName 0%Z (points game))
             (set_players (players game ++ [playerName]) game)) in
      (mkServer (Obj.set gameId game1 (games sv)) (supply sv),
       Some playerName,
       [(ToRoom gameId, MGameState game1 [])])
end.

(** [socket.on('startGame', ..)] *)
Definition startGame (socketName : option string) (o : Oracle) (gameId : string)
  (sv : Server) : Server * list Emit :=
match Obj.get gameId (games sv) with
| None => (sv, replyError "Only the game owner can start the game")
| Some game =>
    if negb (isName socketName (owner game))
    then (sv, replyError "Only the game owner can start the game")
    else
      let '(success, game1, s1, out) := assignQuestions o gameId game (supply sv) in
      if negb success then
        (mkServer (Obj.set gameId game1 (games sv)) s1,
         out ++ replyError "No more unique questions available.")
      else
        let game2 := set_state Ranking game1 in
        (mkServer (Obj.set gameId game2 (games sv)) s1,
         out ++ emitToPlayers gameId game2 (fun player =>
           [XMyQuestion (Obj.get player (questionAssignments game2))]))
end.

(** The test of [submitRanking] on the submitted list. *)
Definition acceptableRanking (game : Game) (ranking : list string) : bool :=
(List.length ranking =? List.length (players game))
&& forallb (fun p => includes p (players game)) ranking.

(** [socket.on('submitRanking', ..)] *)
Definition submitRanking (socketName : option string) (o : Oracle) (gameId : string)
  (ranking : list string) (sv : Server) : option (Server * list Emit) :=
match Obj.get gameId (games sv), socketName with
| Some game, Some name =>
    if negb (includes name (players game)) then Some (sv, [])
    else
      match state game with
      | Ranking =>
          if negb (acceptableRanking game ranking)
          then Some (sv, replyError "Invalid ranking")
          else
            let game1 := set_rankings (Obj.set name ranking (rankings game)) game in
            let out := [(ToSocket, MRankingSubmitted true)] in
            if List.length (Obj.keys (rankings game1)) =? List.length (players game1)
            then
              match setNextReveal o gameId game1 (supply sv) with
              | None => None
              | Some (game2, s2, out2) =>
                  Some (mkServer (Obj.set gameId game2 (games sv)) s2, out ++ out2)
              end
            else Some (mkServer (Obj.set gameId game1 (games sv)) (supply sv), out)
      | _ => Some (sv, [])
      end
| _, _ => Some (sv, [])
end.

(** [game.players.filter(p => p !== game.currentRanker)] *)
Definition nonRankerPlayers (game : Game) : list string :=
filter (fun p => negb (sameName (Some p) (currentRanker game))) (players game).

(** [socket.on('submitGuess', ..)], for a guess that is an integer (the
    range test on other numbers is [outOfRange]). *)
Definition submitGuess (socketName : option string) (gameId : string) (guess : Z)
  (sv : Server) : Server * list Emit :=
match Obj.get gameId (games sv), socketName with
| Some game, Some name =>
    if negb (includes name (players game)) then (sv, [])
    else
      match state game with
      | Guessing =>
          if sameName (Some name) (currentRanker game)
          then (sv, replyError "You cannot guess as the ranker")
          else if (guess <? 1)%Z || (Z.of_nat (List.length (players game)) <? guess)%Z
          then (sv, replyError "Invalid guess")
          else
            let game1 :=
              set_currentGuesses (Obj.set name guess (currentGuesses game)) game in
            if List.length (Obj.keys (currentGuesses game1))
               =? List.length (nonRankerPlayers game1)
            then
              let game2 :=
                set_state Reveal
                  (set_currentFullRanking
                     (Obj.get (keyOf (currentRanker game1)) (rankings game1))
                     (scoreReveal game1)) in
              (mkServer (Obj.set gameId game2 (games sv)) (supply sv),
               emitToPlayers gameId game2 (fun player =>
                 [ XMyQuestion (Obj.get player (questionAssignments game2));
                   XHasSubmittedGuess false ]))
            else
              (mkServer (Obj.set gameId game1 (games sv)) (supply sv),
               [(ToRoom gameId,
                 MGameState game1
                   [XMyQuestion (Obj.get name (questionAssignments game1))])])
      | _ => (sv, [])
      end
| _, _ => (sv, [])
end.

(** [socket.on('nextReveal', ..)] *)
Definition nextReveal (socketName : option string) (o : Oracle) (gameId : string)
  (sv : Server) : option (Server * list Emit) :=
match Obj.get gameId (games sv) with
| None => Some (sv, replyError "Only the game owner can advance")
| Some game =>
    if negb (isName socketName (owner game))
    then Some (sv, replyError "Only the game owner can advance")
    else
      match state game with
      | Reveal =>
          let game1 := set_currentRevealIndex (currentRevealIndex game + 1) game in
          match setNextReveal o gameId game1 (supply sv) with
          | None => None
          | Some (game2, s2, out) =>
              Some (mkServer (Obj.set gameId game2 (games sv)) s2, out)
          end
      | _ => Some (sv, [])
      end
end.

(** The body of the loop of the disconnect handler for one room;
    [None] when the room is deleted. *)
Definition disconnectGame (name gameId : string) (game : Game)
  : option Game * list Emit :=
if includes name (players game) then
  let game1 :=
    set_rankings (Obj.delete name (rankings game))
      (set_questionAssignments (Obj.delete name (questionAssignments game))
         (set_points (Obj.delete name (points game))
            (set_players (removeFirst name (players game)) game))) in
  if List.length (players game1) =? 0 then (None, [])
  else
    let game2 :=
      set_state (if 1 <? List.length (players game1) then Waiting else Joining) game1 in
    let game3 :=
      set_players (sortDesc (pointsOf (points game2)) (players game2)) game2 in
    (Some game3, [(ToRoom gameId, MGameState game3 [])])
else (Some game, []).

(** [for (const gameId in games)] *)
Fixpoint disconnectAll (name : string) (gs : Obj.t Game) : Obj.t Game * list Emit :=
match gs with
| [] => ([], [])
| (gameId, game) :: rest =>
    let (kept, out) := disconnectGame name gameId game in
    let (rest', out') := disconnectAll name rest in
    (match kept with
     | Some game' => (gameId, game') :: rest'
     | None => rest'
     end,
     out ++ out')
end.

(** [socket.on('disconnect', ..)]: no room lists the name [undefined]. *)
Definition disconnect (socketName : option string) (sv : Server) : Server * list Emit :=
match socketName with
| None => (sv, [])
| Some name =>
    let (gs, out) := disconnectAll name (games sv) in
    (mkServer gs (supply sv), out)
end.

(* ------------------------------------------------------------------------- *)
(** ** Connections and runs *)

(** The events of one connection [sid]; [socket.playerName] of each
    connection is kept in [sockets]. *)
Inductive Event : Type :=
| OnCreateGame (sid : nat) (gameId playerName : string)
| OnJoinGame (sid : nat) (gameId playerName : string)
| OnStartGame (sid : nat) (o : Oracle) (gameId : string)
| OnSubmitRanking (sid : nat) (o : Oracle) (gameId : string) (ranking : list string)
| OnSubmitGuess (sid : nat) (gameId : string) (guess : Z)
| OnNextReveal (sid : nat) (o : Oracle) (gameId : string)
| OnDisconnect (sid : nat).

Record World : Type := mkWorld {
  server : Server;
  sockets : nat -> option string
}.

Definition initialWorld : World := mkWorld initialServer (fun _ => None).

Definition setSocket (sid : nat) (name : option string) (sockets : nat -> option string)
  : nat -> option string :=
fun sid' => if Nat.eqb sid' sid then name else sockets sid'.

(** One event; [None] when the handler throws.  The handler runs to its end,
    with what follows its awaits, before the next event is handled. *)
Definition step (w : World) (e : Event) : option (World * list Emit) :=
match e with
| OnCreateGame sid gameId playerName =>
    let '(sv, name, out) := createGame gameId playerName (server w) in
    Some (mkWorld sv (setSocket sid name (sockets w)), out)
| OnJoinGame sid gameId playerName =>
    let '(sv, name, out) := joinGame (sockets w sid) gameId playerName (server w) in
    Some (mkWorld sv (setSocket sid name (sockets w)), out)
| OnStartGame sid o gameId =>
    let '(sv, out) := startGame (sockets w sid) o gameId (server w) in
    Some (mkWorld sv (sockets w), out)
| OnSubmitRanking sid o gameId ranking =>
    match submitRanking (sockets w sid) o gameId ranking (server w) with
    | Some (sv, out) => Some (mkWorld sv (sockets w), out)
    | None => None
    end
| OnSubmitGuess sid gameId guess =>
    let '(sv, out) := submitGuess (sockets w sid) gameId guess (server w) in
    Some (mkWorld sv (sockets w), out)
| OnNextReveal sid o gameId =>
    match nextReveal (sockets w sid) o gameId (server w) with
    | Some (sv, out) => Some (mkWorld sv (sockets w), out)
    | None => None
    end
| OnDisconnect sid =>
    let '(sv, out) := disconnect (sockets w sid) (server w) in
    Some (mkWorld sv (sockets w), out)
end.

(** A sequence of events from a given world. *)
Fixpoint run (w : World) (events : list Event) : option (World * list Emit) :=
match events with
| [] => Some (w, [])
| e :: rest =>
    match step w e with
    | None => None
    | Some (w1, out1) =>
        match run w1 rest with
        | None => None
        | Some (w2, out2) => Some (w2, out1 ++ out2)
        end
    end
end.

End Engine.

(* ------------------------------------------------------------------------- *)
(** ** A concrete similarity scorer

    The Dice coefficient on character bigrams, which is the measure the
    package behind [compareTwoStrings] documents: white space is dropped,
    equal strings score 1, a string of fewer than two characters scores 0,
    and otherwise the score is twice the number of shared bigrams (counted
    with multiplicity) over the total number of bigrams.  It instantiates the
    parameter [compareTwoStrings] in the examples. *)

Module Dice.

Definition isSpace (c : ascii) : bool :=
match nat_of_ascii c with
| 9 | 10 | 11 | 12 | 13 | 32 => true
| _ => false
end.

Fixpoint chars (s : string) : list ascii :=
match s with
| EmptyString => []
| String c s' => if isSpace c then chars s' else c :: chars s'
end.

Fixpoint bigrams (l : list ascii) : list (ascii * ascii) :=
match l with
| a :: ((b :: _) as l') => (a, b) :: bigrams l'
| _ => []
end.

Definition sameBigram (x y : ascii * ascii) : bool :=
Ascii.eqb (fst x) (fst y) && Ascii.eqb (snd x) (snd y).

(** Removes one occurrence of [x]; [None] when there is none. *)
Fixpoint takeOne (x : ascii * ascii) (l : list (ascii * ascii))
  : option (list (ascii * ascii)) :=
match l with
| [] => None
| y :: l' =>
    if sameBigram x y then Some l'
    else match takeOne x l' with
         | Some r => Some (y :: r)
         | None => None
         end
end.

Fixpoint intersectionSize (first second : list (ascii * ascii)) : nat :=
match second with
| [] => 0
| x :: second' =>
    match takeOne x first with
    | Some first' => S (intersectionSize first' second')
    | None => intersectionSize first second'
    end
end.

Definition compareTwoStrings (first second : string) : Q :=
let a := chars first in
let b := chars second in
if list_eq_dec ascii_dec a b then 1%Q
else if (List.length a <? 2) || (List.length b <? 2) then 0%Q
else
  Qmake (Z.of_nat (2 * intersectionSize (bigrams a) (bigrams b)))
    (Pos.of_nat (List.length a + List.length b - 2)).

End Dice.

(* ------------------------------------------------------------------------- *)
(** ** Vocabulary of the properties *)

(** The guess of [p] is the true position. *)
Definition correctGuess (guesses : Obj.t Z) (position : option Z) (p : string) : bool :=
match Obj.get p guesses, position with
| Some guess, Some actual => (guess =? actual)%Z
| _, _ => false
end.

(** The number of guessers who matched. *)
Definition correctGuessCount (guesses : Obj.t Z) (position : option Z) : Z :=
Z.of_nat (List.length (filter (correctGuess guesses position) (Obj.keys guesses))).

(** [new] is a sequence of strings that can be added one after the other to
    the set [ledger], each of them absent from the set when its turn comes. *)
Fixpoint freshSeq (ledger new : list string) : Prop :=
match new with
| [] => True
| q :: rest => ~ In q ledger /\ freshSeq (ledger ++ [q]) rest
end.

(** [new] is a sequence of strings that pass, one after the other, the two
    tests of the validation loop against the set [ledger]: absent from it, and
    scoring at most 0.7 against each of its members. *)
Fixpoint admitted (compareTwoStrings : string -> string -> Q)
  (ledger new : list string) : Prop :=
match new with
| [] => True
| q :: rest =>
    ~ In q ledger
    /\ (forall e, In e ledger -> (compareTwoStrings q e <= 7 # 10)%Q)
    /\ admitted compareTwoStrings (ledger ++ [q]) rest
end.

(** The strings of a source that [selectFromQuestionPool] may pick. *)
Definition unusedIn (used ledger : list string) (source : list string) : list string :=
filter (fun q => negb (JsSet.has q used) && negb (JsSet.has q ledger)) source.

(** What an acquisition [r = (questions, game', supply', emitted)] made for
    the room [game] from the supply [s] with the seed pool [pool] guarantees:
    the room only has its used-set updated, the ledger only grows, a cache
    that was within the ledger stays within it, the fallback list keeps its
    members, every returned string was absent from the ledger and is now in
    it, the returned strings are distinct when the two local sources have no
    repetition between them, and the call either returns exactly
    [numQuestions] strings or returns none and broadcasts a copy of the room
    flagged [noMoreQuestions]. *)
Definition acquireOk (pool : list string) (gameId : string) (game : Game)
  (numQuestions : nat) (s : Supply)
  (r : list string * Game * Supply * list Emit) : Prop :=
let '(qs, game', s', out) := r in
(exists u, game' = set_usedQuestions u game)
/\ incl (globalUsedQuestions s) (globalUsedQuestions s')
/\ (incl (questionCache s) (globalUsedQuestions s)
    -> incl (questionCache s') (globalUsedQuestions s'))
/\ Permutation (fallbackQuestions s') (fallbackQuestions s)
/\ (forall q, In q qs -> ~ In q (globalUsedQuestions s) /\ In q (globalUsedQuestions s'))
/\ (NoDup (pool ++ fallbackQuestions s) -> NoDup qs)
/\ ((List.length qs = numQuestions /\ out = [])
    \/ (qs = [] /\ 0 < numQuestions
        /\ out = [(ToRoom gameId, MGameState (set_noMoreQuestions true game') [])])).

(** *** Invariants of the rooms and of the supply *)

(** Every player has a ranking on record. *)
Definition rankingsComplete (g : Game) : Prop :=
forall p, In p (players g) -> exists r, Obj.get p (rankings g) = Some r.

(** Every ranking on record passed the test of [submitRanking]. *)
Definition rankingsAccepted (g : Game) : Prop :=
forall p r, Obj.get p (rankings g) = Some r -> acceptableRanking g r = true.

(** The subject of the current reveal: a ranker and a target among the
    players, and the position computed from the ranker's ranking. *)
Definition revealSubject (g : Game) : Prop :=
exists ranker target ranking,
  currentRanker g = Some ranker /\ In ranker (players g)
  /\ currentTarget g = Some target /\ In target (players g)
  /\ Obj.get ranker (rankings g) = Some ranking
  /\ actualPosition g = Some (indexOf target ranking + 1)%Z.

Definition PhaseInv (g : Game) : Prop :=
match state g with
| Ranking =>
    Permutation (rankers g) (players g)
    /\ currentRevealIndex g = 0
    /\ incl (Obj.keys (rankings g)) (players g)
    /\ List.length (Obj.keys (rankings g)) < List.length (players g)
    /\ rankingsAccepted g
| Guessing =>
    Permutation (rankers g) (players g)
    /\ rankingsComplete g /\ rankingsAccepted g /\ revealSubject g
    /\ incl (Obj.keys (currentGuesses g)) (nonRankerPlayers g)
    /\ (List.length (Obj.keys (currentGuesses g)) < List.length (nonRankerPlayers g)
        \/ List.length (players g) = 1)
| Reveal =>
    Permutation (rankers g) (players g)
    /\ rankingsComplete g /\ rankingsAccepted g /\ revealSubject g
| Waiting | Joining => True
end.

Definition GameInv (g : Game) : Prop :=
NoDup (players g) /\ players g <> []
/\ Obj.wf (rankings g) /\ Obj.wf (currentGuesses g)
/\ PhaseInv g.

(** The prefetch cache only holds strings that are already in the ledger,
    and the fallback list is the initial one in some order. *)
Definition SupplyInv (s : Supply) : Prop :=
incl (questionCache s) (globalUsedQuestions s)
/\ Permutation (fallbackQuestions s) initialFallbackQuestions.

Definition ServerInv (sv : Server) : Prop :=
Obj.wf (games sv)
/\ Forall (fun kv => GameInv (snd kv)) (games sv)
/\ SupplyInv (supply sv).

(** *** Runs from the start of the process *)

(** The world and the emissions at the end of a run ([initialWorld] and
    nothing if a handler throws on the way). *)
Definition worldAfter (pool : list string) (key : bool)
  (score : string -> string -> Q) (events : list Event) : World :=
match run pool key score initialWorld events with
| Some (w, _) => w
| None => initialWorld
end.

Definition emitsAfter (pool : list string) (key : bool)
  (score : string -> string -> Q) (events : list Event) : list Emit :=
match run pool key score initialWorld events with
| Some (_, out) => out
| None => []
end.

(** A guess that passes every test of [submitGuess]: sent by a player of the
    room who is not the ranker, with a position between 1 and the number of
    players. *)
Definition acceptedGuess (game : Game) (socketName : option string) (guess : Z) : Prop :=
exists name,
  socketName = Some name /\ In name (players game)
  /\ currentRanker game <> Some name
  /\ (1 <= guess <= Z.of_nat (List.length (players game)))%Z.

(** *** Concrete runs used as examples

    In all of them the process runs without [GROQ_API_KEY] unless stated
    otherwise, the similarity scorer is [Dice.compareTwoStrings], and the
    shuffles leave the order as it is (empty seeds). *)

(** An oracle whose text-generation service never answers; [roll] is the
    outcome of [Math.random] when a target is picked. *)
Definition quietOracle (roll : nat) : Oracle :=
mkOracle (fun _ => mkAttempt [] None) [] [] [] roll.

(** One player creates a room, starts the game and ranks. *)
Definition soloRoom : list Event :=
[ OnCreateGame 1 "room" "A";
  OnStartGame 1 (quietOracle 0) "room";
  OnSubmitRanking 1 (quietOracle 0) "room" ["A"] ].

Definition soloServer : Server :=
Eval vm_compute in server (worldAfter [] false Dice.compareTwoStrings soloRoom).

(** Three players up to the first reveal: ranker [A], target [B]. *)
Definition threePlayersGuessing : list Event :=
[ OnCreateGame 1 "room" "A";
  OnJoinGame 2 "room" "B";
  OnJoinGame 3 "room" "C";
  OnStartGame 1 (quietOracle 0) "room";
  OnSubmitRanking 1 (quietOracle 1) "room" ["A"; "B"; "C"];
  OnSubmitRanking 2 (quietOracle 1) "room" ["B"; "A"; "C"];
  OnSubmitRanking 3 (quietOracle 1) "room" ["C"; "B"; "A"] ].

Definition threePlayersServer : Server :=
Eval vm_compute in server (worldAfter [] false Dice.compareTwoStrings threePlayersGuessing).

Definition threePlayersGame : Game :=
Eval vm_compute in
  match Obj.get "room" (games threePlayersServer) with
  | Some g => g
  | None => newGame ""
  end.

(** The same three players after [B] has guessed position 2. *)
Definition threePlayersOneGuess : list Event :=
threePlayersGuessing ++ [OnSubmitGuess 2 "room" 2%Z].

Definition oneGuessServer : Server :=
Eval vm_compute in server (worldAfter [] false Dice.compareTwoStrings threePlayersOneGuess).

Definition oneGuessGame : Game :=
Eval vm_compute in
  match Obj.get "room" (games oneGuessServer) with
  | Some g => g
  | None => newGame ""
  end.

(** Seven players join a room and the owner starts the game, with an empty
    seed pool: the six fallback questions are all there is. *)
Definition sevenPlayersStart : list Event :=
[ OnCreateGame 1 "room" "A";
  OnJoinGame 2 "room" "B";
  OnJoinGame 3 "room" "C";
  OnJoinGame 4 "room" "D";
  OnJoinGame 5 "room" "E";
  OnJoinGame 6 "room" "F";
  OnJoinGame 7 "room" "G";
  OnStartGame 1 (quietOracle 0) "room" ].

Definition sevenPlayersLobby : Server :=
Eval vm_compute in
  server (worldAfter [] false Dice.compareTwoStrings (removelast sevenPlayersStart)).

Definition sevenPlayersGame : Game :=
Eval vm_compute in
  match Obj.get "room" (games sevenPlayersLobby) with
  | Some g => g
  | None => newGame ""
  end.

(** Two players up to the end of the first reveal: ranker [A], target [B],
    and [B] guesses right. *)
Definition twoPlayersReveal : list Event :=
[ OnCreateGame 1 "room" "A";
  OnJoinGame 2 "room" "B";
  OnStartGame 1 (quietOracle 0) "room";
  OnSubmitRanking 1 (quietOracle 1) "room" ["A"; "B"];
  OnSubmitRanking 2 (quietOracle 1) "room" ["B"; "A"];
  OnSubmitGuess 2 "room" 2%Z ].

Definition twoPlayersServer : Server :=
Eval vm_compute in server (worldAfter [] false Dice.compareTwoStrings twoPlayersReveal).

Definition twoPlayersGame : Game :=
Eval vm_compute in
  match Obj.get "room" (games twoPlayersServer) with
  | Some g => g
  | None => newGame ""
  end.

(** Three players in the ranking phase, nobody has ranked yet. *)
Definition threePlayersRanking : list Event := firstn 4 threePlayersGuessing.

Definition rankingServer : Server :=
Eval vm_compute in server (worldAfter [] false Dice.compareTwoStrings threePlayersRanking).

Definition rankingGame : Game :=
Eval vm_compute in
  match Obj.get "room" (games rankingServer) with
  | Some g => g
  | None => newGame ""
  end.

(** The same three players, but [A] ranks itself three times; the first
    reveal has ranker [A] and target [B]. *)
Definition repeatedNameRanking : list Event :=
threePlayersRanking
++ [ OnSubmitRanking 1 (quietOracle 1) "room" ["A"; "A"; "A"];
     OnSubmitRanking 2 (quietOracle 1) "room" ["B"; "A"; "C"];
     OnSubmitRanking 3 (quietOracle 1) "room" ["C"; "B"; "A"] ].

(** No emission of the list is an error message. *)
Definition noError (out : list Emit) : Prop :=
forall dest text, ~ In (dest, MError text) out.

(** *** Examples with the text-generation service *)

Definition catsQuestion : string := "Who is the most likely to adopt ten cats?".
Definition showerQuestion : string := "Who is the most likely to sing in the shower?".
Definition mayorQuestion : string := "Who is the most likely to run for mayor?".
Definition catsAgain : string := "Who is the most likely to adopt ten cats!".

(** The service answers the first request with [answer] and fails afterwards. *)
Definition answeringOracle (answer : list string) : Oracle :=
mkOracle
  (fun attempt =>
     match attempt with
     | 1 => mkAttempt [] (Some answer)
     | _ => mkAttempt [] None
     end)
  [] [] [] 0.

(** With [GROQ_API_KEY] set: a room of one player asks for one question and
    the service answers with three; then a second room of one player asks
    for one question and the service answers with one. *)
Definition surplusRun : list Event :=
[ OnCreateGame 1 "room" "A";
  OnStartGame 1 (answeringOracle [catsQuestion; showerQuestion; catsAgain]) "room" ].

Definition secondRoomRun : list Event :=
surplusRun
++ [ OnCreateGame 2 "other" "Z";
     OnStartGame 2 (answeringOracle [mayorQuestion]) "other" ].

(** *** Examples with the local sources *)

(** A seed pool with two phrasings of the same question. *)
Definition birthdayQuestion : string := "Who is the most likely to forget a birthday?".
Definition birthdaysQuestion : string := "Who is the most likely to forget birthdays?".
Definition nearDuplicatePool : list string := [birthdayQuestion; birthdaysQuestion].

(** Two players join and the owner starts the game. *)
Definition twoPlayersStart : list Event :=
[ OnCreateGame 1 "room" "A";
  OnJoinGame 2 "room" "B";
  OnStartGame 1 (quietOracle 0) "room" ].

(** A seed pool whose only entry is also one of the fallback questions. *)
Definition marathonQuestion : string := "Who is the most likely to win a marathon?".
Definition sharedPool : list string := [marathonQuestion].

(** A sequence of acquisitions, each for some room and some number of
    questions, and all the strings they return. *)
Fixpoint acquireAll (pool : list string) (key : bool) (score : string -> string -> Q)
  (calls : list (Oracle * string * Game * nat)) (s : Supply) : list string * Supply :=
match calls with
| [] => ([], s)
| (o, gameId, game, numQuestions) :: rest =>
    let '(questions, _, s1, _) :=
      selectQuestions pool key score o gameId game numQuestions s in
    let (questions', s2) := acquireAll pool key score rest s1 in
    (questions ++ questions', s2)
end.

(** Six players: [R] creates the room and is the first ranker, everybody
    ranks in the order of arrival, the target is [R], whose true position is
    1, and the five others guess the positions [guesses]. *)
Definition sixPlayers : list string := ["R"; "P1"; "P2"; "P3"; "P4"; "P5"].

Definition sixPlayersReveal (guesses : list Z) : list Event :=
[ OnCreateGame 1 "room" "R";
  OnJoinGame 2 "room" "P1";
  OnJoinGame 3 "room" "P2";
  OnJoinGame 4 "room" "P3";
  OnJoinGame 5 "room" "P4";
  OnJoinGame 6 "room" "P5";
  OnStartGame 1 (quietOracle 0) "room" ]
++ map (fun sid => OnSubmitRanking sid (quietOracle 0) "room" sixPlayers) [1; 2; 3; 4; 5; 6]
++ map (fun sg => OnSubmitGuess (fst sg) "room" (snd sg)) (combine [2; 3; 4; 5; 6] guesses).

(** The phase, the recorded true position and the points of [R] at the end
    of [sixPlayersReveal guesses]. *)
Definition rankerReward (guesses : list Z) : option (Phase * option Z * Z) :=
match
  Obj.get "room"
    (games (server (worldAfter [] false Dice.compareTwoStrings (sixPlayersReveal guesses))))
with
| Some g => Some (state g, actualPosition g, pointsOf (points g) "R")
| None => None
end.

(* ------------------------------------------------------------------------- *)
(** ** Loading the seed pool *)

(** An entry of [questions.json], with its two strings. *)
Record Entry : Type := mkEntry {
  question : string;
  specialQuestion : string
}.

(** [[...new Set(parsed.flatMap(q => [q.question, q.specialQuestion]))]]:
    the strings of the file in the order of their first occurrence. *)
Definition loadPool (parsed : list Entry) : list string :=
addAll (flat_map (fun q => [question q; specialQuestion q]) parsed) [].

(* ------------------------------------------------------------------------- *)
(** ** The transitions of a room

    The states a handler can leave a room in, as functions of the room it
    found, and the relation [RoomStep] that lists, event by event, the ways a
    room changes.  [step_rooms] shows that the handlers change rooms in these
    ways and in no other. *)

(** The room after a successful [joinGame]. *)
Definition joined (p : string) (g : Game) : Game :=
set_state Waiting
  (set_points (Obj.set p 0%Z (points g)) (set_players (players g ++ [p]) g)).

(** The room after a successful [assignQuestions] that acquired [questions]
    and left the used-set [u]. *)
Definition freshRound (o : Oracle) (questions u : list string) (g : Game) : Game :=
set_currentRevealIndex 0
  (set_rankers (shuffle (rankerSeed o) (players g))
     (set_rankings Obj.empty
        (set_questionAssignments
           (assignEach (players g) (shuffle (questionSeed o) questions))
           (set_usedQuestions u g)))).

(** The room after a successful [startNewRound]. *)
Definition newRound (o : Oracle) (questions u : list string) (g : Game) : Game :=
set_currentFullRanking None
  (set_currentGuesses Obj.empty
     (set_reveal None None None None
        (set_rankings Obj.empty (set_state Ranking (freshRound o questions u g))))).

(** The room after [setNextReveal] has set up a reveal, [ranking] being the
    ranking of the ranker under the cursor. *)
Definition beginReveal (o : Oracle) (ranking : list string) (g : Game) : Game :=
let ranker := nth_error (rankers g) (currentRevealIndex g) in
let target := nth_error (players g) (targetRoll o mod List.length (players g)) in
set_state Guessing
  (set_currentFullRanking None
     (set_currentGuesses Obj.empty
        (set_reveal ranker target
           (Obj.get (keyOf ranker) (questionAssignments g))
           (Some match target with
                 | Some t => (indexOf t ranking + 1)%Z
                 | None => 0%Z
                 end)
           g))).

(** The room after [submitRanking] has recorded a ranking. *)
Definition ranked (name : string) (ranking : list string) (g : Game) : Game :=
set_rankings (Obj.set name ranking (rankings g)) g.

(** The room after [submitGuess] has recorded a guess. *)
Definition guessed (name : string) (guess : Z) (g : Game) : Game :=
set_currentGuesses (Obj.set name guess (currentGuesses g)) g.

(** The room after [submitGuess] has scored the reveal. *)
Definition revealed (g : Game) : Game :=
set_state Reveal
  (set_currentFullRanking (Obj.get (keyOf (currentRanker g)) (rankings g))
     (scoreReveal g)).

(** The room after the disconnect handler has removed [name], when somebody
    remains. *)
Definition departed (name : string) (g : Game) : Game :=
let g1 :=
  set_rankings (Obj.delete name (rankings g))
    (set_questionAssignments (Obj.delete name (questionAssignments g))
       (set_points (Obj.delete name (points g))
          (set_players (removeFirst name (players g)) g))) in
let g2 := set_state (if 1 <? List.length (players g1) then Waiting else Joining) g1 in
set_players (sortDesc (pointsOf (points g2)) (players g2)) g2.

(** What a successful acquisition for the room [g] leaves behind: one
    question per player, each of them new to the ledger and recorded in it
    and in the used-set [u] of the room, and no repetition among them when
    the seed pool and the fallback list have none between them. *)
Definition acquiredFor (pool ledger ledger' : list string) (g : Game)
  (questions u : list string) : Prop :=
List.length questions = List.length (players g)
/\ (forall q, In q questions -> ~ In q ledger /\ In q ledger' /\ In q u)
/\ (NoDup (pool ++ initialFallbackQuestions) -> NoDup questions).

(** The used-set [u] of the room [g] after an acquisition, successful or not. *)
Definition usedAfter (ledger' : list string) (g : Game) (u : list string) : Prop :=
incl (usedQuestions g) u /\ incl u (usedQuestions g ++ ledger').

(** [RoomStep pool sender ledger ledger' e gameId g g']: the event [e], sent
    by a connection whose name is [sender], takes the room [gameId] from [g]
    to [g'], the ledger going from [ledger] to [ledger']. *)
Inductive RoomStep (pool : list string) (sender : option string)
  (ledger ledger' : list string) : Event -> string -> Game -> Game -> Prop :=
| RsCreate sid gameId p g :
    RoomStep pool sender ledger ledger' (OnCreateGame sid gameId p) gameId g (newGame p)
| RsJoin sid gameId p g :
    ~ In p (players g) ->
    RoomStep pool sender ledger ledger' (OnJoinGame sid gameId p) gameId g (joined p g)
| RsStartFailed sid o gameId g u :
    isName sender (owner g) = true ->
    usedAfter ledger' g u ->
    RoomStep pool sender ledger ledger' (OnStartGame sid o gameId) gameId g
      (set_usedQuestions u g)
| RsStart sid o gameId g u questions :
    isName sender (owner g) = true ->
    usedAfter ledger' g u ->
    acquiredFor pool ledger ledger' g questions u ->
    RoomStep pool sender ledger ledger' (OnStartGame sid o gameId) gameId g
      (set_state Ranking (freshRound o questions u g))
| RsRank sid o gameId name ranking g :
    sender = Some name -> state g = Ranking -> In name (players g) ->
    acceptableRanking g ranking = true ->
    List.length (Obj.keys (rankings (ranked name ranking g))) <> List.length (players g) ->
    RoomStep pool sender ledger ledger' (OnSubmitRanking sid o gameId ranking) gameId g
      (ranked name ranking g)
| RsRankLast sid o gameId name ranking g order :
    sender = Some name -> state g = Ranking -> In name (players g) ->
    acceptableRanking g ranking = true ->
    List.length (Obj.keys (rankings (ranked name ranking g))) = List.length (players g) ->
    Obj.get (keyOf (nth_error (rankers g) (currentRevealIndex g)))
      (rankings (ranked name ranking g)) = Some order ->
    RoomStep pool sender ledger ledger' (OnSubmitRanking sid o gameId ranking) gameId g
      (beginReveal o order (ranked name ranking g))
| RsGuess sid gameId name guess g :
    sender = Some name -> state g = Guessing -> In name (players g) ->
    sameName (Some name) (currentRanker g) = false ->
    (1 <= guess <= Z.of_nat (List.length (players g)))%Z ->
    List.length (Obj.keys (currentGuesses (guessed name guess g)))
    <> List.length (nonRankerPlayers g) ->
    RoomStep pool sender ledger ledger' (OnSubmitGuess sid gameId guess) gameId g
      (guessed name guess g)
| RsScore sid gameId name guess g :
    sender = Some name -> state g = Guessing -> In name (players g) ->
    sameName (Some name) (currentRanker g) = false ->
    (1 <= guess <= Z.of_nat (List.length (players g)))%Z ->
    List.length (Obj.keys (currentGuesses (guessed name guess g)))
    = List.length (nonRankerPlayers g) ->
    RoomStep pool sender ledger ledger' (OnSubmitGuess sid gameId guess) gameId g
      (revealed (guessed name guess g))
| RsNext sid o gameId g order :
    isName sender (owner g) = true -> state g = Reveal ->
    currentRevealIndex g + 1 < List.length (players g) ->
    Obj.get (keyOf (nth_error (rankers g) (currentRevealIndex g + 1))) (rankings g)
    = Some order ->
    RoomStep pool sender ledger ledger' (OnNextReveal sid o gameId) gameId g
      (beginReveal o order (set_currentRevealIndex (currentRevealIndex g + 1) g))
| RsNewRound sid o gameId g u questions :
    isName sender (owner g) = true -> state g = Reveal ->
    List.length (players g) <= currentRevealIndex g + 1 ->
    usedAfter ledger' g u ->
    acquiredFor pool ledger ledger' g questions u ->
    RoomStep pool sender ledger ledger' (OnNextReveal sid o gameId) gameId g
      (newRound o questions u (set_currentRevealIndex (currentRevealIndex g + 1) g))
| RsNewRoundFailed sid o gameId g u :
    isName sender (owner g) = true -> state g = Reveal ->
    List.length (players g) <= currentRevealIndex g + 1 ->
    usedAfter ledger' g u ->
    RoomStep pool sender ledger ledger' (OnNextReveal sid o gameId) gameId g
      (set_usedQuestions u (set_currentRevealIndex (currentRevealIndex g + 1) g))
| RsDepart sid gameId name g :
    sender = Some name -> In name (players g) ->
    removeFirst name (players g) <> [] ->
    RoomStep pool sender ledger ledger' (OnDisconnect sid) gameId g (departed name g).

(** The connection an event comes from. *)
Definition sidOf (e : Event) : nat :=
match e with
| OnCreateGame sid _ _ | OnJoinGame sid _ _ | OnStartGame sid _ _
| OnSubmitRanking sid _ _ _ | OnSubmitGuess sid _ _ | OnNextReveal sid _ _
| OnDisconnect sid => sid
end.

(** How the registry of rooms changes at the room [gameId] between two
    servers: the room is as it was, or has moved by a [RoomStep]; a room
    appears only by [createGame], and disappears only when its last player
    disconnects. *)
Definition RoomChange (pool : list string) (sender : option string) (e : Event)
  (sv sv' : Server) (gameId : string) : Prop :=
let ledger := globalUsedQuestions (supply sv) in
let ledger' := globalUsedQuestions (supply sv') in
match Obj.get gameId (games sv), Obj.get gameId (games sv') with
| Some g, Some g' => g' = g \/ RoomStep pool sender ledger ledger' e gameId g g'
| None, Some g' => exists sid p, e = OnCreateGame sid gameId p /\ g' = newGame p
| Some g, None =>
    exists sid name,
      e = OnDisconnect sid /\ sender = Some name
      /\ In name (players g) /\ removeFirst name (players g) = []
| None, None => True
end.

(* ------------------------------------------------------------------------- *)
(** ** More invariants of the rooms *)

(** [l] is in descending order of [key]. *)
Fixpoint sortedDesc (key : string -> Z) (l : list string) : Prop :=
match l with
| [] => True
| a :: rest => (forall b, In b rest -> (key b <= key a)%Z) /\ sortedDesc key rest
end.

(** No entry of [pts] is negative. *)
Definition nonneg (pts : Obj.t Z) : Prop :=
forall p v, Obj.get p pts = Some v -> (0 <= v)%Z.

(** The leaderboard: [points] has one entry per player and no other, no
    entry is negative, and [players] is in descending order of points. *)
Definition Leaderboard (g : Game) : Prop :=
Obj.wf (points g)
/\ (forall p, In p (Obj.keys (points g)) <-> In p (players g))
/\ nonneg (points g)
/\ sortedDesc (pointsOf (points g)) (players g).

(** The phases in which a round is under way. *)
Definition inRound (g : Game) : bool :=
match state g with
| Ranking | Guessing | Reveal => true
| Waiting | Joining => false
end.

(** The questions of a room: the used-set is within [ledger]; only players
    hold questions, each held question is in the used-set; while a round is
    under way every player holds one. *)
Definition Assigned (ledger : list string) (g : Game) : Prop :=
incl (usedQuestions g) ledger
/\ Obj.wf (questionAssignments g)
/\ incl (Obj.keys (questionAssignments g)) (players g)
/\ (forall p q, Obj.get p (questionAssignments g) = Some q -> In q (usedQuestions g))
/\ (inRound g = true ->
    forall p, In p (players g) -> exists q, Obj.get p (questionAssignments g) = Some q).

(** The cursor of the reveals: while guesses come in the cursor is on a
    ranker, who is the current ranker, the question shown is the one the
    ranker holds, the full ranking is withheld, and the positions guessed
    are between 1 and the number of players; once the reveal is scored the
    full ranking is the ranker's, and the cursor is still on the ranker
    unless it has run past the last one (a new round that could not start). *)
Definition Rotation (g : Game) : Prop :=
match state g with
| Guessing =>
    currentRevealIndex g < List.length (players g)
    /\ currentRanker g = nth_error (rankers g) (currentRevealIndex g)
    /\ currentQuestion g = Obj.get (keyOf (currentRanker g)) (questionAssignments g)
    /\ currentFullRanking g = None
    /\ (forall p v, Obj.get p (currentGuesses g) = Some v ->
          (1 <= v <= Z.of_nat (List.length (players g)))%Z)
| Reveal =>
    (currentRevealIndex g < List.length (players g) ->
     currentRanker g = nth_error (rankers g) (currentRevealIndex g))
    /\ currentQuestion g = Obj.get (keyOf (currentRanker g)) (questionAssignments g)
    /\ currentFullRanking g = Obj.get (keyOf (currentRanker g)) (rankings g)
| Ranking | Waiting | Joining => True
end.

(** The stored flag [noMoreQuestions] is down. *)
Definition Unflagged (g : Game) : Prop := noMoreQuestions g = false.

Definition RoomInv (ledger : list string) (g : Game) : Prop :=
Leaderboard g /\ Assigned ledger g /\ Rotation g /\ Unflagged g.

(** No question is held by two players, of one room or of two. *)
Definition heldOnce (sv : Server) : Prop :=
forall gameId1 gameId2 g1 g2 p1 p2 q,
  Obj.get gameId1 (games sv) = Some g1 ->
  Obj.get gameId2 (games sv) = Some g2 ->
  Obj.get p1 (questionAssignments g1) = Some q ->
  Obj.get p2 (questionAssignments g2) = Some q ->
  gameId1 = gameId2 /\ p1 = p2.

(** Every room of the server satisfies [RoomInv] for the ledger. *)
Definition RoomsInv (sv : Server) : Prop :=
forall gameId g,
  Obj.get gameId (games sv) = Some g -> RoomInv (globalUsedQuestions (supply sv)) g.

(** The room an event is addressed to; a disconnection is addressed to none. *)
Definition roomOf (e : Event) : option string :=
match e with
| OnCreateGame _ gameId _ | OnJoinGame _ gameId _ | OnStartGame _ _ gameId
| OnSubmitRanking _ _ gameId _ | OnSubmitGuess _ gameId _ | OnNextReveal _ _ gameId =>
    Some gameId
| OnDisconnect _ => None
end.

(** How the room [gameId] can have come to the phase [phase] from a room
    [g] in another phase, by the event [e] sent by [sender]. *)
Definition entersBy (sender : option string) (e : Event) (gameId : string) (g : Game)
  (phase : Phase) : Prop :=
match phase with
| Waiting =>
    (exists sid p, e = OnCreateGame sid gameId p \/ e = OnJoinGame sid gameId p)
    \/ (exists sid, e = OnDisconnect sid)
| Joining => exists sid, e = OnDisconnect sid
| Ranking =>
    isName sender (owner g) = true
    /\ exists sid o,
         e = OnStartGame sid o gameId
         \/ (e = OnNextReveal sid o gameId /\ state g = Reveal)
| Guessing =>
    (exists sid o ranking, e = OnSubmitRanking sid o gameId ranking /\ state g = Ranking)
    \/ (exists sid o, e = OnNextReveal sid o gameId /\ state g = Reveal)
| Reveal => exists sid guess, e = OnSubmitGuess sid gameId guess /\ state g = Guessing
end.

(** *** More runs *)

(** Two rooms of two players each, both started, with no seed pool: the
    fallback list serves both. *)
Definition twoRooms : list Event :=
[ OnCreateGame 1 "room" "A";
  OnJoinGame 2 "room" "B";
  OnCreateGame 3 "other" "Y";
  OnJoinGame 4 "other" "Z";
  OnStartGame 1 (quietOracle 0) "room";
  OnStartGame 3 (quietOracle 0) "other" ].

(** The world and the emissions after one more event, and after more
    events, at the end of a run ([initialWorld] and nothing if a handler
    throws). *)
Definition stepAfter (pool : list string) (key : bool) (score : string -> string -> Q)
  (events : list Event) (e : Event) : World * list Emit :=
match step pool key score (worldAfter pool key score events) e with
| Some r => r
| None => (initialWorld, [])
end.

Definition runAfter (pool : list string) (key : bool) (score : string -> string -> Q)
  (events events' : list Event) : World * list Emit :=
match run pool key score (worldAfter pool key score events) events' with
| Some r => r
| None => (initialWorld, [])
end.

(** The room [gameId] of a world (a room of nobody if there is none). *)
Definition roomAt (gameId : string) (w : World) : Game :=
match Obj.get gameId (games (server w)) with
| Some g => g
| None => newGame ""
end.


(** An attempt that yields nothing: no answer, or an answer that is not a
    list of [needed] questions with the expected beginning. *)
Definition fruitless (needed : nat) (a : Attempt) : Prop :=
match response a with
| None => True
| Some answer => wellFormedAnswer needed answer = false
end.

(* ------------------------------------------------------------------------- *)
(** ** The client ([public/app.js])

    The part of the React component that builds what is sent to the server:
    the ranking a player arranges by drag and drop, and the positions offered
    as guesses. *)

Module Client.

(** [l.splice(i, 1)]: the list without its element at index [i] (the list
    itself when there is none). *)
Fixpoint removeAt (i : nat) (l : list string) : list string :=
match i, l with
| _, [] => []
| 0, _ :: l' => l'
| S i', y :: l' => y :: removeAt i' l'
end.

(** The ranking shown when a [gameState] message announces the ranking
    phase: [[...stateData.players].sort(() => Math.random() - 0.5)]. *)
Definition initialRanking (seed : list nat) (players : list string) : list string :=
shuffle seed players.

(** [drop(e, index)], with [draggedIndex] the index stored by [dragStart]:
    the new value of [ranking].  [l.splice(index, 0, dragged)] is
    [insertAt index dragged l].  [None] stands for the list with an
    [undefined] entry that results when [draggedIndex] is not an index of
    [ranking]. *)
Definition drop (draggedIndex index : nat) (ranking : list string)
  : option (list string) :=
if draggedIndex =? index then Some ranking
else
  match nth_error ranking draggedIndex with
  | Some dragged => Some (insertAt index dragged (removeAt draggedIndex ranking))
  | None => None
  end.

(** A sequence of drops, each given by the index dragged and the index
    dropped on. *)
Fixpoint drops (moves : list (nat * nat)) (ranking : list string)
  : option (list string) :=
match moves with
| [] => Some ranking
| (draggedIndex, index) :: rest =>
    match drop draggedIndex index ranking with
    | Some ranking' => drops rest ranking'
    | None => None
    end
end.

(** The positions offered as guesses:
    [Array.from({ length: players.length }, (_, i) => i + 1)]. *)
Definition guessButtons (players : list string) : list Z :=
map (fun i => Z.of_nat (i + 1)) (seq 0 (List.length players)).

(** The state of the component ([useState]) that decides what a player is
    offered. *)
Module View.

Record t : Type := mk {
  gameId : string;
  playerName : string;
  isOwner : bool;
  players : list string;
  gameState : Phase;
  myQuestion : string;
  noMoreQuestions : bool;
  currentRanker : option string;
  ranking : list string;
  hasSubmittedRanking : bool;
  hasSubmittedGuess : bool
}.

End View.

(** The state of a component in which the name [name] has been typed. *)
Definition initialView (name : string) : View.t :=
View.mk "" name false [] Joining "" false None [] false false.

(** [stateData.gameId], [stateData.myQuestion] when truthy, and
    [stateData.hasSubmittedRanking === false]. *)
Fixpoint gameIdOf (extras : list Extra) : option string :=
match extras with
| [] => None
| XGameId id :: _ => if String.eqb id "" then None else Some id
| _ :: rest => gameIdOf rest
end.

Fixpoint myQuestionOf (extras : list Extra) : option string :=
match extras with
| [] => None
| XMyQuestion q :: _ =>
    match q with
    | Some s => if String.eqb s "" then None else Some s
    | None => None
    end
| _ :: rest => myQuestionOf rest
end.

Fixpoint resetsRanking (extras : list Extra) : bool :=
match extras with
| [] => false
| XHasSubmittedRanking b :: _ => negb b
| _ :: rest => resetsRanking rest
end.

(** [name || null] *)
Definition orNull (name : option string) : option string :=
match name with
| Some s => if String.eqb s "" then None else Some s
| None => None
end.

(** [newSocket.on('gameState', ..)]: the state after a message that carries
    the room [stateData] with the added properties [extras]; [seed] is the
    outcome of the shuffle of the ranking. *)
Definition onGameState (seed : list nat) (stateData : Game) (extras : list Extra)
  (v : View.t) : View.t :=
View.mk
  match gameIdOf extras with
  | Some id => id
  | None => View.gameId v
  end
  (View.playerName v)
  (String.eqb (View.playerName v) (owner stateData))
  (players stateData)
  (state stateData)
  match myQuestionOf extras with
  | Some q => q
  | None => View.myQuestion v
  end
  (noMoreQuestions stateData)
  (orNull (currentRanker stateData))
  match state stateData with
  | Ranking => initialRanking seed (players stateData)
  | _ => View.ranking v
  end
  match state stateData with
  | Ranking => if resetsRanking extras then false else View.hasSubmittedRanking v
  | _ => View.hasSubmittedRanking v
  end
  (View.hasSubmittedGuess v).

(** [newSocket.on('rankingSubmitted', ..)] *)
Definition onRankingSubmitted (v : View.t) : View.t :=
View.mk (View.gameId v) (View.playerName v) (View.isOwner v) (View.players v)
  (View.gameState v) (View.myQuestion v) (View.noMoreQuestions v)
  (View.currentRanker v) (View.ranking v) true (View.hasSubmittedGuess v).

Definition set_ranking (ranking : list string) (v : View.t) : View.t :=
View.mk (View.gameId v) (View.playerName v) (View.isOwner v) (View.players v)
  (View.gameState v) (View.myQuestion v) (View.noMoreQuestions v)
  (View.currentRanker v) ranking (View.hasSubmittedRanking v) (View.hasSubmittedGuess v).

Definition set_hasSubmittedGuess (b : bool) (v : View.t) : View.t :=
View.mk (View.gameId v) (View.playerName v) (View.isOwner v) (View.players v)
  (View.gameState v) (View.myQuestion v) (View.noMoreQuestions v)
  (View.currentRanker v) (View.ranking v) (View.hasSubmittedRanking v) b.

(** The buttons of the screens of a game under way. *)
Inductive Action : Type :=
| StartGame
| SubmitRanking
| SubmitGuess (pos : Z)
| NextReveal.

(** The buttons that are rendered: [Start Game] for the owner on the waiting
    screen, [Submit Ranking] on the ranking screen until the ranking is
    acknowledged, one button per position on the guessing screen for a
    player who is not the ranker and has not guessed, and [Next] for the
    owner on the reveal screen; the last three screens are not rendered
    when [noMoreQuestions] is set. *)
Definition offered (v : View.t) : list Action :=
match View.gameState v with
| Joining => []
| Waiting => if View.isOwner v then [StartGame] else []
| Ranking =>
    if View.noMoreQuestions v then []
    else if View.hasSubmittedRanking v then [] else [SubmitRanking]
| Guessing =>
    if View.noMoreQuestions v then []
    else if sameName (Some (View.playerName v)) (View.currentRanker v) then []
    else if View.hasSubmittedGuess v then []
    else map SubmitGuess (guessButtons (View.players v))
| Reveal =>
    if View.noMoreQuestions v then []
    else if View.isOwner v then [NextReveal] else []
end.

(** What the [onClick] of a button does to the state of the component:
    [submitGuess] sets [hasSubmittedGuess], [nextReveal] clears it. *)
Definition click (a : Action) (v : View.t) : View.t :=
match a with
| SubmitGuess _ => set_hasSubmittedGuess true v
| NextReveal => set_hasSubmittedGuess false v
| StartGame | SubmitRanking => v
end.

(** What the [onClick] of a button emits, as the event the server handles
    for the connection [sid]; [o] is what the handler will draw. *)
Definition emitted (sid : nat) (o : Oracle) (v : View.t) (a : Action) : Event :=
match a with
| StartGame => OnStartGame sid o (View.gameId v)
| SubmitRanking => OnSubmitRanking sid o (View.gameId v) (View.ranking v)
| SubmitGuess pos => OnSubmitGuess sid (View.gameId v) pos
| NextReveal => OnNextReveal sid o (View.gameId v)
end.

(** What happens to a component: a [gameState] message, a
    [rankingSubmitted] message, a drop, a click on a button. *)
Inductive Happening : Type :=
| GameState (seed : list nat) (stateData : Game) (extras : list Extra)
| RankingSubmitted
| Drop (draggedIndex index : nat)
| Click (a : Action).

(** One happening; [None] when it cannot happen: a click on a button that
    is not rendered, a drop outside the ranking screen or from an index
    that is not in the list. *)
Definition happen (v : View.t) (h : Happening) : option View.t :=
match h with
| GameState seed stateData extras => Some (onGameState seed stateData extras v)
| RankingSubmitted => Some (onRankingSubmitted v)
| Drop draggedIndex index =>
    match View.gameState v with
    | Ranking =>
        if View.noMoreQuestions v || View.hasSubmittedRanking v then None
        else
          match drop draggedIndex index (View.ranking v) with
          | Some ranking' => Some (set_ranking ranking' v)
          | None => None
          end
    | _ => None
    end
| Click a =>
    if existsb (fun b =>
         match a, b with
         | StartGame, StartGame | SubmitRanking, SubmitRanking
         | NextReveal, NextReveal => true
         | SubmitGuess p, SubmitGuess p' => (p =? p')%Z
         | _, _ => false
         end) (offered v)
    then Some (click a v) else None
end.

Fixpoint happenAll (v : View.t) (hs : list Happening) : option View.t :=
match hs with
| [] => Some v
| h :: rest =>
    match happen v h with
    | Some v' => happenAll v' rest
    | None => None
    end
end.

(** The component shows the room [g]: what it has of the room is what the
    room holds, and on the ranking screen the list it shows is a
    rearrangement of the players. *)
Definition shows (g : Game) (v : View.t) : Prop :=
View.gameState v = state g
/\ View.players v = players g
/\ View.isOwner v = String.eqb (View.playerName v) (owner g)
/\ View.currentRanker v = orNull (currentRanker g)
/\ (state g = Ranking -> Permutation (View.ranking v) (players g)).

End Client.

(** Three drops on the ranking first shown for the players [A], [B], [C]. *)
Definition threeDrops : list (nat * nat) := [(0, 2); (1, 1); (1, 0)].

(* ------------------------------------------------------------------------- *)
(** ** The earlier revision of the question supply

    [server.js] also holds the revision in which questions are acquired one
    at a time: [selectQuestion(gameId)], [selectFromQuestionPool(gameId,
    game)] and the loop of [assignQuestions].  The handlers are the same in
    both revisions. *)

Module Legacy.

(** One request to the service: the seed of the shuffle of the examples and
    [questionData.question] when the answer parses and has the field. *)
Record Attempt : Type := mkAttempt {
  exampleSeed : list nat;
  answer : option string
}.

(** What one call of [selectQuestion] draws from outside: the answers of the
    service and the outcome of [Math.random] for the index in the pool. *)
Record Oracle : Type := mkOracle {
  attempts : nat -> Attempt;
  pick : nat
}.

(** What one call of [assignQuestions] draws from outside. *)
Record Round : Type := mkRound {
  calls : nat -> Oracle;
  questionSeed : list nat;
  rankerSeed : list nat
}.

(** The [while] loop over [questionCache]: the first cached string that is
    in neither used-set, if any, with the cache that is left and the two
    used-sets. *)
Fixpoint drainOne (cache used ledger : list string)
  : option string * list string * list string * list string :=
match cache with
| [] => (None, [], used, ledger)
| cachedQuestion :: cache' =>
    if negb (JsSet.has cachedQuestion used) && negb (JsSet.has cachedQuestion ledger)
    then (Some cachedQuestion, cache',
          JsSet.add cachedQuestion used, JsSet.add cachedQuestion ledger)
    else drainOne cache' used ledger
end.

(** [!q] for the value returned by [selectQuestion]. *)
Definition falsy (q : option string) : bool :=
match q with
| None => true
| Some s => String.eqb s ""
end.

Section Engine.

Variable questionPool : list string.
Variable GROQ_API_KEY : bool.
Variable compareTwoStrings : string -> string -> Q.

(** The retry loop; [fuel] counts the attempts that are left. *)
Fixpoint generateOne (fuel attempt : nat) (o : Oracle) (used : list string) (s : Supply)
  : option string * list string * Supply :=
match fuel with
| 0 => (None, used, s)
| S fuel' =>
    let a := attempts o attempt in
    let s1 := mkSupply (globalUsedQuestions s) (questionCache s)
                (shuffle (exampleSeed a) (fallbackQuestions s)) in
    match answer a with
    | None => generateOne fuel' (S attempt) o used s1
    | Some questionKey =>
        if negb (startsWith "Who is the most likely to" questionKey)
        then generateOne fuel' (S attempt) o used s1
        else if JsSet.has questionKey used || JsSet.has questionKey (globalUsedQuestions s1)
        then generateOne fuel' (S attempt) o used s1
        else if existsb (tooSimilar compareTwoStrings questionKey) (globalUsedQuestions s1)
        then generateOne fuel' (S attempt) o used s1
        else (Some questionKey, JsSet.add questionKey used,
              mkSupply (JsSet.add questionKey (globalUsedQuestions s1))
                (questionCache s1 ++ [questionKey]) (fallbackQuestions s1))
    end
end.

(** [availableQuestions[Math.floor(Math.random() * availableQuestions.length)]]
    recorded in both used-sets. *)
Definition pickFrom (roll : nat) (available : list string) (game : Game) (s : Supply)
  : option string * Game * Supply * list Emit :=
let selectedQuestion := nth (roll mod List.length available) available "" in
(Some selectedQuestion,
 set_usedQuestions (JsSet.add selectedQuestion (usedQuestions game)) game,
 mkSupply (JsSet.add selectedQuestion (globalUsedQuestions s))
   (questionCache s) (fallbackQuestions s),
 []).

(** [selectFromQuestionPool(gameId, game)] *)
Definition selectFromQuestionPool (roll : nat) (gameId : string) (game : Game)
  (s : Supply) : option string * Game * Supply * list Emit :=
let availableQuestions :=
  unusedIn (usedQuestions game) (globalUsedQuestions s) questionPool in
if List.length availableQuestions =? 0 then
  let availableFallbacks :=
    unusedIn (usedQuestions game) (globalUsedQuestions s) (fallbackQuestions s) in
  if 0 <? List.length availableFallbacks
  then pickFrom roll availableFallbacks game s
  else (None, game, s, [(ToRoom gameId, MGameState (set_noMoreQuestions true game) [])])
else pickFrom roll availableQuestions game s.

(** [selectQuestion(gameId)] on the room [game = games[gameId]]. *)
Definition selectQuestion (o : Oracle) (gameId : string) (game : Game) (s : Supply)
  : option string * Game * Supply * list Emit :=
if negb GROQ_API_KEY then selectFromQuestionPool (pick o) gameId game s
else
  match drainOne (questionCache s) (usedQuestions game) (globalUsedQuestions s) with
  | (Some cachedQuestion, cache1, used1, ledger1) =>
      (Some cachedQuestion, set_usedQuestions used1 game,
       mkSupply ledger1 cache1 (fallbackQuestions s), [])
  | (None, cache1, used1, ledger1) =>
      let s1 := mkSupply ledger1 cache1 (fallbackQuestions s) in
      match generateOne 10 1 o used1 s1 with
      | (Some questionKey, used2, s2) =>
          (Some questionKey, set_usedQuestions used2 game, s2, [])
      | (None, used2, s2) =>
          selectFromQuestionPool (pick o) gameId (set_usedQuestions used2 game) s2
      end
  end.

(** The loop [for (let i = 0; i < numPlayers; i++)] of [assignQuestions],
    from the index [i] on, with [todo] iterations left: the questions
    collected, or [None] when a call returned a falsy value. *)
Fixpoint collect (todo i : nat) (r : Round) (gameId : string) (game : Game) (s : Supply)
  : option (list string) * Game * Supply * list Emit :=
match todo with
| 0 => (Some [], game, s, [])
| S todo' =>
    let '(q, game1, s1, out1) := selectQuestion (calls r i) gameId game s in
    if falsy q then (None, game1, s1, out1)
    else
      let '(rest, game2, s2, out2) := collect todo' (S i) r gameId game1 s1 in
      (match q, rest with
       | Some question, Some questions => Some (question :: questions)
       | _, _ => None
       end,
       game2, s2, out1 ++ out2)
end.

(** [assignQuestions(gameId)] *)
Definition assignQuestions (r : Round) (gameId : string) (game : Game) (s : Supply)
  : bool * Game * Supply * list Emit :=
let numPlayers := List.length (players game) in
match collect numPlayers 0 r gameId game s with
| (None, game1, s1, out) => (false, game1, s1, out)
| (Some questions, game1, s1, out) =>
    let questions' := shuffle (questionSeed r) questions in
    let game2 :=
      set_currentRevealIndex 0
        (set_rankers (shuffle (rankerSeed r) (players game1))
           (set_rankings Obj.empty
              (set_questionAssignments (assignEach (players game1) questions') game1))) in
    (true, game2, s1, out)
end.

(** A sequence of calls of [selectQuestion], each for some room, and the
    values they return. *)
Fixpoint selectAll (requests : list (Oracle * string * Game)) (s : Supply)
  : list (option string) * Supply :=
match requests with
| [] => ([], s)
| (o, gameId, game) :: rest =>
    let '(q, _, s1, _) := selectQuestion o gameId game s in
    let (qs, s2) := selectAll rest s1 in
    (q :: qs, s2)
end.

End Engine.

End Legacy.

(** The strings among the values returned. *)
Fixpoint returned (results : list (option string)) : list string :=
match results with
| [] => []
| Some q :: rest => q :: returned rest
| None :: rest => returned rest
end.

(** An oracle of the earlier revision whose service never answers. *)
Definition quietLegacyOracle (roll : nat) : Legacy.Oracle :=
Legacy.mkOracle (fun _ => Legacy.mkAttempt [] None) roll.

(** What a call that returns a string has done, and what a call that
    returns nothing has done. *)
Definition legacyOk (gameId : string) (game : Game) (s : Supply)
  (r : option string * Game * Supply * list Emit) : Prop :=
let '(q, game', s', out) := r in
(exists u, game' = set_usedQuestions u game /\ incl (usedQuestions game) u)
/\ incl (globalUsedQuestions s) (globalUsedQuestions s')
/\ (incl (questionCache s) (globalUsedQuestions s)
    -> incl (questionCache s') (globalUsedQuestions s'))
/\ Permutation (fallbackQuestions s') (fallbackQuestions s)
/\ match q with
   | Some x =>
       ~ In x (globalUsedQuestions s) /\ ~ In x (usedQuestions game)
       /\ In x (globalUsedQuestions s') /\ In x (usedQuestions game')
       /\ out = []
   | None =>
       globalUsedQuestions s' = globalUsedQuestions s
       /\ out = [(ToRoom gameId, MGameState (set_noMoreQuestions true game') [])]
   end.

(** The only error among the emissions, if any, is the notice that the
    questions have run out. *)
Definition onlyExhaustion (out : list Emit) : Prop :=
forall dest text,
  In (dest, MError text) out -> text = "No more unique questions available.".

(** A player opens the page, creates a room and starts the game alone; the
    component of the player receives what the server emits to it. *)
Definition soloStart : list Event :=
[ OnCreateGame 1 "room" "A"; OnStartGame 1 (quietOracle 0) "room" ].

Definition soloStartGame : Game :=
Eval vm_compute in roomAt "room" (worldAfter [] false Dice.compareTwoStrings soloStart).

Definition soloView : Client.View.t :=
Eval vm_compute in
  Client.onGameState [] soloStartGame
    [XMyQuestion (Obj.get "A" (questionAssignments soloStartGame))]
    (Client.onGameState [] (newGame "A") [XGameId "room"] (Client.initialView "A")).

(** A component that is not the owner's and has guessed. *)
Definition guestView : Client.View.t :=
Client.set_hasSubmittedGuess true
  (Client.onGameState [] threePlayersGame [] (Client.initialView "B")).

(** What the owner's component receives when the owner, alone in the room,
    starts the game a second time. *)
Definition restartMessage : Emit :=
Eval vm_compute in
  hd (ToSocket, MError "")
    (snd (stepAfter [] false Dice.compareTwoStrings soloStart
            (OnStartGame 1 (quietOracle 0) "room"))).

Definition restartState : Game :=
Eval vm_compute in
  match snd restartMessage with
  | MGameState stateData _ => stateData
  | _ => newGame ""
  end.

Definition restartExtras : list Extra :=
Eval vm_compute in
  match snd restartMessage with
  | MGameState _ extras => extras
  | _ => []
  end.

(** What happens to the component of [B] after its guess: the reveal is
    announced, then the next reveal. *)
Definition guestHappenings : list Client.Happening :=
[ Client.GameState [] twoPlayersGame [XHasSubmittedGuess false];
  Client.GameState [] threePlayersGame [XHasSubmittedGuess false] ].

(** The state of a component after a sequence of happenings (the state it
    had if one of them cannot happen). *)
Definition viewAfter (v : Client.View.t) (hs : list Client.Happening) : Client.View.t :=
match Client.happenAll v hs with
| Some v' => v'
| None => v
end.

(* ------------------------------------------------------------------------- *)
(** ** Property names that plain objects inherit

    [games], [points], [questionAssignments], [rankings] and [currentGuesses]
    are objects created by [{}] or by an object literal: they inherit the
    members of [Object.prototype].  [Obj.get] and [Obj.set] are the lookup
    and the assignment of own properties; [Plain] has what the lookup and the
    assignment of the source do on the inherited names as well. *)

Module Plain.

(** The property names of [Object.prototype]. *)
Definition inheritedNames : list string :=
[ "__proto__"; "constructor"; "hasOwnProperty"; "isPrototypeOf";
  "propertyIsEnumerable"; "toLocaleString"; "toString"; "valueOf";
  "__defineGetter__"; "__defineSetter__"; "__lookupGetter__"; "__lookupSetter__" ].

Definition inherited (k : string) : bool := includes k inheritedNames.

(** The value of [o[k]]: an own property; or, when there is none and [k] is
    an inherited name, a member of [Object.prototype] (a function, or the
    prototype itself for ["__proto__"]: a truthy value in both cases); or
    [undefined]. *)
Inductive Value (V : Type) : Type :=
| Own (v : V)
| Inherited
| Undefined.

Arguments Own {V} v.
Arguments Inherited {V}.
Arguments Undefined {V}.

(** [o[k]] *)
Definition get {V : Type} (k : string) (o : Obj.t V) : Value V :=
match Obj.get k o with
| Some v => Own v
| None => if inherited k then Inherited else Undefined
end.

(** [o[k] = v] for a number or a string [v].  An own property is updated.
    Without one, the assignment to ["__proto__"] runs the setter inherited
    from [Object.prototype], which ignores a value that is neither an object
    nor [null]: no property is created.  Every other name, inherited or not,
    gets an own property (the other members of [Object.prototype] are
    writable data properties). *)
Definition set {V : Type} (k : string) (v : V) (o : Obj.t V) : Obj.t V :=
match Obj.get k o with
| Some _ => Obj.set k v o
| None => if String.eqb k "__proto__" then o else Obj.set k v o
end.

(** [socket.on('joinGame', ..)] with the lookups and the assignment of the
    source; [None] when the handler throws.  When [games[gameId]] is a member
    of [Object.prototype] the test [!games[gameId]] fails, [.players] is
    [undefined] and [.includes] throws a [TypeError]. *)
Definition joinGame (socketName : option string) (gameId playerName : string)
  (sv : Server) : option (Server * option string * list Emit) :=
match get gameId (games sv) with
| Undefined => Some (sv, socketName, replyError "Game not found")
| Inherited => None
| Own game =>
    if includes playerName (players game)
    then Some (sv, socketName, replyError "Name already taken")
    else
      let game1 :=
        set_state Waiting
          (set_points (set playerName 0%Z (points game))
             (set_players (players game ++ [playerName]) game)) in
      Some (mkServer (Obj.set gameId game1 (games sv)) (supply sv),
            Some playerName,
            [(ToRoom gameId, MGameState game1 [])])
end.

End Plain.

(** A key on which the lookup and the assignment of a plain object are those
    of its own properties. *)
Definition ordinaryKey (k : string) : bool := negb (Plain.inherited k).

(** An event whose room identifier and player name are ordinary keys.  (The
    names of a submitted ranking are only compared with the players.) *)
Definition ordinaryEvent (e : Event) : bool :=
match e with
| OnCreateGame _ gameId playerName => ordinaryKey gameId && ordinaryKey playerName
| OnJoinGame _ gameId playerName => ordinaryKey gameId && ordinaryKey playerName
| OnStartGame _ _ gameId => ordinaryKey gameId
| OnSubmitRanking _ _ gameId _ => ordinaryKey gameId
| OnSubmitGuess _ gameId _ => ordinaryKey gameId
| OnNextReveal _ _ gameId => ordinaryKey gameId
| OnDisconnect _ => true
end.

(** The room identifiers and the player names of the server are ordinary
    keys: no lookup or assignment of a handler on a room of the server meets
    an inherited name. *)
Definition ordinaryRooms (sv : Server) : Prop :=
forall gameId g,
  Obj.get gameId (games sv) = Some g ->
  ordinaryKey gameId = true /\ forall p, In p (players g) -> ordinaryKey p = true.

(** ** Guesses that are not integers

    [submitGuess] receives a JavaScript number.  The range test
    [guess < 1 || guess > game.players.length] on a rational number; [true]
    when the guess is refused. *)
Definition outOfRange (players : list string) (guess : Q) : bool :=
negb (Qle_bool 1%Q guess)
|| negb (Qle_bool guess (inject_Z (Z.of_nat (List.length players)))).

(** The numbers that are integers. *)
Definition isInteger (guess : Q) : Prop := exists z : Z, (guess == inject_Z z)%Q.

(** ** More examples of the earlier revision *)

(** An oracle of the earlier revision whose service answers every request
    with the same question. *)
Definition legacyAnswer (question : string) : Legacy.Oracle :=
Legacy.mkOracle (fun _ => Legacy.mkAttempt [] (Some question)) 0.

(** The supply of the earlier revision after a first room has been served a
    generated question: the question is in the cache and in the ledger. *)
Definition servedSupply : Supply :=
Eval vm_compute in
  snd (fst (Legacy.selectQuestion [] true Dice.compareTwoStrings
              (legacyAnswer "Who is the most likely to adopt ten cats?")
              "room" (newGame "A") initialSupply)).

(** A room of three players before its first round. *)
Definition waitingGame : Game :=
Eval vm_compute in
  roomAt "room" (worldAfter [] false Dice.compareTwoStrings (firstn 3 threePlayersGuessing)).

(** A round of the earlier revision in which the service never answers. *)
Definition quietRound : Legacy.Round :=
Legacy.mkRound (fun _ => quietLegacyOracle 0) [] [].

(* ------------------------------------------------------------------------- *)
(** * Properties *)

(** ** Containers *)

Lemma includes_In (x : string) (l : list string) :
  includes x l = true <-> In x l.
Proof.
  unfold includes. rewrite existsb_exists. split.
  - intros [y [Hy Heq]]. apply String.eqb_eq in Heq. now subst.
  - intros H. exists x. split; [assumption | apply String.eqb_refl].
Qed.

Lemma includes_false (x : string) (l : list string) :
  includes x l = false <-> ~ In x l.
Proof.
  rewrite <- includes_In. destruct (includes x l); split; congruence.
Qed.

Module JsSetFacts.

Lemma has_In (x : string) (s : list string) : JsSet.has x s = true <-> In x s.
Proof. exact (includes_In x s). Qed.

Lemma has_false (x : string) (s : list string) : JsSet.has x s = false <-> ~ In x s.
Proof. exact (includes_false x s). Qed.

Lemma add_In (x y : string) (s : list string) :
  In y (JsSet.add x s) <-> y = x \/ In y s.
Proof.
  unfold JsSet.add. destruct (JsSet.has x s) eqn:E.
  - apply has_In in E. split; [now right | intros [-> | H]; assumption].
  - rewrite in_app_iff. simpl. split.
    + intros [H | [H | []]]; [now right | now left].
    + intros [-> | H]; [right; now left | now left].
Qed.

Lemma add_fresh (x : string) (s : list string) :
  ~ In x s -> JsSet.add x s = s ++ [x].
Proof.
  intros H. unfold JsSet.add. apply has_false in H. now rewrite H.
Qed.

Lemma add_incl (x : string) (s : list string) : incl s (JsSet.add x s).
Proof. intros y Hy. apply add_In. now right. Qed.

Lemma addAll_In (qs : list string) : forall (s : list string) (y : string),
  In y (addAll qs s) <-> In y qs \/ In y s.
Proof.
  induction qs as [| q qs IH]; intros s y; simpl.
  - tauto.
  - unfold addAll in *. simpl. rewrite IH, add_In. intuition.
Qed.

Lemma addAll_incl (qs s : list string) : incl s (addAll qs s).
Proof. intros y Hy. apply addAll_In. now right. Qed.

End JsSetFacts.

Module ObjFacts.

Section WithValues.

Context {V : Type}.
Implicit Types (o : Obj.t V) (k : string) (v : V).

Lemma get_set_same k v o : Obj.get k (Obj.set k v o) = Some v.
Proof.
  induction o as [| [k' v'] o IH]; simpl.
  - now rewrite String.eqb_refl.
  - destruct (String.eqb k' k) eqn:E; simpl.
    + now rewrite String.eqb_refl.
    + now rewrite E.
Qed.

Lemma get_set_other k k' v o :
  k' <> k -> Obj.get k' (Obj.set k v o) = Obj.get k' o.
Proof.
  intros Hne. induction o as [| [k0 v0] o IH]; simpl.
  - destruct (String.eqb k k') eqn:E; [| reflexivity].
    apply String.eqb_eq in E. congruence.
  - destruct (String.eqb k0 k) eqn:E; simpl.
    + apply String.eqb_eq in E. subst k0.
      destruct (String.eqb k k') eqn:E'; [| reflexivity].
      apply String.eqb_eq in E'. congruence.
    + now rewrite IH.
Qed.

Lemma get_delete_same k o : Obj.get k (Obj.delete k o) = None.
Proof.
  induction o as [| [k0 v0] o IH]; simpl; [reflexivity |].
  destruct (String.eqb k0 k) eqn:E; simpl; [assumption | now rewrite E].
Qed.

Lemma get_delete_other k k' o :
  k' <> k -> Obj.get k' (Obj.delete k o) = Obj.get k' o.
Proof.
  intros Hne. induction o as [| [k0 v0] o IH]; simpl; [reflexivity |].
  destruct (String.eqb k0 k) eqn:E; simpl.
  - apply String.eqb_eq in E. subst k0.
    destruct (String.eqb k k') eqn:E'; [| assumption].
    apply String.eqb_eq in E'. congruence.
  - now rewrite IH.
Qed.

Lemma get_Some_In k v o : Obj.get k o = Some v -> In (k, v) o.
Proof.
  induction o as [| [k0 v0] o IH]; simpl; [discriminate |].
  destruct (String.eqb k0 k) eqn:E.
  - apply String.eqb_eq in E. intros [= ->]. subst. now left.
  - intros H. right. now apply IH.
Qed.

Lemma get_None_keys k o : Obj.get k o = None <-> ~ In k (Obj.keys o).
Proof.
  induction o as [| [k0 v0] o IH]; simpl.
  - tauto.
  - destruct (String.eqb k0 k) eqn:E.
    + apply String.eqb_eq in E. split; [discriminate | intros H; exfalso; apply H; now left].
    + apply String.eqb_neq in E. rewrite IH. tauto.
Qed.

Lemma get_Some_keys k o : (exists v, Obj.get k o = Some v) <-> In k (Obj.keys o).
Proof.
  destruct (Obj.get k o) as [v |] eqn:E.
  - split; [| intros _; now exists v].
    intros _. destruct (in_dec string_dec k (Obj.keys o)) as [H | H]; [assumption |].
    apply get_None_keys in H. congruence.
  - split; [intros [v Hv]; discriminate |].
    intros H. apply get_None_keys in E. contradiction.
Qed.

Lemma keys_set_old k v o :
  In k (Obj.keys o) -> Obj.keys (Obj.set k v o) = Obj.keys o.
Proof.
  induction o as [| [k0 v0] o IH]; simpl; [tauto |].
  intros H. destruct (String.eqb k0 k) eqn:E; simpl.
  - apply String.eqb_eq in E. now subst.
  - apply String.eqb_neq in E. f_equal. apply IH. destruct H; [contradiction | assumption].
Qed.

Lemma keys_set_new k v o :
  ~ In k (Obj.keys o) -> Obj.keys (Obj.set k v o) = Obj.keys o ++ [k].
Proof.
  induction o as [| [k0 v0] o IH]; simpl; [reflexivity |].
  intros H. destruct (String.eqb k0 k) eqn:E; simpl.
  - apply String.eqb_eq in E. exfalso. apply H. now left.
  - f_equal. apply IH. tauto.
Qed.

Lemma keys_set_In k k' v o :
  In k' (Obj.keys (Obj.set k v o)) <-> k' = k \/ In k' (Obj.keys o).
Proof.
  destruct (in_dec string_dec k (Obj.keys o)) as [H | H].
  - rewrite keys_set_old by assumption. split; [now right | intros [-> | H']; assumption].
  - rewrite keys_set_new by assumption. rewrite in_app_iff. simpl. intuition.
Qed.

Lemma wf_empty : Obj.wf (@Obj.empty V).
Proof. constructor. Qed.

Lemma wf_set k v o : Obj.wf o -> Obj.wf (Obj.set k v o).
Proof.
  unfold Obj.wf. intros Hwf.
  destruct (in_dec string_dec k (Obj.keys o)) as [H | H].
  - now rewrite keys_set_old.
  - rewrite keys_set_new by assumption.
    apply NoDup_app; [assumption | repeat constructor; simpl; tauto |].
    intros x Hx [<- | []]. contradiction.
Qed.

Lemma keys_delete_In k k' o :
  In k' (Obj.keys (Obj.delete k o)) <-> k' <> k /\ In k' (Obj.keys o).
Proof.
  induction o as [| [k0 v0] o IH]; simpl; [tauto |].
  destruct (String.eqb k0 k) eqn:E; simpl.
  - apply String.eqb_eq in E. subst k0. rewrite IH. intuition congruence.
  - apply String.eqb_neq in E. rewrite IH. intuition congruence.
Qed.

Lemma wf_delete k o : Obj.wf o -> Obj.wf (Obj.delete k o).
Proof.
  unfold Obj.wf. induction o as [| [k0 v0] o IH]; simpl; [trivial |].
  intros Hwf. inversion Hwf as [| ? ? Hnin Hnd]; subst.
  destruct (String.eqb k0 k); simpl; [now apply IH |].
  constructor; [| now apply IH].
  intros Hin. apply keys_delete_In in Hin. tauto.
Qed.

(** Writing back the value that is already stored changes nothing. *)
Lemma set_get_same k v o : Obj.get k o = Some v -> Obj.set k v o = o.
Proof.
  induction o as [| [k0 v0] o IH]; simpl; [discriminate |].
  destruct (String.eqb k0 k) eqn:E.
  - apply String.eqb_eq in E. intros [= ->]. now subst.
  - intros H. now rewrite IH.
Qed.

(** A property of every stored value survives an assignment. *)
Lemma Forall_set (P : string * V -> Prop) k v o :
  Forall P o -> P (k, v) -> Forall P (Obj.set k v o).
Proof.
  intros Ho Hv. induction Ho as [| [k0 v0] o Hx Ho IH]; simpl.
  - now constructor.
  - destruct (String.eqb k0 k); constructor; assumption.
Qed.

End WithValues.

End ObjFacts.

(** ** Arrays *)

Lemma indexOf_bounds (x : string) (l : list string) :
  (-1 <= indexOf x l < Z.of_nat (List.length l))%Z.
Proof.
  induction l as [| y l IH]; simpl List.length; simpl indexOf; [lia |].
  destruct (String.eqb y x); [lia |].
  destruct (indexOf x l <? 0)%Z eqn:E; [lia |].
  apply Z.ltb_ge in E. lia.
Qed.

Lemma indexOf_absent (x : string) (l : list string) :
  indexOf x l = (-1)%Z <-> ~ In x l.
Proof.
  induction l as [| y l IH]; simpl; [tauto |].
  destruct (String.eqb y x) eqn:E.
  - apply String.eqb_eq in E. split; [discriminate | intros H; exfalso; apply H; now left].
  - apply String.eqb_neq in E.
    destruct (indexOf x l <? 0)%Z eqn:E'.
    + apply Z.ltb_lt in E'. pose proof (indexOf_bounds x l).
      assert (indexOf x l = (-1)%Z) as H1 by lia. apply IH in H1. tauto.
    + apply Z.ltb_ge in E'. split; [lia |]. intros H.
      assert (~ In x l) as H1 by tauto. apply IH in H1. lia.
Qed.

Lemma indexOf_present (x : string) (l : list string) :
  In x l -> (0 <= indexOf x l < Z.of_nat (List.length l))%Z.
Proof.
  intros H. pose proof (indexOf_bounds x l).
  destruct (Z.eq_dec (indexOf x l) (-1)) as [E | E]; [| lia].
  apply indexOf_absent in E. contradiction.
Qed.

Lemma insertAt_perm {A : Type} (k : nat) (x : A) (l : list A) :
  Permutation (insertAt k x l) (x :: l).
Proof.
  revert k. induction l as [| y l IH]; intros [| k]; simpl; try reflexivity.
  rewrite IH. apply perm_swap.
Qed.

Lemma shuffle_perm {A : Type} (seed : list nat) (l : list A) :
  Permutation (shuffle seed l) l.
Proof.
  revert seed. induction l as [| x l IH]; intros seed; simpl; [reflexivity |].
  destruct seed as [| k seed].
  - now rewrite IH.
  - rewrite insertAt_perm. now rewrite IH.
Qed.

Lemma insertAt_split {A : Type} (x : A) (l1 l2 : list A) :
  insertAt (List.length l1) x (l1 ++ l2) = l1 ++ x :: l2.
Proof.
  induction l1 as [| y l1 IH]; simpl.
  - destruct l2; reflexivity.
  - now rewrite IH.
Qed.

(** Every rearrangement of [l] is the outcome of some seed. *)
Lemma shuffle_complete {A : Type} (l l' : list A) :
  Permutation l l' -> exists seed, shuffle seed l = l'.
Proof.
  revert l'. induction l as [| x l IH]; intros l' Hp.
  - apply Permutation_nil in Hp. subst. now exists [].
  - assert (In x l') as Hin by (eapply Permutation_in; [exact Hp | now left]).
    apply in_split in Hin. destruct Hin as [l1 [l2 ->]].
    apply Permutation_cons_app_inv in Hp.
    destruct (IH _ Hp) as [seed Hs].
    exists (List.length l1 :: seed). simpl. rewrite Hs. apply insertAt_split.
Qed.

Lemma insertDesc_perm (key : string -> Z) (x : string) (l : list string) :
  Permutation (insertDesc key x l) (x :: l).
Proof.
  induction l as [| y l IH]; simpl; [reflexivity |].
  destruct (key x <? key y)%Z; [| reflexivity].
  rewrite IH. apply perm_swap.
Qed.

Lemma sortDesc_perm (key : string -> Z) (l : list string) :
  Permutation (sortDesc key l) l.
Proof.
  induction l as [| x l IH]; simpl; [reflexivity |].
  rewrite insertDesc_perm. now rewrite IH.
Qed.

Lemma removeFirst_perm (x : string) (l : list string) :
  In x l -> Permutation l (x :: removeFirst x l).
Proof.
  induction l as [| y l IH]; simpl; [tauto |].
  destruct (String.eqb y x) eqn:E.
  - apply String.eqb_eq in E. now subst.
  - apply String.eqb_neq in E. intros [H | H]; [contradiction |].
    rewrite (IH H) at 1. apply perm_swap.
Qed.

Lemma removeFirst_NoDup (x : string) (l : list string) :
  NoDup l -> In x l -> NoDup (removeFirst x l) /\ ~ In x (removeFirst x l).
Proof.
  intros Hnd Hin.
  assert (NoDup (x :: removeFirst x l)) as H.
  { eapply Permutation_NoDup; [apply removeFirst_perm; exact Hin | exact Hnd]. }
  inversion H; subst. tauto.
Qed.

Lemma removeFirst_In (x y : string) (l : list string) :
  In y (removeFirst x l) -> In y l.
Proof.
  induction l as [| z l IH]; simpl; [tauto |].
  destruct (String.eqb z x); simpl; intuition.
Qed.

Lemma removeFirst_other (x y : string) (l : list string) :
  y <> x -> In y l -> In y (removeFirst x l).
Proof.
  intros Hne. induction l as [| z l IH]; simpl; [tauto |].
  destruct (String.eqb z x) eqn:E.
  - apply String.eqb_eq in E. subst. intros [H | H]; [congruence | assumption].
  - simpl. intuition.
Qed.

(* ------------------------------------------------------------------------- *)
(** ** Joining a room *)

Lemma ordinaryKey_proto (k : string) :
  ordinaryKey k = true -> String.eqb k "__proto__" = false.
Proof.
  unfold ordinaryKey, Plain.inherited, includes, Plain.inheritedNames.
  cbn [existsb]. destruct (String.eqb k "__proto__"); [discriminate | reflexivity].
Qed.

Lemma ordinaryKey_inherited (k : string) :
  ordinaryKey k = true -> Plain.inherited k = false.
Proof. unfold ordinaryKey. now destruct (Plain.inherited k). Qed.

(** On ordinary keys the lookup and the assignment of a plain object are
    those of its own properties. *)
Lemma Plain_get_ordinary {V : Type} (k : string) (o : Obj.t V) :
  ordinaryKey k = true ->
  Plain.get k o = match Obj.get k o with
                  | Some v => Plain.Own v
                  | None => Plain.Undefined
                  end.
Proof.
  intros Hk. unfold Plain.get. now rewrite (ordinaryKey_inherited k Hk).
Qed.

Lemma Plain_set_ordinary {V : Type} (k : string) (v : V) (o : Obj.t V) :
  ordinaryKey k = true -> Plain.set k v o = Obj.set k v o.
Proof.
  intros Hk. unfold Plain.set. rewrite (ordinaryKey_proto k Hk).
  now destruct (Obj.get k o).
Qed.

(** When neither the room identifier nor the name of the player is a
    property name that plain objects inherit, the handler of the source
    ([Plain.joinGame]) is [joinGame], which looks at the room registry and at
    the list of players only, never at the phase.  For a room that exists, in
    whatever phase, and a name that is not yet in [players], the join
    succeeds: the name is appended to [players], gets the points entry 0, the
    phase is set to [Waiting], no other field of the room changes, and the
    new state is broadcast to the room.  A join is rejected exactly when the
    room is unknown or the name is already taken, and a rejected join changes
    nothing. *)
Lemma joinGame_any_phase :
  forall (sv : Server) (socketName : option string) (gameId playerName : string),
    ordinaryKey gameId = true ->
    ordinaryKey playerName = true ->
    Plain.joinGame socketName gameId playerName sv
    = Some (joinGame socketName gameId playerName sv)
    /\
    (forall game : Game,
        Obj.get gameId (games sv) = Some game ->
        ~ In playerName (players game) ->
        exists game' : Game,
          joinGame socketName gameId playerName sv
          = (mkServer (Obj.set gameId game' (games sv)) (supply sv),
             Some playerName,
             [(ToRoom gameId, MGameState game' [])])
          /\ Obj.get gameId (Obj.set gameId game' (games sv)) = Some game'
          /\ players game' = players game ++ [playerName]
          /\ Obj.get playerName (points game') = Some 0%Z
          /\ (forall p, p <> playerName ->
                        Obj.get p (points game') = Obj.get p (points game))
          /\ state game' = Waiting
          /\ game'
             = set_state Waiting
                 (set_points (points game') (set_players (players game') game)))
    /\ ((exists text, snd (joinGame socketName gameId playerName sv) = replyError text)
        <-> (Obj.get gameId (games sv) = None
             \/ exists game, Obj.get gameId (games sv) = Some game
                             /\ In playerName (players game)))
    /\ ((exists text, snd (joinGame socketName gameId playerName sv) = replyError text)
        -> fst (joinGame socketName gameId playerName sv) = (sv, socketName)).
Proof.
  intros sv socketName gameId playerName Hid Hname. split.
  { unfold Plain.joinGame, joinGame. rewrite (Plain_get_ordinary _ _ Hid).
    destruct (Obj.get gameId (games sv)) as [game |]; [| reflexivity].
    destruct (includes playerName (players game)); [reflexivity |].
    now rewrite (Plain_set_ordinary _ _ _ Hname). }
  unfold joinGame.
  destruct (Obj.get gameId (games sv)) as [game |] eqn:Hget.
  - destruct (includes playerName (players game)) eqn:Hinc.
    + apply includes_In in Hinc. repeat split.
      * intros game0 [= <-] Hnot. contradiction.
      * intros _. right. now exists game.
      * intros _. now exists "Name already taken".
    + apply includes_false in Hinc. repeat split.
      * intros game0 [= <-] _. eexists. split; [reflexivity |].
        split; [apply ObjFacts.get_set_same |].
        split; [reflexivity |].
        split; [apply ObjFacts.get_set_same |].
        split; [intros p Hp; now apply ObjFacts.get_set_other |].
        split; reflexivity.
      * intros [text Ht]. simpl in Ht. discriminate.
      * intros [[=] | [game0 [[= <-] Hin]]]. contradiction.
      * intros [text Ht]. simpl in Ht. discriminate.
  - repeat split.
    + intros game [=].
    + intros _. now left.
    + intros _. now exists "Game not found".
Qed.

(** [C10] (failing inputs) A room of three players, in the guessing phase.
    A join under the name ["__proto__"], which is not in [players], is
    accepted: the name is appended to [players] and the phase is reset to
    [Waiting], but [points] is left as it was, without an entry for the new
    player (the assignment [points["__proto__"] = 0] creates no property).
    And a join to the room ["constructor"], which does not exist, is not
    answered with an error: the handler throws. *)
Theorem joinGame_misses_inherited_names :
  Obj.get "room" (games threePlayersServer) = Some threePlayersGame
  /\ state threePlayersGame = Guessing
  /\ ~ In "__proto__" (players threePlayersGame)
  /\ (exists game' : Game,
        Plain.joinGame None "room" "__proto__" threePlayersServer
        = Some (mkServer (Obj.set "room" game' (games threePlayersServer))
                  (supply threePlayersServer),
                Some "__proto__",
                [(ToRoom "room", MGameState game' [])])
        /\ players game' = players threePlayersGame ++ ["__proto__"]
        /\ state game' = Waiting
        /\ points game' = points threePlayersGame
        /\ Obj.keys (points game') = ["A"; "B"; "C"]
        /\ Obj.get "__proto__" (points game') = None)
  /\ Obj.get "constructor" (games threePlayersServer) = None
  /\ Plain.joinGame None "constructor" "D" threePlayersServer = None.
Proof.
  split; [reflexivity |]. split; [reflexivity |]. split.
  { simpl. intros [H | [H | [H | []]]]; discriminate H. }
  split; [| split; reflexivity].
  eexists. split; [reflexivity |]. repeat split.
Qed.

(* ------------------------------------------------------------------------- *)
(** ** Scoring *)

Lemma pointsOf_set (pts : Obj.t Z) (k p : string) (v : Z) :
  pointsOf (Obj.set k v pts) p = if String.eqb p k then v else pointsOf pts p.
Proof.
  unfold pointsOf. destruct (String.eqb p k) eqn:E.
  - apply String.eqb_eq in E. subst. now rewrite ObjFacts.get_set_same.
  - apply String.eqb_neq in E. now rewrite ObjFacts.get_set_other.
Qed.

Lemma awardGuesser_eq (guesses : Obj.t Z) (position : option Z)
  (acc : Obj.t Z * Z) (guesser : string) :
  awardGuesser guesses position acc guesser
  = if correctGuess guesses position guesser
    then (Obj.set guesser (pointsOf (fst acc) guesser + 1)%Z (fst acc), (snd acc + 1)%Z)
    else acc.
Proof.
  unfold awardGuesser, correctGuess.
  destruct (Obj.get guesser guesses); [| reflexivity].
  destruct position; reflexivity.
Qed.

(** The loop over the guessers: every listed guesser with a correct guess
    gains one point, nobody else is touched, and the counter counts them. *)
Lemma award_loop (guesses : Obj.t Z) (position : option Z) :
  forall (ks : list string) (pts : Obj.t Z) (c : Z),
    NoDup ks ->
    let r := fold_left (awardGuesser guesses position) ks (pts, c) in
    snd r = (c + Z.of_nat (List.length (filter (correctGuess guesses position) ks)))%Z
    /\ (forall p, In p ks -> correctGuess guesses position p = true ->
                  pointsOf (fst r) p = (pointsOf pts p + 1)%Z)
    /\ (forall p, ~ (In p ks /\ correctGuess guesses position p = true) ->
                  Obj.get p (fst r) = Obj.get p pts).
Proof.
  induction ks as [| k ks IH]; intros pts c Hnd; simpl.
  - repeat split; [lia | tauto].
  - inversion Hnd as [| ? ? Hk Hks]; subst.
    rewrite awardGuesser_eq. simpl fst. simpl snd.
    destruct (correctGuess guesses position k) eqn:Ek.
    + destruct (IH (Obj.set k (pointsOf pts k + 1)%Z pts) (c + 1)%Z Hks) as [Hc [Hyes Hno]].
      repeat split.
      * rewrite Hc. simpl List.length. lia.
      * intros p [<- | Hp] Hcorrect.
        -- unfold pointsOf at 1. rewrite Hno by tauto.
           rewrite ObjFacts.get_set_same. reflexivity.
        -- rewrite (Hyes p Hp Hcorrect), pointsOf_set.
           destruct (String.eqb p k) eqn:E; [| reflexivity].
           apply String.eqb_eq in E. subst. contradiction.
      * intros p Hp. rewrite Hno by tauto.
        apply ObjFacts.get_set_other. intros ->. apply Hp. split; [now left | assumption].
    + destruct (IH pts c Hks) as [Hc [Hyes Hno]].
      repeat split.
      * exact Hc.
      * intros p [<- | Hp] Hcorrect; [congruence | now apply Hyes].
      * intros p Hp. apply Hno. tauto.
Qed.

Lemma correctGuess_Some (guesses : Obj.t Z) (actual : Z) (p : string) :
  correctGuess guesses (Some actual) p = true <-> Obj.get p guesses = Some actual.
Proof.
  unfold correctGuess. destruct (Obj.get p guesses) as [g |]; [| split; discriminate].
  rewrite Z.eqb_eq. split; congruence.
Qed.

(** What "Award points" does to the points of every name. *)
Lemma scoreReveal_points (game : Game) (ranker : string) (actual : Z) :
  currentRanker game = Some ranker ->
  actualPosition game = Some actual ->
  Obj.wf (currentGuesses game) ->
  Obj.get ranker (currentGuesses game) = None ->
  let pts' := points (scoreReveal game) in
  (forall p, Obj.get p (currentGuesses game) = Some actual ->
             pointsOf pts' p = (pointsOf (points game) p + 1)%Z)
  /\ pointsOf pts' ranker
     = (pointsOf (points game) ranker
        + Z.min (correctGuessCount (currentGuesses game) (Some actual)) 3)%Z
  /\ (forall p, p <> ranker -> Obj.get p (currentGuesses game) <> Some actual ->
                Obj.get p pts' = Obj.get p (points game)).
Proof.
  intros Hr Ha Hwf Hnone. unfold scoreReveal. rewrite Hr, Ha. simpl keyOf.
  unfold awardGuessers.
  pose proof (award_loop (currentGuesses game) (Some actual)
                (Obj.keys (currentGuesses game)) (points game) 0%Z Hwf) as H.
  destruct (fold_left (awardGuesser (currentGuesses game) (Some actual))
              (Obj.keys (currentGuesses game)) (points game, 0%Z)) as [pts1 c] eqn:E.
  simpl in H. destruct H as [Hc [Hyes Hno]]. simpl.
  assert (Hrk : Obj.get ranker pts1 = Obj.get ranker (points game)).
  { apply Hno. intros [_ Hcorrect]. apply correctGuess_Some in Hcorrect. congruence. }
  repeat split.
  - intros p Hp. rewrite pointsOf_set.
    destruct (String.eqb p ranker) eqn:Ep.
    + apply String.eqb_eq in Ep. subst. congruence.
    + apply Hyes.
      * apply ObjFacts.get_Some_keys. now exists actual.
      * now apply correctGuess_Some.
  - rewrite pointsOf_set, String.eqb_refl. unfold pointsOf at 1 2. rewrite Hrk.
    unfold correctGuessCount. rewrite Hc. reflexivity.
  - intros p Hp Hwrong. rewrite ObjFacts.get_set_other by assumption.
    apply Hno. intros [_ Hcorrect]. apply correctGuess_Some in Hcorrect. contradiction.
Qed.

Lemma filter_length_perm {A : Type} (f : A -> bool) (l l' : list A) :
  Permutation l l' -> List.length (filter f l) = List.length (filter f l').
Proof.
  induction 1 as [| x l l' _ IH | x y l | l l' l'' _ IH1 _ IH2]; simpl.
  - reflexivity.
  - destruct (f x); simpl; congruence.
  - destruct (f x), (f y); reflexivity.
  - congruence.
Qed.

(** Two objects with the same content have the same keys, up to order. *)
Lemma same_content_keys {V : Type} (o1 o2 : Obj.t V) :
  Obj.wf o1 -> Obj.wf o2 ->
  (forall p, Obj.get p o1 = Obj.get p o2) ->
  Permutation (Obj.keys o1) (Obj.keys o2).
Proof.
  intros H1 H2 Hsame. apply NoDup_Permutation; [assumption | assumption |].
  intros p. rewrite <- !ObjFacts.get_Some_keys. now rewrite Hsame.
Qed.

(** The count of correct guesses depends on the recorded guesses only,
    not on the order in which they were recorded. *)
Lemma correctGuessCount_content (guesses1 guesses2 : Obj.t Z) (position : option Z) :
  Obj.wf guesses1 -> Obj.wf guesses2 ->
  (forall p, Obj.get p guesses1 = Obj.get p guesses2) ->
  correctGuessCount guesses1 position = correctGuessCount guesses2 position.
Proof.
  intros H1 H2 Hsame. unfold correctGuessCount. f_equal.
  rewrite (filter_length_perm _ _ _ (same_content_keys _ _ H1 H2 Hsame)).
  f_equal. apply filter_ext. intros p. unfold correctGuess. now rewrite Hsame.
Qed.

Lemma sameName_true (a b : string) : sameName (Some a) (Some b) = true <-> a = b.
Proof. simpl. apply String.eqb_eq. Qed.

Lemma sameName_false (a b : string) : sameName (Some a) (Some b) = false <-> a <> b.
Proof. simpl. apply String.eqb_neq. Qed.

(** [scoreReveal] writes [points] and [players] only. *)
Lemma scoreReveal_shape (game : Game) :
  scoreReveal game
  = set_players (sortDesc (pointsOf (points (scoreReveal game))) (players game))
      (set_points (points (scoreReveal game)) game).
Proof.
  unfold scoreReveal.
  destruct (awardGuessers (currentGuesses game) (actualPosition game) (points game)).
  reflexivity.
Qed.

(** What [submitGuess] does to the points of a room in the guessing phase
    whose guesses so far do not include the ranker: either the room stays in
    the guessing phase and no points change, or it moves to the reveal phase
    and the points change by the scoring rule, computed from the guesses
    recorded at that moment. *)
Lemma submitGuess_scores :
  forall (sv : Server) (socketName : option string) (gameId : string) (guess : Z)
         (game : Game) (ranker : string) (actual : Z),
    Obj.get gameId (games sv) = Some game ->
    state game = Guessing ->
    currentRanker game = Some ranker ->
    actualPosition game = Some actual ->
    Obj.wf (currentGuesses game) ->
    Obj.get ranker (currentGuesses game) = None ->
    let sv' := fst (submitGuess socketName gameId guess sv) in
    exists game' : Game,
      Obj.get gameId (games sv') = Some game'
      /\ ((state game' = Guessing /\ points game' = points game)
          \/ (state game' = Reveal
              /\ (let guesses := currentGuesses game' in
                  (forall p, Obj.get p guesses = Some actual ->
                             pointsOf (points game') p
                             = (pointsOf (points game) p + 1)%Z)
                  /\ pointsOf (points game') ranker
                     = (pointsOf (points game) ranker
                        + Z.min (correctGuessCount guesses (Some actual)) 3)%Z
                  /\ (forall p, p <> ranker -> Obj.get p guesses <> Some actual ->
                                Obj.get p (points game') = Obj.get p (points game))
                  /\ (forall guesses2 : Obj.t Z,
                         Obj.wf guesses2 ->
                         (forall p, Obj.get p guesses2 = Obj.get p guesses) ->
                         correctGuessCount guesses2 (Some actual)
                         = correctGuessCount guesses (Some actual)))
              /\ (forall socketName2 guess2,
                     submitGuess socketName2 gameId guess2 sv' = (sv', [])))).
Proof.
  intros sv socketName gameId guess game ranker actual Hget Hstate Hr Ha Hwf Hnone.
  unfold submitGuess. rewrite Hget.
  destruct socketName as [name |]; [| exists game; simpl; tauto].
  destruct (includes name (players game)); simpl negb; cbv iota;
    [| exists game; simpl; tauto].
  rewrite Hstate, Hr.
  destruct (sameName (Some name) (Some ranker)) eqn:Esame; [exists game; simpl; tauto |].
  apply sameName_false in Esame.
  destruct ((guess <? 1)%Z || (Z.of_nat (List.length (players game)) <? guess)%Z);
    [exists game; simpl; tauto |].
  set (game1 := set_currentGuesses (Obj.set name guess (currentGuesses game)) game).
  assert (Hwf1 : Obj.wf (currentGuesses game1)) by (apply ObjFacts.wf_set; exact Hwf).
  assert (Hnone1 : Obj.get ranker (currentGuesses game1) = None).
  { simpl. rewrite ObjFacts.get_set_other; [exact Hnone | congruence]. }
  destruct (List.length (Obj.keys (currentGuesses game1))
            =? List.length (nonRankerPlayers game1)).
  - eexists. simpl fst. simpl games. split; [apply ObjFacts.get_set_same |].
    right. split; [reflexivity |].
    destruct (scoreReveal_points game1 ranker actual Hr Ha Hwf1 Hnone1)
      as [Hyes [Hrk Hno]].
    rewrite (scoreReveal_shape game1). simpl currentGuesses. simpl points.
    split; [split; [exact Hyes | split; [exact Hrk | split; [exact Hno |]]] |].
    + intros guesses2 Hwf2 Hsame.
      now apply correctGuessCount_content.
    + intros socketName2 guess2. unfold submitGuess. simpl games.
      rewrite ObjFacts.get_set_same.
      destruct socketName2 as [name2 |]; [| reflexivity].
      simpl state. now destruct (negb _).
  - eexists. simpl fst. simpl games. split; [apply ObjFacts.get_set_same |].
    left. split; [exact Hstate | reflexivity].
Qed.

(* ------------------------------------------------------------------------- *)
(** ** Question supply: what each loop adds to the ledger *)

Lemma freshSeq_app (ledger a b : list string) :
  freshSeq ledger (a ++ b) <-> freshSeq ledger a /\ freshSeq (ledger ++ a) b.
Proof.
  revert ledger. induction a as [| q a IH]; intros ledger; simpl.
  - rewrite app_nil_r. tauto.
  - rewrite IH. rewrite <- app_assoc. simpl. tauto.
Qed.

Lemma freshSeq_NoDup (ledger new : list string) :
  freshSeq ledger new -> NoDup new /\ (forall q, In q new -> ~ In q ledger).
Proof.
  revert ledger. induction new as [| q new IH]; intros ledger; simpl.
  - intros _. split; [constructor | tauto].
  - intros [Hq Hrest]. destruct (IH _ Hrest) as [Hnd Hout]. split.
    + constructor; [| assumption].
      intros Hin. apply (Hout q Hin). apply in_or_app. right. now left.
    + intros x [<- | Hx]; [assumption |].
      intros Hl. apply (Hout x Hx). apply in_or_app. now left.
Qed.

Lemma addAll_app (a b s : list string) : addAll (a ++ b) s = addAll b (addAll a s).
Proof. unfold addAll. apply fold_left_app. Qed.

(** Adding a fresh sequence to a set appends it. *)
Lemma addAll_fresh (new : list string) : forall ledger : list string,
  freshSeq ledger new -> addAll new ledger = ledger ++ new.
Proof.
  induction new as [| q new IH]; intros ledger; simpl.
  - intros _. now rewrite app_nil_r.
  - intros [Hq Hrest]. unfold addAll in *. simpl.
    rewrite JsSetFacts.add_fresh by assumption.
    rewrite IH by assumption. now rewrite <- app_assoc.
Qed.

(** The cache drain appends a fresh sequence [new], taken from the cache, to
    the ledger and to [cachedQuestions]. *)
Lemma drainCache_spec (numQuestions : nat) :
  forall cache used ledger cached : list string,
  exists cache' new : list string,
    drainCache numQuestions cache used ledger cached
    = (cache', addAll new used, ledger ++ new, cached ++ new)
    /\ freshSeq ledger new
    /\ incl new cache
    /\ incl cache' cache.
Proof.
  induction cache as [| c cache IH]; intros used ledger cached; simpl.
  - exists [], []. rewrite !app_nil_r. repeat split; try easy.
  - destruct (List.length cached <? numQuestions).
    + destruct (JsSet.has c used) eqn:Eu; simpl.
      * destruct (IH used ledger cached) as [cache' [new [Heq [Hf [Hi Hc]]]]].
        exists cache', new. rewrite Heq. repeat split; try assumption.
        -- intros x Hx. right. now apply Hi.
        -- intros x Hx. right. now apply Hc.
      * destruct (JsSet.has c ledger) eqn:El; simpl.
        -- destruct (IH used ledger cached) as [cache' [new [Heq [Hf [Hi Hc]]]]].
           exists cache', new. rewrite Heq. repeat split; try assumption.
           ++ intros x Hx. right. now apply Hi.
           ++ intros x Hx. right. now apply Hc.
        -- apply JsSetFacts.has_false in El.
           destruct (IH (JsSet.add c used) (JsSet.add c ledger) (cached ++ [c]))
             as [cache' [new [Heq [Hf [Hi Hc]]]]].
           rewrite (JsSetFacts.add_fresh c ledger El) in Heq, Hf |- *.
           exists cache', (c :: new). rewrite Heq.
           rewrite <- !app_assoc. simpl. repeat split; try assumption.
           ++ intros x [<- | Hx]; [now left | right; now apply Hi].
           ++ intros x Hx. right. now apply Hc.
    + exists (c :: cache), []. rewrite !app_nil_r. repeat split; easy.
Qed.

(** A cache whose strings are all in the ledger yields nothing, and is
    emptied by any request for at least one question. *)
Lemma drainCache_stale (numQuestions : nat) :
  forall cache used ledger : list string,
    incl cache ledger ->
    0 < numQuestions ->
    drainCache numQuestions cache used ledger [] = ([], used, ledger, []).
Proof.
  induction cache as [| c cache IH]; intros used ledger Hincl Hn; simpl.
  - reflexivity.
  - destruct numQuestions as [| n]; [lia |]. simpl.
    assert (JsSet.has c ledger = true) as ->.
    { apply JsSetFacts.has_In. apply Hincl. now left. }
    rewrite andb_false_r. apply IH; [| lia].
    intros x Hx. apply Hincl. now right.
Qed.

Section SupplyFacts.

Variable questionPool : list string.
Variable GROQ_API_KEY : bool.
Variable compareTwoStrings : string -> string -> Q.

Lemma tooSimilar_false (q e : string) :
  tooSimilar compareTwoStrings q e = false <-> (compareTwoStrings q e <= 7 # 10)%Q.
Proof.
  unfold tooSimilar. rewrite negb_false_iff. apply Qle_bool_iff.
Qed.

Lemma admitted_app (ledger a b : list string) :
  admitted compareTwoStrings ledger (a ++ b)
  <-> admitted compareTwoStrings ledger a
      /\ admitted compareTwoStrings (ledger ++ a) b.
Proof.
  revert ledger. induction a as [| q a IH]; intros ledger; simpl.
  - rewrite app_nil_r. tauto.
  - rewrite IH. rewrite <- app_assoc. simpl. tauto.
Qed.

Lemma admitted_freshSeq (ledger new : list string) :
  admitted compareTwoStrings ledger new -> freshSeq ledger new.
Proof.
  revert ledger. induction new as [| q new IH]; intros ledger; simpl; [trivial |].
  intros [Hq [_ Hrest]]. split; [assumption | now apply IH].
Qed.

(** The validation loop appends to the ledger and to [validQuestions] a
    sequence [new] of candidates that all passed the duplicate test and the
    similarity test. *)
Lemma validateCandidates_spec :
  forall newQuestions used ledger valid : list string,
  exists new : list string,
    validateCandidates compareTwoStrings newQuestions used ledger valid
    = (addAll new used, ledger ++ new, valid ++ new)
    /\ admitted compareTwoStrings ledger new
    /\ incl new newQuestions.
Proof.
  induction newQuestions as [| q rest IH]; intros used ledger valid; simpl.
  - exists []. rewrite !app_nil_r. repeat split; easy.
  - destruct (IH used ledger valid) as [new0 [Heq0 [Had0 Hin0]]].
    assert (Hskip :
      exists new : list string,
        validateCandidates compareTwoStrings rest used ledger valid
        = (addAll new used, ledger ++ new, valid ++ new)
        /\ admitted compareTwoStrings ledger new
        /\ incl new (q :: rest)).
    { exists new0. repeat split; try assumption. intros x Hx. right. now apply Hin0. }
    destruct (JsSet.has q used || JsSet.has q ledger) eqn:Edup; [exact Hskip |].
    destruct (existsb (tooSimilar compareTwoStrings q) ledger) eqn:Esim; [exact Hskip |].
    apply orb_false_iff in Edup. destruct Edup as [_ El].
    apply JsSetFacts.has_false in El.
    rewrite (JsSetFacts.add_fresh q ledger El).
    destruct (IH (JsSet.add q used) (ledger ++ [q]) (valid ++ [q]))
      as [new [Heq [Had Hin]]].
    exists (q :: new). rewrite Heq, <- !app_assoc. simpl.
    repeat split; try assumption.
    + intros e He. apply tooSimilar_false.
      rewrite <- not_true_iff_false in Esim. destruct (tooSimilar compareTwoStrings q e) eqn:E;
        [| reflexivity].
      exfalso. apply Esim. apply existsb_exists. now exists e.
    + intros x [<- | Hx]; [now left | right; now apply Hin].
Qed.

(** The retry loop: all that reaches the ledger passed the validation, the
    cache only receives validated strings, and a list returned from inside
    the loop has the requested length and is made of [cachedQuestions]
    followed by distinct validated strings. *)
Lemma generate_spec (o : Oracle) (numQuestions questionsNeeded : nat)
  (cachedQuestions : list string) :
  forall (fuel attempt : nat) (used : list string) (s : Supply),
  exists new : list string,
    let r := generate compareTwoStrings fuel attempt o numQuestions questionsNeeded
               cachedQuestions used s in
    snd (fst r) = addAll new used
    /\ globalUsedQuestions (snd r) = globalUsedQuestions s ++ new
    /\ admitted compareTwoStrings (globalUsedQuestions s) new
    /\ incl (questionCache (snd r)) (questionCache s ++ new)
    /\ Permutation (fallbackQuestions (snd r)) (fallbackQuestions s)
    /\ (forall qs, fst (fst r) = Some qs ->
          List.length qs = numQuestions
          /\ exists part, qs = firstn numQuestions (cachedQuestions ++ part)
                          /\ NoDup part /\ incl part new).
Proof.
  induction fuel as [| fuel IH]; intros attempt used s.
  - exists []. simpl. rewrite app_nil_r. repeat split; try easy.
    intros x Hx. now rewrite app_nil_r.
  - cbn [generate].
    set (s1 := mkSupply (globalUsedQuestions s) (questionCache s)
                 (shuffle (exampleSeed (attempts o attempt)) (fallbackQuestions s))).
    assert (Hretry :
      exists new : list string,
        let r := generate compareTwoStrings fuel (S attempt) o numQuestions
                   questionsNeeded cachedQuestions used s1 in
        snd (fst r) = addAll new used
        /\ globalUsedQuestions (snd r) = globalUsedQuestions s ++ new
        /\ admitted compareTwoStrings (globalUsedQuestions s) new
        /\ incl (questionCache (snd r)) (questionCache s ++ new)
        /\ Permutation (fallbackQuestions (snd r)) (fallbackQuestions s)
        /\ (forall qs, fst (fst r) = Some qs ->
              List.length qs = numQuestions
              /\ exists part, qs = firstn numQuestions (cachedQuestions ++ part)
                              /\ NoDup part /\ incl part new)).
    { destruct (IH (S attempt) used s1) as [new [H1 [H2 [H3 [H4 [H5 H6]]]]]].
      exists new. cbv zeta in *. repeat split; try assumption.
      - rewrite H5. apply shuffle_perm.
      - now apply H6.
      - now apply H6. }
    destruct (response (attempts o attempt)) as [newQuestions |]; [| exact Hretry].
    destruct (negb (wellFormedAnswer questionsNeeded newQuestions)); [exact Hretry |].
    clear Hretry.
    destruct (validateCandidates_spec newQuestions used (globalUsedQuestions s1) [])
      as [valid [Heq [Had Hin]]].
    rewrite Heq. simpl app. cbv beta iota zeta.
    destruct (freshSeq_NoDup _ _ (admitted_freshSeq _ _ Had)) as [Hnd _].
    set (cache' := if questionsNeeded <? List.length valid
                   then questionCache s1 ++ skipn questionsNeeded valid
                   else questionCache s1).
    assert (Hcache : incl cache' (questionCache s ++ valid)).
    { unfold cache'. destruct (questionsNeeded <? List.length valid); simpl.
      - intros x Hx. apply in_app_or in Hx. apply in_or_app.
        destruct Hx as [Hx | Hx]; [now left | right].
        rewrite <- (firstn_skipn questionsNeeded valid). apply in_or_app. now right.
      - apply incl_appl, incl_refl. }
    destruct (negb (List.length (cachedQuestions ++ firstn questionsNeeded valid)
                    <? numQuestions)) eqn:Eenough.
    + exists valid. cbv zeta. simpl. repeat split; try assumption.
      * apply shuffle_perm.
      * injection H as <-. apply firstn_length_le.
        apply negb_true_iff, Nat.ltb_ge in Eenough. exact Eenough.
      * injection H as <-. exists (firstn questionsNeeded valid).
        split; [reflexivity |]. split.
        -- rewrite <- (firstn_skipn questionsNeeded valid) in Hnd.
           now apply NoDup_app_remove_r in Hnd.
        -- intros x Hx. rewrite <- (firstn_skipn questionsNeeded valid).
           apply in_or_app. now left.
    + destruct (IH (S attempt) (addAll valid used)
                  (mkSupply (globalUsedQuestions s1 ++ valid) cache' (fallbackQuestions s1)))
        as [new [H1 [H2 [H3 [H4 [H5 H6]]]]]].
      exists (valid ++ new). unfold cache' in *. clear cache'. cbv zeta in *. simpl in *.
      repeat split.
      * rewrite H1. symmetry. apply addAll_app.
      * rewrite H2. now rewrite <- app_assoc.
      * apply admitted_app. split; assumption.
      * intros x Hx. apply H4 in Hx. apply in_app_or in Hx.
        destruct Hx as [Hx | Hx].
        -- apply Hcache in Hx. apply in_app_or in Hx. apply in_or_app.
           destruct Hx; [now left | right; apply in_or_app; now left].
        -- apply in_or_app. right. apply in_or_app. now right.
      * rewrite H5. apply shuffle_perm.
      * now apply H6.
      * destruct (H6 qs H) as [_ [part [Hp1 [Hp2 Hp3]]]].
        exists part. repeat split; try assumption.
        intros x Hx. apply in_or_app. right. now apply Hp3.
Qed.

Lemma NoDup_firstn {A : Type} (n : nat) (l : list A) : NoDup l -> NoDup (firstn n l).
Proof.
  intros H. rewrite <- (firstn_skipn n l) in H. now apply NoDup_app_remove_r in H.
Qed.

Lemma firstn_In {A : Type} (n : nat) (l : list A) (x : A) : In x (firstn n l) -> In x l.
Proof.
  intros H. rewrite <- (firstn_skipn n l). apply in_or_app. now left.
Qed.

Lemma unusedIn_In (used ledger source : list string) (q : string) :
  In q (unusedIn used ledger source) <-> In q source /\ ~ In q used /\ ~ In q ledger.
Proof.
  clear compareTwoStrings.
  unfold unusedIn. rewrite filter_In, andb_true_iff, !negb_true_iff.
  rewrite !JsSetFacts.has_false. tauto.
Qed.

(** [selectFromQuestionPool] either fails, changing nothing and broadcasting
    a copy of the room flagged [noMoreQuestions], or returns exactly
    [numQuestions] strings that were in neither used-set, and records them in
    both. *)
Lemma selectFromQuestionPool_spec (seed : list nat) (gameId : string) (game : Game)
  (numQuestions : nat) (s : Supply) :
  let used := usedQuestions game in
  let ledger := globalUsedQuestions s in
  let combined := unusedIn used ledger questionPool
                  ++ unusedIn used ledger (fallbackQuestions s) in
  let r := selectFromQuestionPool questionPool seed gameId game numQuestions s in
  (List.length combined < numQuestions
   /\ r = ([], game, s,
           [(ToRoom gameId, MGameState (set_noMoreQuestions true game) [])]))
  \/ (numQuestions <= List.length combined
      /\ exists qs : list string,
           r = (qs, set_usedQuestions (addAll qs used) game,
                mkSupply (addAll qs ledger) (questionCache s) (fallbackQuestions s), [])
           /\ List.length qs = numQuestions
           /\ (exists rest, Permutation (qs ++ rest) combined
                            \/ Permutation (qs ++ rest) (unusedIn used ledger questionPool))
           /\ (forall q, In q qs -> ~ In q ledger /\ ~ In q used)).
Proof.
  clear compareTwoStrings.
  intros used ledger combined r. subst r. unfold selectFromQuestionPool.
  fold used. fold ledger.
  change (filter (fun q => negb (JsSet.has q used) && negb (JsSet.has q ledger)) questionPool)
    with (unusedIn used ledger questionPool).
  change (filter (fun q => negb (JsSet.has q used) && negb (JsSet.has q ledger))
            (fallbackQuestions s))
    with (unusedIn used ledger (fallbackQuestions s)).
  fold combined.
  assert (Hsub : List.length (unusedIn used ledger questionPool) <= List.length combined).
  { unfold combined. rewrite length_app. lia. }
  destruct (List.length (unusedIn used ledger questionPool) <? numQuestions) eqn:E1.
  - destruct (List.length combined <? numQuestions) eqn:E2.
    + apply Nat.ltb_lt in E2. left. split; [exact E2 | reflexivity].
    + apply Nat.ltb_ge in E2. right. split; [exact E2 |].
      eexists. split; [reflexivity |]. split; [| split].
      * apply firstn_length_le.
        rewrite (Permutation_length (shuffle_perm seed combined)). exact E2.
      * exists (skipn numQuestions (shuffle seed combined)). left.
        rewrite firstn_skipn. apply shuffle_perm.
      * intros q Hq. apply firstn_In in Hq.
        apply (Permutation_in _ (shuffle_perm seed combined)) in Hq.
        unfold combined in Hq. apply in_app_or in Hq.
        destruct Hq as [Hq | Hq]; apply unusedIn_In in Hq; tauto.
  - apply Nat.ltb_ge in E1. right. split; [lia |].
    eexists. split; [reflexivity |]. split; [| split].
    + apply firstn_length_le.
      rewrite (Permutation_length (shuffle_perm seed _)). exact E1.
    + exists (skipn numQuestions (shuffle seed (unusedIn used ledger questionPool))). right.
      rewrite firstn_skipn. apply shuffle_perm.
    + intros q Hq. apply firstn_In in Hq.
      apply (Permutation_in _ (shuffle_perm seed _)) in Hq.
      apply unusedIn_In in Hq. tauto.
Qed.

Lemma set_usedQuestions_idem (u v : list string) (game : Game) :
  set_usedQuestions u (set_usedQuestions v game) = set_usedQuestions u game.
Proof. reflexivity. Qed.

Lemma unusedIn_app (used ledger a b : list string) :
  unusedIn used ledger (a ++ b) = unusedIn used ledger a ++ unusedIn used ledger b.
Proof. apply filter_app. Qed.

Lemma selectFromQuestionPool_ok (seed : list nat) (gameId : string) (game : Game)
  (numQuestions : nat) (s : Supply) :
  acquireOk questionPool gameId game numQuestions s
    (selectFromQuestionPool questionPool seed gameId game numQuestions s).
Proof.
  destruct (selectFromQuestionPool_spec seed gameId game numQuestions s)
    as [[Hshort Heq] | [Hlong [qs [Heq [Hlen [[rest Hperm] Hfresh]]]]]];
    rewrite Heq; unfold acquireOk.
  - repeat split; try easy.
    + exists (usedQuestions game). now destruct game.
    + intros _. constructor.
    + right. repeat split. lia.
  - simpl. repeat split.
    + now eexists.
    + apply JsSetFacts.addAll_incl.
    + intros H x Hx. apply JsSetFacts.addAll_In. right. now apply H.
    + reflexivity.
    + now apply Hfresh.
    + apply JsSetFacts.addAll_In. now left.
    + intros Hnd.
      assert (Hnd2 : NoDup (unusedIn (usedQuestions game) (globalUsedQuestions s)
                              (questionPool ++ fallbackQuestions s))).
      { unfold unusedIn. now apply NoDup_filter. }
      rewrite unusedIn_app in Hnd2.
      assert (Hall : NoDup (qs ++ rest)).
      { destruct Hperm as [Hperm | Hperm].
        - eapply Permutation_NoDup; [symmetry; exact Hperm | exact Hnd2].
        - eapply Permutation_NoDup; [symmetry; exact Hperm |].
          now apply NoDup_app_remove_r in Hnd2. }
      now apply NoDup_app_remove_r in Hall.
    + left. split; [exact Hlen | reflexivity].
Qed.

Lemma selectQuestions_ok (o : Oracle) (gameId : string) (game : Game)
  (numQuestions : nat) (s : Supply) :
  acquireOk questionPool gameId game numQuestions s
    (selectQuestions questionPool GROQ_API_KEY compareTwoStrings o gameId game
       numQuestions s).
Proof.
  unfold selectQuestions.
  destruct (negb GROQ_API_KEY); [apply selectFromQuestionPool_ok |].
  destruct (drainCache_spec numQuestions (questionCache s) (usedQuestions game)
              (globalUsedQuestions s) [])
    as [cache1 [newd [Hd [Hfd [Hid Hcd]]]]].
  rewrite Hd. simpl app.
  destruct (freshSeq_NoDup _ _ Hfd) as [Hndd Houtd].
  destruct (negb (List.length newd <? numQuestions)) eqn:Eenough.
  - unfold acquireOk. repeat split.
    + now eexists.
    + simpl. apply incl_appl, incl_refl.
    + simpl. intros H x Hx. apply in_or_app. left. apply H. now apply Hcd.
    + reflexivity.
    + apply Houtd. eapply firstn_In. exact H.
    + simpl. apply in_or_app. right. eapply firstn_In. exact H.
    + intros _. now apply NoDup_firstn.
    + left. split; [| reflexivity]. apply firstn_length_le.
      apply negb_true_iff, Nat.ltb_ge in Eenough. exact Eenough.
  - set (s1 := mkSupply (globalUsedQuestions s ++ newd) cache1 (fallbackQuestions s)).
    destruct (generate_spec o numQuestions (numQuestions - List.length newd) newd
                10 1 (addAll newd (usedQuestions game)) s1)
      as [newg [H1 [H2 [H3 [H4 [H5 H6]]]]]].
    cbv zeta in H1, H2, H4, H5, H6.
    destruct (generate compareTwoStrings 10 1 o numQuestions
                (numQuestions - List.length newd) newd
                (addAll newd (usedQuestions game)) s1) as [[res used2] s2].
    simpl in H1, H2, H3, H4, H5, H6.
    destruct (freshSeq_NoDup _ _ (admitted_freshSeq _ _ H3)) as [Hndg Houtg].
    assert (Hcache2 : incl (questionCache s) (globalUsedQuestions s) ->
                      incl (questionCache s2) (globalUsedQuestions s2)).
    { intros H x Hx. rewrite H2. apply H4 in Hx. apply in_app_or in Hx.
      destruct Hx as [Hx | Hx].
      - apply in_or_app. left. apply in_or_app. left. apply H. now apply Hcd.
      - apply in_or_app. now right. }
    destruct res as [qs |].
    + destruct (H6 qs eq_refl) as [Hlen [part [Hqs [Hndp Hinp]]]].
      unfold acquireOk. repeat split.
      * now eexists.
      * rewrite H2. apply incl_appl, incl_appl, incl_refl.
      * exact Hcache2.
      * exact H5.
      * subst qs. apply firstn_In in H. apply in_app_or in H.
        destruct H as [H | H]; [now apply Houtd |].
        intros Hl. apply (Houtg q (Hinp q H)). apply in_or_app. now left.
      * subst qs. apply firstn_In in H. rewrite H2. apply in_app_or in H.
        destruct H as [H | H].
        -- apply in_or_app. left. apply in_or_app. now right.
        -- apply in_or_app. right. now apply Hinp.
      * intros _. subst qs. apply NoDup_firstn. apply NoDup_app; try assumption.
        intros x Hx Hp. apply (Houtg x (Hinp x Hp)). apply in_or_app. now right.
      * left. split; [exact Hlen | reflexivity].
    + pose proof (selectFromQuestionPool_ok (poolSeed o) gameId
                    (set_usedQuestions used2 game) numQuestions s2) as Hpool.
      destruct (selectFromQuestionPool questionPool (poolSeed o) gameId
                  (set_usedQuestions used2 game) numQuestions s2)
        as [[[qs game3] s3] out].
      unfold acquireOk in *.
      destruct Hpool as [[u Hu] [Hl [Hc [Hf [Hq [Hn Hres]]]]]].
      repeat split.
      * exists u. rewrite Hu. apply set_usedQuestions_idem.
      * intros x Hx. apply Hl. rewrite H2. apply in_or_app. left. apply in_or_app. now left.
      * intros H. apply Hc. now apply Hcache2.
      * rewrite Hf. exact H5.
      * intros Hl0. apply (proj1 (Hq q H)). rewrite H2.
        apply in_or_app. left. apply in_or_app. now left.
      * now apply Hq.
      * intros Hnd. apply Hn.
        eapply Permutation_NoDup; [| exact Hnd].
        apply Permutation_app_head. symmetry. exact H5.
      * exact Hres.
Qed.

End SupplyFacts.

(* ------------------------------------------------------------------------- *)
(** ** Invariants of the reachable states *)

Section Invariants.

Variable questionPool : list string.
Variable GROQ_API_KEY : bool.
Variable compareTwoStrings : string -> string -> Q.

(** [assignQuestions] either fails, leaving the room as it is but for its
    used-set and having broadcast a flagged copy of it, or installs a fresh
    round: new assignments, no rankings, a new order of rankers, cursor 0. *)
Lemma assignQuestions_spec (o : Oracle) (gameId : string) (game : Game) (s : Supply) :
  let '(success, game', s', out) :=
    assignQuestions questionPool GROQ_API_KEY compareTwoStrings o gameId game s in
  incl (globalUsedQuestions s) (globalUsedQuestions s')
  /\ (SupplyInv s -> SupplyInv s')
  /\ if success
     then exists u qa,
            game' = set_currentRevealIndex 0
                      (set_rankers (shuffle (rankerSeed o) (players game))
                         (set_rankings Obj.empty
                            (set_questionAssignments qa (set_usedQuestions u game))))
            /\ out = []
     else (exists u, game' = set_usedQuestions u game)
          /\ players game <> []
          /\ out = [(ToRoom gameId, MGameState (set_noMoreQuestions true game') [])].
Proof.
  unfold assignQuestions.
  pose proof (selectQuestions_ok questionPool GROQ_API_KEY compareTwoStrings
                o gameId game (List.length (players game)) s) as H.
  destruct (selectQuestions questionPool GROQ_API_KEY compareTwoStrings o gameId game
              (List.length (players game)) s) as [[[qs game1] s1] out].
  unfold acquireOk in H.
  destruct H as [[u Hu] [Hl [Hc [Hf [_ [_ Hres]]]]]].
  assert (Hsup : SupplyInv s -> SupplyInv s1).
  { intros [H1 H2]. split; [now apply Hc | now rewrite Hf]. }
  destruct Hres as [[Hlen ->] | [-> [Hpos ->]]].
  - rewrite Hlen, Nat.ltb_irrefl. split; [assumption | split; [assumption |]].
    exists u. eexists. rewrite Hu. split; reflexivity.
  - simpl List.length. apply Nat.ltb_lt in Hpos as Hpos'. rewrite Hpos'.
    split; [assumption | split; [assumption |]].
    split; [now exists u | split; [| reflexivity]].
    intros E. rewrite E in Hpos. simpl in Hpos. lia.
Qed.

Lemma GameInv_usedQuestions (u : list string) (g : Game) :
  GameInv g -> GameInv (set_usedQuestions u g).
Proof. exact (fun H => H). Qed.

Lemma GameInv_newGame (playerName : string) : GameInv (newGame playerName).
Proof.
  clear compareTwoStrings.
  unfold GameInv, newGame. simpl. repeat split.
  - repeat constructor. simpl. tauto.
  - discriminate.
  - constructor.
  - constructor.
Qed.

Lemma GameInv_join (playerName : string) (g : Game) :
  GameInv g -> ~ In playerName (players g) ->
  GameInv (set_state Waiting
             (set_points (Obj.set playerName 0%Z (points g))
                (set_players (players g ++ [playerName]) g))).
Proof.
  clear compareTwoStrings.
  intros [Hnd [Hne [Hwr [Hwg _]]]] Hnew. unfold GameInv. simpl. repeat split; try assumption.
  - apply NoDup_app; [assumption | repeat constructor; simpl; tauto |].
    intros x Hx [<- | []]. contradiction.
  - intros E. apply app_eq_nil in E. destruct E as [_ E]. discriminate.
Qed.

(** A fresh round, as installed by [assignQuestions] and then put in the
    ranking phase by [startGame] or [startNewRound]. *)
Lemma GameInv_freshRound (g : Game) (seed : list nat) (qa : Obj.t string)
  (u : list string) (cg : Obj.t Z) (r t q : option string) (a : option Z)
  (full : option (list string)) :
  NoDup (players g) -> players g <> [] -> Obj.wf cg ->
  GameInv
    (set_currentFullRanking full
       (set_currentGuesses cg
          (set_reveal r t q a
             (set_rankings Obj.empty
                (set_state Ranking
                   (set_currentRevealIndex 0
                      (set_rankers (shuffle seed (players g))
                         (set_rankings Obj.empty
                            (set_questionAssignments qa
                               (set_usedQuestions u g)))))))))).
Proof.
  intros Hnd Hne Hcg. unfold GameInv, PhaseInv. simpl. repeat split; try assumption.
  - constructor.
  - apply shuffle_perm.
  - intros x [].
  - destruct (players g); [congruence | simpl; lia].
  - intros p r0 H. discriminate.
Qed.

Lemma startGame_room_inv (o : Oracle) (gameId : string) (game : Game) (s : Supply) :
  GameInv game ->
  let '(success, game', s', out) :=
    assignQuestions questionPool GROQ_API_KEY compareTwoStrings o gameId game s in
  GameInv (if success then set_state Ranking game' else game').
Proof.
  intros Hinv. pose proof (assignQuestions_spec o gameId game s) as H.
  destruct (assignQuestions questionPool GROQ_API_KEY compareTwoStrings o gameId game s)
    as [[[success game'] s'] out].
  destruct H as [_ [_ H]]. destruct success.
  - destruct H as [u [qa [-> _]]].
    destruct Hinv as [Hnd [Hne [_ [Hcg _]]]].
    exact (GameInv_freshRound game (rankerSeed o) qa u (currentGuesses game)
             (currentRanker game) (currentTarget game) (currentQuestion game)
             (actualPosition game) (currentFullRanking game) Hnd Hne Hcg).
  - destruct H as [[u ->] _]. now apply GameInv_usedQuestions.
Qed.

Lemma startNewRound_inv (o : Oracle) (gameId : string) (game : Game) (s : Supply) :
  GameInv game ->
  let '(game', s', out) :=
    startNewRound questionPool GROQ_API_KEY compareTwoStrings o gameId game s in
  GameInv game' /\ (SupplyInv s -> SupplyInv s').
Proof.
  intros Hinv. unfold startNewRound.
  pose proof (assignQuestions_spec o gameId game s) as H.
  destruct (assignQuestions questionPool GROQ_API_KEY compareTwoStrings o gameId game s)
    as [[[success game1] s1] out].
  destruct H as [_ [Hs H]]. destruct success; simpl negb; cbv iota.
  - split; [| exact Hs]. destruct H as [u [qa [-> _]]].
    destruct Hinv as [Hnd [Hne _]].
    exact (GameInv_freshRound game (rankerSeed o) qa u Obj.empty None None None None None
             Hnd Hne ObjFacts.wf_empty).
  - split; [| exact Hs]. destruct H as [[u ->] _]. now apply GameInv_usedQuestions.
Qed.

Lemma acceptableRanking_iff (g : Game) (r : list string) :
  acceptableRanking g r = true
  <-> List.length r = List.length (players g) /\ incl r (players g).
Proof.
  unfold acceptableRanking. rewrite andb_true_iff, Nat.eqb_eq, forallb_forall.
  split; intros [H1 H2]; (split; [exact H1 |]); intros p Hp.
  - apply includes_In. now apply H2.
  - apply includes_In. now apply H2.
Qed.

Lemma nonRankerPlayers_In (g : Game) (ranker p : string) :
  currentRanker g = Some ranker ->
  (In p (nonRankerPlayers g) <-> In p (players g) /\ p <> ranker).
Proof.
  intros Hr. unfold nonRankerPlayers. rewrite Hr, filter_In, negb_true_iff.
  now rewrite sameName_false.
Qed.

Lemma without_one_length (r : string) (l : list string) :
  NoDup l -> In r l ->
  S (List.length (filter (fun p => negb (String.eqb p r)) l)) = List.length l.
Proof.
  clear compareTwoStrings.
  induction l as [| x l IH]; simpl; [tauto |].
  intros Hnd Hin. inversion Hnd as [| ? ? Hx Hl]; subst.
  destruct (String.eqb x r) eqn:E; simpl.
  - apply String.eqb_eq in E. subst x. f_equal.
    clear IH Hin Hnd Hl. induction l as [| y l IH]; simpl; [reflexivity |].
    destruct (String.eqb y r) eqn:E; simpl.
    + apply String.eqb_eq in E. subst. exfalso. apply Hx. now left.
    + f_equal. apply IH. intros H. apply Hx. now right.
  - apply String.eqb_neq in E. f_equal. apply IH; [assumption |].
    destruct Hin; [contradiction | assumption].
Qed.

(** With the ranker among distinct players, the guessers are all the
    players but one. *)
Lemma nonRankerPlayers_length (g : Game) (ranker : string) :
  currentRanker g = Some ranker -> NoDup (players g) -> In ranker (players g) ->
  S (List.length (nonRankerPlayers g)) = List.length (players g).
Proof.
  intros Hr Hnd Hin. unfold nonRankerPlayers. rewrite Hr.
  now apply without_one_length.
Qed.

Lemma GameInv_revealIndex (k : nat) (g : Game) :
  state g <> Ranking -> GameInv g -> GameInv (set_currentRevealIndex k g).
Proof.
  intros Hs. unfold GameInv, PhaseInv. simpl. destruct (state g); tauto.
Qed.

(** Entering the guessing phase: with every player's ranking on record and
    the cursor on a ranker, [setNextReveal] does not throw and sets up a
    reveal that satisfies the invariant. *)
Lemma enterGuessing (o : Oracle) (gameId : string) (g : Game) (s : Supply) :
  NoDup (players g) -> players g <> [] -> Obj.wf (rankings g) ->
  Permutation (rankers g) (players g) ->
  rankingsComplete g -> rankingsAccepted g ->
  currentRevealIndex g < List.length (players g) ->
  exists g',
    setNextReveal questionPool GROQ_API_KEY compareTwoStrings o gameId g s
    = Some (g', s,
            emitToPlayers gameId g' (fun player =>
              [ XMyQuestion (Obj.get player (questionAssignments g'));
                XHasSubmittedGuess false ]))
    /\ GameInv g' /\ state g' = Guessing /\ rankings g' = rankings g.
Proof.
  intros Hnd Hne Hwf Hperm Hcomplete Haccepted Hidx. unfold setNextReveal.
  apply Nat.leb_gt in Hidx as Hleb. rewrite Hleb.
  destruct (nth_error (rankers g) (currentRevealIndex g)) as [ranker |] eqn:Eranker.
  2:{ apply nth_error_None in Eranker.
      rewrite (Permutation_length Hperm) in Eranker. lia. }
  assert (Hranker : In ranker (players g)).
  { eapply Permutation_in; [exact Hperm |]. eapply nth_error_In. exact Eranker. }
  destruct (nth_error (players g) (targetRoll o mod List.length (players g)))
    as [target |] eqn:Etarget.
  2:{ apply nth_error_None in Etarget.
      assert (targetRoll o mod List.length (players g) < List.length (players g)).
      { apply Nat.mod_upper_bound. lia. }
      lia. }
  assert (Htarget : In target (players g)) by (eapply nth_error_In; exact Etarget).
  destruct (Hcomplete ranker Hranker) as [ranking Hranking].
  simpl keyOf. rewrite Hranking.
  eexists. split; [reflexivity |]. split; [| split; reflexivity].
  unfold GameInv, PhaseInv. simpl.
  split; [assumption |]. split; [assumption |]. split; [assumption |].
  split; [constructor |].
  split; [assumption |]. split; [assumption |]. split; [assumption |].
  split.
  { exists ranker, target, ranking. simpl. repeat split; assumption. }
  split; [intros x [] |].
  match goal with |- context [nonRankerPlayers ?g'] =>
    pose proof (nonRankerPlayers_length g' ranker eq_refl Hnd Hranker) as Hlen
  end.
  simpl in Hlen.
  destruct (List.length (players g)) as [| [| n]] eqn:En; [lia | now right | left; lia].
Qed.

Lemma nextReveal_room_inv (o : Oracle) (gameId : string) (g : Game) (s : Supply) :
  GameInv g -> state g = Reveal ->
  exists g' s' out,
    setNextReveal questionPool GROQ_API_KEY compareTwoStrings o gameId
      (set_currentRevealIndex (currentRevealIndex g + 1) g) s
    = Some (g', s', out)
    /\ GameInv g' /\ (SupplyInv s -> SupplyInv s').
Proof.
  intros Hinv Hstate.
  set (g1 := set_currentRevealIndex (currentRevealIndex g + 1) g).
  assert (Hinv1 : GameInv g1).
  { apply GameInv_revealIndex; [congruence | exact Hinv]. }
  destruct (List.length (players g1) <=? currentRevealIndex g1) eqn:Eround.
  - unfold setNextReveal. rewrite Eround.
    pose proof (startNewRound_inv o gameId g1 s Hinv1) as H.
    destruct (startNewRound questionPool GROQ_API_KEY compareTwoStrings o gameId g1 s)
      as [[g' s'] out].
    exists g', s', out. split; [reflexivity | exact H].
  - apply Nat.leb_gt in Eround.
    destruct Hinv as [Hnd [Hne [Hwr [Hwg Hphase]]]].
    unfold PhaseInv in Hphase. rewrite Hstate in Hphase.
    destruct Hphase as [Hperm [Hcomplete [Haccepted _]]].
    destruct (enterGuessing o gameId g1 s Hnd Hne Hwr Hperm Hcomplete Haccepted Eround)
      as [g' [Heq [Hinv' _]]].
    exists g', s. eexists. split; [exact Heq |]. split; [exact Hinv' | tauto].
Qed.

Lemma submitRanking_room_inv (o : Oracle) (gameId : string) (game : Game)
  (name : string) (ranking : list string) (s : Supply) :
  GameInv game -> state game = Ranking -> In name (players game) ->
  acceptableRanking game ranking = true ->
  let game1 := set_rankings (Obj.set name ranking (rankings game)) game in
  if List.length (Obj.keys (rankings game1)) =? List.length (players game1)
  then exists g',
         setNextReveal questionPool GROQ_API_KEY compareTwoStrings o gameId game1 s
         = Some (g', s,
                 emitToPlayers gameId g' (fun player =>
                   [ XMyQuestion (Obj.get player (questionAssignments g'));
                     XHasSubmittedGuess false ]))
         /\ GameInv g' /\ state g' = Guessing /\ rankings g' = rankings game1
  else GameInv game1.
Proof.
  intros [Hnd [Hne [Hwr [Hwg Hphase]]]] Hstate Hname Hok game1.
  unfold PhaseInv in Hphase. rewrite Hstate in Hphase.
  destruct Hphase as [Hperm [Hidx [Hkeys [Hlt Haccepted]]]].
  assert (Hwr1 : Obj.wf (rankings game1)) by (apply ObjFacts.wf_set; exact Hwr).
  assert (Hkeys1 : incl (Obj.keys (rankings game1)) (players game1)).
  { intros p Hp. simpl in Hp. apply ObjFacts.keys_set_In in Hp.
    destruct Hp as [-> | Hp]; [exact Hname | now apply Hkeys]. }
  assert (Haccepted1 : rankingsAccepted game1).
  { intros p r Hp. simpl in Hp.
    destruct (string_dec p name) as [-> | Hne'].
    - rewrite ObjFacts.get_set_same in Hp. injection Hp as <-. exact Hok.
    - rewrite ObjFacts.get_set_other in Hp by assumption. exact (Haccepted p r Hp). }
  destruct (List.length (Obj.keys (rankings game1)) =? List.length (players game1)) eqn:Eall.
  - apply Nat.eqb_eq in Eall.
    apply enterGuessing; try assumption.
    + intros p Hp. apply ObjFacts.get_Some_keys.
      revert p Hp. apply NoDup_length_incl; [exact Hwr1 | | exact Hkeys1].
      rewrite Eall. apply Nat.le_refl.
    + simpl. rewrite Hidx. destruct (players game); [congruence | simpl; lia].
  - apply Nat.eqb_neq in Eall.
    unfold GameInv, PhaseInv. simpl state. rewrite Hstate.
    repeat split; try assumption.
    pose proof (NoDup_incl_length Hwr1 Hkeys1). lia.
Qed.

Lemma acceptableRanking_players (g g' : Game) (r : list string) :
  Permutation (players g') (players g) ->
  acceptableRanking g r = true -> acceptableRanking g' r = true.
Proof.
  intros Hp. rewrite !acceptableRanking_iff. intros [H1 H2]. split.
  - rewrite H1. symmetry. now apply Permutation_length.
  - intros x Hx. eapply Permutation_in; [symmetry; exact Hp | now apply H2].
Qed.

Lemma submitGuess_room_inv (game : Game) (name : string) (guess : Z)
  (full : option (list string)) :
  GameInv game -> state game = Guessing -> In name (players game) ->
  sameName (Some name) (currentRanker game) = false ->
  let game1 := set_currentGuesses (Obj.set name guess (currentGuesses game)) game in
  if List.length (Obj.keys (currentGuesses game1)) =? List.length (nonRankerPlayers game1)
  then GameInv (set_state Reveal (set_currentFullRanking full (scoreReveal game1)))
  else GameInv game1.
Proof.
  clear compareTwoStrings.
  intros [Hnd [Hne [Hwr [Hwg Hphase]]]] Hstate Hname Hother game1.
  unfold PhaseInv in Hphase. rewrite Hstate in Hphase.
  destruct Hphase as [Hperm [Hcomplete [Haccepted [Hsubject [Hkeys Hlt]]]]].
  destruct Hsubject as [ranker [target [ranking [Hr [Hrin [Ht [Htin [Hrk Hpos]]]]]]]].
  rewrite Hr in Hother. apply sameName_false in Hother.
  assert (Hwg1 : Obj.wf (currentGuesses game1)) by (apply ObjFacts.wf_set; exact Hwg).
  assert (Hkeys1 : incl (Obj.keys (currentGuesses game1)) (nonRankerPlayers game1)).
  { intros p Hp. simpl in Hp. apply ObjFacts.keys_set_In in Hp.
    destruct Hp as [-> | Hp]; [| now apply Hkeys].
    apply (nonRankerPlayers_In game ranker name Hr). tauto. }
  destruct (List.length (Obj.keys (currentGuesses game1))
            =? List.length (nonRankerPlayers game1)) eqn:Eall.
  - rewrite (scoreReveal_shape game1).
    set (ps := sortDesc (pointsOf (points (scoreReveal game1))) (players game1)).
    assert (Hps : Permutation ps (players game)) by apply sortDesc_perm.
    unfold GameInv, PhaseInv. simpl.
    split; [eapply Permutation_NoDup; [symmetry; exact Hps | exact Hnd] |].
    split.
    { intros E. rewrite E in Hps. apply Permutation_nil in Hps. congruence. }
    split; [assumption |]. split; [assumption |].
    split; [rewrite Hps; exact Hperm |].
    split.
    { intros p Hp. apply Hcomplete. eapply Permutation_in; [exact Hps | exact Hp]. }
    split.
    { intros p r Hp. eapply acceptableRanking_players; [| exact (Haccepted p r Hp)].
      exact Hps. }
    exists ranker, target, ranking. simpl.
    repeat split; try assumption;
      (eapply Permutation_in; [symmetry; exact Hps | assumption]).
  - apply Nat.eqb_neq in Eall.
    unfold GameInv, PhaseInv. simpl state. rewrite Hstate.
    split; [assumption |]. split; [assumption |]. split; [assumption |].
    split; [assumption |].
    split; [assumption |]. split; [assumption |]. split; [assumption |].
    split; [exists ranker, target, ranking; repeat split; assumption |].
    split; [assumption |].
    left. pose proof (NoDup_incl_length Hwg1 Hkeys1). lia.
Qed.

Lemma disconnectGame_inv (name gameId : string) (game : Game) :
  GameInv game ->
  match fst (disconnectGame name gameId game) with
  | Some g' => GameInv g'
  | None => True
  end.
Proof.
  intros Hinv. unfold disconnectGame.
  destruct (includes name (players game)) eqn:Einc; [| exact Hinv].
  apply includes_In in Einc.
  destruct Hinv as [Hnd [Hne [Hwr [Hwg _]]]].
  simpl players.
  destruct (List.length (removeFirst name (players game)) =? 0) eqn:Eempty; [exact I |].
  apply Nat.eqb_neq in Eempty. simpl fst.
  set (ps := sortDesc _ _).
  assert (Hps : Permutation ps (removeFirst name (players game))) by apply sortDesc_perm.
  unfold GameInv, PhaseInv. simpl.
  split.
  { eapply Permutation_NoDup; [symmetry; exact Hps |].
    now apply removeFirst_NoDup. }
  split.
  { intros E. rewrite E in Hps. apply Permutation_nil in Hps.
    rewrite Hps in Eempty. now apply Eempty. }
  split; [now apply ObjFacts.wf_delete |].
  split; [assumption |].
  now destruct (1 <? List.length (removeFirst name (players game))).
Qed.

Lemma ServerInv_lookup (sv : Server) (gameId : string) (g : Game) :
  ServerInv sv -> Obj.get gameId (games sv) = Some g -> GameInv g.
Proof.
  intros [_ [Hg _]] Hget. apply ObjFacts.get_Some_In in Hget.
  rewrite Forall_forall in Hg. exact (Hg _ Hget).
Qed.

Lemma ServerInv_store (sv : Server) (gameId : string) (g : Game) (s : Supply) :
  ServerInv sv -> GameInv g -> SupplyInv s ->
  ServerInv (mkServer (Obj.set gameId g (games sv)) s).
Proof.
  intros [Hwf [Hg _]] Hinv Hs.
  split; [now apply ObjFacts.wf_set |]. split; [| exact Hs]. simpl.
  now apply ObjFacts.Forall_set.
Qed.

Lemma disconnectAll_keys (name : string) (gs : Obj.t Game) :
  (forall k, In k (Obj.keys (fst (disconnectAll name gs))) -> In k (Obj.keys gs))
  /\ (Obj.wf gs -> Obj.wf (fst (disconnectAll name gs))).
Proof.
  clear compareTwoStrings.
  unfold Obj.wf. induction gs as [| [gameId game] gs [IHin IHwf]]; simpl.
  - split; [tauto | trivial].
  - destruct (disconnectGame name gameId game) as [kept out].
    destruct (disconnectAll name gs) as [rest out']. simpl in *.
    destruct kept as [g' |]; simpl.
    + split.
      * intros k [Hk | Hk]; [now left | right; now apply IHin].
      * intros Hwf. inversion Hwf as [| ? ? Hnew Hrest]; subst.
        constructor; [| now apply IHwf].
        intros Hk. apply Hnew. now apply IHin.
    + split.
      * intros k Hk. right. now apply IHin.
      * intros Hwf. inversion Hwf; subst. now apply IHwf.
Qed.

Lemma disconnectAll_inv (name : string) (gs : Obj.t Game) :
  Forall (fun kv => GameInv (snd kv)) gs ->
  Forall (fun kv => GameInv (snd kv)) (fst (disconnectAll name gs)).
Proof.
  induction 1 as [| [gameId game] gs Hg _ IH]; simpl; [constructor |].
  pose proof (disconnectGame_inv name gameId game Hg) as H.
  destruct (disconnectGame name gameId game) as [kept out].
  destruct (disconnectAll name gs) as [rest out']. simpl in *.
  destruct kept as [g' |]; [constructor; assumption | assumption].
Qed.

(** Every handler preserves the invariant, and none throws from a state
    that satisfies it. *)
Lemma step_inv (w : World) (e : Event) :
  ServerInv (server w) ->
  exists w' out,
    step questionPool GROQ_API_KEY compareTwoStrings w e = Some (w', out)
    /\ ServerInv (server w').
Proof.
  intros Hinv. destruct w as [sv sockets]. simpl in Hinv.
  destruct e as [sid gameId playerName | sid gameId playerName | sid o gameId
                | sid o gameId ranking | sid gameId guess | sid o gameId | sid];
    simpl.
  - (* createGame *)
    eexists. eexists. split; [reflexivity |]. simpl.
    apply ServerInv_store; [exact Hinv | apply GameInv_newGame | apply Hinv].
  - (* joinGame *)
    unfold joinGame.
    destruct (Obj.get gameId (games sv)) as [game |] eqn:Hget.
    + destruct (includes playerName (players game)) eqn:Einc.
      * eexists. eexists. split; [reflexivity | exact Hinv].
      * eexists. eexists. split; [reflexivity |]. simpl.
        apply ServerInv_store; [exact Hinv | | apply Hinv].
        apply GameInv_join; [eapply ServerInv_lookup; eassumption |].
        now apply includes_false.
    + eexists. eexists. split; [reflexivity | exact Hinv].
  - (* startGame *)
    unfold startGame.
    destruct (Obj.get gameId (games sv)) as [game |] eqn:Hget.
    + destruct (negb (isName (sockets sid) (owner game))).
      * eexists. eexists. split; [reflexivity | exact Hinv].
      * pose proof (ServerInv_lookup sv gameId game Hinv Hget) as Hgame.
        pose proof (startGame_room_inv o gameId game (supply sv) Hgame) as Hroom.
        pose proof (assignQuestions_spec o gameId game (supply sv)) as Hspec.
        destruct (assignQuestions questionPool GROQ_API_KEY compareTwoStrings o gameId
                    game (supply sv)) as [[[success game1] s1] out].
        destruct Hspec as [_ [Hs _]].
        destruct success; simpl negb; cbv iota;
          (eexists; eexists; split; [reflexivity |]); simpl;
          (apply ServerInv_store; [exact Hinv | exact Hroom | apply Hs, Hinv]).
    + eexists. eexists. split; [reflexivity | exact Hinv].
  - (* submitRanking *)
    unfold submitRanking.
    destruct (Obj.get gameId (games sv)) as [game |] eqn:Hget;
      [| eexists; eexists; split; [reflexivity | exact Hinv]].
    destruct (sockets sid) as [name |];
      [| eexists; eexists; split; [reflexivity | exact Hinv]].
    destruct (includes name (players game)) eqn:Einc; simpl negb; cbv iota;
      [| eexists; eexists; split; [reflexivity | exact Hinv]].
    apply includes_In in Einc.
    destruct (state game) eqn:Hstate;
      try (eexists; eexists; split; [reflexivity | exact Hinv]).
    destruct (acceptableRanking game ranking) eqn:Hok; simpl negb; cbv iota;
      [| eexists; eexists; split; [reflexivity | exact Hinv]].
    pose proof (ServerInv_lookup sv gameId game Hinv Hget) as Hgame.
    pose proof (submitRanking_room_inv o gameId game name ranking (supply sv)
                  Hgame Hstate Einc Hok) as Hroom.
    cbv zeta in Hroom.
    destruct (List.length
                (Obj.keys (rankings (set_rankings (Obj.set name ranking (rankings game)) game)))
              =? List.length
                   (players (set_rankings (Obj.set name ranking (rankings game)) game))).
    + destruct Hroom as [g' [Heq [Hg' _]]]. rewrite Heq.
      eexists. eexists. split; [reflexivity |]. simpl.
      apply ServerInv_store; [exact Hinv | exact Hg' | apply Hinv].
    + eexists. eexists. split; [reflexivity |]. simpl.
      apply ServerInv_store; [exact Hinv | exact Hroom | apply Hinv].
  - (* submitGuess *)
    unfold submitGuess.
    destruct (Obj.get gameId (games sv)) as [game |] eqn:Hget;
      [| eexists; eexists; split; [reflexivity | exact Hinv]].
    destruct (sockets sid) as [name |];
      [| eexists; eexists; split; [reflexivity | exact Hinv]].
    destruct (includes name (players game)) eqn:Einc; simpl negb; cbv iota;
      [| eexists; eexists; split; [reflexivity | exact Hinv]].
    apply includes_In in Einc.
    destruct (state game) eqn:Hstate;
      try (eexists; eexists; split; [reflexivity | exact Hinv]).
    destruct (sameName (Some name) (currentRanker game)) eqn:Hsame;
      [eexists; eexists; split; [reflexivity | exact Hinv] |].
    destruct ((guess <? 1)%Z || (Z.of_nat (List.length (players game)) <? guess)%Z);
      [eexists; eexists; split; [reflexivity | exact Hinv] |].
    pose proof (ServerInv_lookup sv gameId game Hinv Hget) as Hgame.
    pose proof (submitGuess_room_inv game name guess
                  (Obj.get (keyOf (currentRanker game)) (rankings game))
                  Hgame Hstate Einc Hsame) as Hroom.
    cbv zeta in Hroom.
    destruct (List.length
                (Obj.keys
                   (currentGuesses
                      (set_currentGuesses (Obj.set name guess (currentGuesses game)) game)))
              =? List.length
                   (nonRankerPlayers
                      (set_currentGuesses (Obj.set name guess (currentGuesses game)) game)));
      (eexists; eexists; split; [reflexivity |]); simpl;
      (apply ServerInv_store; [exact Hinv | exact Hroom | apply Hinv]).
  - (* nextReveal *)
    unfold nextReveal.
    destruct (Obj.get gameId (games sv)) as [game |] eqn:Hget;
      [| eexists; eexists; split; [reflexivity | exact Hinv]].
    destruct (negb (isName (sockets sid) (owner game)));
      [eexists; eexists; split; [reflexivity | exact Hinv] |].
    destruct (state game) eqn:Hstate;
      try (eexists; eexists; split; [reflexivity | exact Hinv]).
    pose proof (ServerInv_lookup sv gameId game Hinv Hget) as Hgame.
    destruct (nextReveal_room_inv o gameId game (supply sv) Hgame Hstate)
      as [g' [s' [out [Heq [Hg' Hs']]]]].
    rewrite Heq. eexists. eexists. split; [reflexivity |]. simpl.
    apply ServerInv_store; [exact Hinv | exact Hg' | apply Hs', Hinv].
  - (* disconnect *)
    unfold disconnect.
    destruct (sockets sid) as [name |];
      [| eexists; eexists; split; [reflexivity | exact Hinv]].
    destruct Hinv as [Hwf [Hgames Hsupply]].
    pose proof (disconnectAll_inv name (games sv) Hgames) as H.
    pose proof (proj2 (disconnectAll_keys name (games sv)) Hwf) as H'.
    destruct (disconnectAll name (games sv)) as [gs out].
    eexists. eexists. split; [reflexivity |].
    split; [exact H' |]. split; [exact H | exact Hsupply].
Qed.

Lemma ServerInv_initial : ServerInv initialServer.
Proof.
  split; [constructor |]. split; [constructor |].
  split; [intros x [] | reflexivity].
Qed.

(** Runs never throw, and every state they reach satisfies the invariant. *)
Lemma run_inv (events : list Event) : forall w : World,
  ServerInv (server w) ->
  exists w' out,
    run questionPool GROQ_API_KEY compareTwoStrings w events = Some (w', out)
    /\ ServerInv (server w').
Proof.
  induction events as [| e events IH]; intros w Hinv; simpl.
  - exists w, []. split; [reflexivity | exact Hinv].
  - destruct (step_inv w e Hinv) as [w1 [out1 [Hstep Hinv1]]]. rewrite Hstep.
    destruct (IH w1 Hinv1) as [w2 [out2 [Hrun Hinv2]]]. rewrite Hrun.
    exists w2, (out1 ++ out2). split; [reflexivity | exact Hinv2].
Qed.

End Invariants.

(* ------------------------------------------------------------------------- *)
(** ** From guessing to reveal *)

Section Guessing.

Variable questionPool : list string.
Variable GROQ_API_KEY : bool.
Variable compareTwoStrings : string -> string -> Q.

Lemma reachable_inv (events : list Event) (w : World) (out : list Emit) :
  run questionPool GROQ_API_KEY compareTwoStrings initialWorld events = Some (w, out) ->
  ServerInv (server w).
Proof.
  intros Hrun.
  destruct (run_inv questionPool GROQ_API_KEY compareTwoStrings events initialWorld
              ServerInv_initial) as [w' [out' [Hrun' Hinv]]].
  rewrite Hrun in Hrun'. now injection Hrun' as -> _.
Qed.

(** In the guessing phase the ranker is a player who has no guess on record. *)
Lemma guessing_ranker (g : Game) :
  GameInv g -> state g = Guessing ->
  exists ranker,
    currentRanker g = Some ranker /\ In ranker (players g)
    /\ Obj.get ranker (currentGuesses g) = None.
Proof.
  clear compareTwoStrings.
  intros [_ [_ [_ [_ Hphase]]]] Hstate. unfold PhaseInv in Hphase.
  rewrite Hstate in Hphase.
  destruct Hphase as [_ [_ [_ [[ranker [t [rk [Hr [Hin _]]]]] [Hkeys _]]]]].
  exists ranker. repeat split; try assumption.
  apply ObjFacts.get_None_keys. intros Hk. apply Hkeys in Hk.
  apply (nonRankerPlayers_In g ranker ranker Hr) in Hk. tauto.
Qed.

(** A room in the guessing phase of a reachable state has a ranker, a true
    position, and well-formed guesses in which the ranker has no entry. *)
Lemma guessing_room_ready (events : list Event) (w : World) (out : list Emit)
  (gameId : string) (game : Game) :
  run questionPool GROQ_API_KEY compareTwoStrings initialWorld events = Some (w, out) ->
  Obj.get gameId (games (server w)) = Some game ->
  state game = Guessing ->
  exists ranker actual,
    currentRanker game = Some ranker
    /\ actualPosition game = Some actual
    /\ Obj.wf (currentGuesses game)
    /\ Obj.get ranker (currentGuesses game) = None.
Proof.
  intros Hrun Hget Hstate.
  pose proof (ServerInv_lookup _ _ _ (reachable_inv events w out Hrun) Hget) as Hinv.
  destruct (guessing_ranker game Hinv Hstate) as [ranker [Hr [_ Hnone]]].
  destruct Hinv as [_ [_ [_ [Hwf Hphase]]]].
  unfold PhaseInv in Hphase. rewrite Hstate in Hphase.
  destruct Hphase as [_ [_ [_ [[r [t [rk [_ [_ [_ [_ [_ Hpos]]]]]]]] _]]]].
  exists ranker. eexists. repeat split; eassumption.
Qed.

(** [C2] Scoring rule.  In every state reached by a run, take a room in the
    guessing phase and any [submitGuess] event.  Either the room stays in the
    guessing phase and no points change, or the room moves to the reveal
    phase and, with [guesses] the guesses recorded at that moment: every
    guesser whose position equals [actualPosition] has gained exactly 1
    point, the ranker has gained exactly [min (correctGuessCount, 3)] points,
    and the points entry of everybody else is untouched.  The count, hence
    every gain, is the same for any other record of the same guesses (a
    different order of submission).  Once the room is in the reveal phase
    further guesses are ignored, so the rule is applied once per reveal. *)
Theorem scoring_rule :
  forall (events : list Event) (w : World) (out : list Emit)
         (socketName : option string) (gameId : string) (guess : Z) (game : Game),
    run questionPool GROQ_API_KEY compareTwoStrings initialWorld events = Some (w, out) ->
    Obj.get gameId (games (server w)) = Some game ->
    state game = Guessing ->
    exists (ranker : string) (actual : Z),
      currentRanker game = Some ranker
      /\ actualPosition game = Some actual
      /\ let sv' := fst (submitGuess socketName gameId guess (server w)) in
         exists game' : Game,
           Obj.get gameId (games sv') = Some game'
           /\ ((state game' = Guessing /\ points game' = points game)
               \/ (state game' = Reveal
                   /\ (let guesses := currentGuesses game' in
                       (forall p, Obj.get p guesses = Some actual ->
                                  pointsOf (points game') p
                                  = (pointsOf (points game) p + 1)%Z)
                       /\ pointsOf (points game') ranker
                          = (pointsOf (points game) ranker
                             + Z.min (correctGuessCount guesses (Some actual)) 3)%Z
                       /\ (forall p, p <> ranker -> Obj.get p guesses <> Some actual ->
                                     Obj.get p (points game') = Obj.get p (points game))
                       /\ (forall guesses2 : Obj.t Z,
                              Obj.wf guesses2 ->
                              (forall p, Obj.get p guesses2 = Obj.get p guesses) ->
                              correctGuessCount guesses2 (Some actual)
                              = correctGuessCount guesses (Some actual)))
                   /\ (forall socketName2 guess2,
                          submitGuess socketName2 gameId guess2 sv' = (sv', [])))).
Proof.
  intros events w out socketName gameId guess game Hrun Hget Hstate.
  destruct (guessing_room_ready events w out gameId game Hrun Hget Hstate)
    as [ranker [actual [Hr [Ha [Hwf Hnone]]]]].
  exists ranker, actual. split; [exact Hr |]. split; [exact Ha |].
  exact (submitGuess_scores (server w) socketName gameId guess game ranker actual
           Hget Hstate Hr Ha Hwf Hnone).
Qed.

(** [C3] (amended) In every state reached by a run, for a room in the
    guessing phase: the ranker is one of the players and has no entry in
    [currentGuesses]; a guess sent by the ranker is answered with an error
    and changes nothing; a guess that is not accepted changes nothing, so it
    never fires the transition; a guess that is accepted is recorded, and
    the room then moves to the reveal phase if and only if the number of
    entries of [currentGuesses] equals [players.length - 1]; once the room is
    in the reveal phase further guesses are ignored, so the transition fires
    at most once per reveal. *)
Theorem guessing_to_reveal :
  forall (events : list Event) (w : World) (out : list Emit)
         (gameId : string) (game : Game),
    run questionPool GROQ_API_KEY compareTwoStrings initialWorld events = Some (w, out) ->
    Obj.get gameId (games (server w)) = Some game ->
    state game = Guessing ->
    (exists ranker,
        currentRanker game = Some ranker /\ In ranker (players game)
        /\ Obj.get ranker (currentGuesses game) = None)
    /\ (forall socketName guess,
           socketName = currentRanker game ->
           submitGuess socketName gameId guess (server w)
           = (server w, replyError "You cannot guess as the ranker"))
    /\ (forall socketName guess,
           ~ acceptedGuess game socketName guess ->
           fst (submitGuess socketName gameId guess (server w)) = server w)
    /\ (forall name guess,
           acceptedGuess game (Some name) guess ->
           let sv' := fst (submitGuess (Some name) gameId guess (server w)) in
           exists game',
             Obj.get gameId (games sv') = Some game'
             /\ currentGuesses game' = Obj.set name guess (currentGuesses game)
             /\ (state game' = Guessing \/ state game' = Reveal)
             /\ (state game' = Reveal
                 <-> List.length (Obj.keys (currentGuesses game'))
                     = List.length (players game') - 1)
             /\ (state game' = Reveal ->
                 forall socketName2 guess2,
                   submitGuess socketName2 gameId guess2 sv' = (sv', []))).
Proof.
  intros events w out gameId game Hrun Hget Hstate.
  pose proof (ServerInv_lookup _ _ _ (reachable_inv events w out Hrun) Hget) as Hinv.
  destruct (guessing_ranker game Hinv Hstate) as [ranker [Hr [Hrin Hnone]]].
  destruct Hinv as [Hnd _].
  split; [exists ranker; repeat split; assumption |].
  split; [| split].
  - intros socketName guess ->. unfold submitGuess. rewrite Hget, Hr.
    apply includes_In in Hrin. rewrite Hrin, Hstate. simpl.
    now rewrite String.eqb_refl.
  - intros socketName guess Hno. unfold submitGuess. rewrite Hget.
    destruct socketName as [name |]; [| reflexivity].
    destruct (includes name (players game)) eqn:Einc; [| reflexivity].
    apply includes_In in Einc. simpl negb. cbv iota. rewrite Hstate, Hr.
    destruct (sameName (Some name) (Some ranker)) eqn:Esame; [reflexivity |].
    apply sameName_false in Esame.
    destruct ((guess <? 1)%Z || (Z.of_nat (List.length (players game)) <? guess)%Z)
      eqn:Erange; [reflexivity |].
    exfalso. apply Hno. exists name.
    apply orb_false_iff in Erange. destruct Erange as [E1 E2].
    apply Z.ltb_ge in E1, E2. rewrite Hr.
    repeat split; try assumption. congruence.
  - intros name guess [name' [[= <-] [Hin [Hother [Hlo Hhi]]]]].
    unfold submitGuess. rewrite Hget.
    apply includes_In in Hin as Hinc. rewrite Hinc. simpl negb. cbv iota.
    rewrite Hstate, Hr.
    assert (Hne : name <> ranker) by (intros ->; now apply Hother).
    apply sameName_false in Hne as Esame. rewrite Esame.
    assert (Erange : (guess <? 1)%Z || (Z.of_nat (List.length (players game)) <? guess)%Z
                     = false).
    { apply orb_false_iff. split; apply Z.ltb_ge; assumption. }
    rewrite Erange.
    set (game1 := set_currentGuesses (Obj.set name guess (currentGuesses game)) game).
    pose proof (nonRankerPlayers_length game1 ranker Hr Hnd Hrin) as Hlen.
    destruct (List.length (Obj.keys (currentGuesses game1))
              =? List.length (nonRankerPlayers game1)) eqn:Eall.
    + apply Nat.eqb_eq in Eall.
      eexists. simpl fst. simpl games.
      split; [apply ObjFacts.get_set_same |].
      rewrite (scoreReveal_shape game1).
      split; [reflexivity |]. split; [now right |]. split; [| intros _].
      * split; [intros _ | reflexivity]. simpl.
        rewrite (Permutation_length (sortDesc_perm _ _)).
        simpl in Eall, Hlen. lia.
      * intros socketName2 guess2. unfold submitGuess. simpl games.
        rewrite ObjFacts.get_set_same.
        destruct socketName2 as [name2 |]; [| reflexivity].
        simpl state. now destruct (negb _).
    + apply Nat.eqb_neq in Eall.
      eexists. simpl fst. simpl games.
      split; [apply ObjFacts.get_set_same |].
      split; [reflexivity |]. split; [left; exact Hstate |]. split.
      * simpl state. rewrite Hstate. split; [discriminate |].
        intros E. exfalso. apply Eall. simpl in E, Hlen |- *. lia.
      * simpl state. rewrite Hstate. discriminate.
Qed.

End Guessing.

(** Counterexample to C3 as stated.  A room with a single player: after the
    player has started the game and ranked, the room is in the guessing phase
    with [currentGuesses] empty, that is with [players.length - 1] entries,
    and no [submitGuess] event whatsoever moves it: the only player is the
    ranker. *)
Lemma solo_room_never_reveals :
  soloServer = server (worldAfter [] false Dice.compareTwoStrings soloRoom)
  /\ exists game,
       Obj.get "room" (games soloServer) = Some game
       /\ state game = Guessing
       /\ List.length (Obj.keys (currentGuesses game)) = List.length (players game) - 1
       /\ forall socketName guess,
            fst (submitGuess socketName "room" guess soloServer) = soloServer.
Proof.
  split; [vm_compute; reflexivity |].
  eexists. split; [reflexivity |]. split; [reflexivity |]. split; [reflexivity |].
  intros [name |] guess; [| reflexivity].
  unfold submitGuess. simpl.
  destruct (String.eqb name "A"); reflexivity.
Qed.

Lemma guessing_to_reveal_witness :
  run [] false Dice.compareTwoStrings initialWorld threePlayersGuessing
  = Some (worldAfter [] false Dice.compareTwoStrings threePlayersGuessing,
          emitsAfter [] false Dice.compareTwoStrings threePlayersGuessing)
  /\ Obj.get "room"
       (games (server (worldAfter [] false Dice.compareTwoStrings threePlayersGuessing)))
     = Some threePlayersGame
  /\ state threePlayersGame = Guessing
  /\ (exists ranker,
         currentRanker threePlayersGame = Some ranker
         /\ In ranker (players threePlayersGame)
         /\ Obj.get ranker (currentGuesses threePlayersGame) = None)
  /\ submitGuess (Some "A") "room" 2
       (server (worldAfter [] false Dice.compareTwoStrings threePlayersGuessing))
     = (server (worldAfter [] false Dice.compareTwoStrings threePlayersGuessing),
        replyError "You cannot guess as the ranker").
Proof.
  assert (Hrun :
    run [] false Dice.compareTwoStrings initialWorld threePlayersGuessing
    = Some (worldAfter [] false Dice.compareTwoStrings threePlayersGuessing,
            emitsAfter [] false Dice.compareTwoStrings threePlayersGuessing))
    by (vm_compute; reflexivity).
  assert (Hget :
    Obj.get "room"
      (games (server (worldAfter [] false Dice.compareTwoStrings threePlayersGuessing)))
    = Some threePlayersGame) by (vm_compute; reflexivity).
  assert (Hstate : state threePlayersGame = Guessing) by reflexivity.
  destruct (guessing_to_reveal [] false Dice.compareTwoStrings threePlayersGuessing
              _ _ "room" threePlayersGame Hrun Hget Hstate) as [H1 [H2 _]].
  split; [exact Hrun |]. split; [exact Hget |]. split; [exact Hstate |].
  split; [exact H1 |].
  apply H2. reflexivity.
Defined.

(** With guesses [{B: 2, C: 2}] and [actualPosition = 2], [B] and [C] gain
    one point each and the ranker [A] gains two. *)
Lemma scoring_rule_witness :
  run [] false Dice.compareTwoStrings initialWorld threePlayersOneGuess
  = Some (worldAfter [] false Dice.compareTwoStrings threePlayersOneGuess,
          emitsAfter [] false Dice.compareTwoStrings threePlayersOneGuess)
  /\ Obj.get "room"
       (games (server (worldAfter [] false Dice.compareTwoStrings threePlayersOneGuess)))
     = Some oneGuessGame
  /\ state oneGuessGame = Guessing
  /\ exists game',
       Obj.get "room"
         (games (fst (submitGuess (Some "C") "room" 2
                        (server (worldAfter [] false Dice.compareTwoStrings
                                   threePlayersOneGuess)))))
       = Some game'
       /\ state game' = Reveal
       /\ pointsOf (points game') "B" = (pointsOf (points oneGuessGame) "B" + 1)%Z
       /\ pointsOf (points game') "C" = (pointsOf (points oneGuessGame) "C" + 1)%Z
       /\ pointsOf (points game') "A" = (pointsOf (points oneGuessGame) "A" + 2)%Z.
Proof.
  assert (Hrun :
    run [] false Dice.compareTwoStrings initialWorld threePlayersOneGuess
    = Some (worldAfter [] false Dice.compareTwoStrings threePlayersOneGuess,
            emitsAfter [] false Dice.compareTwoStrings threePlayersOneGuess))
    by (vm_compute; reflexivity).
  assert (Hget :
    Obj.get "room"
      (games (server (worldAfter [] false Dice.compareTwoStrings threePlayersOneGuess)))
    = Some oneGuessGame) by (vm_compute; reflexivity).
  assert (Hstate : state oneGuessGame = Guessing) by reflexivity.
  split; [exact Hrun |]. split; [exact Hget |]. split; [exact Hstate |].
  destruct (scoring_rule [] false Dice.compareTwoStrings threePlayersOneGuess _ _
              (Some "C") "room" 2 oneGuessGame Hrun Hget Hstate)
    as [ranker [actual [Hr [Ha [game' [Hg [[Hs _] | [Hs [[Hyes [Hrk _]] _]]]]]]]]].
  - exfalso. vm_compute in Hg. injection Hg as <-. discriminate Hs.
  - injection Hr as <-. injection Ha as <-.
    exists game'. split; [exact Hg |]. split; [exact Hs |].
    vm_compute in Hg. injection Hg as <-.
    split; [apply Hyes; reflexivity |]. split; [apply Hyes; reflexivity |].
    exact Hrk.
Defined.

(** The reward of the ranker at 0, 1, 2, 3 and 5 correct guesses. *)
Example ranker_reward_boundary :
  map rankerReward
    [ [2; 2; 2; 2; 2]; [1; 2; 2; 2; 2]; [1; 1; 2; 2; 2]; [1; 1; 1; 2; 2];
      [1; 1; 1; 1; 1] ]%Z
  = map (fun reward => Some (Reveal, Some 1%Z, reward)) [0; 1; 2; 3; 3]%Z.
Proof. vm_compute. reflexivity. Qed.

(** A fourth player joins a room that is in the guessing phase. *)
Example join_during_guessing :
  ordinaryKey "room" = true
  /\ ordinaryKey "D" = true
  /\ Obj.get "room" (games threePlayersServer) = Some threePlayersGame
  /\ state threePlayersGame = Guessing
  /\ ~ In "D" (players threePlayersGame)
  /\ exists game',
       Plain.joinGame None "room" "D" threePlayersServer
       = Some (mkServer (Obj.set "room" game' (games threePlayersServer))
                 (supply threePlayersServer),
               Some "D",
               [(ToRoom "room", MGameState game' [])])
       /\ players game' = ["A"; "B"; "C"; "D"]
       /\ Obj.get "D" (points game') = Some 0%Z
       /\ state game' = Waiting.
Proof.
  assert (Hid : ordinaryKey "room" = true) by reflexivity.
  assert (Hname : ordinaryKey "D" = true) by reflexivity.
  assert (H1 : Obj.get "room" (games threePlayersServer) = Some threePlayersGame)
    by reflexivity.
  assert (H2 : ~ In "D" (players threePlayersGame)).
  { simpl. intros [H | [H | [H | []]]]; discriminate H. }
  split; [exact Hid |]. split; [exact Hname |].
  split; [exact H1 |]. split; [reflexivity |]. split; [exact H2 |].
  destruct (joinGame_any_phase threePlayersServer None "room" "D" Hid Hname)
    as [Hsame [H _]].
  destruct (H threePlayersGame H1 H2) as [game' [Heq [_ [Hp [Hpts [_ [Hs _]]]]]]].
  exists game'. rewrite Hsame, Heq. repeat split; assumption.
Defined.

(* ------------------------------------------------------------------------- *)
(** ** Exhaustion of the supply *)

Section Exhaustion.

Variable questionPool : list string.
Variable GROQ_API_KEY : bool.
Variable compareTwoStrings : string -> string -> Q.

(** [C4] (amended) When the acquisition made for a round returns fewer
    strings than the room has players, it returns none at all (it does not
    throw), having broadcast to the room a copy of the room state in which
    [noMoreQuestions] is true.  The room itself is only touched in its
    used-set: its phase, its assignments, rankings, rankers and its own
    [noMoreQuestions] field are as before.  [assignQuestions] reports the
    failure; [startGame] stores the room as it is and answers the owner with an
    error; [startNewRound] (reached from [nextReveal] when the round is over)
    stores the room as it is and broadcasts the flagged copy once more.
    Without [GROQ_API_KEY] nothing at all changes, in the room or in the
    supply. *)
Theorem supply_exhaustion :
  forall (o : Oracle) (gameId : string) (game : Game) (s : Supply)
         (questions : list string) (game1 : Game) (s1 : Supply) (out : list Emit),
    selectQuestions questionPool GROQ_API_KEY compareTwoStrings o gameId game
      (List.length (players game)) s = (questions, game1, s1, out) ->
    List.length questions < List.length (players game) ->
    let flagged := (ToRoom gameId, MGameState (set_noMoreQuestions true game1) []) in
    questions = []
    /\ out = [flagged]
    /\ game1 = set_usedQuestions (usedQuestions game1) game
    /\ state game1 = state game
    /\ noMoreQuestions game1 = noMoreQuestions game
    /\ (GROQ_API_KEY = false -> game1 = game /\ s1 = s)
    /\ assignQuestions questionPool GROQ_API_KEY compareTwoStrings o gameId game s
       = (false, game1, s1, out)
    /\ (forall sv socketName,
           Obj.get gameId (games sv) = Some game -> supply sv = s ->
           isName socketName (owner game) = true ->
           startGame questionPool GROQ_API_KEY compareTwoStrings socketName o gameId sv
           = (mkServer (Obj.set gameId game1 (games sv)) s1,
              [flagged; (ToSocket, MError "No more unique questions available.")]))
    /\ startNewRound questionPool GROQ_API_KEY compareTwoStrings o gameId game s
       = (game1, s1, [flagged; flagged])
    /\ (forall sv socketName game0,
           Obj.get gameId (games sv) = Some game0 -> supply sv = s ->
           isName socketName (owner game0) = true ->
           state game0 = Reveal ->
           game = set_currentRevealIndex (currentRevealIndex game0 + 1) game0 ->
           List.length (players game0) <= currentRevealIndex game0 + 1 ->
           nextReveal questionPool GROQ_API_KEY compareTwoStrings socketName o gameId sv
           = Some (mkServer (Obj.set gameId game1 (games sv)) s1, [flagged; flagged])).
Proof.
  intros o gameId game s questions game1 s1 out Hsel Hshort flagged.
  pose proof (selectQuestions_ok questionPool GROQ_API_KEY compareTwoStrings
                o gameId game (List.length (players game)) s) as Hok.
  rewrite Hsel in Hok. unfold acquireOk in Hok.
  destruct Hok as [[u Hu] [_ [_ [_ [_ [_ Hres]]]]]].
  destruct Hres as [[Hlen _] | [-> [Hpos ->]]]; [lia |].
  assert (Hassign :
    assignQuestions questionPool GROQ_API_KEY compareTwoStrings o gameId game s
    = (false, game1, s1, [flagged])).
  { unfold assignQuestions. rewrite Hsel. simpl List.length.
    apply Nat.ltb_lt in Hpos. now rewrite Hpos. }
  assert (Hround :
    startNewRound questionPool GROQ_API_KEY compareTwoStrings o gameId game s
    = (game1, s1, [flagged; flagged])).
  { unfold startNewRound. rewrite Hassign. reflexivity. }
  split; [reflexivity |]. split; [reflexivity |].
  split; [rewrite Hu; reflexivity |].
  split; [rewrite Hu; reflexivity |].
  split; [rewrite Hu; reflexivity |].
  split.
  { intros Hkey. clear Hassign Hround. unfold selectQuestions in Hsel.
    rewrite Hkey in Hsel. simpl in Hsel.
    destruct (selectFromQuestionPool_spec questionPool (poolSeed o) gameId game
                (List.length (players game)) s)
      as [[_ Heq] | [_ [qs [Heq [Hlen _]]]]]; rewrite Heq in Hsel.
    - injection Hsel as <- <-. split; reflexivity.
    - injection Hsel as Hq _ _ _. rewrite Hq in Hlen. simpl in Hlen. lia. }
  split; [exact Hassign |].
  split.
  { intros sv socketName Hget <- Howner. unfold startGame.
    rewrite Hget, Howner, Hassign. reflexivity. }
  split; [exact Hround |].
  intros sv socketName game0 Hget <- Howner Hstate Hgame Hover.
  unfold nextReveal. rewrite Hget, Howner, Hstate. simpl negb. cbv iota.
  rewrite <- Hgame. unfold setNextReveal.
  assert (Hleb : (List.length (players game) <=? currentRevealIndex game) = true).
  { apply Nat.leb_le. rewrite Hgame. simpl. exact Hover. }
  rewrite Hleb, Hround. reflexivity.
Qed.

End Exhaustion.

(** Counterexample to C4 as stated.  Seven players and an empty seed pool:
    the six fallback questions cannot serve the round.  The acquisition
    returns nothing and the flagged copy is broadcast, but in the room that
    the server keeps [noMoreQuestions] is still false. *)
Lemma exhausted_room_is_not_flagged :
  let w := worldAfter [] false Dice.compareTwoStrings sevenPlayersStart in
  fst (fst (fst (selectQuestions [] false Dice.compareTwoStrings (quietOracle 0) "room"
                   sevenPlayersGame (List.length (players sevenPlayersGame))
                   (supply sevenPlayersLobby))))
  = []
  /\ exists game,
       Obj.get "room" (games (server w)) = Some game
       /\ In (ToRoom "room", MGameState (set_noMoreQuestions true game) [])
            (emitsAfter [] false Dice.compareTwoStrings sevenPlayersStart)
       /\ noMoreQuestions game = false.
Proof.
  split; [vm_compute; reflexivity |].
  exists sevenPlayersGame. split; [vm_compute; reflexivity |].
  split; [| reflexivity].
  vm_compute. do 7 right. left. reflexivity.
Qed.

Lemma supply_exhaustion_witness :
  selectQuestions [] false Dice.compareTwoStrings (quietOracle 0) "room" sevenPlayersGame
    (List.length (players sevenPlayersGame)) (supply sevenPlayersLobby)
  = ([], sevenPlayersGame, supply sevenPlayersLobby,
     [(ToRoom "room", MGameState (set_noMoreQuestions true sevenPlayersGame) [])])
  /\ List.length (@nil string) < List.length (players sevenPlayersGame)
  /\ startGame [] false Dice.compareTwoStrings (Some "A") (quietOracle 0) "room"
       sevenPlayersLobby
     = (mkServer (Obj.set "room" sevenPlayersGame (games sevenPlayersLobby))
          (supply sevenPlayersLobby),
        [ (ToRoom "room", MGameState (set_noMoreQuestions true sevenPlayersGame) []);
          (ToSocket, MError "No more unique questions available.") ])
  /\ noMoreQuestions sevenPlayersGame = false.
Proof.
  assert (H1 :
    selectQuestions [] false Dice.compareTwoStrings (quietOracle 0) "room" sevenPlayersGame
      (List.length (players sevenPlayersGame)) (supply sevenPlayersLobby)
    = ([], sevenPlayersGame, supply sevenPlayersLobby,
       [(ToRoom "room", MGameState (set_noMoreQuestions true sevenPlayersGame) [])]))
    by (vm_compute; reflexivity).
  assert (H2 : List.length (@nil string) < List.length (players sevenPlayersGame))
    by (simpl; lia).
  split; [exact H1 |]. split; [exact H2 |]. split; [| reflexivity].
  destruct (supply_exhaustion [] false Dice.compareTwoStrings (quietOracle 0) "room"
              sevenPlayersGame (supply sevenPlayersLobby) _ _ _ _ H1 H2)
    as [_ [_ [_ [_ [_ [_ [_ [Hstart _]]]]]]]].
  apply Hstart; reflexivity.
Defined.

(* ------------------------------------------------------------------------- *)
(** ** Disconnection *)

Lemma disconnectAll_get (name gameId : string) (gs : Obj.t Game) :
  Obj.wf gs ->
  Obj.get gameId (fst (disconnectAll name gs))
  = match Obj.get gameId gs with
    | Some g => fst (disconnectGame name gameId g)
    | None => None
    end.
Proof.
  unfold Obj.wf. induction gs as [| [k g] gs IH]; simpl; [reflexivity |].
  intros Hwf. inversion Hwf as [| ? ? Hnew Hrest]; subst.
  specialize (IH Hrest).
  pose proof (proj1 (disconnectAll_keys name gs)) as Hkeys.
  destruct (disconnectGame name k g) as [kept out] eqn:Ek.
  destruct (disconnectAll name gs) as [rest out']. simpl in *.
  destruct (String.eqb k gameId) eqn:E.
  - apply String.eqb_eq in E. subst k. rewrite Ek. simpl.
    destruct kept as [g' |]; simpl.
    + now rewrite String.eqb_refl.
    + apply ObjFacts.get_None_keys. intros Hk. apply Hnew. now apply Hkeys.
  - destruct kept as [g' |]; simpl; [rewrite E |]; exact IH.
Qed.

Section Disconnection.

Variable questionPool : list string.
Variable GROQ_API_KEY : bool.
Variable compareTwoStrings : string -> string -> Q.

(** [C5] (amended) In every state reached by a run, when the connection of
    the player [name] is lost: a room that does not list [name] is left as it
    is; a room whose only player was [name] is deleted; in any other room
    that lists [name] the name is removed from [players] and its entries are
    deleted from [points], [questionAssignments] and [rankings], the entries
    of the other players are kept, and the phase becomes [Waiting] when at
    least two players remain and [Joining] when exactly one remains. *)
Theorem disconnect_demotion :
  forall (events : list Event) (w : World) (out : list Emit)
         (name gameId : string) (game : Game),
    run questionPool GROQ_API_KEY compareTwoStrings initialWorld events = Some (w, out) ->
    Obj.get gameId (games (server w)) = Some game ->
    let sv' := fst (disconnect (Some name) (server w)) in
    let rest := removeFirst name (players game) in
    (~ In name (players game) -> Obj.get gameId (games sv') = Some game)
    /\ (In name (players game) -> rest = [] -> Obj.get gameId (games sv') = None)
    /\ (In name (players game) -> rest <> [] ->
        exists game',
          Obj.get gameId (games sv') = Some game'
          /\ Permutation (players game') rest
          /\ ~ In name (players game')
          /\ state game' = (if 1 <? List.length rest then Waiting else Joining)
          /\ (state game' = Waiting <-> 2 <= List.length (players game'))
          /\ (state game' = Joining <-> List.length (players game') = 1)
          /\ points game' = Obj.delete name (points game)
          /\ questionAssignments game' = Obj.delete name (questionAssignments game)
          /\ rankings game' = Obj.delete name (rankings game)
          /\ Obj.get name (points game') = None
          /\ Obj.get name (questionAssignments game') = None
          /\ Obj.get name (rankings game') = None
          /\ (forall p, p <> name ->
                Obj.get p (points game') = Obj.get p (points game)
                /\ Obj.get p (questionAssignments game')
                   = Obj.get p (questionAssignments game)
                /\ Obj.get p (rankings game') = Obj.get p (rankings game))).
Proof.
  intros events w out name gameId game Hrun Hget sv' rest.
  pose proof (reachable_inv questionPool GROQ_API_KEY compareTwoStrings events w out Hrun)
    as Hinv.
  pose proof (ServerInv_lookup _ _ _ Hinv Hget) as [Hnd _].
  destruct Hinv as [Hwf _].
  assert (Hlookup :
    Obj.get gameId (games sv') = fst (disconnectGame name gameId game)).
  { subst sv'. unfold disconnect.
    pose proof (disconnectAll_get name gameId (games (server w)) Hwf) as H.
    destruct (disconnectAll name (games (server w))) as [gs out']. simpl in *.
    now rewrite H, Hget. }
  rewrite Hlookup. unfold disconnectGame. split; [| split].
  - intros Hout. apply includes_false in Hout. now rewrite Hout.
  - intros Hin Hrest. apply includes_In in Hin. rewrite Hin. simpl players.
    fold rest. now rewrite Hrest.
  - intros Hin Hrest. apply includes_In in Hin as Hinc. rewrite Hinc. simpl players.
    fold rest.
    destruct (List.length rest =? 0) eqn:Elen.
    { apply Nat.eqb_eq in Elen. destruct rest; [congruence | discriminate]. }
    simpl fst. eexists. split; [reflexivity |]. simpl.
    set (ps := sortDesc _ rest).
    assert (Hps : Permutation ps rest) by apply sortDesc_perm.
    split; [exact Hps |]. split.
    { intros Hp. apply (Permutation_in _ Hps) in Hp.
      now apply (removeFirst_NoDup name (players game) Hnd Hin). }
    split; [reflexivity |].
    rewrite (Permutation_length Hps).
    split.
    { destruct (1 <? List.length rest) eqn:E.
      - apply Nat.ltb_lt in E. split; [intros _; lia | reflexivity].
      - apply Nat.ltb_ge in E. split; [discriminate | lia]. }
    split.
    { apply Nat.eqb_neq in Elen. destruct (1 <? List.length rest) eqn:E.
      - apply Nat.ltb_lt in E. split; [discriminate | lia].
      - apply Nat.ltb_ge in E. split; [intros _; lia | reflexivity]. }
    split; [reflexivity |]. split; [reflexivity |]. split; [reflexivity |].
    split; [apply ObjFacts.get_delete_same |].
    split; [apply ObjFacts.get_delete_same |].
    split; [apply ObjFacts.get_delete_same |].
    intros p Hp. repeat split; now apply ObjFacts.get_delete_other.
Qed.

End Disconnection.

(** Counterexample to C5 as stated.  A room of two players in the reveal
    phase: when [B] disconnects, [A] remains alone, with its points entry, the
    entries of [B] are gone, and the phase is [Joining], not [Waiting]. *)
Lemma last_opponent_leaves_joining :
  let sv' := server (worldAfter [] false Dice.compareTwoStrings
                       (twoPlayersReveal ++ [OnDisconnect 2])) in
  Obj.get "room" (games twoPlayersServer) = Some twoPlayersGame
  /\ state twoPlayersGame = Reveal
  /\ players twoPlayersGame = ["A"; "B"]
  /\ exists game',
       Obj.get "room" (games sv') = Some game'
       /\ players game' = ["A"]
       /\ Obj.get "A" (points game') = Obj.get "A" (points twoPlayersGame)
       /\ Obj.get "B" (points game') = None
       /\ state game' = Joining
       /\ state game' <> Waiting.
Proof.
  cbv zeta. split; [reflexivity |]. split; [reflexivity |]. split; [reflexivity |].
  eexists. split; [vm_compute; reflexivity |]. simpl.
  repeat split. discriminate.
Qed.

Lemma disconnect_demotion_witness :
  run [] false Dice.compareTwoStrings initialWorld twoPlayersReveal
  = Some (worldAfter [] false Dice.compareTwoStrings twoPlayersReveal,
          emitsAfter [] false Dice.compareTwoStrings twoPlayersReveal)
  /\ Obj.get "room"
       (games (server (worldAfter [] false Dice.compareTwoStrings twoPlayersReveal)))
     = Some twoPlayersGame
  /\ In "B" (players twoPlayersGame)
  /\ removeFirst "B" (players twoPlayersGame) <> []
  /\ exists game',
       Obj.get "room"
         (games (fst (disconnect (Some "B")
                        (server (worldAfter [] false Dice.compareTwoStrings
                                   twoPlayersReveal)))))
       = Some game'
       /\ state game' = Joining
       /\ List.length (players game') = 1
       /\ Obj.get "B" (points game') = None
       /\ Obj.get "A" (points game') = Obj.get "A" (points twoPlayersGame).
Proof.
  assert (Hrun :
    run [] false Dice.compareTwoStrings initialWorld twoPlayersReveal
    = Some (worldAfter [] false Dice.compareTwoStrings twoPlayersReveal,
            emitsAfter [] false Dice.compareTwoStrings twoPlayersReveal))
    by (vm_compute; reflexivity).
  assert (Hget :
    Obj.get "room"
      (games (server (worldAfter [] false Dice.compareTwoStrings twoPlayersReveal)))
    = Some twoPlayersGame) by (vm_compute; reflexivity).
  assert (Hin : In "B" (players twoPlayersGame)) by (simpl; tauto).
  assert (Hrest : removeFirst "B" (players twoPlayersGame) <> []) by (simpl; discriminate).
  split; [exact Hrun |]. split; [exact Hget |]. split; [exact Hin |].
  split; [exact Hrest |].
  destruct (disconnect_demotion [] false Dice.compareTwoStrings twoPlayersReveal _ _
              "B" "room" twoPlayersGame Hrun Hget) as [_ [_ H]].
  destruct (H Hin Hrest)
    as [game' [Hg [_ [_ [Hs [_ [Hj [_ [_ [_ [Hb [_ [_ Hothers]]]]]]]]]]]]].
  exists game'. split; [exact Hg |]. split; [exact Hs |].
  split; [apply Hj; exact Hs |]. split; [exact Hb |].
  apply Hothers. discriminate.
Defined.

(* ------------------------------------------------------------------------- *)
(** ** Rankings and the true position *)

Lemma noError_emitToPlayers (gameId : string) (g : Game) (extras : string -> list Extra) :
  noError (emitToPlayers gameId g extras).
Proof.
  intros dest text Hin. unfold emitToPlayers in Hin. apply in_map_iff in Hin.
  destruct Hin as [p [Hp _]]. discriminate Hp.
Qed.

Section Rankings.

Variable questionPool : list string.
Variable GROQ_API_KEY : bool.
Variable compareTwoStrings : string -> string -> Q.

(** [C8] What [submitRanking] does with a list, in every state reached by a
    run, for a room in the ranking phase and a sender who is one of its
    players.  A list of the wrong length, or with a name that is not a
    player, is answered with an error to the sender and changes nothing.
    Every other list is recorded as the sender's ranking and acknowledged,
    without any error, whether it is a rearrangement of [players] or not:
    names may be repeated and others left out. *)
Theorem submitRanking_checks_length_and_membership :
  forall (events : list Event) (w : World) (out : list Emit) (o : Oracle)
         (gameId name : string) (game : Game) (ranking : list string),
    run questionPool GROQ_API_KEY compareTwoStrings initialWorld events = Some (w, out) ->
    Obj.get gameId (games (server w)) = Some game ->
    state game = Ranking ->
    In name (players game) ->
    ((List.length ranking <> List.length (players game)
      \/ (exists p, In p ranking /\ ~ In p (players game))) ->
     submitRanking questionPool GROQ_API_KEY compareTwoStrings (Some name) o gameId
       ranking (server w)
     = Some (server w, replyError "Invalid ranking"))
    /\ (List.length ranking = List.length (players game) ->
        incl ranking (players game) ->
        exists sv' out' game',
          submitRanking questionPool GROQ_API_KEY compareTwoStrings (Some name) o gameId
            ranking (server w)
          = Some (sv', (ToSocket, MRankingSubmitted true) :: out')
          /\ noError ((ToSocket, MRankingSubmitted true) :: out')
          /\ Obj.get gameId (games sv') = Some game'
          /\ Obj.get name (rankings game') = Some ranking).
Proof.
  intros events w out o gameId name game ranking Hrun Hget Hstate Hname.
  pose proof (ServerInv_lookup _ _ _
                (reachable_inv questionPool GROQ_API_KEY compareTwoStrings
                   events w out Hrun) Hget) as Hinv.
  apply includes_In in Hname as Hinc.
  unfold submitRanking. rewrite Hget, Hinc, Hstate. simpl negb. cbv iota.
  split.
  - intros Hbad.
    destruct (acceptableRanking game ranking) eqn:Hok; [| reflexivity].
    apply acceptableRanking_iff in Hok. destruct Hok as [Hlen Hall].
    destruct Hbad as [Hbad | [p [Hp Hout]]]; [contradiction |].
    exfalso. apply Hout. now apply Hall.
  - intros Hlen Hall.
    assert (Hok : acceptableRanking game ranking = true)
      by (apply acceptableRanking_iff; split; assumption).
    rewrite Hok. simpl negb. cbv iota.
    pose proof (submitRanking_room_inv questionPool GROQ_API_KEY compareTwoStrings
                  o gameId game name ranking (supply (server w))
                  Hinv Hstate Hname Hok) as Hroom.
    cbv zeta in Hroom.
    destruct (List.length
                (Obj.keys (rankings (set_rankings (Obj.set name ranking (rankings game)) game)))
              =? List.length
                   (players (set_rankings (Obj.set name ranking (rankings game)) game))).
    + destruct Hroom as [g' [Heq [_ [_ Hrk]]]]. rewrite Heq.
      eexists. eexists. exists g'. split; [reflexivity |].
      split; [| split].
      * intros dest text [H | H]; [discriminate H |].
        now apply noError_emitToPlayers in H.
      * apply ObjFacts.get_set_same.
      * rewrite Hrk. apply ObjFacts.get_set_same.
    + eexists. exists []. eexists. split; [reflexivity |].
      split; [| split].
      * intros dest text [H | []]. discriminate H.
      * apply ObjFacts.get_set_same.
      * apply ObjFacts.get_set_same.
Qed.

(** In the guessing and reveal phases of every state reached by a run,
    [actualPosition] is one more than [indexOf] of the target in the
    ranker's ranking, hence between 0 and the number of players, and it is 0
    exactly when the ranking omits the target. *)
Lemma actualPosition_range (events : list Event) (w : World) (out : list Emit)
  (gameId : string) (game : Game) :
  run questionPool GROQ_API_KEY compareTwoStrings initialWorld events = Some (w, out) ->
  Obj.get gameId (games (server w)) = Some game ->
  state game = Guessing \/ state game = Reveal ->
  exists ranker target ranking,
    currentRanker game = Some ranker
    /\ currentTarget game = Some target
    /\ Obj.get ranker (rankings game) = Some ranking
    /\ actualPosition game = Some (indexOf target ranking + 1)%Z
    /\ (0 <= indexOf target ranking + 1 <= Z.of_nat (List.length (players game)))%Z
    /\ (indexOf target ranking + 1 = 0 <-> ~ In target ranking)%Z.
Proof.
  intros Hrun Hget Hstate.
  pose proof (ServerInv_lookup _ _ _
                (reachable_inv questionPool GROQ_API_KEY compareTwoStrings
                   events w out Hrun) Hget) as [_ [_ [_ [_ Hphase]]]].
  unfold PhaseInv in Hphase.
  assert (H : rankingsAccepted game /\ revealSubject game).
  { destruct Hstate as [Hs | Hs]; rewrite Hs in Hphase; tauto. }
  destruct H as [Haccepted [ranker [target [ranking [Hr [_ [Ht [_ [Hrk Hpos]]]]]]]]].
  exists ranker, target, ranking.
  split; [exact Hr |]. split; [exact Ht |]. split; [exact Hrk |]. split; [exact Hpos |].
  apply Haccepted in Hrk. apply acceptableRanking_iff in Hrk. destruct Hrk as [Hlen _].
  pose proof (indexOf_bounds target ranking) as Hb. rewrite Hlen in Hb.
  split; [lia |].
  rewrite <- indexOf_absent. lia.
Qed.

End Rankings.

(** With players [A], [B], [C] in the ranking phase, the list [A, A, A] is
    not a rearrangement of the players, and [submitRanking] records it as the
    ranking of [A] and acknowledges it. *)
Lemma submitRanking_checks_length_and_membership_witness :
  run [] false Dice.compareTwoStrings initialWorld threePlayersRanking
  = Some (worldAfter [] false Dice.compareTwoStrings threePlayersRanking,
          emitsAfter [] false Dice.compareTwoStrings threePlayersRanking)
  /\ Obj.get "room"
       (games (server (worldAfter [] false Dice.compareTwoStrings threePlayersRanking)))
     = Some rankingGame
  /\ state rankingGame = Ranking
  /\ In "A" (players rankingGame)
  /\ List.length ["A"; "A"; "A"] = List.length (players rankingGame)
  /\ incl ["A"; "A"; "A"] (players rankingGame)
  /\ ~ Permutation ["A"; "A"; "A"] (players rankingGame)
  /\ exists sv' out' game',
       submitRanking [] false Dice.compareTwoStrings (Some "A") (quietOracle 1) "room"
         ["A"; "A"; "A"]
         (server (worldAfter [] false Dice.compareTwoStrings threePlayersRanking))
       = Some (sv', (ToSocket, MRankingSubmitted true) :: out')
       /\ noError ((ToSocket, MRankingSubmitted true) :: out')
       /\ Obj.get "room" (games sv') = Some game'
       /\ Obj.get "A" (rankings game') = Some ["A"; "A"; "A"].
Proof.
  assert (Hrun :
    run [] false Dice.compareTwoStrings initialWorld threePlayersRanking
    = Some (worldAfter [] false Dice.compareTwoStrings threePlayersRanking,
            emitsAfter [] false Dice.compareTwoStrings threePlayersRanking))
    by (vm_compute; reflexivity).
  assert (Hget :
    Obj.get "room"
      (games (server (worldAfter [] false Dice.compareTwoStrings threePlayersRanking)))
    = Some rankingGame) by (vm_compute; reflexivity).
  assert (Hstate : state rankingGame = Ranking) by reflexivity.
  assert (Hin : In "A" (players rankingGame)) by (simpl; tauto).
  assert (Hlen : List.length ["A"; "A"; "A"] = List.length (players rankingGame))
    by reflexivity.
  assert (Hall : incl ["A"; "A"; "A"] (players rankingGame)).
  { intros p Hp. simpl in Hp. simpl. tauto. }
  split; [exact Hrun |]. split; [exact Hget |]. split; [exact Hstate |].
  split; [exact Hin |]. split; [exact Hlen |]. split; [exact Hall |].
  split.
  { intros Hperm. apply Permutation_sym in Hperm.
    assert (Hb : In "B" ["A"; "A"; "A"]).
    { eapply Permutation_in; [exact Hperm |]. simpl. tauto. }
    simpl in Hb. destruct Hb as [H | [H | [H | []]]]; discriminate H. }
  destruct (submitRanking_checks_length_and_membership [] false Dice.compareTwoStrings
              threePlayersRanking _ _ (quietOracle 1) "room" "A" rankingGame
              ["A"; "A"; "A"] Hrun Hget Hstate Hin) as [_ H].
  exact (H Hlen Hall).
Defined.

(** [C7] (failing input) Players [A], [B], [C]; [A] ranks [A, A, A] and the
    others rank properly.  The first reveal has ranker [A] and target [B],
    and [actualPosition] is 0, below the range [1 .. players.length]: the
    target does not occur in the ranker's ranking. *)
Theorem actualPosition_of_omitted_target :
  let w := worldAfter [] false Dice.compareTwoStrings repeatedNameRanking in
  run [] false Dice.compareTwoStrings initialWorld repeatedNameRanking
  = Some (w, emitsAfter [] false Dice.compareTwoStrings repeatedNameRanking)
  /\ exists game,
       Obj.get "room" (games (server w)) = Some game
       /\ state game = Guessing
       /\ players game = ["A"; "B"; "C"]
       /\ currentRanker game = Some "A"
       /\ currentTarget game = Some "B"
       /\ Obj.get "A" (rankings game) = Some ["A"; "A"; "A"]
       /\ indexOf "B" ["A"; "A"; "A"] = (-1)%Z
       /\ actualPosition game = Some 0%Z
       /\ ~ (1 <= 0 <= Z.of_nat (List.length (players game)))%Z.
Proof.
  cbv zeta. split; [vm_compute; reflexivity |].
  eexists. split; [vm_compute; reflexivity |]. simpl.
  repeat split. lia.
Qed.

(* ------------------------------------------------------------------------- *)
(** ** The prefetch cache *)

Section Cache.

Variable questionPool : list string.
Variable GROQ_API_KEY : bool.
Variable compareTwoStrings : string -> string -> Q.

(** [C9] In every state reached by a run, every string of the prefetch
    cache is already in the global ledger: the validation loop adds a
    candidate to the ledger when it accepts it, before the surplus is pushed
    into the cache.  So the drain step of any later acquisition, for whatever
    room, rejects every cached string: it empties the cache and yields no
    question. *)
Theorem cached_questions_are_never_served :
  forall (events : list Event) (w : World) (out : list Emit),
    run questionPool GROQ_API_KEY compareTwoStrings initialWorld events = Some (w, out) ->
    let s := supply (server w) in
    incl (questionCache s) (globalUsedQuestions s)
    /\ forall (numQuestions : nat) (used : list string),
         0 < numQuestions ->
         drainCache numQuestions (questionCache s) used (globalUsedQuestions s) []
         = ([], used, globalUsedQuestions s, []).
Proof.
  intros events w out Hrun s.
  destruct (reachable_inv questionPool GROQ_API_KEY compareTwoStrings events w out Hrun)
    as [_ [_ [Hcache _]]].
  split; [exact Hcache |].
  intros numQuestions used Hpos. now apply drainCache_stale.
Qed.

End Cache.

(** The service returns three candidates to a request for one:
    [catsQuestion] is assigned, [catsAgain] is rejected as too similar, and
    [showerQuestion] is the surplus.  It is pushed into the cache, but it is
    in the ledger too, so the acquisition of the second room drops it from
    the cache and assigns a newly generated question: [showerQuestion] is
    never assigned to anybody. *)
Lemma cached_questions_are_never_served_witness :
  let s1 := supply (server (worldAfter [] true Dice.compareTwoStrings surplusRun)) in
  let w2 := worldAfter [] true Dice.compareTwoStrings secondRoomRun in
  run [] true Dice.compareTwoStrings initialWorld surplusRun
  = Some (worldAfter [] true Dice.compareTwoStrings surplusRun,
          emitsAfter [] true Dice.compareTwoStrings surplusRun)
  /\ questionCache s1 = [showerQuestion]
  /\ In showerQuestion (globalUsedQuestions s1)
  /\ drainCache 1 (questionCache s1) [] (globalUsedQuestions s1) []
     = ([], [], globalUsedQuestions s1, [])
  /\ questionCache (supply (server w2)) = []
  /\ map (fun kv => (fst kv, questionAssignments (snd kv))) (games (server w2))
     = [ ("room", [("A", catsQuestion)]); ("other", [("Z", mayorQuestion)]) ].
Proof.
  cbv zeta.
  assert (Hrun :
    run [] true Dice.compareTwoStrings initialWorld surplusRun
    = Some (worldAfter [] true Dice.compareTwoStrings surplusRun,
            emitsAfter [] true Dice.compareTwoStrings surplusRun))
    by (vm_compute; reflexivity).
  split; [exact Hrun |].
  split; [vm_compute; reflexivity |].
  destruct (cached_questions_are_never_served [] true Dice.compareTwoStrings
              surplusRun _ _ Hrun) as [Hincl Hdrain].
  split; [apply Hincl; vm_compute; now left |].
  split; [apply Hdrain; lia |].
  split; vm_compute; reflexivity.
Defined.

(* ------------------------------------------------------------------------- *)
(** ** The similarity filter *)

Section Similarity.

Variable compareTwoStrings : string -> string -> Q.

Lemma admitted_split (ledger before after : list string) (q : string) :
  admitted compareTwoStrings ledger (before ++ q :: after) ->
  forall e, In e (ledger ++ before) ->
            e <> q /\ (compareTwoStrings q e <= 7 # 10)%Q.
Proof.
  intros H e He. apply admitted_app in H. destruct H as [_ [Hq [Hsim _]]].
  split; [intros -> ; contradiction | now apply Hsim].
Qed.

(** [C6] (amended) The retry loop over the answers of the generative source
    extends the global ledger by a sequence [new] of candidates, and these
    are the only strings it caches or returns besides [cachedQuestions].
    Every string [q] of [new] differs from, and scores at most 0.7 against,
    every string that was in the ledger when [q] was examined: the ledger as
    it was before the loop, and the candidates accepted before [q]. *)
Theorem generated_questions_are_dissimilar :
  forall (o : Oracle) (fuel attempt numQuestions questionsNeeded : nat)
         (cachedQuestions used : list string) (s : Supply),
    let r := generate compareTwoStrings fuel attempt o numQuestions questionsNeeded
               cachedQuestions used s in
    exists new : list string,
      globalUsedQuestions (snd r) = globalUsedQuestions s ++ new
      /\ incl (questionCache (snd r)) (questionCache s ++ new)
      /\ (forall qs, fst (fst r) = Some qs -> incl qs (cachedQuestions ++ new))
      /\ (forall before q after,
             new = before ++ q :: after ->
             forall e, In e (globalUsedQuestions s ++ before) ->
                       e <> q /\ (compareTwoStrings q e <= 7 # 10)%Q).
Proof.
  intros o fuel attempt numQuestions questionsNeeded cachedQuestions used s r.
  destruct (generate_spec compareTwoStrings o numQuestions questionsNeeded cachedQuestions
              fuel attempt used s) as [new [_ [H2 [H3 [H4 [_ H6]]]]]].
  fold r in H2, H4, H6. exists new.
  split; [exact H2 |]. split; [exact H4 |]. split.
  - intros qs Hqs. destruct (H6 qs Hqs) as [_ [part [-> [_ Hpart]]]].
    intros x Hx. apply firstn_In in Hx. apply in_app_or in Hx. apply in_or_app.
    destruct Hx as [Hx | Hx]; [now left | right; now apply Hpart].
  - intros before q after ->. now apply admitted_split with (after := after).
Qed.

End Similarity.

(** The service answers with [catsQuestion], [showerQuestion] and
    [catsAgain]: the first two enter the ledger, the third scores above 0.7
    against the first and is left out. *)
Lemma generated_questions_are_dissimilar_witness :
  globalUsedQuestions
    (snd (generate Dice.compareTwoStrings 10 1
            (answeringOracle [catsQuestion; showerQuestion; catsAgain])
            1 1 [] [] initialSupply))
  = [catsQuestion; showerQuestion]
  /\ (Dice.compareTwoStrings showerQuestion catsQuestion <= 7 # 10)%Q
  /\ (7 # 10 < Dice.compareTwoStrings catsAgain catsQuestion)%Q.
Proof.
  destruct (generated_questions_are_dissimilar Dice.compareTwoStrings
              (answeringOracle [catsQuestion; showerQuestion; catsAgain])
              10 1 1 1 [] [] initialSupply) as [new [Hledger [_ [_ Hsim]]]].
  assert (Hnew : new = [catsQuestion; showerQuestion]).
  { vm_compute in Hledger. rewrite <- Hledger. reflexivity. }
  split; [vm_compute; reflexivity |].
  split; [| vm_compute; reflexivity].
  apply (Hsim [catsQuestion] showerQuestion [] Hnew catsQuestion).
  simpl. now left.
Defined.

(** Counterexample to C6 as stated.  The two strings of [nearDuplicatePool]
    score 64/70 against each other.  Without the generative source the
    acquisition for a room of two players takes them from the seed pool: both
    are returned, both enter the ledger, and they are assigned to the two
    players. *)
Lemma near_duplicates_from_the_seed_pool :
  let w := worldAfter nearDuplicatePool false Dice.compareTwoStrings twoPlayersStart in
  (7 # 10 < Dice.compareTwoStrings birthdayQuestion birthdaysQuestion)%Q
  /\ (7 # 10 < Dice.compareTwoStrings birthdaysQuestion birthdayQuestion)%Q
  /\ globalUsedQuestions (supply (server w)) = [birthdayQuestion; birthdaysQuestion]
  /\ map (fun kv => questionAssignments (snd kv)) (games (server w))
     = [[("A", birthdayQuestion); ("B", birthdaysQuestion)]].
Proof.
  cbv zeta. repeat split; vm_compute; reflexivity.
Qed.

(* ------------------------------------------------------------------------- *)
(** ** Uniqueness of the questions *)

Section Uniqueness.

Variable questionPool : list string.
Variable GROQ_API_KEY : bool.
Variable compareTwoStrings : string -> string -> Q.

(** When no string occurs twice in the seed pool followed by the fallback
    list, the strings returned by any sequence of acquisitions, for whatever
    rooms, are pairwise distinct, and none of them was in the ledger
    before. *)
Lemma acquisitions_are_distinct :
  NoDup (questionPool ++ initialFallbackQuestions) ->
  forall (calls : list (Oracle * string * Game * nat)) (s : Supply),
    Permutation (fallbackQuestions s) initialFallbackQuestions ->
    NoDup (fst (acquireAll questionPool GROQ_API_KEY compareTwoStrings calls s))
    /\ (forall q,
           In q (fst (acquireAll questionPool GROQ_API_KEY compareTwoStrings calls s)) ->
           ~ In q (globalUsedQuestions s)).
Proof.
  intros Hsources. induction calls as [| [[[o gameId] game] n] calls IH]; intros s Hfb.
  - simpl. split; [constructor | tauto].
  - simpl.
    pose proof (selectQuestions_ok questionPool GROQ_API_KEY compareTwoStrings
                  o gameId game n s) as Hok.
    destruct (selectQuestions questionPool GROQ_API_KEY compareTwoStrings o gameId game n s)
      as [[[qs game1] s1] out].
    unfold acquireOk in Hok.
    destruct Hok as [_ [Hgrow [_ [Hfb1 [Hfresh [Hnd _]]]]]].
    assert (Hfb' : Permutation (fallbackQuestions s1) initialFallbackQuestions).
    { now rewrite Hfb1. }
    destruct (IH s1 Hfb') as [IHnd IHfresh].
    destruct (acquireAll questionPool GROQ_API_KEY compareTwoStrings calls s1)
      as [qs' s2]. simpl in *.
    split.
    + apply NoDup_app.
      * apply Hnd. eapply Permutation_NoDup; [| exact Hsources].
        apply Permutation_app_head. symmetry. exact Hfb.
      * exact IHnd.
      * intros q Hq Hq'. apply (IHfresh q Hq'). now apply Hfresh.
    + intros q Hq. apply in_app_or in Hq. destruct Hq as [Hq | Hq].
      * now apply Hfresh.
      * intros Hl. apply (IHfresh q Hq). now apply Hgrow.
Qed.

End Uniqueness.

(** [C1] (failing input) The seed pool holds one string, which is also one
    of the six fallback questions, and a room of seven players asks for its
    questions.  One string cannot serve seven players, so the fallback list
    is appended to the pool without looking for strings they share, and the
    seven strings that are returned, whatever the shuffle, contain
    [marathonQuestion] twice.  With the shuffles that keep the order, players
    [A] and [D] are assigned the same question. *)
Theorem shared_question_is_served_twice :
  (forall seed : list nat,
      let questions :=
        fst (fst (fst (selectFromQuestionPool sharedPool seed "room" sevenPlayersGame
                         (List.length (players sevenPlayersGame)) initialSupply))) in
      List.length questions = 7
      /\ count_occ string_dec questions marathonQuestion = 2
      /\ ~ NoDup questions)
  /\ (let w := worldAfter sharedPool false Dice.compareTwoStrings sevenPlayersStart in
      exists game,
        Obj.get "room" (games (server w)) = Some game
        /\ state game = Ranking
        /\ Obj.get "A" (questionAssignments game) = Some marathonQuestion
        /\ Obj.get "D" (questionAssignments game) = Some marathonQuestion).
Proof.
  split.
  - intros seed questions.
    destruct (selectFromQuestionPool_spec sharedPool seed "room" sevenPlayersGame
                (List.length (players sevenPlayersGame)) initialSupply)
      as [[Hshort _] | [_ [qs [Heq [Hlen [[rest Hperm] _]]]]]].
    { vm_compute in Hshort. lia. }
    subst questions. rewrite Heq. simpl fst.
    assert (Hall : Permutation qs (marathonQuestion :: initialFallbackQuestions)).
    { destruct Hperm as [Hperm | Hperm];
        pose proof (Permutation_length Hperm) as Hl;
        rewrite length_app, Hlen in Hl; vm_compute in Hl.
      - destruct rest; [| simpl in Hl; lia]. rewrite app_nil_r in Hperm. exact Hperm.
      - lia. }
    split; [exact Hlen |]. split.
    + rewrite (Permutation_count_occ string_dec) in Hall. rewrite Hall.
      vm_compute. reflexivity.
    + intros Hnd. rewrite (NoDup_count_occ string_dec) in Hnd.
      specialize (Hnd marathonQuestion).
      rewrite (Permutation_count_occ string_dec) in Hall. rewrite Hall in Hnd.
      vm_compute in Hnd. lia.
  - cbv zeta. eexists. split; [vm_compute; reflexivity |].
    repeat split.
Qed.

(* ------------------------------------------------------------------------- *)
(** ** The transitions of a room *)

Section Transitions.

Variable questionPool : list string.
Variable GROQ_API_KEY : bool.
Variable compareTwoStrings : string -> string -> Q.

(** The used-set of the room after a selection from the local sources holds
    what it held, the returned strings, and nothing outside the ledger. *)
Lemma selectFromQuestionPool_used (seed : list nat) (gameId : string) (game : Game)
  (numQuestions : nat) (s : Supply) :
  let '(qs, game', s', _) :=
    selectFromQuestionPool questionPool seed gameId game numQuestions s in
  usedAfter (globalUsedQuestions s') game (usedQuestions game')
  /\ incl qs (usedQuestions game').
Proof.
  clear compareTwoStrings.
  destruct (selectFromQuestionPool_spec questionPool seed gameId game numQuestions s)
    as [[_ Heq] | [_ [qs [Heq _]]]]; rewrite Heq; unfold usedAfter; simpl.
  - split; [split |].
    + apply incl_refl.
    + apply incl_appl, incl_refl.
    + intros x [].
  - split; [split |].
    + apply JsSetFacts.addAll_incl.
    + intros x Hx. apply JsSetFacts.addAll_In in Hx. apply in_or_app.
      destruct Hx as [Hx | Hx]; [right | now left].
      apply JsSetFacts.addAll_In. now left.
    + intros x Hx. apply JsSetFacts.addAll_In. now left.
Qed.

Lemma selectQuestions_used (o : Oracle) (gameId : string) (game : Game)
  (numQuestions : nat) (s : Supply) :
  let '(qs, game', s', _) :=
    selectQuestions questionPool GROQ_API_KEY compareTwoStrings o gameId game
      numQuestions s in
  usedAfter (globalUsedQuestions s') game (usedQuestions game')
  /\ incl qs (usedQuestions game').
Proof.
  unfold selectQuestions.
  destruct (negb GROQ_API_KEY); [apply selectFromQuestionPool_used |].
  destruct (drainCache_spec numQuestions (questionCache s) (usedQuestions game)
              (globalUsedQuestions s) [])
    as [cache1 [newd [Hd _]]].
  rewrite Hd. simpl app.
  assert (Hused1 : usedAfter (globalUsedQuestions s ++ newd) game
                     (addAll newd (usedQuestions game))).
  { split; [apply JsSetFacts.addAll_incl |].
    intros x Hx. apply JsSetFacts.addAll_In in Hx. apply in_or_app.
    destruct Hx as [Hx | Hx]; [right; apply in_or_app; now right | now left]. }
  assert (Hnewd : incl newd (addAll newd (usedQuestions game))).
  { intros x Hx. apply JsSetFacts.addAll_In. now left. }
  destruct (negb (List.length newd <? numQuestions)).
  - simpl. split; [exact Hused1 |].
    intros x Hx. apply Hnewd. eapply firstn_In. exact Hx.
  - set (s1 := mkSupply (globalUsedQuestions s ++ newd) cache1 (fallbackQuestions s)).
    destruct (generate_spec compareTwoStrings o numQuestions
                (numQuestions - List.length newd) newd
                10 1 (addAll newd (usedQuestions game)) s1)
      as [newg [H1 [H2 [_ [_ [_ H6]]]]]].
    cbv zeta in H1, H2, H6.
    destruct (generate compareTwoStrings 10 1 o numQuestions
                (numQuestions - List.length newd) newd
                (addAll newd (usedQuestions game)) s1) as [[res used2] s2].
    simpl in H1, H2, H6.
    assert (Hused2 : usedAfter (globalUsedQuestions s2) game used2).
    { destruct Hused1 as [Ha Hb]. subst used2. rewrite H2. split.
      - intros x Hx. apply JsSetFacts.addAll_In. right. now apply Ha.
      - intros x Hx. apply JsSetFacts.addAll_In in Hx. apply in_or_app.
        destruct Hx as [Hx | Hx].
        + right. apply in_or_app. now right.
        + apply Hb in Hx. apply in_app_or in Hx.
          destruct Hx as [Hx | Hx]; [now left | right; apply in_or_app; now left]. }
    destruct res as [qs |].
    + simpl. split; [exact Hused2 |].
      destruct (H6 qs eq_refl) as [_ [part [Hqs [_ Hinp]]]].
      intros x Hx. subst qs used2. apply firstn_In in Hx. apply in_app_or in Hx.
      apply JsSetFacts.addAll_In.
      destruct Hx as [Hx | Hx]; [right; now apply Hnewd | left; now apply Hinp].
    + pose proof (selectFromQuestionPool_used (poolSeed o) gameId
                    (set_usedQuestions used2 game) numQuestions s2) as Hpool.
      pose proof (selectFromQuestionPool_ok questionPool (poolSeed o) gameId
                    (set_usedQuestions used2 game) numQuestions s2) as Hok.
      destruct (selectFromQuestionPool questionPool (poolSeed o) gameId
                  (set_usedQuestions used2 game) numQuestions s2)
        as [[[qs game3] s3] out].
      destruct Hok as [_ [Hl _]].
      destruct Hpool as [[Ha Hb] Hqs]. simpl in Ha, Hb.
      split; [| exact Hqs].
      destruct Hused2 as [Hc Hd2]. split.
      * intros x Hx. apply Ha. now apply Hc.
      * intros x Hx. apply Hb in Hx. apply in_app_or in Hx. apply in_or_app.
        destruct Hx as [Hx | Hx]; [| now right].
        apply Hd2 in Hx. apply in_app_or in Hx.
        destruct Hx as [Hx | Hx]; [now left | right; now apply Hl].
Qed.

(** [assignQuestions] in full: on success the room is the fresh round made
    of the acquired questions, on failure only its used-set has changed. *)
Lemma assignQuestions_shape (o : Oracle) (gameId : string) (game : Game) (s : Supply) :
  SupplyInv s ->
  let '(success, game', s', out) :=
    assignQuestions questionPool GROQ_API_KEY compareTwoStrings o gameId game s in
  let ledger := globalUsedQuestions s in
  let ledger' := globalUsedQuestions s' in
  incl ledger ledger'
  /\ exists u,
       usedAfter ledger' game u
       /\ if success
          then exists questions,
                 acquiredFor questionPool ledger ledger' game questions u
                 /\ game' = freshRound o questions u game
          else game' = set_usedQuestions u game.
Proof.
  intros [_ Hfb]. unfold assignQuestions.
  pose proof (selectQuestions_ok questionPool GROQ_API_KEY compareTwoStrings
                o gameId game (List.length (players game)) s) as Hok.
  pose proof (selectQuestions_used o gameId game (List.length (players game)) s) as Hused.
  destruct (selectQuestions questionPool GROQ_API_KEY compareTwoStrings o gameId game
              (List.length (players game)) s) as [[[qs game1] s1] out].
  unfold acquireOk in Hok.
  destruct Hok as [[u Hu] [Hl [_ [_ [Hq [Hn Hres]]]]]].
  destruct Hused as [Hafter Hin]. subst game1. simpl in Hafter, Hin.
  destruct Hres as [[Hlen ->] | [-> [Hpos ->]]].
  - rewrite Hlen, Nat.ltb_irrefl. cbv zeta. split; [exact Hl |].
    exists u. split; [exact Hafter |]. exists qs. split; [| reflexivity].
    split; [exact Hlen |]. split.
    + intros q Hq0. destruct (Hq q Hq0). repeat split; try assumption. now apply Hin.
    + intros Hnd. apply Hn. eapply Permutation_NoDup; [| exact Hnd].
      apply Permutation_app_head. symmetry. exact Hfb.
  - simpl List.length. apply Nat.ltb_lt in Hpos as Hpos'. rewrite Hpos'.
    cbv zeta. split; [exact Hl |]. exists u. split; [exact Hafter | reflexivity].
Qed.

(** The two ways out of [setNextReveal]. *)
Lemma setNextReveal_reveal (o : Oracle) (gameId : string) (g : Game) (s : Supply) :
  currentRevealIndex g < List.length (players g) ->
  setNextReveal questionPool GROQ_API_KEY compareTwoStrings o gameId g s
  = match Obj.get (keyOf (nth_error (rankers g) (currentRevealIndex g))) (rankings g) with
    | None => None
    | Some order =>
        Some (beginReveal o order g, s,
              emitToPlayers gameId (beginReveal o order g) (fun player =>
                [ XMyQuestion
                    (Obj.get player (questionAssignments (beginReveal o order g)));
                  XHasSubmittedGuess false ]))
    end.
Proof.
  intros Hidx. unfold setNextReveal. apply Nat.leb_gt in Hidx. rewrite Hidx.
  reflexivity.
Qed.

Lemma setNextReveal_round (o : Oracle) (gameId : string) (g : Game) (s : Supply) :
  List.length (players g) <= currentRevealIndex g ->
  setNextReveal questionPool GROQ_API_KEY compareTwoStrings o gameId g s
  = Some (startNewRound questionPool GROQ_API_KEY compareTwoStrings o gameId g s).
Proof.
  intros Hidx. unfold setNextReveal. apply Nat.leb_le in Hidx. now rewrite Hidx.
Qed.

Lemma RoomChange_refl (sender : option string) (e : Event) (sv : Server)
  (gameId : string) :
  RoomChange questionPool sender e sv sv gameId.
Proof.
  clear compareTwoStrings.
  unfold RoomChange. destruct (Obj.get gameId (games sv)); [now left | exact I].
Qed.

Lemma RoomChange_store (sender : option string) (e : Event) (sv : Server)
  (gid gameId : string) (g g' : Game) (s' : Supply) :
  Obj.get gid (games sv) = Some g ->
  RoomStep questionPool sender (globalUsedQuestions (supply sv)) (globalUsedQuestions s')
    e gid g g' ->
  RoomChange questionPool sender e sv (mkServer (Obj.set gid g' (games sv)) s') gameId.
Proof.
  clear compareTwoStrings.
  intros Hget Hstep. unfold RoomChange. simpl.
  destruct (String.eqb gameId gid) eqn:E.
  - apply String.eqb_eq in E. subst gameId.
    rewrite Hget, ObjFacts.get_set_same. now right.
  - apply String.eqb_neq in E. rewrite (ObjFacts.get_set_other _ _ _ _ E).
    destruct (Obj.get gameId (games sv)); [now left | exact I].
Qed.

(** Every handler changes the rooms by the transitions of [RoomStep], one
    room at most but for a disconnection, and the ledger only grows. *)
Lemma step_rooms (w w' : World) (e : Event) (out : list Emit) :
  ServerInv (server w) ->
  step questionPool GROQ_API_KEY compareTwoStrings w e = Some (w', out) ->
  incl (globalUsedQuestions (supply (server w)))
       (globalUsedQuestions (supply (server w')))
  /\ forall gameId,
       RoomChange questionPool (sockets w (sidOf e)) e (server w) (server w') gameId.
Proof.
  intros Hinv. destruct w as [sv sockets]. simpl in Hinv.
  destruct e as [sid gid playerName | sid gid playerName | sid o gid
                | sid o gid ranking | sid gid guess | sid o gid | sid];
    simpl.
  - (* createGame *)
    intros H. injection H as <- _. simpl. split; [apply incl_refl |].
    intros gameId. unfold RoomChange. simpl.
    destruct (String.eqb gameId gid) eqn:E.
    + apply String.eqb_eq in E. subst gameId. rewrite ObjFacts.get_set_same.
      destruct (Obj.get gid (games sv)); [right; constructor | now exists sid, playerName].
    + apply String.eqb_neq in E. rewrite (ObjFacts.get_set_other _ _ _ _ E).
      destruct (Obj.get gameId (games sv)); [now left | exact I].
  - (* joinGame *)
    unfold joinGame.
    destruct (Obj.get gid (games sv)) as [game |] eqn:Hget.
    + destruct (includes playerName (players game)) eqn:Einc.
      * intros H. injection H as <- _. simpl.
        split; [apply incl_refl | intros; apply RoomChange_refl].
      * intros H. injection H as <- _. simpl. split; [apply incl_refl |].
        intros gameId. eapply RoomChange_store; [exact Hget |].
        apply (RsJoin _ _ _ _ sid gid playerName game). now apply includes_false.
    + intros H. injection H as <- _. simpl.
      split; [apply incl_refl | intros; apply RoomChange_refl].
  - (* startGame *)
    unfold startGame.
    destruct (Obj.get gid (games sv)) as [game |] eqn:Hget.
    + destruct (isName (sockets sid) (owner game)) eqn:Eowner; simpl negb; cbv iota.
      * pose proof (assignQuestions_shape o gid game (supply sv) (proj2 (proj2 Hinv)))
          as Hshape.
        destruct (assignQuestions questionPool GROQ_API_KEY compareTwoStrings o gid
                    game (supply sv)) as [[[success game1] s1] out1].
        cbv zeta in Hshape. destruct Hshape as [Hl [u [Hu Hshape]]].
        destruct success; simpl negb; cbv iota.
        -- destruct Hshape as [questions [Hacq ->]].
           intros H. injection H as <- _. simpl. split; [exact Hl |].
           intros gameId. eapply RoomChange_store; [exact Hget |].
           now apply RsStart.
        -- subst game1. intros H. injection H as <- _. simpl. split; [exact Hl |].
           intros gameId. eapply RoomChange_store; [exact Hget |].
           now apply RsStartFailed.
      * intros H. injection H as <- _. simpl.
        split; [apply incl_refl | intros; apply RoomChange_refl].
    + intros H. injection H as <- _. simpl.
      split; [apply incl_refl | intros; apply RoomChange_refl].
  - (* submitRanking *)
    unfold submitRanking.
    destruct (Obj.get gid (games sv)) as [game |] eqn:Hget;
      [| intros H; injection H as <- _; simpl;
         split; [apply incl_refl | intros; apply RoomChange_refl]].
    destruct (sockets sid) as [name |] eqn:Esock;
      [| intros H; injection H as <- _; simpl;
         split; [apply incl_refl | intros; apply RoomChange_refl]].
    destruct (includes name (players game)) eqn:Einc; simpl negb; cbv iota;
      [| intros H; injection H as <- _; simpl;
         split; [apply incl_refl | intros; apply RoomChange_refl]].
    apply includes_In in Einc.
    destruct (state game) eqn:Hstate;
      try (intros H; injection H as <- _; simpl;
           split; [apply incl_refl | intros; apply RoomChange_refl]).
    destruct (acceptableRanking game ranking) eqn:Hok; simpl negb; cbv iota;
      [| intros H; injection H as <- _; simpl;
         split; [apply incl_refl | intros; apply RoomChange_refl]].
    pose proof (ServerInv_lookup sv gid game Hinv Hget) as Hgame.
    fold (ranked name ranking game).
    destruct (List.length (Obj.keys (rankings (ranked name ranking game)))
              =? List.length (players (ranked name ranking game))) eqn:Eall.
    + apply Nat.eqb_eq in Eall.
      assert (Hidx : currentRevealIndex (ranked name ranking game)
                     < List.length (players (ranked name ranking game))).
      { destruct Hgame as [_ [Hne [_ [_ Hphase]]]].
        unfold PhaseInv in Hphase. rewrite Hstate in Hphase.
        destruct Hphase as [_ [Hzero _]]. simpl. rewrite Hzero.
        destruct (players game); [congruence | simpl; lia]. }
      rewrite (setNextReveal_reveal o gid _ (supply sv) Hidx).
      destruct (Obj.get (keyOf (nth_error (rankers (ranked name ranking game))
                                  (currentRevealIndex (ranked name ranking game))))
                  (rankings (ranked name ranking game))) as [order |] eqn:Eorder;
        [| discriminate].
      intros H. injection H as <- _. simpl. split; [apply incl_refl |].
      intros gameId. eapply RoomChange_store; [exact Hget |].
      now apply (RsRankLast _ _ _ _ sid o gid name ranking game order).
    + apply Nat.eqb_neq in Eall.
      intros H. injection H as <- _. simpl. split; [apply incl_refl |].
      intros gameId. eapply RoomChange_store; [exact Hget |].
      now apply (RsRank _ _ _ _ sid o gid name ranking game).
  - (* submitGuess *)
    unfold submitGuess.
    destruct (Obj.get gid (games sv)) as [game |] eqn:Hget;
      [| intros H; injection H as <- _; simpl;
         split; [apply incl_refl | intros; apply RoomChange_refl]].
    destruct (sockets sid) as [name |] eqn:Esock;
      [| intros H; injection H as <- _; simpl;
         split; [apply incl_refl | intros; apply RoomChange_refl]].
    destruct (includes name (players game)) eqn:Einc; simpl negb; cbv iota;
      [| intros H; injection H as <- _; simpl;
         split; [apply incl_refl | intros; apply RoomChange_refl]].
    apply includes_In in Einc.
    destruct (state game) eqn:Hstate;
      try (intros H; injection H as <- _; simpl;
           split; [apply incl_refl | intros; apply RoomChange_refl]).
    destruct (sameName (Some name) (currentRanker game)) eqn:Hsame;
      [intros H; injection H as <- _; simpl;
       split; [apply incl_refl | intros; apply RoomChange_refl] |].
    destruct ((guess <? 1)%Z || (Z.of_nat (List.length (players game)) <? guess)%Z)
      eqn:Erange;
      [intros H; injection H as <- _; simpl;
       split; [apply incl_refl | intros; apply RoomChange_refl] |].
    apply orb_false_iff in Erange. destruct Erange as [Elo Ehi].
    apply Z.ltb_ge in Elo, Ehi.
    fold (guessed name guess game).
    destruct (List.length (Obj.keys (currentGuesses (guessed name guess game)))
              =? List.length (nonRankerPlayers (guessed name guess game))) eqn:Eall.
    + apply Nat.eqb_eq in Eall.
      intros H. injection H as <- _. simpl. split; [apply incl_refl |].
      intros gameId. eapply RoomChange_store; [exact Hget |].
      apply (RsScore _ _ _ _ sid gid name guess game);
        try assumption; try reflexivity. lia.
    + apply Nat.eqb_neq in Eall.
      intros H. injection H as <- _. simpl. split; [apply incl_refl |].
      intros gameId. eapply RoomChange_store; [exact Hget |].
      apply (RsGuess _ _ _ _ sid gid name guess game);
        try assumption; try reflexivity. lia.
  - (* nextReveal *)
    unfold nextReveal.
    destruct (Obj.get gid (games sv)) as [game |] eqn:Hget;
      [| intros H; injection H as <- _; simpl;
         split; [apply incl_refl | intros; apply RoomChange_refl]].
    destruct (isName (sockets sid) (owner game)) eqn:Eowner; simpl negb; cbv iota;
      [| intros H; injection H as <- _; simpl;
         split; [apply incl_refl | intros; apply RoomChange_refl]].
    destruct (state game) eqn:Hstate;
      try (intros H; injection H as <- _; simpl;
           split; [apply incl_refl | intros; apply RoomChange_refl]).
    set (game1 := set_currentRevealIndex (currentRevealIndex game + 1) game).
    destruct (Nat.le_gt_cases (List.length (players game1)) (currentRevealIndex game1))
      as [Hround | Hnext].
    + rewrite (setNextReveal_round o gid game1 (supply sv) Hround).
      unfold startNewRound.
      pose proof (assignQuestions_shape o gid game1 (supply sv) (proj2 (proj2 Hinv)))
        as Hshape.
      destruct (assignQuestions questionPool GROQ_API_KEY compareTwoStrings o gid
                  game1 (supply sv)) as [[[success game2] s2] out2].
      cbv zeta in Hshape. destruct Hshape as [Hl [u [Hu Hshape]]].
      destruct success; simpl negb; cbv iota.
      * destruct Hshape as [questions [Hacq ->]].
        intros H. injection H as <- _. simpl. split; [exact Hl |].
        intros gameId. eapply RoomChange_store; [exact Hget |].
        now apply (RsNewRound _ _ _ _ sid o gid game u questions).
      * subst game2. intros H. injection H as <- _. simpl. split; [exact Hl |].
        intros gameId. eapply RoomChange_store; [exact Hget |].
        now apply (RsNewRoundFailed _ _ _ _ sid o gid game u).
    + rewrite (setNextReveal_reveal o gid game1 (supply sv) Hnext).
      destruct (Obj.get (keyOf (nth_error (rankers game1) (currentRevealIndex game1)))
                  (rankings game1)) as [order |] eqn:Eorder; [| discriminate].
      intros H. injection H as <- _. simpl. split; [apply incl_refl |].
      intros gameId. eapply RoomChange_store; [exact Hget |].
      now apply (RsNext _ _ _ _ sid o gid game order).
  - (* disconnect *)
    unfold disconnect.
    destruct (sockets sid) as [name |] eqn:Esock;
      [| intros H; injection H as <- _; simpl;
         split; [apply incl_refl | intros; apply RoomChange_refl]].
    pose proof (disconnectAll_get name) as Hget.
    destruct (disconnectAll name (games sv)) as [gs out1] eqn:Eall.
    intros H. injection H as <- _. simpl. split; [apply incl_refl |].
    intros gameId. unfold RoomChange. simpl.
    specialize (Hget gameId (games sv) (proj1 Hinv)). rewrite Eall in Hget.
    simpl in Hget. rewrite Hget.
    destruct (Obj.get gameId (games sv)) as [g |]; [| exact I].
    unfold disconnectGame.
    destruct (includes name (players g)) eqn:Einc; [| now left].
    apply includes_In in Einc. cbv zeta. simpl players.
    destruct (List.length (removeFirst name (players g)) =? 0) eqn:Eempty; simpl fst.
    + apply Nat.eqb_eq, length_zero_iff_nil in Eempty. now exists sid, name.
    + right. apply (RsDepart _ _ _ _ sid gameId name g); try assumption; try reflexivity.
      intros E. rewrite E in Eempty. discriminate.
Qed.

End Transitions.

(* ------------------------------------------------------------------------- *)
(** ** The leaderboard *)

Lemma sortedDesc_ext (key key' : string -> Z) (l : list string) :
  (forall a, In a l -> key' a = key a) -> sortedDesc key l -> sortedDesc key' l.
Proof.
  induction l as [| a l IH]; simpl; [trivial |].
  intros Hext [Hhead Htail]. split.
  - intros b Hb. rewrite (Hext a (or_introl eq_refl)), (Hext b (or_intror Hb)).
    now apply Hhead.
  - apply IH; [| exact Htail]. intros b Hb. apply Hext. now right.
Qed.

Lemma sortedDesc_last (key : string -> Z) (x : string) (l : list string) :
  (forall a, In a l -> (key x <= key a)%Z) -> sortedDesc key l ->
  sortedDesc key (l ++ [x]).
Proof.
  induction l as [| a l IH]; simpl.
  - intros _ _. split; [intros b [] | exact I].
  - intros Hlow [Hhead Htail]. split.
    + intros b Hb. apply in_app_or in Hb. destruct Hb as [Hb | [<- | []]].
      * now apply Hhead.
      * apply Hlow. now left.
    + apply IH; [| exact Htail]. intros b Hb. apply Hlow. now right.
Qed.

Lemma insertDesc_sorted (key : string -> Z) (x : string) (l : list string) :
  sortedDesc key l -> sortedDesc key (insertDesc key x l).
Proof.
  induction l as [| y l IH]; simpl.
  - intros _. split; [intros b [] | exact I].
  - intros [Hhead Htail]. destruct (key x <? key y)%Z eqn:E; simpl.
    + apply Z.ltb_lt in E. split; [| now apply IH].
      intros b Hb.
      apply (Permutation_in _ (insertDesc_perm key x l)) in Hb.
      destruct Hb as [<- | Hb]; [lia | now apply Hhead].
    + apply Z.ltb_ge in E. split; [| split; assumption].
      intros b [<- | Hb]; [exact E |]. specialize (Hhead b Hb). lia.
Qed.

(** The sort of the leaderboard sorts. *)
Lemma sortDesc_sorted (key : string -> Z) (l : list string) :
  sortedDesc key (sortDesc key l).
Proof.
  induction l as [| x l IH]; simpl; [exact I |]. now apply insertDesc_sorted.
Qed.

Lemma nonneg_set (k : string) (v : Z) (pts : Obj.t Z) :
  (0 <= v)%Z -> nonneg pts -> nonneg (Obj.set k v pts).
Proof.
  intros Hv Hpts p v'. destruct (String.eqb p k) eqn:E.
  - apply String.eqb_eq in E. subst p. rewrite ObjFacts.get_set_same.
    intros H. injection H as <-. exact Hv.
  - apply String.eqb_neq in E. rewrite (ObjFacts.get_set_other _ _ _ _ E). apply Hpts.
Qed.

Lemma nonneg_pointsOf (pts : Obj.t Z) (p : string) :
  nonneg pts -> (0 <= pointsOf pts p)%Z.
Proof.
  intros H. unfold pointsOf. destruct (Obj.get p pts) as [v |] eqn:E; [| lia].
  exact (H p v E).
Qed.

(** The loop that awards the guessers keeps the entries of [points] in
    place and non-negative, adds entries only for guessers, and counts up. *)
Lemma award_loop_keys (guesses : Obj.t Z) (position : option Z) :
  forall (ks : list string) (pts : Obj.t Z) (c : Z),
    let r := fold_left (awardGuesser guesses position) ks (pts, c) in
    (Obj.wf pts -> Obj.wf (fst r))
    /\ (forall k, In k (Obj.keys (fst r)) <-> In k (Obj.keys pts)
                  \/ (In k ks /\ correctGuess guesses position k = true))
    /\ (nonneg pts -> nonneg (fst r))
    /\ (c <= snd r)%Z.
Proof.
  induction ks as [| g ks IH]; intros pts c; simpl.
  - repeat split; try tauto. lia.
  - rewrite awardGuesser_eq. simpl fst. simpl snd.
    destruct (correctGuess guesses position g) eqn:E.
    + destruct (IH (Obj.set g (pointsOf pts g + 1)%Z pts) (c + 1)%Z)
        as [Hwf [Hkeys [Hnn Hc]]].
      cbv zeta in *. split; [| split; [| split]].
      * intros H. now apply Hwf, ObjFacts.wf_set.
      * intros k. rewrite Hkeys, ObjFacts.keys_set_In. split.
        -- intros [[-> | H] | [H1 H2]]; auto.
        -- intros [H | [[<- | H1] H2]]; auto.
      * intros H. apply Hnn, nonneg_set; [| exact H].
        pose proof (nonneg_pointsOf pts g H). lia.
      * lia.
    + destruct (IH pts c) as [Hwf [Hkeys [Hnn Hc]]].
      cbv zeta in *. split; [| split; [| split]]; try assumption.
      intros k. rewrite Hkeys. split.
      * intros [H | [H1 H2]]; auto.
      * intros [H | [[<- | H1] H2]]; auto. congruence.
Qed.

(** Scoring a reveal whose ranker and guessers are players keeps the
    leaderboard. *)
Lemma scoreReveal_Leaderboard (g : Game) (ranker : string) :
  currentRanker g = Some ranker -> In ranker (players g) ->
  incl (Obj.keys (currentGuesses g)) (players g) ->
  Leaderboard g -> Leaderboard (scoreReveal g).
Proof.
  intros Hranker Hin Hguessers [Hwf [Hkeys [Hnn _]]].
  rewrite scoreReveal_shape. unfold Leaderboard. simpl.
  assert (Hpts : Obj.wf (points (scoreReveal g))
                 /\ (forall p, In p (Obj.keys (points (scoreReveal g))) <-> In p (players g))
                 /\ nonneg (points (scoreReveal g))).
  { unfold scoreReveal, awardGuessers.
    destruct (award_loop_keys (currentGuesses g) (actualPosition g)
                (Obj.keys (currentGuesses g)) (points g) 0%Z) as [H1 [H2 [H3 H4]]].
    cbv zeta in H1, H2, H3, H4.
    destruct (fold_left (awardGuesser (currentGuesses g) (actualPosition g))
                (Obj.keys (currentGuesses g)) (points g, 0%Z)) as [pts1 c].
    simpl in H1, H2, H3, H4. simpl points. rewrite Hranker. simpl keyOf.
    split; [| split].
    - now apply ObjFacts.wf_set, H1.
    - intros p. rewrite ObjFacts.keys_set_In, H2, Hkeys. split.
      + intros [-> | [H | [H _]]]; auto.
      + auto.
    - apply nonneg_set; [| now apply H3].
      pose proof (nonneg_pointsOf pts1 ranker (H3 Hnn)). lia. }
  destruct Hpts as [H1 [H2 H3]].
  split; [exact H1 |]. split; [| split; [exact H3 | apply sortDesc_sorted]].
  intros p. rewrite H2. split; intros H.
  - eapply Permutation_in; [symmetry; apply sortDesc_perm | exact H].
  - eapply Permutation_in; [apply sortDesc_perm | exact H].
Qed.

Lemma newGame_Leaderboard (p : string) : Leaderboard (newGame p).
Proof.
  unfold Leaderboard, newGame. simpl. split; [| split; [| split]].
  - repeat constructor. simpl. tauto.
  - tauto.
  - intros q v. simpl. destruct (String.eqb p q); [| discriminate].
    intros H. injection H as <-. lia.
  - split; [intros b [] | exact I].
Qed.

Lemma joined_Leaderboard (p : string) (g : Game) :
  ~ In p (players g) -> Leaderboard g -> Leaderboard (joined p g).
Proof.
  intros Hnew [Hwf [Hkeys [Hnn Hsorted]]]. unfold Leaderboard, joined. simpl.
  split; [now apply ObjFacts.wf_set |]. split; [| split].
  - intros q. rewrite ObjFacts.keys_set_In, Hkeys, in_app_iff. simpl. split.
    + intros [-> | H]; auto.
    + intros [H | [<- | []]]; auto.
  - apply nonneg_set; [lia | exact Hnn].
  - apply sortedDesc_last.
    + intros a Ha. rewrite !pointsOf_set, String.eqb_refl.
      destruct (String.eqb a p) eqn:E; [lia |]. now apply nonneg_pointsOf.
    + apply (sortedDesc_ext (pointsOf (points g))); [| exact Hsorted].
      intros a Ha. rewrite pointsOf_set.
      destruct (String.eqb a p) eqn:E; [| reflexivity].
      apply String.eqb_eq in E. subst a. contradiction.
Qed.

Lemma removeFirst_NoDup_In (x y : string) (l : list string) :
  NoDup l -> (In y (removeFirst x l) <-> y <> x /\ In y l).
Proof.
  intros Hnd. split.
  - intros H. split; [| eapply removeFirst_In; exact H].
    intros ->. revert H. induction Hnd as [| a l Ha Hnd IH]; simpl; [tauto |].
    destruct (String.eqb a x) eqn:E.
    + apply String.eqb_eq in E. subst a. exact Ha.
    + apply String.eqb_neq in E. intros [H | H]; [congruence | now apply IH].
  - intros [Hne Hin]. now apply removeFirst_other.
Qed.

Lemma departed_Leaderboard (name : string) (g : Game) :
  NoDup (players g) -> Leaderboard g -> Leaderboard (departed name g).
Proof.
  intros Hnd [Hwf [Hkeys [Hnn _]]]. unfold Leaderboard, departed. simpl.
  split; [now apply ObjFacts.wf_delete |]. split; [| split].
  - intros q. rewrite ObjFacts.keys_delete_In, Hkeys.
    rewrite <- (removeFirst_NoDup_In name q (players g) Hnd). split; intros H.
    + eapply Permutation_in; [symmetry; apply sortDesc_perm | exact H].
    + eapply Permutation_in; [apply sortDesc_perm | exact H].
  - intros q v. destruct (String.eqb q name) eqn:E.
    + apply String.eqb_eq in E. subst q. now rewrite ObjFacts.get_delete_same.
    + apply String.eqb_neq in E. rewrite (ObjFacts.get_delete_other _ _ _ E). apply Hnn.
  - apply sortDesc_sorted.
Qed.

(** The guessers on record are players other than the ranker. *)
Lemma guessers_are_players (g : Game) :
  incl (Obj.keys (currentGuesses g)) (nonRankerPlayers g) ->
  incl (Obj.keys (currentGuesses g)) (players g).
Proof.
  intros H x Hx. apply H in Hx. unfold nonRankerPlayers in Hx.
  now apply filter_In in Hx.
Qed.

Lemma RoomStep_Leaderboard (pool : list string) (sender : option string)
  (ledger ledger' : list string) (e : Event) (gameId : string) (g g' : Game) :
  GameInv g -> Leaderboard g ->
  RoomStep pool sender ledger ledger' e gameId g g' -> Leaderboard g'.
Proof.
  intros Hinv Hlb Hstep.
  destruct Hstep; try exact Hlb.
  - apply newGame_Leaderboard.
  - now apply joined_Leaderboard.
  - (* the reveal is scored *)
    destruct Hinv as [Hnd [_ [_ [_ Hphase]]]].
    unfold PhaseInv in Hphase.
    match goal with Hs : state g = Guessing |- _ => rewrite Hs in Hphase end.
    destruct Hphase as [_ [_ [_ [[ranker [t [r [Hr [Hin _]]]]] [Hguessers _]]]]].
    unfold revealed.
    assert (Hscore : Leaderboard (scoreReveal (guessed name guess g))).
    { apply (scoreReveal_Leaderboard _ ranker); try assumption.
      intros k Hk. unfold guessed in Hk. simpl in Hk.
      apply ObjFacts.keys_set_In in Hk. destruct Hk as [-> | Hk]; [assumption |].
      now apply (guessers_are_players g Hguessers). }
    exact Hscore.
  - apply departed_Leaderboard; [apply Hinv | exact Hlb].
Qed.

(* ------------------------------------------------------------------------- *)
(** ** The questions of a room *)

(** What [assignEach] builds: an object with distinct keys, all of them
    players, whose values are the questions paired with them. *)
Lemma assign_loop (l : list (string * string)) : forall acc : Obj.t string,
  let r := fold_left (fun acc pq => Obj.set (fst pq) (snd pq) acc) l acc in
  (Obj.wf acc -> Obj.wf r)
  /\ (forall k, In k (Obj.keys r) <-> In k (map fst l) \/ In k (Obj.keys acc))
  /\ (forall k v, Obj.get k r = Some v -> In (k, v) l \/ Obj.get k acc = Some v).
Proof.
  induction l as [| [p q] l IH]; intros acc; simpl.
  - repeat split; tauto.
  - destruct (IH (Obj.set p q acc)) as [Hwf [Hkeys Hget]]. cbv zeta in *.
    split; [| split].
    + intros H. now apply Hwf, ObjFacts.wf_set.
    + intros k. rewrite Hkeys, ObjFacts.keys_set_In. split.
      * intros [H | [-> | H]]; auto.
      * intros [[<- | H] | H]; auto.
    + intros k v H. apply Hget in H. destruct H as [H | H]; [left; now right |].
      destruct (String.eqb k p) eqn:E.
      * apply String.eqb_eq in E. subst k. rewrite ObjFacts.get_set_same in H.
        injection H as <-. left. now left.
      * apply String.eqb_neq in E. rewrite (ObjFacts.get_set_other _ _ _ _ E) in H.
        now right.
Qed.

Lemma map_fst_combine {A B : Type} (l : list A) : forall l' : list B,
  List.length l <= List.length l' -> map fst (combine l l') = l.
Proof.
  induction l as [| a l IH]; intros [| b l'] H; simpl in *; try reflexivity; try lia.
  f_equal. apply IH. lia.
Qed.

Lemma assignEach_wf (ps questions : list string) : Obj.wf (assignEach ps questions).
Proof.
  unfold assignEach.
  destruct (assign_loop (combine ps questions) Obj.empty) as [H _].
  apply H. constructor.
Qed.

Lemma assignEach_keys (ps questions : list string) (k : string) :
  In k (Obj.keys (assignEach ps questions)) -> In k ps.
Proof.
  unfold assignEach.
  destruct (assign_loop (combine ps questions) Obj.empty) as [_ [H _]].
  cbv zeta in H. rewrite H. intros [Hk | []].
  apply in_map_iff in Hk. destruct Hk as [[p q] [<- Hpq]].
  eapply in_combine_l. exact Hpq.
Qed.

Lemma assignEach_get (ps questions : list string) (k v : string) :
  Obj.get k (assignEach ps questions) = Some v -> In (k, v) (combine ps questions).
Proof.
  unfold assignEach.
  destruct (assign_loop (combine ps questions) Obj.empty) as [_ [_ H]].
  intros Hget. apply H in Hget. destruct Hget as [Hget | Hget]; [exact Hget |].
  discriminate.
Qed.

(** With a question for each of them, every player is assigned one. *)
Lemma assignEach_total (ps questions : list string) (p : string) :
  List.length ps <= List.length questions -> In p ps ->
  exists q, Obj.get p (assignEach ps questions) = Some q.
Proof.
  intros Hlen Hp. apply ObjFacts.get_Some_keys. unfold assignEach.
  destruct (assign_loop (combine ps questions) Obj.empty) as [_ [H _]].
  cbv zeta in H. rewrite H. left. now rewrite map_fst_combine.
Qed.

Lemma combine_snd_inj {A : Type} (ps : list A) : forall (questions : list string)
  (a b : A) (q : string),
  NoDup questions ->
  In (a, q) (combine ps questions) -> In (b, q) (combine ps questions) -> a = b.
Proof.
  induction ps as [| p ps IH]; intros [| q0 questions] a b q Hnd; simpl; try tauto.
  inversion Hnd as [| ? ? Hnew Hrest]; subst.
  intros [Ha | Ha] [Hb | Hb].
  - congruence.
  - injection Ha as <- <-. apply in_combine_r in Hb. contradiction.
  - injection Hb as <- <-. apply in_combine_r in Ha. contradiction.
  - eapply IH; eassumption.
Qed.

(** Distinct questions go to distinct players. *)
Lemma assignEach_inj (ps questions : list string) (p1 p2 q : string) :
  NoDup questions ->
  Obj.get p1 (assignEach ps questions) = Some q ->
  Obj.get p2 (assignEach ps questions) = Some q -> p1 = p2.
Proof.
  intros Hnd H1 H2. apply assignEach_get in H1, H2.
  eapply combine_snd_inj; eassumption.
Qed.

Lemma Assigned_ledger (ledger ledger' : list string) (g : Game) :
  incl ledger ledger' -> Assigned ledger g -> Assigned ledger' g.
Proof.
  intros Hl [Hu H]. split; [| exact H]. intros x Hx. now apply Hl, Hu.
Qed.

Lemma Assigned_usedAfter (ledger' : list string) (g : Game) (u : list string) :
  usedAfter ledger' g u -> Assigned ledger' g -> Assigned ledger' (set_usedQuestions u g).
Proof.
  intros [Ha Hb] [Hu [Hwf [Hkeys [Hheld Hall]]]]. unfold Assigned. simpl.
  split; [| split; [exact Hwf | split; [exact Hkeys | split; [| exact Hall]]]].
  - intros x Hx. apply Hb in Hx. apply in_app_or in Hx.
    destruct Hx as [Hx | Hx]; [now apply Hu | exact Hx].
  - intros p q H. apply Ha. now apply (Hheld p q).
Qed.

(** A fresh round: every player holds one of the acquired questions. *)
Lemma Assigned_freshRound (pool ledger ledger' : list string) (o : Oracle)
  (g : Game) (questions u : list string) :
  usedAfter ledger' g u -> acquiredFor pool ledger ledger' g questions u ->
  Assigned ledger' g ->
  Assigned ledger' (set_state Ranking (freshRound o questions u g)).
Proof.
  intros [Ha Hb] [Hlen [Hq _]] [Hu _]. unfold Assigned, freshRound. simpl.
  split; [| split; [apply assignEach_wf | split; [| split]]].
  - intros x Hx. apply Hb in Hx. apply in_app_or in Hx.
    destruct Hx as [Hx | Hx]; [now apply Hu | exact Hx].
  - intros k. apply assignEach_keys.
  - intros p q H. apply assignEach_get, in_combine_r in H.
    apply (Permutation_in _ (shuffle_perm (questionSeed o) questions)) in H.
    now apply Hq.
  - intros _ p Hp. apply assignEach_total; [| exact Hp].
    rewrite (Permutation_length (shuffle_perm (questionSeed o) questions)). lia.
Qed.

Lemma Assigned_players (ledger : list string) (g g' : Game) :
  usedQuestions g' = usedQuestions g ->
  questionAssignments g' = questionAssignments g ->
  (forall p, In p (players g') <-> In p (players g)) ->
  (inRound g' = true -> inRound g = true) ->
  Assigned ledger g -> Assigned ledger g'.
Proof.
  intros Eu Eq Hp Hr [Hu [Hwf [Hkeys [Hheld Hall]]]]. unfold Assigned.
  rewrite Eu, Eq. split; [exact Hu |]. split; [exact Hwf |].
  split; [| split; [exact Hheld |]].
  - intros k Hk. apply Hp. now apply Hkeys.
  - intros H p Hin. apply Hall; [now apply Hr | now apply Hp].
Qed.

Lemma RoomStep_Assigned (pool : list string) (sender : option string)
  (ledger ledger' : list string) (e : Event) (gameId : string) (g g' : Game) :
  GameInv g -> Assigned ledger' g ->
  RoomStep pool sender ledger ledger' e gameId g g' -> Assigned ledger' g'.
Proof.
  intros Hinv Has Hstep.
  destruct Hstep.
  - (* createGame *)
    unfold Assigned, newGame. simpl. repeat split; try easy. constructor.
  - (* joinGame *)
    destruct Has as [Hu [Hwf [Hkeys [Hheld _]]]]. unfold Assigned, joined. simpl.
    repeat split; try assumption; try discriminate.
    intros k Hk. apply in_or_app. left. now apply Hkeys.
  - now apply Assigned_usedAfter.
  - (* startGame *)
    now apply (Assigned_freshRound pool ledger).
  - (* submitRanking *)
    exact Has.
  - (* the last ranking *)
    apply (Assigned_players ledger' g); try reflexivity; try exact Has.
    intros _. unfold inRound.
    match goal with Hs : state g = Ranking |- _ => now rewrite Hs end.
  - (* submitGuess *)
    exact Has.
  - (* the reveal is scored *)
    apply (Assigned_players ledger' g); try exact Has.
    + unfold revealed. now rewrite scoreReveal_shape.
    + unfold revealed. now rewrite scoreReveal_shape.
    + intros p. unfold revealed. rewrite scoreReveal_shape. simpl. split; intros Hp.
      * eapply Permutation_in; [apply sortDesc_perm | exact Hp].
      * eapply Permutation_in; [symmetry; apply sortDesc_perm | exact Hp].
    + intros _. unfold inRound.
      match goal with Hs : state g = Guessing |- _ => now rewrite Hs end.
  - (* nextReveal *)
    apply (Assigned_players ledger' g); try reflexivity; try exact Has.
    intros _. unfold inRound.
    match goal with Hs : state g = Reveal |- _ => now rewrite Hs end.
  - (* a new round *)
    match goal with
    | Hu : usedAfter _ _ _, Ha : acquiredFor _ _ _ _ _ _ |- _ =>
        exact (Assigned_freshRound pool ledger ledger' o
                 (set_currentRevealIndex (currentRevealIndex g + 1) g)
                 questions u Hu Ha Has)
    end.
  - (* a new round that cannot start *)
    now apply (Assigned_usedAfter ledger'
                 (set_currentRevealIndex (currentRevealIndex g + 1) g) u).
  - (* disconnect *)
    destruct Hinv as [Hnd _].
    destruct Has as [Hu [Hwf [Hkeys [Hheld _]]]]. unfold Assigned, departed. simpl.
    split; [exact Hu |]. split; [now apply ObjFacts.wf_delete |].
    split; [| split].
    + intros k Hk. apply ObjFacts.keys_delete_In in Hk. destruct Hk as [Hne Hk].
      eapply Permutation_in; [symmetry; apply sortDesc_perm |].
      apply removeFirst_other; [exact Hne | now apply Hkeys].
    + intros p q. destruct (String.eqb p name) eqn:E.
      * apply String.eqb_eq in E. subst p. now rewrite ObjFacts.get_delete_same.
      * apply String.eqb_neq in E. rewrite (ObjFacts.get_delete_other _ _ _ E).
        apply Hheld.
    + unfold inRound. simpl.
      destruct (1 <? List.length (removeFirst name (players g))); discriminate.
Qed.

(* ------------------------------------------------------------------------- *)
(** ** The cursor of the reveals *)

Lemma RoomStep_Rotation (pool : list string) (sender : option string)
  (ledger ledger' : list string) (e : Event) (gameId : string) (g g' : Game) :
  GameInv g -> Rotation g ->
  RoomStep pool sender ledger ledger' e gameId g g' -> Rotation g'.
Proof.
  intros Hinv Hrot Hstep.
  destruct Hstep; try exact I.
  - (* startGame fails *)
    exact Hrot.
  - (* submitRanking *)
    unfold Rotation, ranked. simpl.
    match goal with Hs : state g = Ranking |- _ => now rewrite Hs end.
  - (* the last ranking *)
    unfold Rotation, beginReveal, ranked. simpl.
    destruct Hinv as [_ [Hne [_ [_ Hphase]]]]. unfold PhaseInv in Hphase.
    match goal with Hs : state g = Ranking |- _ => rewrite Hs in Hphase end.
    destruct Hphase as [_ [Hzero _]]. rewrite Hzero.
    repeat split; try discriminate.
    destruct (players g); [congruence | simpl; lia].
  - (* submitGuess *)
    unfold Rotation in *. unfold guessed. simpl.
    match goal with Hs : state g = Guessing |- _ => rewrite Hs in * end.
    destruct Hrot as [F1 [F2 [F3 [F4 F5]]]].
    split; [exact F1 |]. split; [exact F2 |]. split; [exact F3 |].
    split; [exact F4 |]. intros p v Hget.
    destruct (String.eqb p name) eqn:E.
    + apply String.eqb_eq in E. subst p. rewrite ObjFacts.get_set_same in Hget.
      injection Hget as <-. assumption.
    + apply String.eqb_neq in E. rewrite (ObjFacts.get_set_other _ _ _ _ E) in Hget.
      now apply (F5 p v).
  - (* the reveal is scored *)
    unfold Rotation in *.
    match goal with Hs : state g = Guessing |- _ => rewrite Hs in * end.
    destruct Hrot as [F1 [F2 [F3 [F4 F5]]]].
    unfold revealed. rewrite scoreReveal_shape. simpl.
    split; [intros _; exact F2 | split; [exact F3 | reflexivity]].
  - (* nextReveal *)
    unfold Rotation, beginReveal. simpl. repeat split; try discriminate. assumption.
  - (* a new round that cannot start *)
    unfold Rotation in *. simpl.
    match goal with Hs : state g = Reveal |- _ => rewrite Hs in * end.
    destruct Hrot as [F1 [F2 F3]]. repeat split; try assumption. lia.
  - (* disconnect *)
    unfold Rotation, departed. simpl.
    now destruct (1 <? List.length (removeFirst name (players g))).
Qed.

(* ------------------------------------------------------------------------- *)
(** ** The rooms of the reachable states *)

Lemma RoomInv_newGame (ledger : list string) (p : string) : RoomInv ledger (newGame p).
Proof.
  split; [apply newGame_Leaderboard |]. split; [| split; [exact I | reflexivity]].
  unfold Assigned, newGame. simpl. repeat split; try easy. constructor.
Qed.

Lemma RoomStep_Unflagged (pool : list string) (sender : option string)
  (ledger ledger' : list string) (e : Event) (gameId : string) (g g' : Game) :
  Unflagged g -> RoomStep pool sender ledger ledger' e gameId g g' -> Unflagged g'.
Proof.
  intros Hflag Hstep. destruct Hstep; try exact Hflag; try reflexivity.
  unfold Unflagged, revealed. now rewrite scoreReveal_shape.
Qed.

Lemma RoomStep_inv (pool : list string) (sender : option string)
  (ledger ledger' : list string) (e : Event) (gameId : string) (g g' : Game) :
  incl ledger ledger' -> GameInv g -> RoomInv ledger g ->
  RoomStep pool sender ledger ledger' e gameId g g' -> RoomInv ledger' g'.
Proof.
  intros Hl Hinv [Hlb [Has [Hrot Hflag]]] Hstep. split; [| split; [| split]].
  - eapply RoomStep_Leaderboard; eassumption.
  - eapply RoomStep_Assigned; [exact Hinv | | exact Hstep].
    eapply Assigned_ledger; eassumption.
  - eapply RoomStep_Rotation; eassumption.
  - eapply RoomStep_Unflagged; eassumption.
Qed.

(** Where the questions held in a room after a transition come from: they
    were held by the same players before, or the round is a fresh one, whose
    questions are new to the ledger and differ from player to player. *)
Lemma RoomStep_held (pool : list string) (sender : option string)
  (ledger ledger' : list string) (e : Event) (gameId : string) (g g' : Game) :
  NoDup (pool ++ initialFallbackQuestions) ->
  RoomStep pool sender ledger ledger' e gameId g g' ->
  (forall p q, Obj.get p (questionAssignments g') = Some q ->
               Obj.get p (questionAssignments g) = Some q)
  \/ ((exists sid o, e = OnStartGame sid o gameId \/ e = OnNextReveal sid o gameId)
      /\ (forall p q, Obj.get p (questionAssignments g') = Some q -> ~ In q ledger)
      /\ (forall p1 p2 q,
            Obj.get p1 (questionAssignments g') = Some q ->
            Obj.get p2 (questionAssignments g') = Some q -> p1 = p2)).
Proof.
  intros Hnd Hstep.
  assert (Hfresh : forall (o : Oracle) (g0 : Game) (questions u : list string),
            acquiredFor pool ledger ledger' g0 questions u ->
            let qa := assignEach (players g0) (shuffle (questionSeed o) questions) in
            (forall p q, Obj.get p qa = Some q -> ~ In q ledger)
            /\ (forall p1 p2 q, Obj.get p1 qa = Some q -> Obj.get p2 qa = Some q ->
                                p1 = p2)).
  { intros o g0 questions u [_ [Hq Hdistinct]] qa. split.
    - intros p q Hget. apply assignEach_get, in_combine_r in Hget.
      apply (Permutation_in _ (shuffle_perm (questionSeed o) questions)) in Hget.
      now apply Hq.
    - intros p1 p2 q. apply assignEach_inj.
      eapply Permutation_NoDup; [symmetry; apply shuffle_perm | now apply Hdistinct]. }
  destruct Hstep;
    try (left; intros p0 q0 Hget; exact Hget).
  - left. intros p0 q0 Hget. discriminate.
  - right. split; [exists sid, o; now left |].
    match goal with Ha : acquiredFor _ _ _ _ _ _ |- _ => exact (Hfresh o g _ _ Ha) end.
  - left. intros p0 q0. unfold revealed. now rewrite scoreReveal_shape.
  - right. split; [exists sid, o; now right |].
    match goal with
    | Ha : acquiredFor _ _ _ _ _ _ |- _ =>
        exact (Hfresh o (set_currentRevealIndex (currentRevealIndex g + 1) g) _ _ Ha)
    end.
  - left. intros p0 q0. unfold departed. simpl.
    destruct (String.eqb p0 name) eqn:E.
    + apply String.eqb_eq in E. subst p0. now rewrite ObjFacts.get_delete_same.
    + apply String.eqb_neq in E. now rewrite (ObjFacts.get_delete_other _ _ _ E).
Qed.

Section Rooms.

Variable questionPool : list string.
Variable GROQ_API_KEY : bool.
Variable compareTwoStrings : string -> string -> Q.

Lemma step_rooms_inv (w w' : World) (e : Event) (out : list Emit) :
  ServerInv (server w) -> RoomsInv (server w) ->
  step questionPool GROQ_API_KEY compareTwoStrings w e = Some (w', out) ->
  RoomsInv (server w').
Proof.
  intros Hinv Hrooms Hstep.
  destruct (step_rooms questionPool GROQ_API_KEY compareTwoStrings w w' e out Hinv Hstep)
    as [Hl Hchange].
  intros gameId g' Hget'. specialize (Hchange gameId). unfold RoomChange in Hchange.
  rewrite Hget' in Hchange.
  destruct (Obj.get gameId (games (server w))) as [g |] eqn:Hget.
  - pose proof (Hrooms gameId g Hget) as Hroom.
    destruct Hchange as [-> | Hroomstep].
    + destruct Hroom as [Hlb [Has Hrot]]. split; [exact Hlb | split; [| exact Hrot]].
      eapply Assigned_ledger; eassumption.
    + eapply RoomStep_inv; [exact Hl | | exact Hroom | exact Hroomstep].
      eapply ServerInv_lookup; eassumption.
  - destruct Hchange as [sid [p [_ ->]]]. apply RoomInv_newGame.
Qed.

Lemma run_rooms_inv (events : list Event) : forall (w w' : World) (out : list Emit),
  ServerInv (server w) -> RoomsInv (server w) ->
  run questionPool GROQ_API_KEY compareTwoStrings w events = Some (w', out) ->
  RoomsInv (server w')
  /\ incl (globalUsedQuestions (supply (server w)))
          (globalUsedQuestions (supply (server w'))).
Proof.
  induction events as [| e events IH]; intros w w' out Hinv Hrooms; simpl.
  - intros H. injection H as <- _. split; [exact Hrooms | apply incl_refl].
  - destruct (step_inv questionPool GROQ_API_KEY compareTwoStrings w e Hinv)
      as [w1 [out1 [Hstep Hinv1]]].
    rewrite Hstep.
    pose proof (step_rooms_inv w w1 e out1 Hinv Hrooms Hstep) as Hrooms1.
    destruct (step_rooms questionPool GROQ_API_KEY compareTwoStrings w w1 e out1
                Hinv Hstep) as [Hl1 _].
    destruct (run questionPool GROQ_API_KEY compareTwoStrings w1 events)
      as [[w2 out2] |] eqn:Hrun; [| discriminate].
    intros H. injection H as <- _.
    destruct (IH w1 w2 out2 Hinv1 Hrooms1 Hrun) as [Hrooms2 Hl2].
    split; [exact Hrooms2 |]. intros x Hx. now apply Hl2, Hl1.
Qed.

Lemma reachable_room (events : list Event) (w : World) (out : list Emit)
  (gameId : string) (g : Game) :
  run questionPool GROQ_API_KEY compareTwoStrings initialWorld events = Some (w, out) ->
  Obj.get gameId (games (server w)) = Some g ->
  GameInv g /\ RoomInv (globalUsedQuestions (supply (server w))) g.
Proof.
  intros Hrun Hget. split.
  - eapply ServerInv_lookup; [| exact Hget].
    eapply reachable_inv. exact Hrun.
  - assert (Hinit : RoomsInv (server initialWorld)) by (intros k g0 H; discriminate).
    destruct (run_rooms_inv events initialWorld w out ServerInv_initial Hinit Hrun)
      as [Hrooms _].
    exact (Hrooms gameId g Hget).
Qed.

Hypothesis sources_distinct : NoDup (questionPool ++ initialFallbackQuestions).

Lemma step_heldOnce (w w' : World) (e : Event) (out : list Emit) :
  ServerInv (server w) -> RoomsInv (server w) -> heldOnce (server w) ->
  step questionPool GROQ_API_KEY compareTwoStrings w e = Some (w', out) ->
  heldOnce (server w').
Proof using sources_distinct.
  intros Hinv Hrooms Hheld Hstep.
  destruct (step_rooms questionPool GROQ_API_KEY compareTwoStrings w w' e out Hinv Hstep)
    as [_ Hchange].
  assert (Horigin : forall gameId g' p q,
            Obj.get gameId (games (server w')) = Some g' ->
            Obj.get p (questionAssignments g') = Some q ->
            (exists g, Obj.get gameId (games (server w)) = Some g
                       /\ Obj.get p (questionAssignments g) = Some q)
            \/ ((exists sid o, e = OnStartGame sid o gameId
                               \/ e = OnNextReveal sid o gameId)
                /\ ~ In q (globalUsedQuestions (supply (server w)))
                /\ (forall p1 p2 q0,
                      Obj.get p1 (questionAssignments g') = Some q0 ->
                      Obj.get p2 (questionAssignments g') = Some q0 -> p1 = p2))).
  { intros gameId g' p q Hget' Hq. specialize (Hchange gameId).
    unfold RoomChange in Hchange. rewrite Hget' in Hchange.
    destruct (Obj.get gameId (games (server w))) as [g |] eqn:Hget.
    - destruct Hchange as [-> | Hroomstep]; [left; now exists g |].
      destruct (RoomStep_held _ _ _ _ _ _ _ _ sources_distinct Hroomstep)
        as [Hold | [Hev [Hnew Hinj]]].
      + left. exists g. split; [reflexivity | now apply Hold].
      + right. split; [exact Hev |]. split; [now apply (Hnew p q) | exact Hinj].
    - destruct Hchange as [sid [p0 [_ ->]]]. discriminate. }
  assert (Hledger : forall gameId g p q,
            Obj.get gameId (games (server w)) = Some g ->
            Obj.get p (questionAssignments g) = Some q ->
            In q (globalUsedQuestions (supply (server w)))).
  { intros gameId g p q Hget Hq.
    destruct (Hrooms gameId g Hget) as [_ [[Hu [_ [_ [Hin _]]]] _]].
    apply Hu. now apply (Hin p q). }
  intros gameId1 gameId2 g1 g2 p1 p2 q Hget1 Hget2 Hq1 Hq2.
  destruct (Horigin gameId1 g1 p1 q Hget1 Hq1)
    as [[g01 [Hold1 Hheld1]] | [[sid1 [o1 Hev1]] [Hnew1 Hinj1]]];
    destruct (Horigin gameId2 g2 p2 q Hget2 Hq2)
      as [[g02 [Hold2 Hheld2]] | [[sid2 [o2 Hev2]] [Hnew2 Hinj2]]].
  - exact (Hheld gameId1 gameId2 g01 g02 p1 p2 q Hold1 Hold2 Hheld1 Hheld2).
  - exfalso. apply Hnew2. exact (Hledger gameId1 g01 p1 q Hold1 Hheld1).
  - exfalso. apply Hnew1. exact (Hledger gameId2 g02 p2 q Hold2 Hheld2).
  - assert (gameId1 = gameId2) as <-.
    { destruct Hev1 as [-> | ->]; destruct Hev2 as [Hev2 | Hev2];
        try discriminate; now injection Hev2. }
    rewrite Hget1 in Hget2. injection Hget2 as <-.
    split; [reflexivity | exact (Hinj1 p1 p2 q Hq1 Hq2)].
Qed.

Lemma run_heldOnce (events : list Event) : forall (w w' : World) (out : list Emit),
  ServerInv (server w) -> RoomsInv (server w) -> heldOnce (server w) ->
  run questionPool GROQ_API_KEY compareTwoStrings w events = Some (w', out) ->
  heldOnce (server w').
Proof using sources_distinct.
  induction events as [| e events IH]; intros w w' out Hinv Hrooms Hheld; simpl.
  - intros H. now injection H as <- _.
  - destruct (step_inv questionPool GROQ_API_KEY compareTwoStrings w e Hinv)
      as [w1 [out1 [Hstep Hinv1]]].
    rewrite Hstep.
    pose proof (step_rooms_inv w w1 e out1 Hinv Hrooms Hstep) as Hrooms1.
    pose proof (step_heldOnce w w1 e out1 Hinv Hrooms Hheld Hstep) as Hheld1.
    destruct (run questionPool GROQ_API_KEY compareTwoStrings w1 events)
      as [[w2 out2] |] eqn:Hrun; [| discriminate].
    intros H. injection H as <- _.
    exact (IH w1 w2 out2 Hinv1 Hrooms1 Hheld1 Hrun).
Qed.

End Rooms.

(* ------------------------------------------------------------------------- *)
(** ** Ordinary keys

    Events whose room identifiers and player names are ordinary keys lead to
    rooms whose identifiers and players are ordinary keys: on such runs the
    lookups and the assignments of the handlers never meet a property name
    that plain objects inherit. *)

(** The players of a room after a transition are players of the room before
    it, but for the player the event brings in. *)
Lemma RoomStep_players (pool : list string) (sender : option string)
  (ledger ledger' : list string) (e : Event) (gameId : string) (g g' : Game) :
  RoomStep pool sender ledger ledger' e gameId g g' ->
  forall p, In p (players g') ->
    In p (players g)
    \/ exists sid, e = OnCreateGame sid gameId p \/ e = OnJoinGame sid gameId p.
Proof.
  intros Hstep p Hp. inversion Hstep; subst.
  - right. exists sid. left. simpl in Hp. destruct Hp as [-> | []]. reflexivity.
  - unfold joined in Hp. simpl in Hp. apply in_app_or in Hp.
    destruct Hp as [Hp | [-> | []]]; [now left |]. right. exists sid. now right.
  - now left.
  - now left.
  - now left.
  - now left.
  - now left.
  - left. unfold revealed in Hp. rewrite scoreReveal_shape in Hp. simpl in Hp.
    exact (Permutation_in _ (sortDesc_perm _ _) Hp).
  - now left.
  - now left.
  - now left.
  - left. unfold departed in Hp. simpl in Hp.
    apply (Permutation_in _ (sortDesc_perm _ _)) in Hp.
    exact (removeFirst_In _ _ _ Hp).
Qed.

Section Ordinary.

Variable questionPool : list string.
Variable GROQ_API_KEY : bool.
Variable compareTwoStrings : string -> string -> Q.

Lemma step_ordinary (w w' : World) (e : Event) (out : list Emit) :
  ServerInv (server w) ->
  ordinaryEvent e = true ->
  ordinaryRooms (server w) ->
  step questionPool GROQ_API_KEY compareTwoStrings w e = Some (w', out) ->
  ordinaryRooms (server w').
Proof.
  intros Hinv He Hrooms Hstep.
  destruct (step_rooms questionPool GROQ_API_KEY compareTwoStrings w w' e out Hinv Hstep)
    as [_ Hchange].
  intros gameId g' Hget'. specialize (Hchange gameId). unfold RoomChange in Hchange.
  rewrite Hget' in Hchange.
  destruct (Obj.get gameId (games (server w))) as [g |] eqn:Hget.
  - destruct (Hrooms gameId g Hget) as [Hid Hnames]. split; [exact Hid |].
    destruct Hchange as [-> | Hroomstep]; [exact Hnames |].
    intros p Hp.
    destruct (RoomStep_players _ _ _ _ _ _ _ _ Hroomstep p Hp) as [Hin | [sid [-> | ->]]].
    + now apply Hnames.
    + simpl in He. now apply andb_true_iff in He.
    + simpl in He. now apply andb_true_iff in He.
  - destruct Hchange as [sid [p [-> ->]]]. simpl in He.
    apply andb_true_iff in He. destruct He as [Hid Hname].
    split; [exact Hid |]. intros q [<- | []]. exact Hname.
Qed.

Lemma run_ordinary_from (events : list Event) : forall (w w' : World) (out : list Emit),
  ServerInv (server w) ->
  ordinaryRooms (server w) ->
  forallb ordinaryEvent events = true ->
  run questionPool GROQ_API_KEY compareTwoStrings w events = Some (w', out) ->
  ordinaryRooms (server w').
Proof.
  induction events as [| e events IH]; intros w w' out Hinv Hrooms Hord; simpl.
  - intros H. now injection H as <- _.
  - simpl in Hord. apply andb_true_iff in Hord. destruct Hord as [He Hord].
    destruct (step_inv questionPool GROQ_API_KEY compareTwoStrings w e Hinv)
      as [w1 [out1 [Hstep Hinv1]]].
    rewrite Hstep.
    pose proof (step_ordinary w w1 e out1 Hinv He Hrooms Hstep) as Hrooms1.
    destruct (run questionPool GROQ_API_KEY compareTwoStrings w1 events)
      as [[w2 out2] |] eqn:Hrun; [| discriminate].
    intros H. injection H as <- _.
    exact (IH w1 w2 out2 Hinv1 Hrooms1 Hord Hrun).
Qed.

Lemma run_ordinary (events : list Event) (w : World) (out : list Emit) :
  forallb ordinaryEvent events = true ->
  run questionPool GROQ_API_KEY compareTwoStrings initialWorld events = Some (w, out) ->
  ordinaryRooms (server w).
Proof.
  intros Hord Hrun.
  apply (run_ordinary_from events initialWorld w out ServerInv_initial); try assumption.
  intros gameId g H. discriminate.
Qed.

End Ordinary.

(* ------------------------------------------------------------------------- *)
(** ** What holds in every reachable state *)

Lemma award_loop_mono (guesses : Obj.t Z) (position : option Z) (p : string) :
  forall (ks : list string) (pts : Obj.t Z) (c : Z),
    (pointsOf pts p
     <= pointsOf (fst (fold_left (awardGuesser guesses position) ks (pts, c))) p)%Z.
Proof.
  induction ks as [| g ks IH]; intros pts c; simpl; [lia |].
  rewrite awardGuesser_eq. simpl fst. simpl snd.
  destruct (correctGuess guesses position g); [| apply IH].
  eapply Z.le_trans; [| apply IH]. rewrite pointsOf_set.
  destruct (String.eqb p g) eqn:E; [| lia].
  apply String.eqb_eq in E. subst p. lia.
Qed.

(** Scoring a reveal takes no point from anybody. *)
Lemma scoreReveal_mono (g : Game) (p : string) :
  (pointsOf (points g) p <= pointsOf (points (scoreReveal g)) p)%Z.
Proof.
  unfold scoreReveal, awardGuessers.
  pose proof (award_loop_mono (currentGuesses g) (actualPosition g) p
                (Obj.keys (currentGuesses g)) (points g) 0%Z) as Hp.
  pose proof (award_loop_mono (currentGuesses g) (actualPosition g)
                (keyOf (currentRanker g))
                (Obj.keys (currentGuesses g)) (points g) 0%Z) as Hr.
  destruct (award_loop_keys (currentGuesses g) (actualPosition g)
              (Obj.keys (currentGuesses g)) (points g) 0%Z) as [_ [_ [_ Hc]]].
  cbv zeta in Hc.
  destruct (fold_left (awardGuesser (currentGuesses g) (actualPosition g))
              (Obj.keys (currentGuesses g)) (points g, 0%Z)) as [pts1 c].
  simpl in Hp, Hr, Hc. simpl points. rewrite pointsOf_set.
  destruct (String.eqb p (keyOf (currentRanker g))) eqn:E; [| exact Hp].
  apply String.eqb_eq in E. subst p. lia.
Qed.

Section Reachable.

Variable questionPool : list string.
Variable GROQ_API_KEY : bool.
Variable compareTwoStrings : string -> string -> Q.

(** X1.  No sequence of events whose room identifiers and player names are
    ordinary keys makes a handler throw: from the start of the process every
    run of the handlers returns, so the [TypeError] of [setNextReveal] (a
    ranker without a ranking) is never raised.  (A room identifier such as
    ["constructor"] does make a handler throw, see [Plain.joinGame].) *)
Theorem run_never_throws (events : list Event) :
  forallb ordinaryEvent events = true ->
  exists w out,
    run questionPool GROQ_API_KEY compareTwoStrings initialWorld events = Some (w, out)
    /\ ordinaryRooms (server w).
Proof.
  intros Hord.
  destruct (run_inv questionPool GROQ_API_KEY compareTwoStrings events initialWorld
              ServerInv_initial) as [w [out [Hrun _]]].
  exists w, out. split; [exact Hrun |].
  exact (run_ordinary questionPool GROQ_API_KEY compareTwoStrings events w out Hord Hrun).
Qed.

(** X2.  The leaderboard of every room of every state reached by events
    whose room identifiers and player names are ordinary keys: [points] has
    exactly one entry per player, no entry is negative, and [players] is in
    descending order of points. *)
Theorem leaderboard_is_sorted (events : list Event) (w : World) (out : list Emit)
  (gameId : string) (g : Game) :
  forallb ordinaryEvent events = true ->
  run questionPool GROQ_API_KEY compareTwoStrings initialWorld events = Some (w, out) ->
  Obj.get gameId (games (server w)) = Some g ->
  NoDup (Obj.keys (points g))
  /\ (forall p, In p (Obj.keys (points g)) <-> In p (players g))
  /\ (forall p, In p (Obj.keys (points g)) -> ordinaryKey p = true)
  /\ (forall p, (0 <= pointsOf (points g) p)%Z)
  /\ sortedDesc (pointsOf (points g)) (players g).
Proof.
  intros Hord Hrun Hget.
  destruct (reachable_room questionPool GROQ_API_KEY compareTwoStrings
              events w out gameId g Hrun Hget) as [_ [[H1 [H2 [H3 H4]]] _]].
  pose proof (run_ordinary questionPool GROQ_API_KEY compareTwoStrings
                events w out Hord Hrun gameId g Hget) as [_ Hnames].
  split; [exact H1 |]. split; [exact H2 |].
  split; [intros p Hp; apply Hnames; now apply H2 |].
  split; [| exact H4].
  intros p. now apply nonneg_pointsOf.
Qed.

(** X3.  On a server without [GROQ_API_KEY], for events handled one after
    the other (a handler, with what follows its awaits, has ended when the
    next event is handled) whose room identifiers and player names are
    ordinary keys: in every state reached, while a round is under way
    (ranking, guessing or reveal) every player of the room holds a question,
    which is in the used-set of the room and in the global ledger; and at
    any time only players hold questions. *)
Theorem players_hold_questions (events : list Event) (w : World) (out : list Emit)
  (gameId : string) (g : Game) :
  forallb ordinaryEvent events = true ->
  run questionPool false compareTwoStrings initialWorld events = Some (w, out) ->
  Obj.get gameId (games (server w)) = Some g ->
  incl (Obj.keys (questionAssignments g)) (players g)
  /\ (forall p, In p (players g) -> ordinaryKey p = true)
  /\ (inRound g = true ->
      forall p, In p (players g) ->
        exists q, Obj.get p (questionAssignments g) = Some q
                  /\ In q (usedQuestions g)
                  /\ In q (globalUsedQuestions (supply (server w)))).
Proof.
  intros Hord Hrun Hget.
  destruct (reachable_room questionPool false compareTwoStrings
              events w out gameId g Hrun Hget)
    as [_ [_ [[Hu [_ [Hkeys [Hheld Hall]]]] _]]].
  pose proof (run_ordinary questionPool false compareTwoStrings
                events w out Hord Hrun gameId g Hget) as [_ Hnames].
  split; [exact Hkeys |]. split; [exact Hnames |]. intros Hround p Hp.
  destruct (Hall Hround p Hp) as [q Hq]. exists q.
  split; [exact Hq |]. split; [now apply (Hheld p q) |]. apply Hu. now apply (Hheld p q).
Qed.

(** X4.  On a server without [GROQ_API_KEY], for events handled one after
    the other (a handler, with what follows its awaits, has ended when the
    next event is handled) whose room identifiers and player names are
    ordinary keys: in the guessing phase the cursor is on a ranker.  The
    current ranker is the player at [currentRevealIndex] in [rankers], who
    has an ordinary name, the question shown is the one this player holds,
    and the full ranking is withheld. *)
Theorem guessing_cursor (events : list Event) (w : World) (out : list Emit)
  (gameId : string) (g : Game) :
  forallb ordinaryEvent events = true ->
  run questionPool false compareTwoStrings initialWorld events = Some (w, out) ->
  Obj.get gameId (games (server w)) = Some g ->
  state g = Guessing ->
  exists ranker q,
    nth_error (rankers g) (currentRevealIndex g) = Some ranker
    /\ currentRanker g = Some ranker
    /\ In ranker (players g)
    /\ ordinaryKey ranker = true
    /\ Obj.get ranker (questionAssignments g) = Some q
    /\ currentQuestion g = Some q
    /\ currentFullRanking g = None.
Proof.
  intros Hord Hrun Hget Hstate.
  pose proof (run_ordinary questionPool false compareTwoStrings
                events w out Hord Hrun gameId g Hget) as [_ Hnames].
  destruct (reachable_room questionPool false compareTwoStrings
              events w out gameId g Hrun Hget)
    as [[_ [_ [_ [_ Hphase]]]] [_ [[_ [_ [_ [_ Hall]]]] [Hrot _]]]].
  unfold PhaseInv in Hphase. unfold Rotation in Hrot. rewrite Hstate in Hphase, Hrot.
  destruct Hphase as [_ [_ [_ [[ranker [t [r [Hr [Hin _]]]]] _]]]].
  destruct Hrot as [_ [Hcursor [Hquestion [Hfull Hrange]]]].
  assert (Hround : inRound g = true) by (unfold inRound; now rewrite Hstate).
  destruct (Hall Hround ranker Hin) as [q Hq].
  exists ranker, q. rewrite Hr in Hcursor, Hquestion. simpl in Hquestion.
  repeat split; try assumption; try congruence. now apply Hnames.
Qed.

(** X5.  The global ledger only grows along a run, and contains the used-set
    of every room. *)
Theorem ledger_only_grows (events events' : list Event) (w w' : World)
  (out out' : list Emit) :
  run questionPool GROQ_API_KEY compareTwoStrings initialWorld events = Some (w, out) ->
  run questionPool GROQ_API_KEY compareTwoStrings w events' = Some (w', out') ->
  incl (globalUsedQuestions (supply (server w)))
       (globalUsedQuestions (supply (server w')))
  /\ forall gameId g,
       Obj.get gameId (games (server w')) = Some g ->
       incl (usedQuestions g) (globalUsedQuestions (supply (server w'))).
Proof.
  intros Hrun Hrun'.
  assert (Hinit : RoomsInv (server initialWorld)) by (intros k g0 H; discriminate).
  destruct (run_rooms_inv questionPool GROQ_API_KEY compareTwoStrings
              events initialWorld w out ServerInv_initial Hinit Hrun) as [Hrooms _].
  pose proof (reachable_inv questionPool GROQ_API_KEY compareTwoStrings
                events w out Hrun) as Hinv.
  destruct (run_rooms_inv questionPool GROQ_API_KEY compareTwoStrings
              events' w w' out' Hinv Hrooms Hrun') as [Hrooms' Hl].
  split; [exact Hl |]. intros gameId g Hget.
  now destruct (Hrooms' gameId g Hget) as [_ [[Hu _] _]].
Qed.

(** X6.  On a server without [GROQ_API_KEY], for events handled one after
    the other (a handler, with what follows its awaits, has ended when the
    next event is handled) whose room identifiers and player names are
    ordinary keys, the
    phases of a room follow one another in a fixed order: a room that
    changes phase enters guessing only from ranking (by a ranking) or from
    reveal (by [nextReveal]), enters reveal only from guessing (by a guess),
    enters ranking only by [startGame] or, from reveal, by [nextReveal], in
    both cases sent by the connection named as the owner, and falls back to
    waiting or joining only by a join, a creation or a disconnection. *)
Theorem phase_order (events : list Event) (w w' : World) (out out' : list Emit)
  (e : Event) (gameId : string) (g g' : Game) :
  forallb ordinaryEvent (events ++ [e]) = true ->
  run questionPool false compareTwoStrings initialWorld events = Some (w, out) ->
  step questionPool false compareTwoStrings w e = Some (w', out') ->
  Obj.get gameId (games (server w)) = Some g ->
  Obj.get gameId (games (server w')) = Some g' ->
  state g' <> state g ->
  entersBy (sockets w (sidOf e)) e gameId g (state g')
  /\ ordinaryRooms (server w').
Proof.
  intros Hord Hrun Hstep Hget Hget' Hne.
  pose proof (reachable_inv questionPool false compareTwoStrings
                events w out Hrun) as Hinv.
  rewrite forallb_app in Hord. apply andb_true_iff in Hord.
  destruct Hord as [Hord He]. simpl in He. rewrite andb_true_r in He.
  split.
  2:{ apply (step_ordinary questionPool false compareTwoStrings w w' e out' Hinv He);
        [| exact Hstep].
      exact (run_ordinary questionPool false compareTwoStrings events w out Hord Hrun). }
  clear Hord He.
  destruct (step_rooms questionPool false compareTwoStrings w w' e out' Hinv Hstep)
    as [_ Hchange].
  specialize (Hchange gameId). unfold RoomChange in Hchange.
  rewrite Hget, Hget' in Hchange.
  destruct Hchange as [-> | Hroomstep]; [now contradiction Hne |].
  inversion Hroomstep; subst; simpl in *; try (now contradiction Hne).
  - left. exists sid, p. now left.
  - left. exists sid, p. now right.
  - split; [assumption |]. exists sid, o. now left.
  - left. now exists sid, o, ranking.
  - now exists sid, guess.
  - right. now exists sid, o.
  - split; [assumption |]. exists sid, o. now right.
  - destruct (1 <? List.length (removeFirst name (players g))); simpl.
    + right. now exists sid.
    + now exists sid.
Qed.

(** X7.  Rooms are isolated: an event addressed to a room changes no other
    room, neither creating nor deleting nor modifying it. *)
Theorem rooms_are_isolated (events : list Event) (w w' : World) (out out' : list Emit)
  (e : Event) (target gameId : string) :
  run questionPool GROQ_API_KEY compareTwoStrings initialWorld events = Some (w, out) ->
  step questionPool GROQ_API_KEY compareTwoStrings w e = Some (w', out') ->
  roomOf e = Some target ->
  gameId <> target ->
  Obj.get gameId (games (server w')) = Obj.get gameId (games (server w)).
Proof.
  intros Hrun Hstep Hroom Hother.
  pose proof (reachable_inv questionPool GROQ_API_KEY compareTwoStrings
                events w out Hrun) as Hinv.
  destruct (step_rooms questionPool GROQ_API_KEY compareTwoStrings w w' e out' Hinv Hstep)
    as [_ Hchange].
  specialize (Hchange gameId). unfold RoomChange in Hchange.
  destruct (Obj.get gameId (games (server w))) as [g |];
    destruct (Obj.get gameId (games (server w'))) as [g' |]; try reflexivity.
  - destruct Hchange as [-> | Hroomstep]; [reflexivity |].
    exfalso. inversion Hroomstep; subst; simpl in Hroom; congruence.
  - exfalso. destruct Hchange as [sid [name [-> _]]]. discriminate.
  - exfalso. destruct Hchange as [sid [p [-> _]]]. simpl in Hroom. congruence.
Qed.

(** X8.  Points are never taken away: whatever the event, unless it creates
    the room anew, each player of the room has afterwards at least the
    points the player had before. *)
Theorem points_never_decrease (events : list Event) (w w' : World)
  (out out' : list Emit) (e : Event) (gameId : string) (g g' : Game) :
  run questionPool GROQ_API_KEY compareTwoStrings initialWorld events = Some (w, out) ->
  step questionPool GROQ_API_KEY compareTwoStrings w e = Some (w', out') ->
  Obj.get gameId (games (server w)) = Some g ->
  Obj.get gameId (games (server w')) = Some g' ->
  (forall sid p, e <> OnCreateGame sid gameId p) ->
  forall p, In p (players g') ->
    (pointsOf (points g) p <= pointsOf (points g') p)%Z.
Proof.
  intros Hrun Hstep Hget Hget' Hcreate p Hp.
  pose proof (reachable_inv questionPool GROQ_API_KEY compareTwoStrings
                events w out Hrun) as Hinv.
  destruct (reachable_room questionPool GROQ_API_KEY compareTwoStrings
              events w out gameId g Hrun Hget) as [[Hnd _] [[_ [Hkeys _]] _]].
  destruct (step_rooms questionPool GROQ_API_KEY compareTwoStrings w w' e out' Hinv Hstep)
    as [_ Hchange].
  specialize (Hchange gameId). unfold RoomChange in Hchange.
  rewrite Hget, Hget' in Hchange.
  destruct Hchange as [-> | Hroomstep]; [lia |].
  inversion Hroomstep; subst; try (simpl; lia).
  - exfalso. now apply (Hcreate sid p0).
  - unfold joined. simpl. rewrite pointsOf_set.
    destruct (String.eqb p p0) eqn:E; [| lia].
    apply String.eqb_eq in E. subst p0. unfold pointsOf.
    assert (Hnone : Obj.get p (points g) = None).
    { apply ObjFacts.get_None_keys. now rewrite Hkeys. }
    rewrite Hnone. lia.
  - unfold revealed. simpl.
    apply (Z.le_trans _ (pointsOf (points (guessed name guess g)) p));
      [simpl; lia | apply scoreReveal_mono].
  - unfold departed in *. simpl in *.
    apply (Permutation_in _ (sortDesc_perm _ _)) in Hp.
    apply (removeFirst_NoDup_In name p (players g) Hnd) in Hp. destruct Hp as [Hne _].
    unfold pointsOf. rewrite (ObjFacts.get_delete_other _ _ _ Hne). lia.
Qed.

(** X9.  From ranking to guessing, in a state reached by events whose room
    identifiers and player names are ordinary keys (the room and the sender
    are then ordinary keys too): an acceptable ranking sent by a player
    of a room in the ranking phase is recorded under the name of the player,
    replacing the one the player had sent before, and the room moves to the
    guessing phase, with the cursor on the first ranker, exactly when every
    other player has a ranking on record; otherwise it stays in the ranking
    phase.  Players and points are left as they were. *)
Theorem ranking_to_guessing (events : list Event) (w : World) (out : list Emit)
  (sid : nat) (o : Oracle) (gameId : string) (ranking : list string) (name : string)
  (g : Game) :
  forallb ordinaryEvent events = true ->
  run questionPool GROQ_API_KEY compareTwoStrings initialWorld events = Some (w, out) ->
  Obj.get gameId (games (server w)) = Some g ->
  state g = Ranking ->
  sockets w sid = Some name ->
  In name (players g) ->
  acceptableRanking g ranking = true ->
  ordinaryKey gameId = true
  /\ ordinaryKey name = true
  /\ exists w' out' g',
    step questionPool GROQ_API_KEY compareTwoStrings w
      (OnSubmitRanking sid o gameId ranking) = Some (w', out')
    /\ Obj.get gameId (games (server w')) = Some g'
    /\ rankings g' = Obj.set name ranking (rankings g)
    /\ players g' = players g
    /\ points g' = points g
    /\ (state g' = Ranking \/ (state g' = Guessing /\ currentRevealIndex g' = 0))
    /\ (state g' = Guessing
        <-> forall p, In p (players g) -> p <> name -> Obj.get p (rankings g) <> None).
Proof.
  intros Hord Hrun Hget Hstate Hsock Hname Hok.
  pose proof (reachable_inv questionPool GROQ_API_KEY compareTwoStrings
                events w out Hrun) as Hinv.
  destruct (run_ordinary questionPool GROQ_API_KEY compareTwoStrings
              events w out Hord Hrun gameId g Hget) as [Hid Hnames].
  split; [exact Hid |]. split; [now apply Hnames |]. clear Hord Hid Hnames.
  pose proof (ServerInv_lookup (server w) gameId g Hinv Hget) as Hgame.
  destruct Hgame as [Hnd [Hne [Hwr [_ Hphase]]]].
  unfold PhaseInv in Hphase. rewrite Hstate in Hphase.
  destruct Hphase as [_ [Hzero [Hkeys _]]].
  set (keys' := Obj.keys (Obj.set name ranking (rankings g))).
  assert (Hnd' : NoDup keys') by (now apply ObjFacts.wf_set).
  assert (Hincl' : incl keys' (players g)).
  { intros k Hk. apply ObjFacts.keys_set_In in Hk.
    destruct Hk as [-> | Hk]; [exact Hname | now apply Hkeys]. }
  assert (Hall : List.length keys' = List.length (players g)
                 <-> forall p, In p (players g) -> p <> name ->
                               Obj.get p (rankings g) <> None).
  { split.
    - intros Hlen p Hp Hother Hnone.
      assert (Hin : In p keys').
      { apply (NoDup_length_incl (l := keys') (l' := players g) Hnd');
          [lia | exact Hincl' | exact Hp]. }
      apply ObjFacts.keys_set_In in Hin. destruct Hin as [-> | Hin]; [now apply Hother |].
      apply ObjFacts.get_None_keys in Hnone. contradiction.
    - intros Hothers.
      assert (Hincl : incl (players g) keys').
      { intros p Hp. apply ObjFacts.keys_set_In.
        destruct (String.eqb p name) eqn:E.
        - apply String.eqb_eq in E. now left.
        - apply String.eqb_neq in E. right.
          destruct (Obj.get p (rankings g)) as [r |] eqn:Er.
          + apply ObjFacts.get_Some_keys. now exists r.
          + now contradiction (Hothers p Hp E). }
      pose proof (NoDup_incl_length Hnd Hincl).
      pose proof (NoDup_incl_length Hnd' Hincl'). lia. }
  destruct w as [sv sockets0]. simpl in *.
  unfold submitRanking. rewrite Hget, Hsock.
  apply includes_In in Hname as Hinc. rewrite Hinc, Hstate, Hok. simpl negb. cbv iota.
  fold (ranked name ranking g).
  destruct (List.length (Obj.keys (rankings (ranked name ranking g)))
            =? List.length (players (ranked name ranking g))) eqn:Eall.
  - apply Nat.eqb_eq in Eall.
    assert (Hidx : currentRevealIndex (ranked name ranking g)
                   < List.length (players (ranked name ranking g))).
    { simpl. rewrite Hzero. destruct (players g); [congruence | simpl; lia]. }
    rewrite (setNextReveal_reveal questionPool GROQ_API_KEY compareTwoStrings
               o gameId _ (supply sv) Hidx).
    destruct (step_inv questionPool GROQ_API_KEY compareTwoStrings
                (mkWorld sv sockets0) (OnSubmitRanking sid o gameId ranking) Hinv)
      as [w1 [out1 [Hstep1 _]]].
    simpl in Hstep1. unfold submitRanking in Hstep1.
    rewrite Hget, Hsock, Hinc, Hstate, Hok in Hstep1. simpl negb in Hstep1.
    cbv iota in Hstep1. fold (ranked name ranking g) in Hstep1.
    apply Nat.eqb_eq in Eall as Eall'. rewrite Eall' in Hstep1.
    rewrite (setNextReveal_reveal questionPool GROQ_API_KEY compareTwoStrings
               o gameId _ (supply sv) Hidx) in Hstep1.
    destruct (Obj.get (keyOf (nth_error (rankers (ranked name ranking g))
                                (currentRevealIndex (ranked name ranking g))))
                (rankings (ranked name ranking g))) as [order |]; [| discriminate].
    eexists. eexists. eexists. split; [reflexivity |]. simpl.
    rewrite ObjFacts.get_set_same. split; [reflexivity |].
    simpl. repeat split; try reflexivity.
    + right. split; [reflexivity | exact Hzero].
    + intros _. now apply Hall.
  - apply Nat.eqb_neq in Eall.
    eexists. eexists. eexists. split; [reflexivity |]. simpl.
    rewrite ObjFacts.get_set_same. split; [reflexivity |].
    simpl. repeat split; try reflexivity.
    + now left.
    + rewrite Hstate. discriminate.
    + intros Hothers. exfalso. apply Eall. now apply Hall.
Qed.

Lemma indexOf_nth (x : string) (l : list string) :
  In x l -> nth_error l (Z.to_nat (indexOf x l)) = Some x.
Proof.
  clear compareTwoStrings.
  induction l as [| y l IH]; simpl; [tauto |].
  intros Hin. destruct (String.eqb y x) eqn:E.
  - apply String.eqb_eq in E. now subst y.
  - apply String.eqb_neq in E. destruct Hin as [Hin | Hin]; [congruence |].
    pose proof (indexOf_present x l Hin) as Hb. specialize (IH Hin).
    destruct (indexOf x l <? 0)%Z eqn:Eneg; [apply Z.ltb_lt in Eneg; lia |].
    replace (Z.to_nat (indexOf x l + 1)) with (S (Z.to_nat (indexOf x l))) by lia.
    exact IH.
Qed.

(** X10.  The true position under honest rankings: in the guessing and
    reveal phases, if the ranking of the current ranker has no repeated
    name, then it is a rearrangement of the players, and [actualPosition] is
    the place of the target in it, counted from 1: a number between 1 and
    the number of players. *)
Theorem actualPosition_of_honest_ranking (events : list Event) (w : World)
  (out : list Emit) (gameId : string) (g : Game) :
  run questionPool GROQ_API_KEY compareTwoStrings initialWorld events = Some (w, out) ->
  Obj.get gameId (games (server w)) = Some g ->
  state g = Guessing \/ state g = Reveal ->
  exists ranker target ranking position,
    currentRanker g = Some ranker
    /\ currentTarget g = Some target
    /\ Obj.get ranker (rankings g) = Some ranking
    /\ actualPosition g = Some (Z.of_nat position)
    /\ (NoDup ranking ->
        Permutation ranking (players g)
        /\ 1 <= position <= List.length (players g)
        /\ nth_error ranking (position - 1) = Some target).
Proof.
  intros Hrun Hget Hstate.
  pose proof (reachable_inv questionPool GROQ_API_KEY compareTwoStrings
                events w out Hrun) as Hinv.
  pose proof (ServerInv_lookup (server w) gameId g Hinv Hget) as Hgame.
  destruct Hgame as [Hnd [_ [_ [_ Hphase]]]].
  assert (Hsubject : rankingsAccepted g /\ revealSubject g).
  { unfold PhaseInv in Hphase. destruct Hstate as [Hs | Hs]; rewrite Hs in Hphase; tauto. }
  destruct Hsubject as [Haccepted [ranker [target [ranking [Hr [Hin [Ht [Htin [Hrk Hpos]]]]]]]]].
  pose proof (indexOf_bounds target ranking) as Hb.
  exists ranker, target, ranking, (Z.to_nat (indexOf target ranking + 1)).
  split; [exact Hr |]. split; [exact Ht |]. split; [exact Hrk |].
  split; [rewrite Hpos; f_equal; lia |].
  intros Hhonest.
  apply Haccepted, acceptableRanking_iff in Hrk. destruct Hrk as [Hlen Hincl].
  assert (Hperm : Permutation ranking (players g)).
  { apply NoDup_Permutation_bis; [exact Hhonest | lia | exact Hincl]. }
  assert (Hthere : In target ranking).
  { eapply Permutation_in; [symmetry; exact Hperm | exact Htin]. }
  pose proof (indexOf_present target ranking Hthere) as Hb'.
  split; [exact Hperm |]. split; [lia |].
  replace (Z.to_nat (indexOf target ranking + 1) - 1)
    with (Z.to_nat (indexOf target ranking)) by lia.
  now apply indexOf_nth.
Qed.

(** X11.  The owner of a room is fixed when the room is created: no event
    changes it, short of creating the room anew, not even the disconnection
    of the owner. *)
Theorem owner_is_fixed (events : list Event) (w w' : World) (out out' : list Emit)
  (e : Event) (gameId : string) (g g' : Game) :
  run questionPool GROQ_API_KEY compareTwoStrings initialWorld events = Some (w, out) ->
  step questionPool GROQ_API_KEY compareTwoStrings w e = Some (w', out') ->
  Obj.get gameId (games (server w)) = Some g ->
  Obj.get gameId (games (server w')) = Some g' ->
  (forall sid p, e <> OnCreateGame sid gameId p) ->
  owner g' = owner g.
Proof.
  intros Hrun Hstep Hget Hget' Hcreate.
  pose proof (reachable_inv questionPool GROQ_API_KEY compareTwoStrings
                events w out Hrun) as Hinv.
  destruct (step_rooms questionPool GROQ_API_KEY compareTwoStrings w w' e out' Hinv Hstep)
    as [_ Hchange].
  specialize (Hchange gameId). unfold RoomChange in Hchange.
  rewrite Hget, Hget' in Hchange.
  destruct Hchange as [-> | Hroomstep]; [reflexivity |].
  inversion Hroomstep; subst; try reflexivity.
  - exfalso. now apply (Hcreate sid p).
  - unfold revealed. now rewrite scoreReveal_shape.
Qed.

(** X12.  The flag [noMoreQuestions] of a stored room is never raised: it is
    false in every room of every reachable state. *)
Theorem stored_flag_is_never_raised (events : list Event) (w : World) (out : list Emit)
  (gameId : string) (g : Game) :
  run questionPool GROQ_API_KEY compareTwoStrings initialWorld events = Some (w, out) ->
  Obj.get gameId (games (server w)) = Some g ->
  noMoreQuestions g = false.
Proof.
  intros Hrun Hget.
  now destruct (reachable_room questionPool GROQ_API_KEY compareTwoStrings
                  events w out gameId g Hrun Hget) as [_ [_ [_ [_ Hflag]]]].
Qed.

(** X13.  [nextReveal] sent by the owner of a room in the reveal phase:
    while rankers are left, the cursor moves to the next one, who differs
    from the ranker of the reveal that ends, and the room goes back to the
    guessing phase with no guess on record, rankings and questions being
    kept; after the last ranker a new round starts (ranking phase, cursor 0,
    no ranking on record, a new order of rankers), or, if no questions can
    be had, the room stays in the reveal phase and a flagged copy of it is
    broadcast.  Players and points are left as they were. *)
Theorem nextReveal_advances (events : list Event) (w : World) (out : list Emit)
  (sid : nat) (o : Oracle) (gameId : string) (g : Game) :
  run questionPool GROQ_API_KEY compareTwoStrings initialWorld events = Some (w, out) ->
  Obj.get gameId (games (server w)) = Some g ->
  state g = Reveal ->
  isName (sockets w sid) (owner g) = true ->
  exists w' out' g',
    step questionPool GROQ_API_KEY compareTwoStrings w (OnNextReveal sid o gameId)
    = Some (w', out')
    /\ Obj.get gameId (games (server w')) = Some g'
    /\ players g' = players g
    /\ points g' = points g
    /\ if currentRevealIndex g + 1 <? List.length (players g)
       then state g' = Guessing
            /\ currentRevealIndex g' = currentRevealIndex g + 1
            /\ currentRanker g' = nth_error (rankers g) (currentRevealIndex g + 1)
            /\ currentRanker g' <> None
            /\ currentRanker g' <> currentRanker g
            /\ rankings g' = rankings g
            /\ questionAssignments g' = questionAssignments g
            /\ currentGuesses g' = Obj.empty
       else (state g' = Ranking
             /\ currentRevealIndex g' = 0
             /\ rankings g' = Obj.empty
             /\ currentGuesses g' = Obj.empty
             /\ currentRanker g' = None
             /\ Permutation (rankers g') (players g))
            \/ (state g' = Reveal
                /\ In (ToRoom gameId, MGameState (set_noMoreQuestions true g') []) out').
Proof.
  intros Hrun Hget Hstate Howner.
  pose proof (reachable_inv questionPool GROQ_API_KEY compareTwoStrings
                events w out Hrun) as Hinv.
  destruct (reachable_room questionPool GROQ_API_KEY compareTwoStrings
              events w out gameId g Hrun Hget)
    as [[Hnd [_ [_ [_ Hphase]]]] [_ [_ [Hrot _]]]].
  unfold PhaseInv in Hphase. unfold Rotation in Hrot. rewrite Hstate in Hphase, Hrot.
  destruct Hphase as [Hperm [Hcomplete _]]. destruct Hrot as [Hcursor _].
  destruct w as [sv sockets0]. simpl in *.
  unfold nextReveal. rewrite Hget, Howner, Hstate. simpl negb. cbv iota.
  set (game1 := set_currentRevealIndex (currentRevealIndex g + 1) g).
  destruct (currentRevealIndex g + 1 <? List.length (players g)) eqn:Enext.
  - apply Nat.ltb_lt in Enext.
    rewrite (setNextReveal_reveal questionPool GROQ_API_KEY compareTwoStrings
               o gameId game1 (supply sv) Enext).
    simpl rankers. simpl currentRevealIndex. simpl rankings.
    destruct (nth_error (rankers g) (currentRevealIndex g + 1)) as [ranker |] eqn:Eranker.
    2:{ apply nth_error_None in Eranker.
        rewrite (Permutation_length Hperm) in Eranker. lia. }
    assert (Hranker : In ranker (players g)).
    { eapply Permutation_in; [exact Hperm |]. eapply nth_error_In. exact Eranker. }
    destruct (Hcomplete ranker Hranker) as [order Horder].
    simpl keyOf. rewrite Horder.
    eexists. eexists. eexists. split; [reflexivity |]. simpl.
    rewrite ObjFacts.get_set_same. split; [reflexivity |].
    unfold beginReveal. simpl. rewrite Eranker.
    repeat split; try reflexivity; try discriminate.
    rewrite (Hcursor ltac:(lia)). intros E.
    assert (Hrk : NoDup (rankers g)).
    { eapply Permutation_NoDup; [symmetry; exact Hperm | exact Hnd]. }
    rewrite NoDup_nth_error in Hrk.
    assert (currentRevealIndex g + 1 = currentRevealIndex g); [| lia].
    apply Hrk; [| congruence].
    rewrite (Permutation_length Hperm). exact Enext.
  - apply Nat.ltb_ge in Enext.
    rewrite (setNextReveal_round questionPool GROQ_API_KEY compareTwoStrings
               o gameId game1 (supply sv) Enext).
    unfold startNewRound.
    pose proof (assignQuestions_spec questionPool GROQ_API_KEY compareTwoStrings
                  o gameId game1 (supply sv)) as Hspec.
    destruct (assignQuestions questionPool GROQ_API_KEY compareTwoStrings o gameId
                game1 (supply sv)) as [[[success game2] s2] out2].
    destruct Hspec as [_ [_ Hspec]].
    destruct success; simpl negb; cbv iota.
    + destruct Hspec as [u [qa [-> _]]].
      eexists. eexists. eexists. split; [reflexivity |]. simpl.
      rewrite ObjFacts.get_set_same. split; [reflexivity |]. simpl.
      split; [reflexivity |]. split; [reflexivity |]. left.
      repeat split; try reflexivity. apply shuffle_perm.
    + destruct Hspec as [[u ->] [_ ->]].
      eexists. eexists. eexists. split; [reflexivity |]. simpl.
      rewrite ObjFacts.get_set_same. split; [reflexivity |]. simpl.
      split; [reflexivity |]. split; [reflexivity |]. right.
      split; [exact Hstate |]. right. now left.
Qed.







Hypothesis sources_distinct : NoDup (questionPool ++ initialFallbackQuestions).

(** X15.  When the seed pool and the fallback list have no repetition between
    them, no question is ever held by two players, be they in one room or in
    two: in every reachable state the assignments of all rooms are pairwise
    distinct. *)
Theorem questions_are_held_once (events : list Event) (w : World) (out : list Emit) :
  run questionPool GROQ_API_KEY compareTwoStrings initialWorld events = Some (w, out) ->
  heldOnce (server w).
Proof using sources_distinct.
  intros Hrun.
  assert (Hinit : RoomsInv (server initialWorld)) by (intros k g0 H; discriminate).
  assert (Hheld : heldOnce (server initialWorld)).
  { intros k1 k2 g1 g2 p1 p2 q H. discriminate. }
  exact (run_heldOnce questionPool GROQ_API_KEY compareTwoStrings sources_distinct
           events initialWorld w out ServerInv_initial Hinit Hheld Hrun).
Qed.

End Reachable.

(* ------------------------------------------------------------------------- *)
(** ** The theorems at work on concrete runs *)

Lemma fallbacks_distinct : NoDup ([] ++ initialFallbackQuestions).
Proof.
  simpl. unfold initialFallbackQuestions.
  repeat constructor; simpl; intuition discriminate.
Qed.

Lemma run_never_throws_witness :
  forallb ordinaryEvent threePlayersOneGuess = true
  /\ exists w out,
       run [] true Dice.compareTwoStrings initialWorld threePlayersOneGuess = Some (w, out)
       /\ ordinaryRooms (server w).
Proof.
  assert (Hord : forallb ordinaryEvent threePlayersOneGuess = true) by reflexivity.
  split; [exact Hord |].
  exact (run_never_throws [] true Dice.compareTwoStrings threePlayersOneGuess Hord).
Defined.

Lemma leaderboard_is_sorted_witness :
  forallb ordinaryEvent twoPlayersReveal = true
  /\ run [] false Dice.compareTwoStrings initialWorld twoPlayersReveal
     = Some (worldAfter [] false Dice.compareTwoStrings twoPlayersReveal,
             emitsAfter [] false Dice.compareTwoStrings twoPlayersReveal)
  /\ Obj.get "room"
       (games (server (worldAfter [] false Dice.compareTwoStrings twoPlayersReveal)))
     = Some twoPlayersGame
  /\ NoDup (Obj.keys (points twoPlayersGame))
  /\ (forall p, In p (Obj.keys (points twoPlayersGame)) <-> In p (players twoPlayersGame))
  /\ (forall p, In p (Obj.keys (points twoPlayersGame)) -> ordinaryKey p = true)
  /\ (forall p, (0 <= pointsOf (points twoPlayersGame) p)%Z)
  /\ sortedDesc (pointsOf (points twoPlayersGame)) (players twoPlayersGame).
Proof.
  assert (Hord : forallb ordinaryEvent twoPlayersReveal = true) by reflexivity.
  assert (Hrun :
    run [] false Dice.compareTwoStrings initialWorld twoPlayersReveal
    = Some (worldAfter [] false Dice.compareTwoStrings twoPlayersReveal,
            emitsAfter [] false Dice.compareTwoStrings twoPlayersReveal))
    by (vm_compute; reflexivity).
  assert (Hget :
    Obj.get "room"
      (games (server (worldAfter [] false Dice.compareTwoStrings twoPlayersReveal)))
    = Some twoPlayersGame) by (vm_compute; reflexivity).
  split; [exact Hord |]. split; [exact Hrun |]. split; [exact Hget |].
  exact (leaderboard_is_sorted [] false Dice.compareTwoStrings twoPlayersReveal _ _
           "room" twoPlayersGame Hord Hrun Hget).
Defined.

Lemma players_hold_questions_witness :
  forallb ordinaryEvent threePlayersRanking = true
  /\ run [] false Dice.compareTwoStrings initialWorld threePlayersRanking
     = Some (worldAfter [] false Dice.compareTwoStrings threePlayersRanking,
             emitsAfter [] false Dice.compareTwoStrings threePlayersRanking)
  /\ Obj.get "room"
       (games (server (worldAfter [] false Dice.compareTwoStrings threePlayersRanking)))
     = Some rankingGame
  /\ incl (Obj.keys (questionAssignments rankingGame)) (players rankingGame)
  /\ (forall p, In p (players rankingGame) -> ordinaryKey p = true)
  /\ (inRound rankingGame = true ->
      forall p, In p (players rankingGame) ->
        exists q, Obj.get p (questionAssignments rankingGame) = Some q
                  /\ In q (usedQuestions rankingGame)
                  /\ In q (globalUsedQuestions
                             (supply (server (worldAfter [] false Dice.compareTwoStrings
                                                threePlayersRanking))))).
Proof.
  assert (Hord : forallb ordinaryEvent threePlayersRanking = true) by reflexivity.
  assert (Hrun :
    run [] false Dice.compareTwoStrings initialWorld threePlayersRanking
    = Some (worldAfter [] false Dice.compareTwoStrings threePlayersRanking,
            emitsAfter [] false Dice.compareTwoStrings threePlayersRanking))
    by (vm_compute; reflexivity).
  assert (Hget :
    Obj.get "room"
      (games (server (worldAfter [] false Dice.compareTwoStrings threePlayersRanking)))
    = Some rankingGame) by (vm_compute; reflexivity).
  split; [exact Hord |]. split; [exact Hrun |]. split; [exact Hget |].
  exact (players_hold_questions [] Dice.compareTwoStrings threePlayersRanking _ _
           "room" rankingGame Hord Hrun Hget).
Defined.

Lemma guessing_cursor_witness :
  forallb ordinaryEvent threePlayersOneGuess = true
  /\ run [] false Dice.compareTwoStrings initialWorld threePlayersOneGuess
     = Some (worldAfter [] false Dice.compareTwoStrings threePlayersOneGuess,
             emitsAfter [] false Dice.compareTwoStrings threePlayersOneGuess)
  /\ Obj.get "room"
       (games (server (worldAfter [] false Dice.compareTwoStrings threePlayersOneGuess)))
     = Some oneGuessGame
  /\ state oneGuessGame = Guessing
  /\ exists ranker q,
       nth_error (rankers oneGuessGame) (currentRevealIndex oneGuessGame) = Some ranker
       /\ currentRanker oneGuessGame = Some ranker
       /\ In ranker (players oneGuessGame)
       /\ ordinaryKey ranker = true
       /\ Obj.get ranker (questionAssignments oneGuessGame) = Some q
       /\ currentQuestion oneGuessGame = Some q
       /\ currentFullRanking oneGuessGame = None.
Proof.
  assert (Hord : forallb ordinaryEvent threePlayersOneGuess = true) by reflexivity.
  assert (Hrun :
    run [] false Dice.compareTwoStrings initialWorld threePlayersOneGuess
    = Some (worldAfter [] false Dice.compareTwoStrings threePlayersOneGuess,
            emitsAfter [] false Dice.compareTwoStrings threePlayersOneGuess))
    by (vm_compute; reflexivity).
  assert (Hget :
    Obj.get "room"
      (games (server (worldAfter [] false Dice.compareTwoStrings threePlayersOneGuess)))
    = Some oneGuessGame) by (vm_compute; reflexivity).
  assert (Hstate : state oneGuessGame = Guessing) by reflexivity.
  split; [exact Hord |]. split; [exact Hrun |]. split; [exact Hget |].
  split; [exact Hstate |].
  exact (guessing_cursor [] Dice.compareTwoStrings threePlayersOneGuess _ _
           "room" oneGuessGame Hord Hrun Hget Hstate).
Defined.

Lemma questions_are_held_once_witness :
  NoDup ([] ++ initialFallbackQuestions)
  /\ run [] false Dice.compareTwoStrings initialWorld twoRooms
     = Some (worldAfter [] false Dice.compareTwoStrings twoRooms,
             emitsAfter [] false Dice.compareTwoStrings twoRooms)
  /\ heldOnce (server (worldAfter [] false Dice.compareTwoStrings twoRooms)).
Proof.
  assert (Hrun :
    run [] false Dice.compareTwoStrings initialWorld twoRooms
    = Some (worldAfter [] false Dice.compareTwoStrings twoRooms,
            emitsAfter [] false Dice.compareTwoStrings twoRooms))
    by (vm_compute; reflexivity).
  split; [exact fallbacks_distinct |]. split; [exact Hrun |].
  exact (questions_are_held_once [] false Dice.compareTwoStrings fallbacks_distinct
           twoRooms _ _ Hrun).
Defined.

Lemma ledger_only_grows_witness :
  run [] false Dice.compareTwoStrings initialWorld twoPlayersStart
  = Some (worldAfter [] false Dice.compareTwoStrings twoPlayersStart,
          emitsAfter [] false Dice.compareTwoStrings twoPlayersStart)
  /\ run [] false Dice.compareTwoStrings
       (worldAfter [] false Dice.compareTwoStrings twoPlayersStart)
       [OnCreateGame 3 "other" "Y"; OnStartGame 3 (quietOracle 0) "other"]
     = Some (runAfter [] false Dice.compareTwoStrings twoPlayersStart
               [OnCreateGame 3 "other" "Y"; OnStartGame 3 (quietOracle 0) "other"])
  /\ incl (globalUsedQuestions
             (supply (server (worldAfter [] false Dice.compareTwoStrings twoPlayersStart))))
          (globalUsedQuestions
             (supply (server (fst (runAfter [] false Dice.compareTwoStrings twoPlayersStart
                                     [OnCreateGame 3 "other" "Y";
                                      OnStartGame 3 (quietOracle 0) "other"]))))).
Proof.
  assert (Hrun :
    run [] false Dice.compareTwoStrings initialWorld twoPlayersStart
    = Some (worldAfter [] false Dice.compareTwoStrings twoPlayersStart,
            emitsAfter [] false Dice.compareTwoStrings twoPlayersStart))
    by (vm_compute; reflexivity).
  assert (Hrun' :
    run [] false Dice.compareTwoStrings
      (worldAfter [] false Dice.compareTwoStrings twoPlayersStart)
      [OnCreateGame 3 "other" "Y"; OnStartGame 3 (quietOracle 0) "other"]
    = Some (fst (runAfter [] false Dice.compareTwoStrings twoPlayersStart
                   [OnCreateGame 3 "other" "Y"; OnStartGame 3 (quietOracle 0) "other"]),
            snd (runAfter [] false Dice.compareTwoStrings twoPlayersStart
                   [OnCreateGame 3 "other" "Y"; OnStartGame 3 (quietOracle 0) "other"])))
    by (vm_compute; reflexivity).
  split; [exact Hrun |]. split; [vm_compute; reflexivity |].
  exact (proj1 (ledger_only_grows [] false Dice.compareTwoStrings twoPlayersStart
                  [OnCreateGame 3 "other" "Y"; OnStartGame 3 (quietOracle 0) "other"]
                  _ _ _ _ Hrun Hrun')).
Defined.

Lemma phase_order_witness :
  forallb ordinaryEvent (threePlayersOneGuess ++ [OnSubmitGuess 3 "room" 2%Z]) = true
  /\ run [] false Dice.compareTwoStrings initialWorld threePlayersOneGuess
     = Some (worldAfter [] false Dice.compareTwoStrings threePlayersOneGuess,
             emitsAfter [] false Dice.compareTwoStrings threePlayersOneGuess)
  /\ step [] false Dice.compareTwoStrings
       (worldAfter [] false Dice.compareTwoStrings threePlayersOneGuess)
       (OnSubmitGuess 3 "room" 2%Z)
     = Some (stepAfter [] false Dice.compareTwoStrings threePlayersOneGuess
               (OnSubmitGuess 3 "room" 2%Z))
  /\ state (roomAt "room"
              (fst (stepAfter [] false Dice.compareTwoStrings threePlayersOneGuess
                      (OnSubmitGuess 3 "room" 2%Z))))
     <> state oneGuessGame
  /\ entersBy (Some "C") (OnSubmitGuess 3 "room" 2%Z) "room" oneGuessGame Reveal.
Proof.
  assert (Hord :
    forallb ordinaryEvent (threePlayersOneGuess ++ [OnSubmitGuess 3 "room" 2%Z]) = true)
    by reflexivity.
  assert (Hrun :
    run [] false Dice.compareTwoStrings initialWorld threePlayersOneGuess
    = Some (worldAfter [] false Dice.compareTwoStrings threePlayersOneGuess,
            emitsAfter [] false Dice.compareTwoStrings threePlayersOneGuess))
    by (vm_compute; reflexivity).
  assert (Hstep :
    step [] false Dice.compareTwoStrings
      (worldAfter [] false Dice.compareTwoStrings threePlayersOneGuess)
      (OnSubmitGuess 3 "room" 2%Z)
    = Some (fst (stepAfter [] false Dice.compareTwoStrings threePlayersOneGuess
                   (OnSubmitGuess 3 "room" 2%Z)),
            snd (stepAfter [] false Dice.compareTwoStrings threePlayersOneGuess
                   (OnSubmitGuess 3 "room" 2%Z))))
    by (vm_compute; reflexivity).
  assert (Hget :
    Obj.get "room"
      (games (server (worldAfter [] false Dice.compareTwoStrings threePlayersOneGuess)))
    = Some oneGuessGame) by (vm_compute; reflexivity).
  assert (Hget' :
    Obj.get "room"
      (games (server (fst (stepAfter [] false Dice.compareTwoStrings threePlayersOneGuess
                             (OnSubmitGuess 3 "room" 2%Z)))))
    = Some (roomAt "room"
              (fst (stepAfter [] false Dice.compareTwoStrings threePlayersOneGuess
                      (OnSubmitGuess 3 "room" 2%Z)))))
    by (vm_compute; reflexivity).
  assert (Hne :
    state (roomAt "room"
             (fst (stepAfter [] false Dice.compareTwoStrings threePlayersOneGuess
                     (OnSubmitGuess 3 "room" 2%Z))))
    <> state oneGuessGame) by (vm_compute; discriminate).
  split; [exact Hord |]. split; [exact Hrun |]. split; [vm_compute; reflexivity |].
  split; [exact Hne |].
  exact (proj1 (phase_order [] Dice.compareTwoStrings threePlayersOneGuess _ _ _ _
                  (OnSubmitGuess 3 "room" 2%Z) "room" oneGuessGame _
                  Hord Hrun Hstep Hget Hget' Hne)).
Defined.

Lemma rooms_are_isolated_witness :
  run [] false Dice.compareTwoStrings initialWorld twoRooms
  = Some (worldAfter [] false Dice.compareTwoStrings twoRooms,
          emitsAfter [] false Dice.compareTwoStrings twoRooms)
  /\ step [] false Dice.compareTwoStrings
       (worldAfter [] false Dice.compareTwoStrings twoRooms)
       (OnJoinGame 5 "room" "C")
     = Some (stepAfter [] false Dice.compareTwoStrings twoRooms (OnJoinGame 5 "room" "C"))
  /\ roomOf (OnJoinGame 5 "room" "C") = Some "room"
  /\ "other" <> "room"
  /\ Obj.get "other"
       (games (server (fst (stepAfter [] false Dice.compareTwoStrings twoRooms
                              (OnJoinGame 5 "room" "C")))))
     = Obj.get "other" (games (server (worldAfter [] false Dice.compareTwoStrings twoRooms))).
Proof.
  assert (Hrun :
    run [] false Dice.compareTwoStrings initialWorld twoRooms
    = Some (worldAfter [] false Dice.compareTwoStrings twoRooms,
            emitsAfter [] false Dice.compareTwoStrings twoRooms))
    by (vm_compute; reflexivity).
  assert (Hstep :
    step [] false Dice.compareTwoStrings
      (worldAfter [] false Dice.compareTwoStrings twoRooms) (OnJoinGame 5 "room" "C")
    = Some (fst (stepAfter [] false Dice.compareTwoStrings twoRooms
                   (OnJoinGame 5 "room" "C")),
            snd (stepAfter [] false Dice.compareTwoStrings twoRooms
                   (OnJoinGame 5 "room" "C"))))
    by (vm_compute; reflexivity).
  assert (Hother : "other" <> "room") by discriminate.
  split; [exact Hrun |]. split; [vm_compute; reflexivity |].
  split; [reflexivity |]. split; [exact Hother |].
  exact (rooms_are_isolated [] false Dice.compareTwoStrings twoRooms _ _ _ _
           (OnJoinGame 5 "room" "C") "room" "other" Hrun Hstep eq_refl Hother).
Defined.

Lemma points_never_decrease_witness :
  run [] false Dice.compareTwoStrings initialWorld threePlayersOneGuess
  = Some (worldAfter [] false Dice.compareTwoStrings threePlayersOneGuess,
          emitsAfter [] false Dice.compareTwoStrings threePlayersOneGuess)
  /\ step [] false Dice.compareTwoStrings
       (worldAfter [] false Dice.compareTwoStrings threePlayersOneGuess)
       (OnSubmitGuess 3 "room" 2%Z)
     = Some (stepAfter [] false Dice.compareTwoStrings threePlayersOneGuess
               (OnSubmitGuess 3 "room" 2%Z))
  /\ forall p,
       In p (players (roomAt "room"
                        (fst (stepAfter [] false Dice.compareTwoStrings
                                threePlayersOneGuess (OnSubmitGuess 3 "room" 2%Z))))) ->
       (pointsOf (points oneGuessGame) p
        <= pointsOf (points (roomAt "room"
                               (fst (stepAfter [] false Dice.compareTwoStrings
                                       threePlayersOneGuess
                                       (OnSubmitGuess 3 "room" 2%Z))))) p)%Z.
Proof.
  assert (Hrun :
    run [] false Dice.compareTwoStrings initialWorld threePlayersOneGuess
    = Some (worldAfter [] false Dice.compareTwoStrings threePlayersOneGuess,
            emitsAfter [] false Dice.compareTwoStrings threePlayersOneGuess))
    by (vm_compute; reflexivity).
  assert (Hstep :
    step [] false Dice.compareTwoStrings
      (worldAfter [] false Dice.compareTwoStrings threePlayersOneGuess)
      (OnSubmitGuess 3 "room" 2%Z)
    = Some (fst (stepAfter [] false Dice.compareTwoStrings threePlayersOneGuess
                   (OnSubmitGuess 3 "room" 2%Z)),
            snd (stepAfter [] false Dice.compareTwoStrings threePlayersOneGuess
                   (OnSubmitGuess 3 "room" 2%Z))))
    by (vm_compute; reflexivity).
  assert (Hget :
    Obj.get "room"
      (games (server (worldAfter [] false Dice.compareTwoStrings threePlayersOneGuess)))
    = Some oneGuessGame) by (vm_compute; reflexivity).
  assert (Hget' :
    Obj.get "room"
      (games (server (fst (stepAfter [] false Dice.compareTwoStrings threePlayersOneGuess
                             (OnSubmitGuess 3 "room" 2%Z)))))
    = Some (roomAt "room"
              (fst (stepAfter [] false Dice.compareTwoStrings threePlayersOneGuess
                      (OnSubmitGuess 3 "room" 2%Z)))))
    by (vm_compute; reflexivity).
  assert (Hcreate : forall sid p, OnSubmitGuess 3 "room" 2%Z <> OnCreateGame sid "room" p)
    by (intros sid p; discriminate).
  split; [exact Hrun |]. split; [vm_compute; reflexivity |].
  exact (points_never_decrease [] false Dice.compareTwoStrings threePlayersOneGuess
           _ _ _ _ (OnSubmitGuess 3 "room" 2%Z) "room" oneGuessGame _
           Hrun Hstep Hget Hget' Hcreate).
Defined.

Lemma ranking_to_guessing_witness :
  forallb ordinaryEvent threePlayersRanking = true
  /\ run [] false Dice.compareTwoStrings initialWorld threePlayersRanking
     = Some (worldAfter [] false Dice.compareTwoStrings threePlayersRanking,
             emitsAfter [] false Dice.compareTwoStrings threePlayersRanking)
  /\ Obj.get "room"
       (games (server (worldAfter [] false Dice.compareTwoStrings threePlayersRanking)))
     = Some rankingGame
  /\ state rankingGame = Ranking
  /\ sockets (worldAfter [] false Dice.compareTwoStrings threePlayersRanking) 1 = Some "A"
  /\ In "A" (players rankingGame)
  /\ acceptableRanking rankingGame ["A"; "B"; "C"] = true
  /\ exists w' out' g',
       step [] false Dice.compareTwoStrings
         (worldAfter [] false Dice.compareTwoStrings threePlayersRanking)
         (OnSubmitRanking 1 (quietOracle 1) "room" ["A"; "B"; "C"]) = Some (w', out')
       /\ Obj.get "room" (games (server w')) = Some g'
       /\ rankings g' = Obj.set "A" ["A"; "B"; "C"] (rankings rankingGame)
       /\ state g' = Ranking.
Proof.
  assert (Hord : forallb ordinaryEvent threePlayersRanking = true) by reflexivity.
  assert (Hrun :
    run [] false Dice.compareTwoStrings initialWorld threePlayersRanking
    = Some (worldAfter [] false Dice.compareTwoStrings threePlayersRanking,
            emitsAfter [] false Dice.compareTwoStrings threePlayersRanking))
    by (vm_compute; reflexivity).
  assert (Hget :
    Obj.get "room"
      (games (server (worldAfter [] false Dice.compareTwoStrings threePlayersRanking)))
    = Some rankingGame) by (vm_compute; reflexivity).
  assert (Hstate : state rankingGame = Ranking) by reflexivity.
  assert (Hsock :
    sockets (worldAfter [] false Dice.compareTwoStrings threePlayersRanking) 1 = Some "A")
    by (vm_compute; reflexivity).
  assert (Hname : In "A" (players rankingGame)) by (vm_compute; tauto).
  assert (Hok : acceptableRanking rankingGame ["A"; "B"; "C"] = true)
    by (vm_compute; reflexivity).
  split; [exact Hord |]. split; [exact Hrun |]. split; [exact Hget |].
  split; [exact Hstate |].
  split; [exact Hsock |]. split; [exact Hname |]. split; [exact Hok |].
  destruct (ranking_to_guessing [] false Dice.compareTwoStrings threePlayersRanking _ _
              1 (quietOracle 1) "room" ["A"; "B"; "C"] "A" rankingGame
              Hord Hrun Hget Hstate Hsock Hname Hok)
    as [_ [_ [w' [out' [g' [Hstep [Hget' [Hrk [_ [_ [[Hs | [Hs _]] Hiff]]]]]]]]]]].
  - exists w', out', g'. repeat split; assumption.
  - exfalso. pose proof (proj1 Hiff Hs) as Hall.
    apply (Hall "B"); [vm_compute; tauto | discriminate | reflexivity].
Defined.

Lemma actualPosition_of_honest_ranking_witness :
  run [] false Dice.compareTwoStrings initialWorld threePlayersGuessing
  = Some (worldAfter [] false Dice.compareTwoStrings threePlayersGuessing,
          emitsAfter [] false Dice.compareTwoStrings threePlayersGuessing)
  /\ Obj.get "room"
       (games (server (worldAfter [] false Dice.compareTwoStrings threePlayersGuessing)))
     = Some threePlayersGame
  /\ (state threePlayersGame = Guessing \/ state threePlayersGame = Reveal)
  /\ exists ranker target ranking position,
       currentRanker threePlayersGame = Some ranker
       /\ currentTarget threePlayersGame = Some target
       /\ Obj.get ranker (rankings threePlayersGame) = Some ranking
       /\ actualPosition threePlayersGame = Some (Z.of_nat position)
       /\ (NoDup ranking ->
           Permutation ranking (players threePlayersGame)
           /\ 1 <= position <= List.length (players threePlayersGame)
           /\ nth_error ranking (position - 1) = Some target).
Proof.
  assert (Hrun :
    run [] false Dice.compareTwoStrings initialWorld threePlayersGuessing
    = Some (worldAfter [] false Dice.compareTwoStrings threePlayersGuessing,
            emitsAfter [] false Dice.compareTwoStrings threePlayersGuessing))
    by (vm_compute; reflexivity).
  assert (Hget :
    Obj.get "room"
      (games (server (worldAfter [] false Dice.compareTwoStrings threePlayersGuessing)))
    = Some threePlayersGame) by (vm_compute; reflexivity).
  assert (Hstate : state threePlayersGame = Guessing \/ state threePlayersGame = Reveal)
    by (left; reflexivity).
  split; [exact Hrun |]. split; [exact Hget |]. split; [exact Hstate |].
  exact (actualPosition_of_honest_ranking [] false Dice.compareTwoStrings
           threePlayersGuessing _ _ "room" threePlayersGame Hrun Hget Hstate).
Defined.

Lemma owner_is_fixed_witness :
  run [] false Dice.compareTwoStrings initialWorld twoPlayersStart
  = Some (worldAfter [] false Dice.compareTwoStrings twoPlayersStart,
          emitsAfter [] false Dice.compareTwoStrings twoPlayersStart)
  /\ step [] false Dice.compareTwoStrings
       (worldAfter [] false Dice.compareTwoStrings twoPlayersStart) (OnDisconnect 1)
     = Some (stepAfter [] false Dice.compareTwoStrings twoPlayersStart (OnDisconnect 1))
  /\ players (roomAt "room"
                (fst (stepAfter [] false Dice.compareTwoStrings twoPlayersStart
                        (OnDisconnect 1)))) = ["B"]
  /\ owner (roomAt "room"
              (fst (stepAfter [] false Dice.compareTwoStrings twoPlayersStart
                      (OnDisconnect 1))))
     = owner (roomAt "room" (worldAfter [] false Dice.compareTwoStrings twoPlayersStart)).
Proof.
  assert (Hrun :
    run [] false Dice.compareTwoStrings initialWorld twoPlayersStart
    = Some (worldAfter [] false Dice.compareTwoStrings twoPlayersStart,
            emitsAfter [] false Dice.compareTwoStrings twoPlayersStart))
    by (vm_compute; reflexivity).
  assert (Hstep :
    step [] false Dice.compareTwoStrings
      (worldAfter [] false Dice.compareTwoStrings twoPlayersStart) (OnDisconnect 1)
    = Some (fst (stepAfter [] false Dice.compareTwoStrings twoPlayersStart
                   (OnDisconnect 1)),
            snd (stepAfter [] false Dice.compareTwoStrings twoPlayersStart
                   (OnDisconnect 1))))
    by (vm_compute; reflexivity).
  assert (Hget :
    Obj.get "room"
      (games (server (worldAfter [] false Dice.compareTwoStrings twoPlayersStart)))
    = Some (roomAt "room" (worldAfter [] false Dice.compareTwoStrings twoPlayersStart)))
    by (vm_compute; reflexivity).
  assert (Hget' :
    Obj.get "room"
      (games (server (fst (stepAfter [] false Dice.compareTwoStrings twoPlayersStart
                             (OnDisconnect 1)))))
    = Some (roomAt "room"
              (fst (stepAfter [] false Dice.compareTwoStrings twoPlayersStart
                      (OnDisconnect 1)))))
    by (vm_compute; reflexivity).
  assert (Hcreate : forall sid p, OnDisconnect 1 <> OnCreateGame sid "room" p)
    by (intros sid p; discriminate).
  split; [exact Hrun |]. split; [vm_compute; reflexivity |].
  split; [vm_compute; reflexivity |].
  exact (owner_is_fixed [] false Dice.compareTwoStrings twoPlayersStart _ _ _ _
           (OnDisconnect 1) "room" _ _ Hrun Hstep Hget Hget' Hcreate).
Defined.

Lemma stored_flag_is_never_raised_witness :
  run [] false Dice.compareTwoStrings initialWorld sevenPlayersStart
  = Some (worldAfter [] false Dice.compareTwoStrings sevenPlayersStart,
          emitsAfter [] false Dice.compareTwoStrings sevenPlayersStart)
  /\ Obj.get "room"
       (games (server (worldAfter [] false Dice.compareTwoStrings sevenPlayersStart)))
     = Some (roomAt "room" (worldAfter [] false Dice.compareTwoStrings sevenPlayersStart))
  /\ noMoreQuestions
       (roomAt "room" (worldAfter [] false Dice.compareTwoStrings sevenPlayersStart))
     = false.
Proof.
  assert (Hrun :
    run [] false Dice.compareTwoStrings initialWorld sevenPlayersStart
    = Some (worldAfter [] false Dice.compareTwoStrings sevenPlayersStart,
            emitsAfter [] false Dice.compareTwoStrings sevenPlayersStart))
    by (vm_compute; reflexivity).
  assert (Hget :
    Obj.get "room"
      (games (server (worldAfter [] false Dice.compareTwoStrings sevenPlayersStart)))
    = Some (roomAt "room" (worldAfter [] false Dice.compareTwoStrings sevenPlayersStart)))
    by (vm_compute; reflexivity).
  split; [exact Hrun |]. split; [exact Hget |].
  exact (stored_flag_is_never_raised [] false Dice.compareTwoStrings sevenPlayersStart
           _ _ "room" _ Hrun Hget).
Defined.

Lemma nextReveal_advances_witness :
  run [] false Dice.compareTwoStrings initialWorld twoPlayersReveal
  = Some (worldAfter [] false Dice.compareTwoStrings twoPlayersReveal,
          emitsAfter [] false Dice.compareTwoStrings twoPlayersReveal)
  /\ Obj.get "room"
       (games (server (worldAfter [] false Dice.compareTwoStrings twoPlayersReveal)))
     = Some twoPlayersGame
  /\ state twoPlayersGame = Reveal
  /\ isName (sockets (worldAfter [] false Dice.compareTwoStrings twoPlayersReveal) 1)
       (owner twoPlayersGame) = true
  /\ exists w' out' g',
       step [] false Dice.compareTwoStrings
         (worldAfter [] false Dice.compareTwoStrings twoPlayersReveal)
         (OnNextReveal 1 (quietOracle 0) "room") = Some (w', out')
       /\ Obj.get "room" (games (server w')) = Some g'
       /\ state g' = Guessing
       /\ currentRevealIndex g' = 1
       /\ currentRanker g' <> currentRanker twoPlayersGame.
Proof.
  assert (Hrun :
    run [] false Dice.compareTwoStrings initialWorld twoPlayersReveal
    = Some (worldAfter [] false Dice.compareTwoStrings twoPlayersReveal,
            emitsAfter [] false Dice.compareTwoStrings twoPlayersReveal))
    by (vm_compute; reflexivity).
  assert (Hget :
    Obj.get "room"
      (games (server (worldAfter [] false Dice.compareTwoStrings twoPlayersReveal)))
    = Some twoPlayersGame) by (vm_compute; reflexivity).
  assert (Hstate : state twoPlayersGame = Reveal) by reflexivity.
  assert (Howner :
    isName (sockets (worldAfter [] false Dice.compareTwoStrings twoPlayersReveal) 1)
      (owner twoPlayersGame) = true) by (vm_compute; reflexivity).
  split; [exact Hrun |]. split; [exact Hget |]. split; [exact Hstate |].
  split; [exact Howner |].
  destruct (nextReveal_advances [] false Dice.compareTwoStrings twoPlayersReveal _ _
              1 (quietOracle 0) "room" twoPlayersGame Hrun Hget Hstate Howner)
    as [w' [out' [g' [Hstep [Hget' [_ [_ Hnext]]]]]]].
  exists w', out', g'. split; [exact Hstep |]. split; [exact Hget' |].
  change (currentRevealIndex twoPlayersGame + 1 <? List.length (players twoPlayersGame))
    with true in Hnext.
  destruct Hnext as [H1 [H2 [_ [_ [H3 _]]]]].
  split; [exact H1 |]. split; [exact H2 | exact H3].
Defined.


(* ------------------------------------------------------------------------- *)
(** ** The seed pool as loaded *)

Lemma addAll_NoDup (qs : list string) : forall s : list string,
  NoDup s -> NoDup (addAll qs s).
Proof.
  unfold addAll. induction qs as [| q qs IH]; intros s Hs; simpl; [exact Hs |].
  apply IH. unfold JsSet.add. destruct (JsSet.has q s) eqn:E; [exact Hs |].
  apply JsSetFacts.has_false in E.
  apply NoDup_app; [exact Hs | repeat constructor; simpl; tauto |].
  intros x Hx [<- | []]. contradiction.
Qed.

(** X16.  The seed pool read from [questions.json] (entries with their two
    strings) has no repeated string and holds exactly the strings of the
    file; and when none of them is a fallback question, the seed pool and
    the fallback list have no repetition between them. *)
Theorem loaded_pool_has_no_repetition (parsed : list Entry) :
  NoDup (loadPool parsed)
  /\ (forall q, In q (loadPool parsed)
                <-> exists e, In e parsed /\ (q = question e \/ q = specialQuestion e))
  /\ ((forall e, In e parsed ->
         ~ In (question e) initialFallbackQuestions
         /\ ~ In (specialQuestion e) initialFallbackQuestions) ->
      NoDup (loadPool parsed ++ initialFallbackQuestions)).
Proof.
  assert (Hmem : forall q, In q (loadPool parsed)
                 <-> exists e, In e parsed /\ (q = question e \/ q = specialQuestion e)).
  { intros q. unfold loadPool. rewrite JsSetFacts.addAll_In, in_flat_map. simpl. split.
    - intros [[e [He Hq]] | []]. exists e. split; [exact He |].
      destruct Hq as [<- | [<- | []]]; auto.
    - intros [e [He Hq]]. left. exists e. split; [exact He |].
      destruct Hq as [-> | ->]; auto. }
  assert (Hnd : NoDup (loadPool parsed)) by (apply addAll_NoDup; constructor).
  split; [exact Hnd |]. split; [exact Hmem |].
  intros Hapart. apply NoDup_app; [exact Hnd | |].
  - apply (NoDup_app_remove_l [] _ fallbacks_distinct).
  - intros q Hq Hfb. apply Hmem in Hq. destruct Hq as [e [He Hq]].
    destruct (Hapart e He) as [H1 H2]. destruct Hq as [-> | ->]; contradiction.
Qed.

(* ------------------------------------------------------------------------- *)
(** ** When the text-generation service is of no help *)

Section Degradation.

Variable questionPool : list string.
Variable compareTwoStrings : string -> string -> Q.

Lemma generate_fruitless (o : Oracle) (numQuestions needed : nat)
  (cached : list string) :
  forall (fuel attempt : nat) (used : list string) (s : Supply),
    (forall k, attempt <= k < attempt + fuel -> fruitless needed (attempts o k)) ->
    exists fallbacks',
      Permutation fallbacks' (fallbackQuestions s)
      /\ generate compareTwoStrings fuel attempt o numQuestions needed cached used s
         = (None, used, mkSupply (globalUsedQuestions s) (questionCache s) fallbacks').
Proof.
  induction fuel as [| fuel IH]; intros attempt used s Hbad.
  - exists (fallbackQuestions s). split; [reflexivity |]. simpl. now destruct s.
  - cbn [generate].
    set (s1 := mkSupply (globalUsedQuestions s) (questionCache s)
                 (shuffle (exampleSeed (attempts o attempt)) (fallbackQuestions s))).
    destruct (IH (S attempt) used s1) as [fb [Hperm Heq]].
    { intros k Hk. apply Hbad. lia. }
    assert (Hnext : exists fallbacks',
              Permutation fallbacks' (fallbackQuestions s)
              /\ generate compareTwoStrings fuel (S attempt) o numQuestions needed
                   cached used s1
                 = (None, used,
                    mkSupply (globalUsedQuestions s) (questionCache s) fallbacks')).
    { exists fb. split; [| exact Heq].
      etransitivity; [exact Hperm | apply shuffle_perm]. }
    pose proof (Hbad attempt ltac:(lia)) as Hthis. unfold fruitless in Hthis.
    destruct (response (attempts o attempt)) as [answer |]; [| exact Hnext].
    rewrite Hthis. exact Hnext.
Qed.

(** X17.  Degradation: with [GROQ_API_KEY] set, when none of the ten
    attempts yields a usable answer (and the cache holds nothing new, as in
    every reachable state), [selectQuestions] serves the request from the
    local sources: it returns what [selectFromQuestionPool] returns, the
    cache having been emptied and the fallback list reordered. *)
Theorem generation_falls_back_on_the_pool (o : Oracle) (gameId : string) (game : Game)
  (numQuestions : nat) (s : Supply) :
  incl (questionCache s) (globalUsedQuestions s) ->
  0 < numQuestions ->
  (forall k, 1 <= k <= 10 -> fruitless numQuestions (attempts o k)) ->
  exists fallbacks',
    Permutation fallbacks' (fallbackQuestions s)
    /\ selectQuestions questionPool true compareTwoStrings o gameId game numQuestions s
       = selectFromQuestionPool questionPool (poolSeed o) gameId game numQuestions
           (mkSupply (globalUsedQuestions s) [] fallbacks').
Proof.
  intros Hstale Hpos Hbad. unfold selectQuestions. simpl negb. cbv iota.
  rewrite (drainCache_stale numQuestions _ (usedQuestions game) _ Hstale Hpos).
  simpl List.length. apply Nat.ltb_lt in Hpos as Hlt. rewrite Hlt. simpl negb. cbv iota.
  rewrite Nat.sub_0_r.
  destruct (generate_fruitless o numQuestions numQuestions [] 10 1 (usedQuestions game)
              (mkSupply (globalUsedQuestions s) [] (fallbackQuestions s)))
    as [fb [Hperm Heq]].
  { intros k Hk. apply Hbad. lia. }
  rewrite Heq. exists fb. split; [exact Hperm |]. simpl. now destruct game.
Qed.

End Degradation.

Lemma generation_falls_back_on_the_pool_witness :
  incl (questionCache initialSupply) (globalUsedQuestions initialSupply)
  /\ 0 < 1
  /\ (forall k, 1 <= k <= 10 -> fruitless 1 (attempts (quietOracle 0) k))
  /\ exists fallbacks',
       Permutation fallbacks' (fallbackQuestions initialSupply)
       /\ selectQuestions [] true Dice.compareTwoStrings (quietOracle 0) "room"
            (newGame "A") 1 initialSupply
          = selectFromQuestionPool [] (poolSeed (quietOracle 0)) "room" (newGame "A") 1
              (mkSupply (globalUsedQuestions initialSupply) [] fallbacks').
Proof.
  assert (Hstale : incl (questionCache initialSupply) (globalUsedQuestions initialSupply))
    by (intros x []).
  assert (Hpos : 0 < 1) by lia.
  assert (Hbad : forall k, 1 <= k <= 10 -> fruitless 1 (attempts (quietOracle 0) k))
    by (intros k _; exact I).
  split; [exact Hstale |]. split; [exact Hpos |]. split; [exact Hbad |].
  exact (generation_falls_back_on_the_pool [] Dice.compareTwoStrings (quietOracle 0)
           "room" (newGame "A") 1 initialSupply Hstale Hpos Hbad).
Defined.

(* ------------------------------------------------------------------------- *)
(** ** The client *)

Lemma removeAt_perm (i : nat) : forall (l : list string) (x : string),
  nth_error l i = Some x -> Permutation (x :: Client.removeAt i l) l.
Proof.
  induction i as [| i IH]; intros [| y l] x; simpl; try discriminate.
  - intros H. now injection H as ->.
  - intros H. rewrite perm_swap. constructor. now apply IH.
Qed.

Lemma removeAt_length (i : nat) : forall l : list string,
  i < List.length l -> S (List.length (Client.removeAt i l)) = List.length l.
Proof.
  induction i as [| i IH]; intros [| y l]; simpl; try lia.
  intros H. rewrite IH; lia.
Qed.

Lemma insertAt_nth (i : nat) (x : string) : forall l : list string,
  i <= List.length l -> nth_error (insertAt i x l) i = Some x.
Proof.
  induction i as [| i IH]; intros [| y l]; simpl; try reflexivity; try lia.
  intros H. apply IH. lia.
Qed.

Lemma removeAt_insertAt (i : nat) (x : string) : forall l : list string,
  i <= List.length l -> Client.removeAt i (insertAt i x l) = l.
Proof.
  induction i as [| i IH]; intros [| y l]; simpl; try reflexivity; try lia.
  intros H. f_equal. apply IH. lia.
Qed.

(** X18.  Drag and drop on the client: dropping the entry at [draggedIndex]
    on the entry at [index] (both in the list) rearranges the ranking, the
    dragged entry ends at [index], and the other entries keep their order. *)
Theorem drop_moves_one_entry (draggedIndex index : nat) (ranking : list string) :
  draggedIndex < List.length ranking ->
  index < List.length ranking ->
  exists ranking',
    Client.drop draggedIndex index ranking = Some ranking'
    /\ Permutation ranking' ranking
    /\ nth_error ranking' index = nth_error ranking draggedIndex
    /\ Client.removeAt index ranking' = Client.removeAt draggedIndex ranking.
Proof.
  intros Hd Hi. unfold Client.drop.
  destruct (draggedIndex =? index) eqn:E.
  - apply Nat.eqb_eq in E. subst index. exists ranking. repeat split. reflexivity.
  - destruct (nth_error ranking draggedIndex) as [dragged |] eqn:Ed.
    2:{ apply nth_error_None in Ed. lia. }
    pose proof (removeAt_length draggedIndex ranking Hd) as Hlen.
    eexists. split; [reflexivity |]. split; [| split].
    + rewrite insertAt_perm. now apply removeAt_perm.
    + apply insertAt_nth. lia.
    + apply removeAt_insertAt. lia.
Qed.

Lemma drop_perm (draggedIndex index : nat) (ranking ranking' : list string) :
  Client.drop draggedIndex index ranking = Some ranking' -> Permutation ranking' ranking.
Proof.
  unfold Client.drop. destruct (draggedIndex =? index).
  - intros H. now injection H as ->.
  - destruct (nth_error ranking draggedIndex) as [dragged |] eqn:Ed; [| discriminate].
    intros H. injection H as <-. rewrite insertAt_perm. now apply removeAt_perm.
Qed.

Lemma drops_perm (moves : list (nat * nat)) : forall ranking ranking' : list string,
  Client.drops moves ranking = Some ranking' -> Permutation ranking' ranking.
Proof.
  induction moves as [| [d i] moves IH]; intros ranking ranking'; simpl.
  - intros H. now injection H as ->.
  - destruct (Client.drop d i ranking) as [r1 |] eqn:E; [| discriminate].
    intros H. etransitivity; [exact (IH _ _ H) | exact (drop_perm _ _ _ _ E)].
Qed.

(** A drop whose dragged index is an index of the list gives a list. *)
Lemma drop_in_range (draggedIndex index : nat) (ranking : list string) :
  draggedIndex < List.length ranking ->
  exists ranking', Client.drop draggedIndex index ranking = Some ranking'.
Proof.
  intros Hd. unfold Client.drop. destruct (draggedIndex =? index); [now exists ranking |].
  destruct (nth_error ranking draggedIndex) as [dragged |] eqn:Ed; [now eexists |].
  apply nth_error_None in Ed. lia.
Qed.

Lemma drops_in_range (moves : list (nat * nat)) : forall ranking : list string,
  Forall (fun move => fst move < List.length ranking) moves ->
  exists ranking', Client.drops moves ranking = Some ranking'.
Proof.
  induction moves as [| [d i] moves IH]; intros ranking Hin; simpl.
  - now exists ranking.
  - inversion Hin as [| move rest Hd Hrest]; subst. simpl in Hd.
    destruct (drop_in_range d i ranking Hd) as [r1 E]. rewrite E.
    apply IH. rewrite (Permutation_length (drop_perm _ _ _ _ E)). exact Hrest.
Qed.

(** X19.  A ranking arranged on the client is accepted by the server: the
    list first shown for the players of a room, after any sequence of drops
    in which the entry dragged is an entry of the list ([draggedIndex] is
    below the number of players), is a rearrangement of the players, which
    passes the test of [submitRanking] and, the players being distinct,
    repeats no name.  (A [draggedIndex] outside the list, which [drop] does
    not test for, puts [undefined] in the list: [Client.drop] is [None]
    there.) *)
Theorem arranged_ranking_is_accepted (g : Game) (seed : list nat)
  (moves : list (nat * nat)) :
  Forall (fun move => fst move < List.length (players g)) moves ->
  exists ranking,
    Client.drops moves (Client.initialRanking seed (players g)) = Some ranking
    /\ Permutation ranking (players g)
    /\ acceptableRanking g ranking = true
    /\ (NoDup (players g) -> NoDup ranking).
Proof.
  intros Hin.
  destruct (drops_in_range moves (Client.initialRanking seed (players g)))
    as [ranking Hdrops].
  { unfold Client.initialRanking.
    now rewrite (Permutation_length (shuffle_perm seed (players g))). }
  exists ranking. split; [exact Hdrops |].
  assert (Hperm : Permutation ranking (players g)).
  { etransitivity; [exact (drops_perm _ _ _ Hdrops) | apply shuffle_perm]. }
  split; [exact Hperm |]. split.
  - apply acceptableRanking_iff. split; [now apply Permutation_length |].
    intros x Hx. eapply Permutation_in; eassumption.
  - intros Hnd. eapply Permutation_NoDup; [symmetry; exact Hperm | exact Hnd].
Qed.

Lemma guessButtons_In (players : list string) (guess : Z) :
  In guess (Client.guessButtons players)
  <-> (1 <= guess <= Z.of_nat (List.length players))%Z.
Proof.
  unfold Client.guessButtons. rewrite in_map_iff. split.
  - intros [i [<- Hi]]. apply in_seq in Hi. lia.
  - intros [Hlo Hhi]. exists (Z.to_nat guess - 1). split; [lia |].
    apply in_seq. lia.
Qed.

Lemma outOfRange_iff (players : list string) (guess : Q) :
  outOfRange players guess = false
  <-> (1 <= guess /\ guess <= inject_Z (Z.of_nat (List.length players)))%Q.
Proof.
  unfold outOfRange. rewrite orb_false_iff, !negb_false_iff, !Qle_bool_iff. tauto.
Qed.

Lemma outOfRange_integer (players : list string) (guess : Z) :
  outOfRange players (inject_Z guess)
  = ((guess <? 1)%Z || (Z.of_nat (List.length players) <? guess)%Z).
Proof.
  unfold outOfRange, Qle_bool. simpl. rewrite !Z.mul_1_r, !Z.ltb_antisym.
  reflexivity.
Qed.

(** X20.  The positions the client offers as guesses are exactly the
    integers that the range test of [submitGuess] lets through.  The test,
    which has no check that the guess is an integer, lets other numbers
    through as well: 1.5 in a room of two players, which no button sends. *)
Theorem guess_buttons_are_the_valid_guesses (players : list string) :
  (forall guess : Q,
     (exists position : Z,
        In position (Client.guessButtons players) /\ (guess == inject_Z position)%Q)
     <-> (outOfRange players guess = false /\ isInteger guess))
  /\ (forall guess : Z,
        outOfRange players (inject_Z guess)
        = ((guess <? 1)%Z || (Z.of_nat (List.length players) <? guess)%Z))
  /\ outOfRange ["A"; "B"] (3 # 2) = false
  /\ ~ isInteger (3 # 2).
Proof.
  split; [| split; [apply outOfRange_integer | split; [reflexivity |]]].
  - intros guess. rewrite outOfRange_iff. split.
    + intros [position [Hin Heq]]. apply guessButtons_In in Hin.
      split; [| now exists position]. rewrite Heq.
      split; [change 1%Q with (inject_Z 1) |]; rewrite <- Zle_Qle; lia.
    + intros [[Hlo Hhi] [z Hz]]. exists z. split; [| exact Hz].
      apply guessButtons_In. rewrite Hz in Hlo, Hhi.
      change 1%Q with (inject_Z 1) in Hlo. rewrite <- Zle_Qle in Hlo, Hhi. lia.
  - intros [z Hz]. unfold Qeq in Hz. simpl in Hz. lia.
Qed.

Lemma drop_moves_one_entry_witness :
  0 < List.length ["A"; "B"; "C"]
  /\ 2 < List.length ["A"; "B"; "C"]
  /\ exists ranking',
       Client.drop 0 2 ["A"; "B"; "C"] = Some ranking'
       /\ Permutation ranking' ["A"; "B"; "C"]
       /\ nth_error ranking' 2 = nth_error ["A"; "B"; "C"] 0
       /\ Client.removeAt 2 ranking' = Client.removeAt 0 ["A"; "B"; "C"].
Proof.
  assert (H0 : 0 < List.length ["A"; "B"; "C"]) by (simpl; lia).
  assert (H2 : 2 < List.length ["A"; "B"; "C"]) by (simpl; lia).
  split; [exact H0 |]. split; [exact H2 |].
  exact (drop_moves_one_entry 0 2 ["A"; "B"; "C"] H0 H2).
Defined.

Lemma arranged_ranking_is_accepted_witness :
  Forall (fun move => fst move < List.length (players rankingGame)) threeDrops
  /\ Client.drops threeDrops (Client.initialRanking [1; 0] (players rankingGame))
     = Some ["C"; "A"; "B"]
  /\ exists ranking,
       Client.drops threeDrops (Client.initialRanking [1; 0] (players rankingGame))
       = Some ranking
       /\ Permutation ranking (players rankingGame)
       /\ acceptableRanking rankingGame ranking = true
       /\ (NoDup (players rankingGame) -> NoDup ranking).
Proof.
  assert (Hin :
    Forall (fun move => fst move < List.length (players rankingGame)) threeDrops).
  { unfold threeDrops. repeat (apply Forall_cons; [simpl; lia |]). apply Forall_nil. }
  split; [exact Hin |]. split; [vm_compute; reflexivity |].
  exact (arranged_ranking_is_accepted rankingGame [1; 0] threeDrops Hin).
Defined.

(* ------------------------------------------------------------------------- *)
(** ** The client and the server *)

Lemma onlyExhaustion_noError (out : list Emit) : noError out -> onlyExhaustion out.
Proof. intros H dest text Hin. now contradiction (H dest text). Qed.

Lemma onlyExhaustion_app (out1 out2 : list Emit) :
  onlyExhaustion out1 -> onlyExhaustion out2 -> onlyExhaustion (out1 ++ out2).
Proof.
  intros H1 H2 dest text Hin. apply in_app_or in Hin.
  destruct Hin as [Hin | Hin]; [now apply (H1 dest) | now apply (H2 dest)].
Qed.

Lemma noError_app (out1 out2 : list Emit) :
  noError out1 -> noError out2 -> noError (out1 ++ out2).
Proof.
  intros H1 H2 dest text Hin. apply in_app_or in Hin.
  destruct Hin as [Hin | Hin]; [now apply (H1 dest text) | now apply (H2 dest text)].
Qed.

Lemma noError_state (dest : Dest) (snapshot : Game) (extras : list Extra) :
  noError [(dest, MGameState snapshot extras)].
Proof. intros d text [H | []]. discriminate. Qed.

(** A message built by [onGameState] makes the component show the room of
    the message, and drops keep it so. *)
Lemma onGameState_shows (seed : list nat) (g : Game) (extras : list Extra)
  (v : Client.View.t) :
  Client.shows g (Client.onGameState seed g extras v).
Proof.
  unfold Client.shows, Client.onGameState. simpl. repeat split.
  intros Hstate. rewrite Hstate. apply shuffle_perm.
Qed.

(** The button [Submit Ranking] is rendered only while the ranking has not
    been acknowledged. *)
Lemma offered_SubmitRanking (v : Client.View.t) :
  In Client.SubmitRanking (Client.offered v) -> Client.View.hasSubmittedRanking v = false.
Proof.
  unfold Client.offered.
  destruct (Client.View.gameState v);
    repeat match goal with
           | |- context [if ?c then _ else _] => destruct c
           end;
    simpl; try tauto;
    try (intros [H | []]; discriminate);
    intros Hin; apply in_map_iff in Hin; destruct Hin as [pos [H _]]; discriminate.
Qed.

Section ClientServer.

Variable questionPool : list string.
Variable GROQ_API_KEY : bool.
Variable compareTwoStrings : string -> string -> Q.

Lemma assignQuestions_out (o : Oracle) (gameId : string) (game : Game) (s : Supply) :
  let '(success, game1, s1, out1) :=
    assignQuestions questionPool GROQ_API_KEY compareTwoStrings o gameId game s in
  noError out1 /\ players game1 = players game.
Proof.
  pose proof (assignQuestions_spec questionPool GROQ_API_KEY compareTwoStrings
                o gameId game s) as Hspec.
  destruct (assignQuestions questionPool GROQ_API_KEY compareTwoStrings o gameId game s)
    as [[[success game1] s1] out1].
  destruct Hspec as [_ [_ Hspec]]. destruct success.
  - destruct Hspec as [u [qa [-> ->]]]. split; [intros dest text [] | reflexivity].
  - destruct Hspec as [[u ->] [_ ->]]. split; [apply noError_state | reflexivity].
Qed.

Lemma emitToPlayers_nonempty (gameId : string) (g : Game)
  (extras : string -> list Extra) :
  players g <> [] -> emitToPlayers gameId g extras <> [].
Proof.
  clear compareTwoStrings.
  unfold emitToPlayers. destruct (players g); [congruence | discriminate].
Qed.

Lemma app_nonempty_r {A : Type} (l l' : list A) : l' <> [] -> l ++ l' <> [].
Proof.
  clear compareTwoStrings.
  intros H E. apply app_eq_nil in E. now destruct E.
Qed.

(** X21.  A component that shows the room as it is gets no refusal from the
    buttons it offers: whichever button that is rendered the player clicks
    (start, submit the ranking arranged by drag and drop, one of the guess
    positions, next), the event it emits is neither ignored (the handler
    emits something) nor refused by a guard of its handler: the only error
    the server can answer with is the notice that the questions have run
    out. *)
Theorem offered_buttons_are_not_refused (events : list Event) (w w' : World)
  (out out' : list Emit) (sid : nat) (o : Oracle) (g : Game) (v : Client.View.t)
  (a : Client.Action) :
  run questionPool GROQ_API_KEY compareTwoStrings initialWorld events = Some (w, out) ->
  Obj.get (Client.View.gameId v) (games (server w)) = Some g ->
  sockets w sid = Some (Client.View.playerName v) ->
  In (Client.View.playerName v) (players g) ->
  Client.View.playerName v <> "" ->
  Client.shows g v ->
  In a (Client.offered v) ->
  step questionPool GROQ_API_KEY compareTwoStrings w (Client.emitted sid o v a)
  = Some (w', out') ->
  out' <> [] /\ onlyExhaustion out'.
Proof.
  intros Hrun Hget Hsock Hname Hnonempty [Hstate [Hplayers [Howner [Hranker Hperm]]]]
    Hoffered.
  pose proof (reachable_inv questionPool GROQ_API_KEY compareTwoStrings
                events w out Hrun) as Hinv.
  pose proof (ServerInv_lookup (server w) _ g Hinv Hget) as Hgame.
  assert (Hsome : players g <> []) by apply Hgame.
  destruct w as [sv sockets0]. simpl in Hget, Hsock, Hinv.
  apply includes_In in Hname as Hinc.
  unfold Client.offered in Hoffered. rewrite Hstate in Hoffered.
  destruct (state g) eqn:Estate.
  - (* waiting: start *)
    destruct (Client.View.isOwner v) eqn:Eowner; [| destruct Hoffered].
    destruct Hoffered as [<- | []]. simpl. unfold startGame.
    rewrite Hget, Hsock. simpl isName. rewrite <- Howner. simpl negb. cbv iota.
    pose proof (assignQuestions_out o (Client.View.gameId v) g (supply sv)) as Hquiet.
    destruct (assignQuestions questionPool GROQ_API_KEY compareTwoStrings o
                (Client.View.gameId v) g (supply sv)) as [[[success game1] s1] out1].
    destruct Hquiet as [Hquiet Hsame].
    destruct success; simpl negb; cbv iota; intros H; injection H as _ <-.
    + split.
      * apply app_nonempty_r, emitToPlayers_nonempty. simpl. now rewrite Hsame.
      * apply onlyExhaustion_noError, noError_app;
          [exact Hquiet | apply noError_emitToPlayers].
    + split; [apply app_nonempty_r; discriminate |].
      apply onlyExhaustion_app; [now apply onlyExhaustion_noError |].
      intros dest text [H | []]. now injection H as _ <-.
  - (* ranking: submit the ranking *)
    destruct (Client.View.noMoreQuestions v); [destruct Hoffered |].
    destruct (Client.View.hasSubmittedRanking v); [destruct Hoffered |].
    destruct Hoffered as [<- | []]. simpl. unfold submitRanking.
    rewrite Hget, Hsock, Hinc, Estate. simpl negb. cbv iota.
    assert (Hok : acceptableRanking g (Client.View.ranking v) = true).
    { apply acceptableRanking_iff. specialize (Hperm eq_refl).
      split; [now apply Permutation_length |].
      intros x Hx. eapply Permutation_in; eassumption. }
    rewrite Hok. simpl negb. cbv iota.
    fold (ranked (Client.View.playerName v) (Client.View.ranking v) g).
    destruct (List.length
                (Obj.keys (rankings (ranked (Client.View.playerName v)
                                       (Client.View.ranking v) g)))
              =? List.length
                   (players (ranked (Client.View.playerName v)
                               (Client.View.ranking v) g))).
    + assert (Hidx : currentRevealIndex
                       (ranked (Client.View.playerName v) (Client.View.ranking v) g)
                     < List.length
                         (players (ranked (Client.View.playerName v)
                                     (Client.View.ranking v) g))).
      { destruct Hgame as [_ [Hne [_ [_ Hphase]]]].
        unfold PhaseInv in Hphase. rewrite Estate in Hphase.
        destruct Hphase as [_ [Hzero _]]. simpl. rewrite Hzero.
        destruct (players g); [congruence | simpl; lia]. }
      rewrite (setNextReveal_reveal questionPool GROQ_API_KEY compareTwoStrings
                 o _ _ (supply sv) Hidx).
      match goal with
      | |- context [match Obj.get ?k ?rk with _ => _ end] =>
          destruct (Obj.get k rk) as [order |]; [| discriminate]
      end.
      intros H. injection H as _ <-. split; [discriminate |].
      intros dest text [H | Hin]; [discriminate |].
      exfalso. exact (noError_emitToPlayers _ _ _ dest text Hin).
    + intros H. injection H as _ <-. split; [discriminate |].
      intros dest text [H | []]. discriminate.
  - (* guessing: a guess *)
    destruct (Client.View.noMoreQuestions v); [destruct Hoffered |].
    destruct (sameName (Some (Client.View.playerName v)) (Client.View.currentRanker v))
      eqn:Eranker; [destruct Hoffered |].
    destruct (Client.View.hasSubmittedGuess v); [destruct Hoffered |].
    apply in_map_iff in Hoffered. destruct Hoffered as [pos [<- Hpos]].
    rewrite Hplayers in Hpos. apply guessButtons_In in Hpos.
    simpl. unfold submitGuess. rewrite Hget, Hsock, Hinc, Estate. simpl negb. cbv iota.
    assert (Hnot : sameName (Some (Client.View.playerName v)) (currentRanker g) = false).
    { rewrite Hranker in Eranker. unfold Client.orNull in Eranker.
      destruct (currentRanker g) as [r |]; [| reflexivity].
      destruct (String.eqb r "") eqn:Eempty; [| exact Eranker].
      apply String.eqb_eq in Eempty. subst r. simpl.
      now apply String.eqb_neq. }
    rewrite Hnot.
    assert (Hrange : ((pos <? 1)%Z || (Z.of_nat (List.length (players g)) <? pos)%Z)
                     = false).
    { apply orb_false_iff. rewrite !Z.ltb_ge. lia. }
    rewrite Hrange.
    match goal with
    | |- context [if ?c then _ else _] => destruct c
    end; intros H; injection H as _ <-.
    + split; [| apply onlyExhaustion_noError, noError_emitToPlayers].
      apply emitToPlayers_nonempty. rewrite scoreReveal_shape. simpl.
      intros E. apply Hsome.
      apply Permutation_nil. rewrite <- E. apply sortDesc_perm.
    + split; [discriminate | apply onlyExhaustion_noError, noError_state].
  - (* reveal: next *)
    destruct (Client.View.noMoreQuestions v); [destruct Hoffered |].
    destruct (Client.View.isOwner v) eqn:Eowner; [| destruct Hoffered].
    destruct Hoffered as [<- | []]. simpl. unfold nextReveal.
    rewrite Hget, Hsock. simpl isName. rewrite <- Howner, Estate. simpl negb. cbv iota.
    set (game1 := set_currentRevealIndex (currentRevealIndex g + 1) g).
    destruct (Nat.le_gt_cases (List.length (players game1)) (currentRevealIndex game1))
      as [Hround | Hnext].
    + rewrite (setNextReveal_round questionPool GROQ_API_KEY compareTwoStrings
                 o _ game1 (supply sv) Hround).
      unfold startNewRound.
      pose proof (assignQuestions_out o (Client.View.gameId v) game1 (supply sv))
        as Hquiet.
      destruct (assignQuestions questionPool GROQ_API_KEY compareTwoStrings o
                  (Client.View.gameId v) game1 (supply sv))
        as [[[success game2] s2] out2].
      destruct Hquiet as [Hquiet Hsame].
      destruct success; simpl negb; cbv iota; intros H; injection H as _ <-.
      * split.
        -- apply app_nonempty_r, emitToPlayers_nonempty. simpl. now rewrite Hsame.
        -- apply onlyExhaustion_noError, noError_app;
             [exact Hquiet | apply noError_emitToPlayers].
      * split; [apply app_nonempty_r; discriminate |].
        apply onlyExhaustion_noError, noError_app; [exact Hquiet | apply noError_state].
    + rewrite (setNextReveal_reveal questionPool GROQ_API_KEY compareTwoStrings
                 o _ game1 (supply sv) Hnext).
      match goal with
      | |- context [match Obj.get ?k ?rk with _ => _ end] =>
          destruct (Obj.get k rk) as [order |]; [| discriminate]
      end.
      intros H. injection H as _ <-.
      split; [| apply onlyExhaustion_noError, noError_emitToPlayers].
      now apply emitToPlayers_nonempty.
  - (* joining: nothing is offered *)
    destruct Hoffered.
Qed.

(** X22.  [startGame] does not reset [hasSubmittedRanking] on the client:
    none of the [gameState] messages it emits carries the property, so a
    component that had its ranking acknowledged keeps the flag through a
    restart of the game, and is not offered to submit a ranking. *)
Theorem restart_keeps_the_ranking_flag (w w' : World) (out' : list Emit)
  (sid : nat) (o : Oracle) (gameId : string) (dest : Dest) (stateData : Game)
  (extras : list Extra) (seed : list nat) (v : Client.View.t) :
  step questionPool GROQ_API_KEY compareTwoStrings w (OnStartGame sid o gameId)
  = Some (w', out') ->
  In (dest, MGameState stateData extras) out' ->
  Client.View.hasSubmittedRanking v = true ->
  Client.View.hasSubmittedRanking (Client.onGameState seed stateData extras v) = true
  /\ ~ In Client.SubmitRanking
         (Client.offered (Client.onGameState seed stateData extras v)).
Proof.
  intros Hstep Hin Hflag.
  assert (Hextras : Client.resetsRanking extras = false).
  { revert Hstep Hin. destruct w as [sv sockets0]. simpl. unfold startGame.
    destruct (Obj.get gameId (games sv)) as [game |];
      [| intros H; injection H as _ <-; intros [H | []]; discriminate].
    destruct (negb (isName (sockets0 sid) (owner game)));
      [intros H; injection H as _ <-; intros [H | []]; discriminate |].
    pose proof (assignQuestions_spec questionPool GROQ_API_KEY compareTwoStrings
                  o gameId game (supply sv)) as Hspec.
    destruct (assignQuestions questionPool GROQ_API_KEY compareTwoStrings o gameId
                game (supply sv)) as [[[success game1] s1] out1].
    destruct Hspec as [_ [_ Hspec]].
    destruct success; simpl negb; cbv iota; intros H; injection H as _ <-.
    - destruct Hspec as [u [qa [_ ->]]]. rewrite app_nil_l.
      unfold emitToPlayers. intros Hin. apply in_map_iff in Hin.
      destruct Hin as [p [Hp _]]. injection Hp as _ _ <-. reflexivity.
    - destruct Hspec as [_ [_ ->]]. intros [H | [H | []]]; [| discriminate].
      injection H as _ _ <-. reflexivity. }
  assert (Hkept : Client.View.hasSubmittedRanking
                    (Client.onGameState seed stateData extras v) = true).
  { unfold Client.onGameState. simpl. rewrite Hextras.
    now destruct (state stateData). }
  split; [exact Hkept |].
  intros Hoffered. apply offered_SubmitRanking in Hoffered. congruence.
Qed.

End ClientServer.

(** X23.  The gameState handler of the client never touches
    [hasSubmittedGuess]: the flag is set by a click on a guess button and
    cleared only by a click on [Next], a button of the owner.  So a
    component that is not the owner's, once it has guessed, keeps the flag
    whatever happens to it, and is not offered a guess button again. *)
Theorem guess_buttons_are_offered_once (hs : list Client.Happening) :
  forall v v' : Client.View.t,
    Client.happenAll v hs = Some v' ->
    Client.View.hasSubmittedGuess v = true ->
    Client.View.isOwner v = false ->
    (forall seed stateData extras,
       In (Client.GameState seed stateData extras) hs ->
       owner stateData <> Client.View.playerName v) ->
    Client.View.hasSubmittedGuess v' = true
    /\ Client.View.playerName v' = Client.View.playerName v
    /\ forall pos, ~ In (Client.Click (Client.SubmitGuess pos)) hs.
Proof.
  induction hs as [| h hs IH]; intros v v'; simpl.
  - intros H Hflag _ _. injection H as <-. repeat split; tauto.
  - destruct (Client.happen v h) as [v1 |] eqn:Ehappen; [| discriminate].
    intros Hrun Hflag Howner Hothers.
    assert (Hstep : Client.View.hasSubmittedGuess v1 = true
                    /\ Client.View.isOwner v1 = false
                    /\ Client.View.playerName v1 = Client.View.playerName v
                    /\ forall pos, h <> Client.Click (Client.SubmitGuess pos)).
    { destruct h as [seed stateData extras | | d i | a]; simpl in Ehappen.
      - injection Ehappen as <-. simpl. repeat split; try assumption; try discriminate.
        apply String.eqb_neq. intros E. apply (Hothers seed stateData extras);
          [now left | now symmetry].
      - injection Ehappen as <-. simpl. repeat split; try assumption; discriminate.
      - destruct (Client.View.gameState v); try discriminate.
        destruct (Client.View.noMoreQuestions v || Client.View.hasSubmittedRanking v);
          [discriminate |].
        destruct (Client.drop d i (Client.View.ranking v)); [| discriminate].
        injection Ehappen as <-. simpl. repeat split; try assumption; discriminate.
      - assert (Hoff : forall b, In b (Client.offered v) -> b = Client.SubmitRanking).
        { unfold Client.offered. rewrite Hflag, Howner.
          destruct (Client.View.gameState v);
            repeat match goal with
                   | |- context [if ?c then _ else _] => destruct c
                   end;
            simpl; intros b Hb; try tauto.
          destruct Hb as [<- | []]. reflexivity. }
        match type of Ehappen with
        | (if ?c then _ else _) = _ => destruct c eqn:Eex; [| discriminate]
        end.
        injection Ehappen as <-. apply existsb_exists in Eex.
        destruct Eex as [b [Hb Heq]]. apply Hoff in Hb. subst b.
        destruct a; try discriminate Heq.
        simpl. repeat split; try assumption; discriminate. }
    destruct Hstep as [Hflag1 [Howner1 [Hname1 Hnot]]].
    destruct (IH v1 v' Hrun Hflag1 Howner1) as [H1 [H2 H3]].
    { intros seed stateData extras Hin. rewrite Hname1.
      apply (Hothers seed stateData extras). now right. }
    split; [exact H1 |]. split; [congruence |].
    intros pos [Hh | Hin]; [now apply (Hnot pos) | now apply (H3 pos)].
Qed.

(* ------------------------------------------------------------------------- *)
(** ** The earlier revision of the question supply *)

Lemma legacy_drainOne_spec : forall cache used ledger : list string,
  let '(q, cache', used', ledger') := Legacy.drainOne cache used ledger in
  incl cache' cache
  /\ match q with
     | Some x =>
         In x cache /\ ~ In x used /\ ~ In x ledger
         /\ used' = JsSet.add x used /\ ledger' = JsSet.add x ledger
     | None => cache' = [] /\ used' = used /\ ledger' = ledger
     end.
Proof.
  induction cache as [| c cache IH]; intros used ledger; simpl.
  - split; [apply incl_refl | repeat split].
  - destruct (negb (JsSet.has c used) && negb (JsSet.has c ledger)) eqn:E.
    + apply andb_true_iff in E. destruct E as [E1 E2].
      apply negb_true_iff, JsSetFacts.has_false in E1, E2.
      split; [apply incl_tl, incl_refl |]. repeat split; try assumption. now left.
    + specialize (IH used ledger).
      destruct (Legacy.drainOne cache used ledger) as [[[q cache'] used'] ledger'].
      destruct IH as [Hc Hq]. split; [now apply incl_tl |].
      destruct q as [x |]; [| exact Hq].
      destruct Hq as [H1 H2]. split; [now right | exact H2].
Qed.

Lemma add_In_new (x : string) (s : list string) : In x (JsSet.add x s).
Proof. apply JsSetFacts.add_In. now left. Qed.

Section LegacyFacts.

Variable questionPool : list string.
Variable GROQ_API_KEY : bool.
Variable compareTwoStrings : string -> string -> Q.

Lemma legacy_pickFrom_ok (roll : nat) (gameId : string) (available : list string)
  (game : Game) (s : Supply) :
  available <> [] ->
  (forall x, In x available ->
             ~ In x (usedQuestions game) /\ ~ In x (globalUsedQuestions s)) ->
  legacyOk gameId game s (Legacy.pickFrom roll available game s)
  /\ exists x, fst (fst (fst (Legacy.pickFrom roll available game s))) = Some x
               /\ In x available.
Proof.
  clear compareTwoStrings.
  intros Hne Hfresh. unfold Legacy.pickFrom.
  set (x := nth (roll mod List.length available) available "").
  assert (Hx : In x available).
  { apply nth_In. apply Nat.mod_upper_bound. destruct available; [congruence | discriminate]. }
  destruct (Hfresh x Hx) as [H1 H2].
  split; [| exists x; split; [reflexivity | exact Hx]].
  unfold legacyOk. simpl. repeat split; try assumption; try reflexivity.
  - eexists. split; [reflexivity | apply JsSetFacts.add_incl].
  - apply JsSetFacts.add_incl.
  - intros H y Hy. apply JsSetFacts.add_incl. now apply H.
  - apply add_In_new.
  - apply add_In_new.
Qed.

Lemma legacy_selectFromQuestionPool_ok (roll : nat) (gameId : string) (game : Game)
  (s : Supply) :
  legacyOk gameId game s
    (Legacy.selectFromQuestionPool questionPool roll gameId game s).
Proof.
  clear compareTwoStrings.
  unfold Legacy.selectFromQuestionPool.
  set (pool := unusedIn (usedQuestions game) (globalUsedQuestions s) questionPool).
  set (fallbacks := unusedIn (usedQuestions game) (globalUsedQuestions s)
                      (fallbackQuestions s)).
  assert (Hfresh : forall source x,
            In x (unusedIn (usedQuestions game) (globalUsedQuestions s) source) ->
            ~ In x (usedQuestions game) /\ ~ In x (globalUsedQuestions s)).
  { intros source x Hx. apply unusedIn_In in Hx. tauto. }
  destruct (List.length pool =? 0) eqn:Epool.
  - destruct (0 <? List.length fallbacks) eqn:Efb.
    + apply legacy_pickFrom_ok; [| apply Hfresh].
      intros E. rewrite E in Efb. discriminate.
    + unfold legacyOk. repeat split; try easy.
      exists (usedQuestions game). split; [now destruct game | apply incl_refl].
  - apply legacy_pickFrom_ok; [| apply Hfresh].
    intros E. rewrite E in Epool. discriminate.
Qed.

Lemma legacy_generateOne_spec (o : Legacy.Oracle) :
  forall (fuel attempt : nat) (used : list string) (s : Supply),
    let '(q, used', s') := Legacy.generateOne compareTwoStrings fuel attempt o used s in
    Permutation (fallbackQuestions s') (fallbackQuestions s)
    /\ match q with
       | Some x =>
           ~ In x (globalUsedQuestions s) /\ ~ In x used
           /\ used' = JsSet.add x used
           /\ globalUsedQuestions s' = JsSet.add x (globalUsedQuestions s)
           /\ questionCache s' = questionCache s ++ [x]
           /\ (forall e, In e (globalUsedQuestions s) ->
                         (compareTwoStrings x e <= 7 # 10)%Q)
       | None =>
           used' = used /\ globalUsedQuestions s' = globalUsedQuestions s
           /\ questionCache s' = questionCache s
       end.
Proof.
  induction fuel as [| fuel IH]; intros attempt used s.
  - simpl. repeat split. reflexivity.
  - cbn [Legacy.generateOne].
    set (s1 := mkSupply (globalUsedQuestions s) (questionCache s)
                 (shuffle (Legacy.exampleSeed (Legacy.attempts o attempt))
                    (fallbackQuestions s))).
    assert (Hretry :
      let '(q, used', s') :=
        Legacy.generateOne compareTwoStrings fuel (S attempt) o used s1 in
      Permutation (fallbackQuestions s') (fallbackQuestions s)
      /\ match q with
         | Some x =>
             ~ In x (globalUsedQuestions s) /\ ~ In x used
             /\ used' = JsSet.add x used
             /\ globalUsedQuestions s' = JsSet.add x (globalUsedQuestions s)
             /\ questionCache s' = questionCache s ++ [x]
             /\ (forall e, In e (globalUsedQuestions s) ->
                           (compareTwoStrings x e <= 7 # 10)%Q)
         | None =>
             used' = used /\ globalUsedQuestions s' = globalUsedQuestions s
             /\ questionCache s' = questionCache s
         end).
    { specialize (IH (S attempt) used s1).
      destruct (Legacy.generateOne compareTwoStrings fuel (S attempt) o used s1)
        as [[q used'] s'].
      destruct IH as [Hperm Hq]. split; [| exact Hq].
      etransitivity; [exact Hperm | apply shuffle_perm]. }
    destruct (Legacy.answer (Legacy.attempts o attempt)) as [x |]; [| exact Hretry].
    destruct (negb (startsWith "Who is the most likely to" x)); [exact Hretry |].
    destruct (JsSet.has x used || JsSet.has x (globalUsedQuestions s1)) eqn:Edup;
      [exact Hretry |].
    destruct (existsb (tooSimilar compareTwoStrings x) (globalUsedQuestions s1)) eqn:Esim;
      [exact Hretry |].
    apply orb_false_iff in Edup. destruct Edup as [E1 E2].
    apply JsSetFacts.has_false in E1, E2. simpl in E2.
    simpl. split; [apply shuffle_perm |]. repeat split; try assumption.
    intros e He. apply (tooSimilar_false compareTwoStrings).
    rewrite <- not_true_iff_false. intros Ht.
    rewrite <- not_true_iff_false in Esim. apply Esim.
    apply existsb_exists. now exists e.
Qed.

Lemma legacy_selectQuestion_ok (o : Legacy.Oracle) (gameId : string) (game : Game)
  (s : Supply) :
  legacyOk gameId game s
    (Legacy.selectQuestion questionPool GROQ_API_KEY compareTwoStrings o gameId game s).
Proof.
  unfold Legacy.selectQuestion.
  destruct (negb GROQ_API_KEY); [apply legacy_selectFromQuestionPool_ok |].
  pose proof (legacy_drainOne_spec (questionCache s) (usedQuestions game)
                (globalUsedQuestions s)) as Hd.
  destruct (Legacy.drainOne (questionCache s) (usedQuestions game)
              (globalUsedQuestions s)) as [[[q cache1] used1] ledger1].
  destruct Hd as [Hcache Hq]. destruct q as [x |].
  - destruct Hq as [Hin [Hu [Hl [-> ->]]]]. unfold legacyOk. simpl.
    repeat split; try assumption; try reflexivity.
    + eexists. split; [reflexivity | apply JsSetFacts.add_incl].
    + apply JsSetFacts.add_incl.
    + intros H y Hy. apply JsSetFacts.add_incl. now apply H, Hcache.
    + apply add_In_new.
    + apply add_In_new.
  - destruct Hq as [-> [-> ->]].
    set (s1 := mkSupply (globalUsedQuestions s) [] (fallbackQuestions s)).
    pose proof (legacy_generateOne_spec o 10 1 (usedQuestions game) s1) as Hg.
    destruct (Legacy.generateOne compareTwoStrings 10 1 o (usedQuestions game) s1)
      as [[q used2] s2].
    destruct Hg as [Hperm Hq]. destruct q as [x |].
    + destruct Hq as [Hl [Hu [-> [Hl2 [Hc2 _]]]]]. simpl in Hl, Hl2, Hc2.
      unfold legacyOk. simpl. repeat split; try assumption.
      * eexists. split; [reflexivity | apply JsSetFacts.add_incl].
      * rewrite Hl2. apply JsSetFacts.add_incl.
      * intros _ y Hy. rewrite Hc2 in Hy. destruct Hy as [<- | []].
        rewrite Hl2. apply add_In_new.
      * rewrite Hl2. apply add_In_new.
      * apply add_In_new.
    + destruct Hq as [-> [Hl2 Hc2]]. simpl in Hl2, Hc2.
      pose proof (legacy_selectFromQuestionPool_ok (Legacy.pick o) gameId
                    (set_usedQuestions (usedQuestions game) game) s2) as Hpool.
      destruct (Legacy.selectFromQuestionPool questionPool (Legacy.pick o) gameId
                  (set_usedQuestions (usedQuestions game) game) s2)
        as [[[q game3] s3] out].
      unfold legacyOk in *. simpl in Hpool.
      destruct Hpool as [[u [Hu Hincl]] [Hl [Hc [Hf Hq]]]].
      rewrite Hl2 in *. split; [| split; [| split; [| split]]].
      * exists u. split; [exact Hu | exact Hincl].
      * exact Hl.
      * intros _. apply Hc. rewrite Hc2. intros y [].
      * rewrite Hf. exact Hperm.
      * exact Hq.
Qed.

(** X24.  In the earlier revision no question is ever returned twice,
    whatever the seed pool and the fallback list hold: the strings returned
    by any sequence of calls of [selectQuestion], for any rooms, are
    pairwise distinct, and none of them was in [globalUsedQuestions] before
    the first call. *)
Theorem legacy_questions_are_never_repeated
  (requests : list (Legacy.Oracle * string * Game)) : forall s : Supply,
  let (results, s') :=
    Legacy.selectAll questionPool GROQ_API_KEY compareTwoStrings requests s in
  NoDup (returned results)
  /\ incl (globalUsedQuestions s) (globalUsedQuestions s')
  /\ forall q, In q (returned results) ->
       ~ In q (globalUsedQuestions s) /\ In q (globalUsedQuestions s').
Proof.
  induction requests as [| [[o gameId] game] requests IH]; intros s; simpl.
  - split; [constructor |]. split; [apply incl_refl | intros q []].
  - pose proof (legacy_selectQuestion_ok o gameId game s) as Hok.
    destruct (Legacy.selectQuestion questionPool GROQ_API_KEY compareTwoStrings
                o gameId game s) as [[[q game1] s1] out].
    specialize (IH s1).
    destruct (Legacy.selectAll questionPool GROQ_API_KEY compareTwoStrings requests s1)
      as [results s2].
    destruct Hok as [_ [Hl [_ [_ Hq]]]]. destruct IH as [Hnd [Hl2 Hfresh]].
    assert (Hl12 : incl (globalUsedQuestions s) (globalUsedQuestions s2)).
    { intros y Hy. now apply Hl2, Hl. }
    destruct q as [x |]; simpl.
    + destruct Hq as [Hnew [_ [Hin _]]]. split; [| split; [exact Hl12 |]].
      * constructor; [| exact Hnd]. intros Hx. now apply (Hfresh x Hx).
      * intros y [<- | Hy]; [split; [exact Hnew | now apply Hl2] |].
        destruct (Hfresh y Hy) as [H1 H2]. split; [| exact H2].
        intros Hy0. apply H1. now apply Hl.
    + split; [exact Hnd |]. split; [exact Hl12 |].
      intros y Hy. destruct (Hfresh y Hy) as [H1 H2]. split; [| exact H2].
      intros Hy0. apply H1. now apply Hl.
Qed.

(** X25.  In the earlier revision the cache never serves a question: a
    generated question is recorded in [globalUsedQuestions] when it is pushed
    on the cache, so the cache stays within the set, and the loop that reads
    the cache finds nothing to return and leaves the cache empty. *)
Theorem legacy_cache_never_serves (o : Legacy.Oracle) (gameId : string) (game : Game)
  (s : Supply) :
  incl (questionCache s) (globalUsedQuestions s) ->
  Legacy.drainOne (questionCache s) (usedQuestions game) (globalUsedQuestions s)
  = (None, [], usedQuestions game, globalUsedQuestions s)
  /\ let '(_, _, s', _) :=
       Legacy.selectQuestion questionPool GROQ_API_KEY compareTwoStrings o gameId game s
     in incl (questionCache s') (globalUsedQuestions s').
Proof.
  intros Hstale. split.
  - pose proof (legacy_drainOne_spec (questionCache s) (usedQuestions game)
                  (globalUsedQuestions s)) as Hd.
    destruct (Legacy.drainOne (questionCache s) (usedQuestions game)
                (globalUsedQuestions s)) as [[[q cache1] used1] ledger1].
    destruct Hd as [_ Hq]. destruct q as [x |].
    + destruct Hq as [Hin [_ [Hl _]]]. exfalso. apply Hl. now apply Hstale.
    + now destruct Hq as [-> [-> ->]].
  - pose proof (legacy_selectQuestion_ok o gameId game s) as Hok.
    destruct (Legacy.selectQuestion questionPool GROQ_API_KEY compareTwoStrings
                o gameId game s) as [[[q game1] s1] out].
    destruct Hok as [_ [_ [Hc _]]]. now apply Hc.
Qed.

(** X26.  The local sources in the earlier revision: the fallback list is
    used only when the seed pool has no unused string left; the call returns
    a string of the seed pool that is in neither used-set when there is one,
    else such a string of the fallback list when there is one, else nothing,
    changing nothing and broadcasting a copy of the room flagged
    [noMoreQuestions]. *)
Theorem legacy_pool_before_fallbacks (roll : nat) (gameId : string) (game : Game)
  (s : Supply) :
  let pool := unusedIn (usedQuestions game) (globalUsedQuestions s) questionPool in
  let fallbacks :=
    unusedIn (usedQuestions game) (globalUsedQuestions s) (fallbackQuestions s) in
  let '(q, game', s', out) :=
    Legacy.selectFromQuestionPool questionPool roll gameId game s in
  match pool, fallbacks with
  | _ :: _, _ => exists x, q = Some x /\ In x pool /\ out = []
  | [], _ :: _ => exists x, q = Some x /\ In x fallbacks /\ out = []
  | [], [] =>
      q = None /\ game' = game /\ s' = s
      /\ out = [(ToRoom gameId, MGameState (set_noMoreQuestions true game) [])]
  end.
Proof.
  clear compareTwoStrings.
  intros pool fallbacks. unfold Legacy.selectFromQuestionPool.
  fold pool. fold fallbacks.
  assert (Hpick : forall available,
            available <> [] ->
            exists x, fst (fst (fst (Legacy.pickFrom roll available game s))) = Some x
                      /\ In x available
                      /\ snd (Legacy.pickFrom roll available game s) = []).
  { intros available Hne. unfold Legacy.pickFrom. simpl. eexists.
    split; [reflexivity |]. split; [| reflexivity].
    apply nth_In. apply Nat.mod_upper_bound.
    destruct available; [congruence | discriminate]. }
  destruct pool as [| p pool'].
  - simpl. destruct fallbacks as [| f fallbacks'].
    + simpl. repeat split.
    + simpl Nat.ltb. cbv iota.
      destruct (Hpick (f :: fallbacks') ltac:(discriminate)) as [x [H1 [H2 H3]]].
      destruct (Legacy.pickFrom roll (f :: fallbacks') game s) as [[[q g1] s1] out].
      simpl in H1, H3. subst. now exists x.
  - simpl Nat.eqb. cbv iota.
    destruct (Hpick (p :: pool') ltac:(discriminate)) as [x [H1 [H2 H3]]].
    destruct (Legacy.pickFrom roll (p :: pool') game s) as [[[q g1] s1] out].
    simpl in H1, H3. subst. now exists x.
Qed.

Lemma legacy_collect_spec (r : Legacy.Round) (gameId : string) :
  forall (todo i : nat) (game : Game) (s : Supply),
    let '(res, game', s', out) :=
      Legacy.collect questionPool GROQ_API_KEY compareTwoStrings todo i r gameId game s in
    (exists u, game' = set_usedQuestions u game /\ incl (usedQuestions game) u)
    /\ incl (globalUsedQuestions s) (globalUsedQuestions s')
    /\ match res with
       | Some questions =>
           List.length questions = todo
           /\ NoDup questions
           /\ forall q, In q questions ->
                ~ In q (globalUsedQuestions s) /\ In q (globalUsedQuestions s')
                /\ In q (usedQuestions game')
       | None => True
       end.
Proof.
  induction todo as [| todo IH]; intros i game s.
  - simpl. split.
    { exists (usedQuestions game). split; [now destruct game | apply incl_refl]. }
    split; [apply incl_refl |]. split; [reflexivity |].
    split; [constructor | intros q []].
  - cbn [Legacy.collect].
    pose proof (legacy_selectQuestion_ok (Legacy.calls r i) gameId game s) as Hok.
    destruct (Legacy.selectQuestion questionPool GROQ_API_KEY compareTwoStrings
                (Legacy.calls r i) gameId game s) as [[[q game1] s1] out1].
    destruct Hok as [[u1 [Hu1 Hi1]] [Hl1 [_ [_ Hq]]]].
    destruct (Legacy.falsy q) eqn:Efalsy.
    + split; [now exists u1 |]. split; [exact Hl1 | exact I].
    + destruct q as [x |]; [| discriminate].
      destruct Hq as [Hnew [_ [Hin [Hused _]]]].
      specialize (IH (S i) game1 s1).
      destruct (Legacy.collect questionPool GROQ_API_KEY compareTwoStrings todo (S i) r
                  gameId game1 s1) as [[[rest game2] s2] out2].
      destruct IH as [[u2 [Hu2 Hi2]] [Hl2 Hrest]].
      split.
      { exists u2. split; [rewrite Hu2, Hu1; reflexivity |].
        intros y Hy. apply Hi2. rewrite Hu1. simpl. now apply Hi1. }
      split; [intros y Hy; now apply Hl2, Hl1 |].
      destruct rest as [questions |]; [| exact I].
      destruct Hrest as [Hlen [Hnd Hfresh]].
      split; [simpl; now rewrite Hlen |]. split.
      * constructor; [| exact Hnd]. intros Hx. now apply (Hfresh x Hx).
      * intros y [<- | Hy].
        -- split; [exact Hnew |]. split; [now apply Hl2 |].
           rewrite Hu2. simpl. now apply Hi2.
        -- destruct (Hfresh y Hy) as [H1 [H2 H3]].
           split; [intros Hy0; apply H1; now apply Hl1 |]. split; assumption.
Qed.

(** X27.  A round of the earlier revision, for a room whose players have
    ordinary names: when [assignQuestions] succeeds
    every player holds a question, the questions held differ from player to
    player whatever the seed pool and the fallback list hold, each of them
    was new to [globalUsedQuestions] and is now recorded there and in the
    room's used-set, and the round is set up (no ranking on record, index 0,
    rankers a rearrangement of the players); when it fails only the used-set
    of the room has changed. *)
Theorem legacy_rounds_have_distinct_questions (r : Legacy.Round) (gameId : string)
  (game : Game) (s : Supply) :
  forallb ordinaryKey (players game) = true ->
  let '(ok, game', s', out) :=
    Legacy.assignQuestions questionPool GROQ_API_KEY compareTwoStrings r gameId game s in
  incl (globalUsedQuestions s) (globalUsedQuestions s')
  /\ if ok
     then players game' = players game
          /\ rankings game' = Obj.empty
          /\ currentRevealIndex game' = 0
          /\ Permutation (rankers game') (players game)
          /\ (forall p, In p (players game) ->
                ordinaryKey p = true
                /\ exists q, Obj.get p (questionAssignments game') = Some q)
          /\ (forall p q, Obj.get p (questionAssignments game') = Some q ->
                In p (players game)
                /\ ~ In q (globalUsedQuestions s)
                /\ In q (globalUsedQuestions s')
                /\ In q (usedQuestions game'))
          /\ (forall p1 p2 q,
                Obj.get p1 (questionAssignments game') = Some q ->
                Obj.get p2 (questionAssignments game') = Some q -> p1 = p2)
     else exists u, game' = set_usedQuestions u game.
Proof.
  intros Hnames. rewrite forallb_forall in Hnames.
  unfold Legacy.assignQuestions.
  pose proof (legacy_collect_spec r gameId (List.length (players game)) 0 game s) as H.
  destruct (Legacy.collect questionPool GROQ_API_KEY compareTwoStrings
              (List.length (players game)) 0 r gameId game s)
    as [[[res game1] s1] out].
  destruct H as [[u [-> _]] [Hl Hres]].
  destruct res as [questions |]; (split; [exact Hl |]); [| now exists u].
  destruct Hres as [Hlen [Hnd Hfresh]]. simpl.
  set (questions' := shuffle (Legacy.questionSeed r) questions).
  assert (Hperm : Permutation questions' questions) by apply shuffle_perm.
  split; [reflexivity |]. split; [reflexivity |]. split; [reflexivity |].
  split; [apply shuffle_perm |]. split; [| split].
  - intros p Hp. split; [now apply Hnames |]. apply assignEach_total; [| exact Hp].
    rewrite (Permutation_length Hperm). lia.
  - intros p q Hget. split.
    + apply assignEach_keys with (questions := questions').
      apply ObjFacts.get_Some_keys. now exists q.
    + apply assignEach_get, in_combine_r in Hget.
      apply (Permutation_in _ Hperm) in Hget. now apply Hfresh.
  - intros p1 p2 q. apply assignEach_inj.
    eapply Permutation_NoDup; [symmetry; exact Hperm | exact Hnd].
Qed.

Lemma first_of_shuffle (seed : list nat) (l : list string) :
  l <> [] ->
  exists i, i < List.length l /\ firstn 1 (shuffle seed l) = [nth i l ""].
Proof.
  clear compareTwoStrings.
  intros Hne. pose proof (shuffle_perm seed l) as Hperm.
  destruct (shuffle seed l) as [| x rest] eqn:E.
  - apply Permutation_nil in Hperm. congruence.
  - assert (Hx : In x l) by (apply (Permutation_in _ Hperm); now left).
    destruct (In_nth l x "" Hx) as [i [Hi Hnth]].
    exists i. split; [exact Hi |]. simpl. now rewrite Hnth.
Qed.

(** X28.  The two revisions agree on a request for one question from the
    local sources: whatever [selectFromQuestionPool(gameId, game, 1)] does
    (the string returned, the two used-sets, the broadcast on failure), the
    earlier [selectFromQuestionPool(gameId, game)] does for a suitable
    outcome of its random choice. *)
Theorem selection_of_one_is_a_legacy_selection (seed : list nat) (gameId : string)
  (game : Game) (s : Supply) :
  exists roll,
    selectFromQuestionPool questionPool seed gameId game 1 s
    = let '(q, game', s', out) :=
        Legacy.selectFromQuestionPool questionPool roll gameId game s in
      (match q with Some x => [x] | None => [] end, game', s', out).
Proof.
  clear compareTwoStrings.
  unfold selectFromQuestionPool, Legacy.selectFromQuestionPool, Legacy.pickFrom.
  change (filter (fun q => negb (JsSet.has q (usedQuestions game))
                           && negb (JsSet.has q (globalUsedQuestions s))) questionPool)
    with (unusedIn (usedQuestions game) (globalUsedQuestions s) questionPool).
  change (filter (fun q => negb (JsSet.has q (usedQuestions game))
                           && negb (JsSet.has q (globalUsedQuestions s)))
            (fallbackQuestions s))
    with (unusedIn (usedQuestions game) (globalUsedQuestions s) (fallbackQuestions s)).
  set (pool := unusedIn (usedQuestions game) (globalUsedQuestions s) questionPool).
  set (fallbacks := unusedIn (usedQuestions game) (globalUsedQuestions s)
                      (fallbackQuestions s)).
  destruct pool as [| p pool'] eqn:Epool.
  - simpl app. simpl (List.length [] <? 1). simpl (List.length [] =? 0). cbv iota.
    destruct fallbacks as [| f fallbacks'] eqn:Efb.
    + exists 0. reflexivity.
    + destruct (first_of_shuffle seed (f :: fallbacks') ltac:(discriminate))
        as [i [Hi Hfirst]].
      exists i. rewrite Hfirst. rewrite (Nat.mod_small _ _ Hi). reflexivity.
  - destruct (first_of_shuffle seed (p :: pool') ltac:(discriminate))
      as [i [Hi Hfirst]].
    exists i. simpl (List.length (p :: pool') <? 1).
    simpl (List.length (p :: pool') =? 0). cbv iota.
    rewrite Hfirst. rewrite (Nat.mod_small _ _ Hi). reflexivity.
Qed.

End LegacyFacts.

Lemma legacy_rounds_have_distinct_questions_witness :
  forallb ordinaryKey (players waitingGame) = true
  /\ let '(ok, game', s', out) :=
       Legacy.assignQuestions [] false Dice.compareTwoStrings quietRound "room"
         waitingGame initialSupply in
     ok = true
     /\ players game' = ["A"; "B"; "C"]
     /\ (forall p, In p (players waitingGame) ->
           ordinaryKey p = true
           /\ exists q, Obj.get p (questionAssignments game') = Some q)
     /\ (forall p1 p2 q,
           Obj.get p1 (questionAssignments game') = Some q ->
           Obj.get p2 (questionAssignments game') = Some q -> p1 = p2).
Proof.
  assert (Hnames : forallb ordinaryKey (players waitingGame) = true) by reflexivity.
  split; [exact Hnames |].
  pose proof (legacy_rounds_have_distinct_questions [] false Dice.compareTwoStrings
                quietRound "room" waitingGame initialSupply Hnames) as H.
  destruct (Legacy.assignQuestions [] false Dice.compareTwoStrings quietRound "room"
              waitingGame initialSupply) as [[[ok game'] s'] out] eqn:E.
  assert (Hok : ok = true).
  { vm_compute in E. now injection E as <- _ _ _. }
  subst ok. destruct H as [_ [Hp [_ [_ [_ [Hall [_ Hinj]]]]]]].
  split; [reflexivity |]. split; [exact Hp |]. split; [exact Hall | exact Hinj].
Defined.

Lemma legacy_cache_never_serves_witness :
  questionCache servedSupply = ["Who is the most likely to adopt ten cats?"]
  /\ incl (questionCache servedSupply) (globalUsedQuestions servedSupply)
  /\ Legacy.drainOne (questionCache servedSupply) (usedQuestions (newGame "B"))
       (globalUsedQuestions servedSupply)
     = (None, [], usedQuestions (newGame "B"), globalUsedQuestions servedSupply)
  /\ let '(_, _, s', _) :=
       Legacy.selectQuestion [] true Dice.compareTwoStrings
         (legacyAnswer "Who is the most likely to run for mayor?")
         "other" (newGame "B") servedSupply
     in incl (questionCache s') (globalUsedQuestions s').
Proof.
  assert (Hstale : incl (questionCache servedSupply) (globalUsedQuestions servedSupply)).
  { intros x [<- | []]. simpl. now left. }
  split; [reflexivity |]. split; [exact Hstale |].
  exact (legacy_cache_never_serves [] true Dice.compareTwoStrings
           (legacyAnswer "Who is the most likely to run for mayor?")
           "other" (newGame "B") servedSupply Hstale).
Defined.

Lemma offered_buttons_are_not_refused_witness :
  run [] false Dice.compareTwoStrings initialWorld soloStart
  = Some (worldAfter [] false Dice.compareTwoStrings soloStart,
          emitsAfter [] false Dice.compareTwoStrings soloStart)
  /\ Obj.get (Client.View.gameId soloView)
       (games (server (worldAfter [] false Dice.compareTwoStrings soloStart)))
     = Some soloStartGame
  /\ sockets (worldAfter [] false Dice.compareTwoStrings soloStart) 1
     = Some (Client.View.playerName soloView)
  /\ In (Client.View.playerName soloView) (players soloStartGame)
  /\ Client.View.playerName soloView <> ""
  /\ Client.shows soloStartGame soloView
  /\ In Client.SubmitRanking (Client.offered soloView)
  /\ step [] false Dice.compareTwoStrings
       (worldAfter [] false Dice.compareTwoStrings soloStart)
       (Client.emitted 1 (quietOracle 0) soloView Client.SubmitRanking)
     = Some (stepAfter [] false Dice.compareTwoStrings soloStart
               (Client.emitted 1 (quietOracle 0) soloView Client.SubmitRanking))
  /\ snd (stepAfter [] false Dice.compareTwoStrings soloStart
            (Client.emitted 1 (quietOracle 0) soloView Client.SubmitRanking)) <> []
  /\ onlyExhaustion
       (snd (stepAfter [] false Dice.compareTwoStrings soloStart
               (Client.emitted 1 (quietOracle 0) soloView Client.SubmitRanking))).
Proof.
  assert (Hrun :
    run [] false Dice.compareTwoStrings initialWorld soloStart
    = Some (worldAfter [] false Dice.compareTwoStrings soloStart,
            emitsAfter [] false Dice.compareTwoStrings soloStart))
    by (vm_compute; reflexivity).
  assert (Hget :
    Obj.get (Client.View.gameId soloView)
      (games (server (worldAfter [] false Dice.compareTwoStrings soloStart)))
    = Some soloStartGame) by (vm_compute; reflexivity).
  assert (Hsock :
    sockets (worldAfter [] false Dice.compareTwoStrings soloStart) 1
    = Some (Client.View.playerName soloView)) by (vm_compute; reflexivity).
  assert (Hname : In (Client.View.playerName soloView) (players soloStartGame))
    by (vm_compute; tauto).
  assert (Hnonempty : Client.View.playerName soloView <> "") by discriminate.
  assert (Hshows : Client.shows soloStartGame soloView).
  { exact (onGameState_shows [] soloStartGame
             [XMyQuestion (Obj.get "A" (questionAssignments soloStartGame))]
             (Client.onGameState [] (newGame "A") [XGameId "room"]
                (Client.initialView "A"))). }
  assert (Hoffered : In Client.SubmitRanking (Client.offered soloView))
    by (vm_compute; tauto).
  assert (Hstep :
    step [] false Dice.compareTwoStrings
      (worldAfter [] false Dice.compareTwoStrings soloStart)
      (Client.emitted 1 (quietOracle 0) soloView Client.SubmitRanking)
    = Some (fst (stepAfter [] false Dice.compareTwoStrings soloStart
                   (Client.emitted 1 (quietOracle 0) soloView Client.SubmitRanking)),
            snd (stepAfter [] false Dice.compareTwoStrings soloStart
                   (Client.emitted 1 (quietOracle 0) soloView Client.SubmitRanking))))
    by (vm_compute; reflexivity).
  split; [exact Hrun |]. split; [exact Hget |]. split; [exact Hsock |].
  split; [exact Hname |]. split; [exact Hnonempty |]. split; [exact Hshows |].
  split; [exact Hoffered |]. split; [vm_compute; reflexivity |].
  exact (offered_buttons_are_not_refused [] false Dice.compareTwoStrings soloStart
           _ _ _ _ 1 (quietOracle 0) soloStartGame soloView Client.SubmitRanking
           Hrun Hget Hsock Hname Hnonempty Hshows Hoffered Hstep).
Defined.

Lemma restart_keeps_the_ranking_flag_witness :
  step [] false Dice.compareTwoStrings
    (worldAfter [] false Dice.compareTwoStrings soloStart)
    (OnStartGame 1 (quietOracle 0) "room")
  = Some (stepAfter [] false Dice.compareTwoStrings soloStart
            (OnStartGame 1 (quietOracle 0) "room"))
  /\ In (fst restartMessage, MGameState restartState restartExtras)
       (snd (stepAfter [] false Dice.compareTwoStrings soloStart
               (OnStartGame 1 (quietOracle 0) "room")))
  /\ Client.View.hasSubmittedRanking (Client.onRankingSubmitted soloView) = true
  /\ state restartState = Ranking
  /\ Client.View.hasSubmittedRanking
       (Client.onGameState [] restartState restartExtras
          (Client.onRankingSubmitted soloView)) = true
  /\ ~ In Client.SubmitRanking
         (Client.offered
            (Client.onGameState [] restartState restartExtras
               (Client.onRankingSubmitted soloView))).
Proof.
  assert (Hstep :
    step [] false Dice.compareTwoStrings
      (worldAfter [] false Dice.compareTwoStrings soloStart)
      (OnStartGame 1 (quietOracle 0) "room")
    = Some (fst (stepAfter [] false Dice.compareTwoStrings soloStart
                   (OnStartGame 1 (quietOracle 0) "room")),
            snd (stepAfter [] false Dice.compareTwoStrings soloStart
                   (OnStartGame 1 (quietOracle 0) "room"))))
    by (vm_compute; reflexivity).
  assert (Hin :
    In (fst restartMessage, MGameState restartState restartExtras)
      (snd (stepAfter [] false Dice.compareTwoStrings soloStart
              (OnStartGame 1 (quietOracle 0) "room"))))
    by (vm_compute; left; reflexivity).
  assert (Hflag : Client.View.hasSubmittedRanking (Client.onRankingSubmitted soloView)
                  = true) by reflexivity.
  split; [vm_compute; reflexivity |]. split; [exact Hin |]. split; [exact Hflag |].
  split; [reflexivity |].
  exact (restart_keeps_the_ranking_flag [] false Dice.compareTwoStrings _ _ _
           1 (quietOracle 0) "room" (fst restartMessage) restartState restartExtras []
           (Client.onRankingSubmitted soloView) Hstep Hin Hflag).
Defined.

Lemma guess_buttons_are_offered_once_witness :
  Client.happenAll guestView guestHappenings = Some (viewAfter guestView guestHappenings)
  /\ Client.View.hasSubmittedGuess guestView = true
  /\ Client.View.isOwner guestView = false
  /\ (forall seed stateData extras,
        In (Client.GameState seed stateData extras) guestHappenings ->
        owner stateData <> Client.View.playerName guestView)
  /\ Client.View.gameState (viewAfter guestView guestHappenings) = Guessing
  /\ sameName (Some "B") (Client.View.currentRanker (viewAfter guestView guestHappenings))
     = false
  /\ Client.View.hasSubmittedGuess (viewAfter guestView guestHappenings) = true.
Proof.
  assert (Hrun : Client.happenAll guestView guestHappenings
                 = Some (viewAfter guestView guestHappenings))
    by (vm_compute; reflexivity).
  assert (Hflag : Client.View.hasSubmittedGuess guestView = true) by reflexivity.
  assert (Howner : Client.View.isOwner guestView = false) by reflexivity.
  assert (Hothers : forall seed stateData extras,
            In (Client.GameState seed stateData extras) guestHappenings ->
            owner stateData <> Client.View.playerName guestView).
  { intros seed stateData extras [H | [H | []]]; injection H as _ <- _; discriminate. }
  split; [exact Hrun |]. split; [exact Hflag |]. split; [exact Howner |].
  split; [exact Hothers |]. split; [reflexivity |]. split; [reflexivity |].
  exact (proj1 (guess_buttons_are_offered_once guestHappenings guestView _
                  Hrun Hflag Howner Hothers)).
Defined.
